(** * Virtual file descriptor cache (cdb-pg/src/backend/storage/file/fd.c)

    A shallow embedding of fd.c and the properties of its specification.

    Modelling conventions.
    - The module's globals (VfdCache, nfile, max_safe_fds, allocatedDescs, ...)
      are the fields of [State]; every C function is a computation in the
      monad [M], which threads the state and stops at [ereport(ERROR/FATAL)].
    - The operating system and the DFS client are an open environment: every
      call the code makes ([open], [close], [lseek], [HdfsCloseFile], ...) is
      recorded in [trace] together with the VFD table at the moment of the
      call, and its result is the next entry of the script [replies].  A
      theorem quantified over scripts therefore holds for every behaviour of
      the environment.
    - [int] counters are exact integers; arithmetic that depends on values
      supplied from outside (file positions, the probe formula, the state
      bitmask) is truncated to the C type with [int32], [int64], [uint16],
      [uint32].
    - Pointers are integers with [0] for NULL; owned strings are
      [option string]. *)

From Stdlib Require Import ZArith Lia List String Ascii Bool Permutation.
From stdpp Require Import base list strings gmap pretty.

Open Scope Z_scope.

(** ** Machine integers *)

Definition wrap_signed (bits x : Z) : Z :=
  (x + 2 ^ (bits - 1)) mod 2 ^ bits - 2 ^ (bits - 1).

Definition int32 (x : Z) : Z := wrap_signed 32 x.
Definition int64 (x : Z) : Z := wrap_signed 64 x.
Definition uint16 (x : Z) : Z := x mod 2 ^ 16.
Definition uint32 (x : Z) : Z := x mod 2 ^ 32.

Definition INT32_MAX : Z := 2 ^ 31 - 1.
Definition INT64_MAX : Z := 2 ^ 63 - 1.

(** ** Constants of fd.c *)

Definition NUM_RESERVED_FDS : Z := 10.
Definition FD_MINFREE : Z := 10.
Definition VFD_CLOSED : Z := -1.
Definition FileUnknownPos : Z := -1.
Definition FD_TEMPORARY : Z := Z.shiftl 1 0.
Definition FD_CLOSE_AT_EOXACT : Z := Z.shiftl 1 1.
Definition MAX_ALLOCATED_DESCS : Z := 32.
Definition NULL : Z := 0.

(** Constants of the C library headers (<errno.h>, <fcntl.h>, <unistd.h>),
    with their Linux values. *)
Module Posix.
Definition ENOENT : Z := 2.
Definition EINTR : Z := 4.
Definition EIO : Z := 5.
Definition ENOMEM : Z := 12.
Definition EINVAL : Z := 22.
Definition ENFILE : Z := 23.
Definition EMFILE : Z := 24.
Definition ENOSPC : Z := 28.
Definition ERANGE : Z := 34.
Definition O_WRONLY : Z := 1.
Definition O_RDWR : Z := 2.
Definition O_CREAT : Z := 64.
Definition O_EXCL : Z := 128.
Definition O_TRUNC : Z := 512.
Definition O_APPEND : Z := 1024.
Definition PG_BINARY : Z := 0.
Definition SEEK_SET : Z := 0.
Definition SEEK_CUR : Z := 1.
Definition SEEK_END : Z := 2.
Definition S_IRWXU : Z := 448.
End Posix.
Import Posix.

(** Constants of the server headers that fd.c includes. *)
Definition MAXPGPATH : Z := 1024.
Definition FS_DEFAULT_REPLICA_NUM : Z := 3.

(** Modelled from the spec: [PG_TEMP_FILE_PREFIX] and [PG_TEMP_FILES_DIR]
    (storage/fd.h, not part of the sources at hand); the specification's
    scenario places temporary files at [pgsql_tmp/pgsql_tmp_foo]. *)
Definition PG_TEMP_FILE_PREFIX : string := "pgsql_tmp".
Definition PG_TEMP_FILES_DIR : string := "pgsql_tmp".

(** ** Data model *)

Definition File := Z.

Record Vfd := mkVfd {
  fd : Z;
  fdstate : Z;
  create_subid : Z;
  nextFree : File;
  lruMoreRecently : File;
  lruLessRecently : File;
  seekPos : Z;
  fileName : option string;
  fileFlags : Z;
  fileMode : Z;
  hFS : Z;
  hFile : Z;
  hProtocol : option string
}.

(** [MemSet(&VfdCache[i], 0, sizeof(Vfd))] *)
Definition zeroVfd : Vfd :=
  mkVfd 0 0 0 0 0 0 0 None 0 0 NULL NULL None.

#[global] Instance Vfd_inhabited : Inhabited Vfd := populate zeroVfd.

Definition set_fd (x : Z) (v : Vfd) : Vfd :=
  mkVfd x (fdstate v) (create_subid v) (nextFree v) (lruMoreRecently v)
    (lruLessRecently v) (seekPos v) (fileName v) (fileFlags v) (fileMode v)
    (hFS v) (hFile v) (hProtocol v).
Definition set_fdstate (x : Z) (v : Vfd) : Vfd :=
  mkVfd (fd v) x (create_subid v) (nextFree v) (lruMoreRecently v)
    (lruLessRecently v) (seekPos v) (fileName v) (fileFlags v) (fileMode v)
    (hFS v) (hFile v) (hProtocol v).
Definition set_create_subid (x : Z) (v : Vfd) : Vfd :=
  mkVfd (fd v) (fdstate v) x (nextFree v) (lruMoreRecently v)
    (lruLessRecently v) (seekPos v) (fileName v) (fileFlags v) (fileMode v)
    (hFS v) (hFile v) (hProtocol v).
Definition set_nextFree (x : File) (v : Vfd) : Vfd :=
  mkVfd (fd v) (fdstate v) (create_subid v) x (lruMoreRecently v)
    (lruLessRecently v) (seekPos v) (fileName v) (fileFlags v) (fileMode v)
    (hFS v) (hFile v) (hProtocol v).
Definition set_lruMoreRecently (x : File) (v : Vfd) : Vfd :=
  mkVfd (fd v) (fdstate v) (create_subid v) (nextFree v) x
    (lruLessRecently v) (seekPos v) (fileName v) (fileFlags v) (fileMode v)
    (hFS v) (hFile v) (hProtocol v).
Definition set_lruLessRecently (x : File) (v : Vfd) : Vfd :=
  mkVfd (fd v) (fdstate v) (create_subid v) (nextFree v) (lruMoreRecently v)
    x (seekPos v) (fileName v) (fileFlags v) (fileMode v)
    (hFS v) (hFile v) (hProtocol v).
Definition set_seekPos (x : Z) (v : Vfd) : Vfd :=
  mkVfd (fd v) (fdstate v) (create_subid v) (nextFree v) (lruMoreRecently v)
    (lruLessRecently v) x (fileName v) (fileFlags v) (fileMode v)
    (hFS v) (hFile v) (hProtocol v).
Definition set_fileName (x : option string) (v : Vfd) : Vfd :=
  mkVfd (fd v) (fdstate v) (create_subid v) (nextFree v) (lruMoreRecently v)
    (lruLessRecently v) (seekPos v) x (fileFlags v) (fileMode v)
    (hFS v) (hFile v) (hProtocol v).
Definition set_fileFlags (x : Z) (v : Vfd) : Vfd :=
  mkVfd (fd v) (fdstate v) (create_subid v) (nextFree v) (lruMoreRecently v)
    (lruLessRecently v) (seekPos v) (fileName v) x (fileMode v)
    (hFS v) (hFile v) (hProtocol v).
Definition set_fileMode (x : Z) (v : Vfd) : Vfd :=
  mkVfd (fd v) (fdstate v) (create_subid v) (nextFree v) (lruMoreRecently v)
    (lruLessRecently v) (seekPos v) (fileName v) (fileFlags v) x
    (hFS v) (hFile v) (hProtocol v).
Definition set_hFS (x : Z) (v : Vfd) : Vfd :=
  mkVfd (fd v) (fdstate v) (create_subid v) (nextFree v) (lruMoreRecently v)
    (lruLessRecently v) (seekPos v) (fileName v) (fileFlags v) (fileMode v)
    x (hFile v) (hProtocol v).
Definition set_hFile (x : Z) (v : Vfd) : Vfd :=
  mkVfd (fd v) (fdstate v) (create_subid v) (nextFree v) (lruMoreRecently v)
    (lruLessRecently v) (seekPos v) (fileName v) (fileFlags v) (fileMode v)
    (hFS v) x (hProtocol v).
Definition set_hProtocol (x : option string) (v : Vfd) : Vfd :=
  mkVfd (fd v) (fdstate v) (create_subid v) (nextFree v) (lruMoreRecently v)
    (lruLessRecently v) (seekPos v) (fileName v) (fileFlags v) (fileMode v)
    (hFS v) (hFile v) x.

(** [VfdCache[file]].  An index outside the array is undefined behaviour in
    C; the model reads a zeroed slot there and ignores the write. *)
Definition slot (c : list Vfd) (file : File) : Vfd :=
  if file <? 0 then zeroVfd else c !!! Z.to_nat file.

Definition upd (file : File) (g : Vfd -> Vfd) (c : list Vfd) : list Vfd :=
  if file <? 0 then c else <[Z.to_nat file := g (slot c file)]> c.

Inductive AllocateDescKind :=
| AllocateDescFile
| AllocateDescDir
| AllocateDescRemoteDir.

#[global] Instance AllocateDescKind_eq_dec : EqDecision AllocateDescKind.
Proof. solve_decision. Defined.

Record AllocateDesc := mkAllocateDesc {
  kind : AllocateDescKind;
  desc : Z;
  ad_create_subid : Z;
  protocol : string;
  filelist : list string;
  cur : Z;
  num : Z;
  ret_d_name : string
}.

Definition zeroDesc : AllocateDesc :=
  mkAllocateDesc AllocateDescFile NULL 0 "" [] 0 0 "".

#[global] Instance AllocateDesc_inhabited : Inhabited AllocateDesc :=
  populate zeroDesc.

(** ** The environment *)

Inductive Level := DEBUG2 | DEBUG1 | LOG | WARNING | ERROR | FATAL.

(** What the code asks of the operating system, the C library, the DFS
    client and the host server. *)
Inductive Call :=
| c_dup (oldfd : Z)
| c_open (path : string) (flags mode : Z)
| c_close (fd : Z)
| c_lseek (fd offset whence : Z)
| c_read (fd amount : Z)
| c_write (fd amount : Z)
| c_unlink (path : string)
| c_mkdir (path : string) (mode : Z)
| c_strdup (s : string)
| c_malloc (size : Z)
| c_realloc (size : Z)
| c_fopen (name mode : string)
| c_fclose (file : Z)
| c_opendir (name : string)
| c_readdir (dir : Z)
| c_closedir (dir : Z)
| c_HdfsConnect (protocol host : string) (port : Z)
| c_HdfsOpenFile (protocol : string) (fs : Z) (path : string)
                 (flags bufferSize rep blocksize : Z)
| c_HdfsCloseFile (protocol : option string) (fs file : Z)
| c_HdfsTell (protocol : option string) (fs file : Z)
| c_HdfsSeek (protocol : option string) (fs file pos : Z)
| c_HdfsRead (protocol : option string) (fs file amount : Z)
| c_HdfsWrite (protocol : option string) (fs file amount : Z)
| c_HdfsSync (protocol : string) (fs file : Z)
| c_HdfsChmod (protocol : string) (fs : Z) (path : string) (mode : Z)
| c_HdfsGetPathInfo (protocol : option string) (fs : Z) (path : string)
| c_HdfsFreeFileInfo (protocol : string) (num : Z)
| c_hdfsListDirectory (fs : Z) (path : string)
| c_getCurrentTempFilePath
| c_GetCurrentSubTransactionId
| c_elog (lvl : Level) (msg : string) (args : list string).

(** The answer to a call: the returned integer or pointer, the value the
    call leaves in [errno] ([0]: untouched), the names it returns ([d_name]
    of [readdir], the listing of [hdfsListDirectory], the path of
    [getCurrentTempFilePath]) and the size it reports ([mSize] of
    [HdfsGetPathInfo]). *)
Record Reply := mkReply {
  r_ret : Z;
  r_errno : Z;
  r_names : list string;
  r_size : Z
}.

Definition ok (v : Z) : Reply := mkReply v 0 [] 0.
Definition fails (v e : Z) : Reply := mkReply v e [] 0.
Definition named (v : Z) (names : list string) : Reply := mkReply v 0 names 0.

Record Event := mkEvent {
  ev_call : Call;
  ev_cache : list Vfd
}.

(** ** The state of the module *)

Record State := mkState {
  max_files_per_process : Z;
  max_safe_fds : Z;
  VfdCache : list Vfd;
  nfile : Z;
  numAllocatedDescs : Z;
  allocatedDescs : list AllocateDesc;
  RecentRemoteAllocatedDesc : Z;
  tempFileCounter : Z;
  HdfsFsTable : gmap string Z;
  errno : Z;
  replies : list Reply;
  trace : list Event
}.

Definition SizeVfdCache (s : State) : Z := Z.of_nat (length (VfdCache s)).

Definition with_max_safe_fds (x : Z) (s : State) : State :=
  mkState (max_files_per_process s) x (VfdCache s) (nfile s)
    (numAllocatedDescs s) (allocatedDescs s) (RecentRemoteAllocatedDesc s)
    (tempFileCounter s) (HdfsFsTable s) (errno s) (replies s) (trace s).
Definition with_VfdCache (x : list Vfd) (s : State) : State :=
  mkState (max_files_per_process s) (max_safe_fds s) x (nfile s)
    (numAllocatedDescs s) (allocatedDescs s) (RecentRemoteAllocatedDesc s)
    (tempFileCounter s) (HdfsFsTable s) (errno s) (replies s) (trace s).
Definition with_nfile (x : Z) (s : State) : State :=
  mkState (max_files_per_process s) (max_safe_fds s) (VfdCache s) x
    (numAllocatedDescs s) (allocatedDescs s) (RecentRemoteAllocatedDesc s)
    (tempFileCounter s) (HdfsFsTable s) (errno s) (replies s) (trace s).
Definition with_numAllocatedDescs (x : Z) (s : State) : State :=
  mkState (max_files_per_process s) (max_safe_fds s) (VfdCache s) (nfile s)
    x (allocatedDescs s) (RecentRemoteAllocatedDesc s)
    (tempFileCounter s) (HdfsFsTable s) (errno s) (replies s) (trace s).
Definition with_allocatedDescs (x : list AllocateDesc) (s : State) : State :=
  mkState (max_files_per_process s) (max_safe_fds s) (VfdCache s) (nfile s)
    (numAllocatedDescs s) x (RecentRemoteAllocatedDesc s)
    (tempFileCounter s) (HdfsFsTable s) (errno s) (replies s) (trace s).
Definition with_RecentRemoteAllocatedDesc (x : Z) (s : State) : State :=
  mkState (max_files_per_process s) (max_safe_fds s) (VfdCache s) (nfile s)
    (numAllocatedDescs s) (allocatedDescs s) x
    (tempFileCounter s) (HdfsFsTable s) (errno s) (replies s) (trace s).
Definition with_tempFileCounter (x : Z) (s : State) : State :=
  mkState (max_files_per_process s) (max_safe_fds s) (VfdCache s) (nfile s)
    (numAllocatedDescs s) (allocatedDescs s) (RecentRemoteAllocatedDesc s)
    x (HdfsFsTable s) (errno s) (replies s) (trace s).
Definition with_HdfsFsTable (x : gmap string Z) (s : State) : State :=
  mkState (max_files_per_process s) (max_safe_fds s) (VfdCache s) (nfile s)
    (numAllocatedDescs s) (allocatedDescs s) (RecentRemoteAllocatedDesc s)
    (tempFileCounter s) x (errno s) (replies s) (trace s).
Definition with_errno (x : Z) (s : State) : State :=
  mkState (max_files_per_process s) (max_safe_fds s) (VfdCache s) (nfile s)
    (numAllocatedDescs s) (allocatedDescs s) (RecentRemoteAllocatedDesc s)
    (tempFileCounter s) (HdfsFsTable s) x (replies s) (trace s).
Definition with_replies (x : list Reply) (s : State) : State :=
  mkState (max_files_per_process s) (max_safe_fds s) (VfdCache s) (nfile s)
    (numAllocatedDescs s) (allocatedDescs s) (RecentRemoteAllocatedDesc s)
    (tempFileCounter s) (HdfsFsTable s) (errno s) x (trace s).
Definition with_trace (x : list Event) (s : State) : State :=
  mkState (max_files_per_process s) (max_safe_fds s) (VfdCache s) (nfile s)
    (numAllocatedDescs s) (allocatedDescs s) (RecentRemoteAllocatedDesc s)
    (tempFileCounter s) (HdfsFsTable s) (errno s) (replies s) x.

(** The globals as the C file initialises them. *)
Definition initial_state (script : list Reply) : State :=
  mkState 1000 32 [] 0 0 (replicate (Z.to_nat MAX_ALLOCATED_DESCS) zeroDesc)
    (-1) 0 ∅ 0 script [].

(** ** The monad of fd.c computations *)

Inductive ErrCode :=
| ERRCODE_OUT_OF_MEMORY
| ERRCODE_INSUFFICIENT_RESOURCES
| ERRCODE_INTERNAL_ERROR
| ERRCODE_FILE_ACCESS
| ERRCODE_DEFAULT.

(** How a computation left the module other than by returning: [ereport] at
    [ERROR] or [FATAL], or a failed [Insist] (postgres.h decides its
    severity, which fd.c does not show). *)
Inductive Severity := SevError | SevFatal | SevInsist.

Inductive Out (A : Type) :=
| Normal (a : A) (s : State)
| Raised (sev : Severity) (code : ErrCode) (msg : string) (s : State)
| Stuck (s : State).
Arguments Normal {A} a s.
Arguments Raised {A} sev code msg s.
Arguments Stuck {A} s.

Definition M (A : Type) := State -> Out A.

Definition ret {A} (a : A) : M A := fun s => Normal a s.

Definition bind {A B} (m : M A) (f : A -> M B) : M B :=
  fun s =>
    match m s with
    | Normal a s' => f a s'
    | Raised sev code msg s' => Raised sev code msg s'
    | Stuck s' => Stuck s'
    end.

Declare Scope fd_scope.
Delimit Scope fd_scope with fd.
Notation "x <- m ;; k" := (bind m (fun x => k))
  (at level 100, m at next level, right associativity) : fd_scope.
Notation "m ;;; k" := (bind m (fun _ => k))
  (at level 100, right associativity) : fd_scope.
Open Scope fd_scope.

Definition get : M State := fun s => Normal s s.
Definition gets {A} (f : State -> A) : M A := fun s => Normal (f s) s.
Definition modify (f : State -> State) : M unit := fun s => Normal tt (f s).
Definition raise {A} (sev : Severity) (code : ErrCode) (msg : string) : M A :=
  fun s => Raised sev code msg s.
Definition stuck {A} : M A := fun s => Stuck s.

Definition state_of {A} (o : Out A) : State :=
  match o with
  | Normal _ s => s
  | Raised _ _ _ s => s
  | Stuck s => s
  end.

Definition record (c : Call) (s : State) : State :=
  with_trace (trace s ++ [mkEvent c (VfdCache s)]) s.

(** The state after call [c] was answered by [r]. *)
Definition answer (c : Call) (r : Reply) (s : State) : State :=
  mkState (max_files_per_process s) (max_safe_fds s) (VfdCache s) (nfile s)
    (numAllocatedDescs s) (allocatedDescs s) (RecentRemoteAllocatedDesc s)
    (tempFileCounter s) (HdfsFsTable s)
    (if r_errno r =? 0 then errno s else r_errno r)
    (tl (replies s)) (trace s ++ [mkEvent c (VfdCache s)]).

(** A call into the environment: logged, answered by the script. *)
Definition call (c : Call) : M Reply :=
  fun s =>
    match replies s with
    | [] => Stuck s
    | r :: _ => Normal r (answer c r s)
    end.

Definition sys (c : Call) : M Z := r <- call c ;; ret (r_ret r).

(** A call that returns nothing ([void]): logged, no answer consumed. *)
Definition notify (c : Call) : M unit := modify (record c).

(** [elog]/[ereport] below [ERROR]: the message is emitted, control goes on. *)
Definition elog (lvl : Level) (msg : string) (args : list string) : M unit :=
  notify (c_elog lvl msg args).

(** [elog]/[ereport] at [ERROR] or [FATAL]: the message is emitted and control
    leaves the module. *)
Definition ereport {A} (lvl : Level) (code : ErrCode) (msg : string)
    (args : list string) : M A :=
  notify (c_elog lvl msg args) ;;;
  raise (match lvl with FATAL => SevFatal | _ => SevError end) code msg.

(** [Insist(cond)] *)
Definition Insist (cond : bool) (what : string) : M unit :=
  if cond then ret tt else raise SevInsist ERRCODE_INTERNAL_ERROR what.

(** [insist_log(cond, msg)] *)
Definition insist_log (cond : bool) (msg : string) (args : list string)
    : M unit :=
  if cond then ret tt
  else elog LOG msg args ;;; raise SevInsist ERRCODE_INTERNAL_ERROR msg.

Definition get_vfd (file : File) : M Vfd :=
  gets (fun s => slot (VfdCache s) file).
Definition set_vfd (file : File) (g : Vfd -> Vfd) : M unit :=
  modify (fun s => with_VfdCache (upd file g (VfdCache s)) s).
Definition set_errno (e : Z) : M unit := modify (with_errno e).

(** A loop whose every iteration makes at least one call terminates on a
    finite script; [fuel] is the number of iterations still allowed. *)
Definition script_fuel (s : State) : nat := S (length (replies s)).

(** ** The descriptor budget probe *)

Fixpoint count_usable_fds_loop (fuel : nat) (max_to_probe : Z)
    (fds : list Z) (used highestfd : Z) : M (list Z * Z * Z) :=
  match fuel with
  | O => stuck
  | S fuel' =>
      thisfd <- sys (c_dup 0) ;;
      if thisfd <? 0 then
        e <- gets errno ;;
        (if negb (e =? EMFILE) && negb (e =? ENFILE)
         then insist_log false "dup(0) failed after %d successes: %m" []
         else ret tt) ;;;
        ret (fds, used, highestfd)
      else
        let fds := fds ++ [thisfd] in
        let used := used + 1 in
        let highestfd := if highestfd <? thisfd then thisfd else highestfd in
        if used >=? max_to_probe then ret (fds, used, highestfd)
        else count_usable_fds_loop fuel' max_to_probe fds used highestfd
  end.

Fixpoint close_all (fds : list Z) : M unit :=
  match fds with
  | [] => ret tt
  | f :: rest => sys (c_close f) ;;; close_all rest
  end.

(** Returns [(usable_fds, already_open)]. *)
Definition count_usable_fds (max_to_probe : Z) : M (Z * Z) :=
  fuel <- gets script_fuel ;;
  r <- count_usable_fds_loop fuel max_to_probe [] 0 0 ;;
  let '(fds, used, highestfd) := r in
  close_all fds ;;;
  ret (used, int32 (int32 (highestfd + 1) - used)).

Definition set_max_safe_fds : M unit :=
  mfpp <- gets max_files_per_process ;;
  r <- count_usable_fds mfpp ;;
  let '(usable_fds, already_open) := r in
  modify (with_max_safe_fds (Z.min usable_fds (int32 (mfpp - already_open)))) ;;;
  modify (fun s => with_max_safe_fds (int32 (max_safe_fds s - NUM_RESERVED_FDS)) s) ;;;
  msf <- gets max_safe_fds ;;
  (if msf <? FD_MINFREE
   then ereport FATAL ERRCODE_INSUFFICIENT_RESOURCES
          "insufficient file handles available to start server process" []
   else ret tt) ;;;
  elog DEBUG2 "max_safe_fds = %d, usable_fds = %d, already_open = %d" [].

(** ** C strings *)

(** [strstr(hay, needle)]: the offset of the first occurrence. *)
Definition strstr (hay needle : string) : option nat := String.index 0 needle hay.

(** The string from offset [n] on ([p + n] for a [char *p]). *)
Definition str_from (n : nat) (s : string) : string :=
  substring n (String.length s - n) s.

(** [strncpy(buf, s, n)] and [snprintf(buf, n, "%s", s)] keep at most [n],
    respectively [n - 1], characters. *)
Definition strncpy (s : string) (n : Z) : string := substring 0 (Z.to_nat n) s.
Definition snprintf (n : Z) (s : string) : string := substring 0 (Z.to_nat (n - 1)) s.

Definition strlen (s : string) : Z := Z.of_nat (String.length s).

Definition is_digit (c : ascii) : bool :=
  let n := nat_of_ascii c in (48 <=? n)%nat && (n <=? 57)%nat.
Definition digit_val (c : ascii) : Z := Z.of_nat (nat_of_ascii c) - 48.
Definition is_space (c : ascii) : bool :=
  let n := nat_of_ascii c in (n =? 32)%nat || ((9 <=? n)%nat && (n <=? 13)%nat).

Fixpoint skip_spaces (s : string) : string :=
  match s with
  | String c rest => if is_space c then skip_spaces rest else s
  | EmptyString => s
  end.

Fixpoint read_digits (base : Z) (digit : ascii -> option Z) (acc : Z)
    (s : string) : Z :=
  match s with
  | String c rest =>
      match digit c with
      | Some d => if d <? base then read_digits base digit (acc * base + d) rest
                  else acc
      | None => acc
      end
  | EmptyString => acc
  end.

Definition any_digit (c : ascii) : option Z :=
  let n := Z.of_nat (nat_of_ascii c) in
  if (48 <=? n) && (n <=? 57) then Some (n - 48)
  else if (97 <=? n) && (n <=? 122) then Some (n - 87)
  else if (65 <=? n) && (n <=? 90) then Some (n - 55)
  else None.

Definition read_signed (numeral : string -> Z) (s : string) : Z :=
  match skip_spaces s with
  | String "-" rest => - numeral rest
  | String "+" rest => numeral rest
  | rest => numeral rest
  end.

(** [atoi(s)] of the C library, which is [(int) strtol(s, NULL, 10)]: the
    value and the [errno] it sets ([0]: none).  A number outside of [long]
    is not wrapped: [strtol] answers the nearest bound of [long] and sets
    [ERANGE]; the conversion to [int] then keeps the low 32 bits. *)
Definition atoi (s : string) : Z * Z :=
  let v := read_signed (read_digits 10 any_digit 0) s in
  if v >? INT64_MAX then (int32 INT64_MAX, ERANGE)
  else if v <? - INT64_MAX - 1 then (int32 (- INT64_MAX - 1), ERANGE)
  else (int32 v, 0).

(** [strtol(s, NULL, 0)] of the C library: the value and the [errno] it
    sets ([0]: none). *)
Definition strtol0 (s : string) : Z * Z :=
  let numeral (t : string) :=
    match t with
    | String "0" (String x rest) =>
        if (Ascii.eqb x "x" || Ascii.eqb x "X")%bool
        then read_digits 16 any_digit 0 rest
        else read_digits 8 any_digit 0 (String x rest)
    | _ => read_digits 10 any_digit 0 t
    end in
  let v := read_signed numeral s in
  if v >? INT64_MAX then (INT64_MAX, ERANGE)
  else if v <? - INT64_MAX - 1 then (- INT64_MAX - 1, ERANGE)
  else (v, 0).

Definition fsys_protocol_sep : string := "://".
Definition local_prefix : string := "local://".

Definition IsLocalPath (fileName : string) : bool :=
  if String.prefix local_prefix fileName then true
  else match strstr fileName fsys_protocol_sep with
       | None => true
       | Some _ => false
       end.

(** ** Predicates on slots *)

Definition FileIsNotOpen (c : list Vfd) (file : File) : bool :=
  (fd (slot c file) =? VFD_CLOSED) &&
  ((hFS (slot c file) =? NULL) && (hFile (slot c file) =? NULL)).

Definition IsLocalFile (c : list Vfd) (file : File) : bool :=
  (hFile (slot c file) =? NULL) && (hFS (slot c file) =? NULL).

Definition FileIsValid (s : State) (file : File) : bool :=
  (0 <? file) && (file <? SizeVfdCache s) &&
  bool_decide (fileName (slot (VfdCache s) file) <> None).

Definition has_flag (x flag : Z) : bool := negb (Z.land x flag =? 0).

(** ** The LRU ring *)

Definition Delete (file : File) : M unit :=
  vfdP <- get_vfd file ;;
  set_vfd (lruLessRecently vfdP) (set_lruMoreRecently (lruMoreRecently vfdP)) ;;;
  vfdP <- get_vfd file ;;
  set_vfd (lruMoreRecently vfdP) (set_lruLessRecently (lruLessRecently vfdP)).

Definition LruDelete (file : File) : M unit :=
  Delete file ;;;
  (* save the seek position *)
  vfdP <- get_vfd file ;;
  c <- gets VfdCache ;;
  pos <- (if IsLocalFile c file
          then sys (c_lseek (fd vfdP) 0 SEEK_CUR)
          else sys (c_HdfsTell (hProtocol vfdP) (hFS vfdP) (hFile vfdP))) ;;
  set_vfd file (set_seekPos pos) ;;;
  Insist (negb (pos =? -1)) "vfdP->seekPos != INT64CONST(-1)" ;;;
  (* close the file *)
  c <- gets VfdCache ;;
  vfdP <- get_vfd file ;;
  r <- (if IsLocalFile c file
        then sys (c_close (fd vfdP))
        else sys (c_HdfsCloseFile (hProtocol vfdP) (hFS vfdP) (hFile vfdP))) ;;
  (if negb (r =? 0)
   then ereport ERROR ERRCODE_DEFAULT "could not close file %s: %m"
          [default "" (fileName vfdP)]
   else ret tt) ;;;
  modify (fun s => with_nfile (nfile s - 1) s) ;;;
  set_vfd file (set_fd VFD_CLOSED) ;;;
  set_vfd file (set_hFS NULL) ;;;
  set_vfd file (set_hFile NULL) ;;;
  set_vfd file (set_hProtocol None).

Definition Insert (file : File) : M unit :=
  set_vfd file (set_lruMoreRecently 0) ;;;
  v0 <- get_vfd 0 ;;
  set_vfd file (set_lruLessRecently (lruLessRecently v0)) ;;;
  set_vfd 0 (set_lruLessRecently file) ;;;
  vfdP <- get_vfd file ;;
  set_vfd (lruLessRecently vfdP) (set_lruMoreRecently file).

Definition ReleaseLruFile : M bool :=
  n <- gets nfile ;;
  if n >? 0 then
    v0 <- get_vfd 0 ;;
    LruDelete (lruMoreRecently v0) ;;;
    ret true
  else ret false.

(** [while (nfile + numAllocatedDescs >= max_safe_fds)
       if (!ReleaseLruFile()) break;]
    Every release that lets the loop go on lowers [nfile], which bounds the
    number of iterations. *)
Fixpoint release_loop (fuel : nat) : M unit :=
  match fuel with
  | O => stuck
  | S fuel' =>
      s <- get ;;
      if nfile s + numAllocatedDescs s >=? max_safe_fds s then
        released <- ReleaseLruFile ;;
        if released then release_loop fuel' else ret tt
      else ret tt
  end.

Definition release_while_over_budget : M unit :=
  n <- gets nfile ;;
  release_loop (S (Z.to_nat n)).

Fixpoint BasicOpenFile_loop (fuel : nat) (fileName : string)
    (fileFlags fileMode : Z) : M Z :=
  match fuel with
  | O => stuck
  | S fuel' =>
      fd <- sys (c_open fileName fileFlags fileMode) ;;
      if fd >=? 0 then ret fd
      else
        e <- gets errno ;;
        if (e =? EMFILE) || (e =? ENFILE) then
          elog LOG "out of file handles: %m; release and retry" [] ;;;
          set_errno 0 ;;;
          released <- ReleaseLruFile ;;
          if released then BasicOpenFile_loop fuel' fileName fileFlags fileMode
          else set_errno e ;;; ret (-1)
        else ret (-1)
  end.

Definition BasicOpenFile (fileName : string) (fileFlags fileMode : Z) : M Z :=
  fuel <- gets script_fuel ;;
  BasicOpenFile_loop fuel fileName fileFlags fileMode.

(** ** The VFD table *)

Definition fresh_slot (i : Z) : Vfd :=
  set_hProtocol None (set_hFile NULL (set_hFS NULL
    (set_fd VFD_CLOSED (set_nextFree (i + 1) zeroVfd)))).

Definition AllocateVfd : M File :=
  v0 <- get_vfd 0 ;;
  (if nextFree v0 =? 0 then
     size <- gets SizeVfdCache ;;
     let newCacheSize := size * 2 in
     let newCacheSize := if newCacheSize <? 32 then 32 else newCacheSize in
     newVfdCache <- sys (c_realloc newCacheSize) ;;
     (if newVfdCache =? NULL
      then ereport ERROR ERRCODE_OUT_OF_MEMORY "out of memory" []
      else ret tt) ;;;
     modify (fun s => with_VfdCache
       (VfdCache s ++ map fresh_slot (seqZ size (newCacheSize - size))) s) ;;;
     set_vfd (newCacheSize - 1) (set_nextFree 0) ;;;
     set_vfd 0 (set_nextFree size)
   else ret tt) ;;;
  v0 <- get_vfd 0 ;;
  let file := nextFree v0 in
  vf <- get_vfd file ;;
  set_vfd 0 (set_nextFree (nextFree vf)) ;;;
  ret file.

Definition FreeVfd (file : File) : M unit :=
  set_vfd file (set_fileName None) ;;;
  set_vfd file (set_fdstate 0) ;;;
  set_vfd file (set_hFS NULL) ;;;
  set_vfd file (set_hFile NULL) ;;;
  set_vfd file (set_hProtocol None) ;;;
  v0 <- get_vfd 0 ;;
  set_vfd file (set_nextFree (nextFree v0)) ;;;
  set_vfd 0 (set_nextFree file).

Definition InitFileAccess : M unit :=
  p <- sys (c_malloc 1) ;;
  (if p =? NULL then ereport FATAL ERRCODE_OUT_OF_MEMORY "out of memory" []
   else ret tt) ;;;
  modify (with_VfdCache [set_fd VFD_CLOSED zeroVfd]).

(** ** The DFS back end: opening *)

(** Where [HdfsBasicOpenFile] stores its three results: in locals of the
    caller, or directly in the fields of a slot. *)
Inductive OutLoc := InLocals | InSlot (file : File).

Definition put_out (loc : OutLoc) (g : Vfd -> Vfd) : M unit :=
  match loc with
  | InLocals => ret tt
  | InSlot file => set_vfd file g
  end.

(** Returns the success flag and the protocol, or [None] on failure. *)
Definition HdfsGetProtocol (fileName : string) (size : Z) : M (option string) :=
  match strstr fileName fsys_protocol_sep with
  | None =>
      elog WARNING "internal error: no filesystem protocol found in path %s"
        [fileName] ;;;
      set_errno EINVAL ;;; ret None
  | Some p =>
      if size <? Z.of_nat p + 1 then
        elog WARNING "internal error: protocol buf is too small for protocl %s"
          [fileName] ;;;
        set_errno ENOMEM ;;; ret None
      else ret (Some (substring 0 p fileName))
  end.

(** Returns the status and the (possibly updated) replica count. *)
Definition HdfsParseOptions (fileName : string) (rep : Z) : M (Z * Z) :=
  match strstr fileName fsys_protocol_sep with
  | None =>
      set_errno EINVAL ;;;
      elog WARNING
        "internal error HdfsParseOptions: no filesystem protocol found in path %s"
        [fileName] ;;;
      ret (-1, rep)
  | Some p =>
      let p := (p + String.length fsys_protocol_sep)%nat in
      if negb (bool_decide (String.get p fileName = Some "{"%char)) then ret (0, rep)
      else
        let pb := str_from (p + 1) fileName in
        match strstr pb "}" with
        | None =>
            set_errno EINVAL ;;;
            elog WARNING
              "internal error HdfsParseOptions: options format error in path %s"
              [fileName] ;;;
            ret (-1, rep)
        | Some _ =>
            if String.prefix "replica=" pb
            then
              let r := atoi (str_from 8 pb) in
              (if snd r =? 0 then ret tt else set_errno (snd r)) ;;;
              ret (0, wrap_signed 16 (fst r))
            else ret (0, rep)
        end
  end.

Definition HdfsGetConnection (protocol path : string) : M Z :=
  match strstr path fsys_protocol_sep with
  | None =>
      elog WARNING "no filesystem protocol found: %s" [path] ;;;
      set_errno EINVAL ;;; ret NULL
  | Some p =>
      (* skip option field *)
      let p := str_from (p + String.length fsys_protocol_sep) path in
      match (match p with
             | String "{" rest =>
                 match strstr rest "}" with
                 | Some e => Some (str_from (e + 1) rest)
                 | None => None
                 end
             | _ => Some p
             end) with
      | None => stuck
      | Some host =>
          match strstr host ":" with
          | None =>
              elog WARNING "cannot find hdfs port in path: %s" [path] ;;;
              set_errno EINVAL ;;; ret NULL
          | Some colon =>
              let p := str_from (colon + 1) host in
              let host := substring 0 colon host in
              set_errno 0 ;;;
              let '(v, e) := strtol0 p in
              (if e =? 0 then ret tt else set_errno e) ;;;
              let port := int32 v in
              e <- gets errno ;;
              if (e =? EINVAL) || (e =? ERANGE)
                 || negb ((0 <? port) && (port <? 65536)) then
                elog WARNING "cannot find hdfs port in path: %s" [path] ;;;
                set_errno EINVAL ;;; ret NULL
              else
                let location := (host +:+ ":" +:+ pretty port)%string in
                table <- gets HdfsFsTable ;;
                match table !! location with
                | Some fs => ret fs
                | None =>
                    fs <- sys (c_HdfsConnect protocol host port) ;;
                    if fs =? NULL then
                      elog WARNING "fail to connect hdfs at %s, errno = %d"
                        [location] ;;;
                      ret NULL
                    else
                      modify (fun s =>
                        with_HdfsFsTable (<[location := fs]> (HdfsFsTable s)) s) ;;;
                      ret fs
                end
          end
      end
  end.

Definition ConvertToUnixPath (fileName : string) (len : Z) : M (option string) :=
  match strstr fileName fsys_protocol_sep with
  | None =>
      elog WARNING "internal error: no filesystem protocol found in path %s"
        [fileName] ;;;
      set_errno EINVAL ;;; ret None
  | Some p =>
      let rest := str_from (p + String.length fsys_protocol_sep) fileName in
      match strstr rest "/" with
      | None =>
          elog WARNING "internal error: cannot convert path %s into unix format"
            [fileName] ;;;
          set_errno EINVAL ;;; ret None
      | Some q => ret (Some (strncpy (str_from q rest) len))
      end
  end.

(** Returns the success flag and the values left in [*hProtocol], [*fs] and
    [*hFile], which start as [init]. *)
Definition HdfsBasicOpenFile (fileName : string) (fileFlags fileMode : Z)
    (loc : OutLoc) (init : option string * Z * Z)
    : M (bool * (option string * Z * Z)) :=
  let '(hProtocol0, fs0, hFile0) := init in
  let rep := FS_DEFAULT_REPLICA_NUM in
  got <- HdfsGetProtocol fileName MAXPGPATH ;;
  match got with
  | None =>
      elog WARNING "cannot get protocol for path: %s" [fileName] ;;;
      ret (false, init)
  | Some protocol =>
      r <- HdfsParseOptions fileName rep ;;
      let rep := snd r in
      copy <- sys (c_strdup protocol) ;;
      let hProtocol1 := if copy =? NULL then None else Some protocol in
      put_out loc (set_hProtocol hProtocol1) ;;;
      fs <- HdfsGetConnection protocol fileName ;;
      put_out loc (set_hFS fs) ;;;
      if fs =? NULL then ret (false, (hProtocol1, fs, hFile0))
      else
        conv <- ConvertToUnixPath fileName (MAXPGPATH + 1) ;;
        match conv with
        | None => ret (false, (hProtocol1, fs, hFile0))
        | Some path =>
            hFile <- (if negb (has_flag fileFlags O_APPEND) && has_flag fileFlags O_WRONLY
                      then sys (c_HdfsOpenFile protocol fs path fileFlags 0 rep 0)
                      else sys (c_HdfsOpenFile protocol fs path fileFlags 0 0 0)) ;;
            put_out loc (set_hFile hFile) ;;;
            if negb (hFile =? NULL) then
              if has_flag O_CREAT fileFlags then
                synced <- sys (c_HdfsSync protocol fs hFile) ;;
                if negb (synced =? 0) then
                  elog WARNING "cannot reopen hdfs file errno %d" [] ;;;
                  ret (false, (hProtocol1, fs, hFile))
                else
                  chmoded <- sys (c_HdfsChmod protocol fs path fileMode) ;;
                  if negb (chmoded =? 0) then
                    elog WARNING "cannot set file : %s mode : %o, errno %d"
                      [fileName] ;;;
                    ret (false, (hProtocol1, fs, hFile))
                  else ret (true, (hProtocol1, fs, hFile))
              else ret (true, (hProtocol1, fs, hFile))
            else
              elog WARNING "hdfs error, cannot open %s, errno = %d" [fileName] ;;;
              ret (false, (hProtocol1, fs, hFile))
        end
  end.

(** ** Physical reopen *)

(** The open of [LruInsert]; [Some code] is the value [LruInsert] returns
    at once. *)
Definition LruInsert_open (file : File) : M (option Z) :=
  c <- gets VfdCache ;;
  vfdP <- get_vfd file ;;
  if IsLocalFile c file then
    release_while_over_budget ;;;
    fd <- BasicOpenFile (default "" (fileName vfdP)) (fileFlags vfdP)
            (fileMode vfdP) ;;
    set_vfd file (set_fd fd) ;;;
    if fd <? 0 then ret (Some fd)
    else modify (fun s => with_nfile (nfile s + 1) s) ;;; ret None
  else
    r <- HdfsBasicOpenFile (default "" (fileName vfdP)) (fileFlags vfdP)
           (fileMode vfdP) (InSlot file)
           (hProtocol vfdP, hFS vfdP, hFile vfdP) ;;
    if negb (fst r) then ret (Some (-1)) else ret None.

(** "seek to the right position" of [LruInsert]. *)
Definition LruInsert_seek (file : File) : M (option Z) :=
  vfdP <- get_vfd file ;;
  if negb (seekPos vfdP =? 0) then
    c <- gets VfdCache ;;
    if IsLocalFile c file then
      returnValue <- sys (c_lseek (fd vfdP) (seekPos vfdP) SEEK_SET) ;;
      if returnValue <? 0 then ret (Some (-1)) else ret None
    else if has_flag (fileFlags vfdP) O_WRONLY then
      (* open for write, only support append on hdfs *)
      len <- sys (c_HdfsTell (hProtocol vfdP) (hFS vfdP) (hFile vfdP)) ;;
      if has_flag (fileFlags vfdP) O_APPEND then
        if negb (seekPos vfdP =? len) then
          elog WARNING
            "hdfs file %s length %d is not equal to logic file length %d"
            [default "" (fileName vfdP)] ;;;
          ret (Some (-1))
        else ret None
      else
        elog WARNING "hdfs file %s should be open as APPEND"
          [default "" (fileName vfdP)] ;;;
        ret (Some (-1))
    else
      (* open for read *)
      sought <- sys (c_HdfsSeek (hProtocol vfdP) (hFS vfdP) (hFile vfdP)
                       (seekPos vfdP)) ;;
      if negb (sought =? 0) then ret (Some (-1)) else ret None
  else ret None.

(** Returns 0 on success, -1 on re-open failure. *)
Definition LruInsert (file : File) : M Z :=
  c <- gets VfdCache ;;
  failed <-
    (if FileIsNotOpen c file then
       vfdP <- get_vfd file ;;
       elog LOG "reopen file %s with flag %o" [default "" (fileName vfdP)] ;;;
       opened <- LruInsert_open file ;;
       match opened with
       | Some code => ret (Some code)
       | None => LruInsert_seek file
       end
     else ret None) ;;
  match failed with
  | Some code => ret code
  | None =>
      (* put it at the head of the Lru ring *)
      c <- gets VfdCache ;;
      (if IsLocalFile c file then Insert file else ret tt) ;;;
      ret 0
  end.

(** Returns 0 on success, -1 on re-open failure. *)
Definition FileAccess (file : File) : M Z :=
  c <- gets VfdCache ;;
  if FileIsNotOpen c file then
    returnValue <- LruInsert file ;;
    if negb (returnValue =? 0) then ret returnValue else ret 0
  else if negb (lruLessRecently (slot c 0) =? file) && IsLocalFile c file then
    Delete file ;;; Insert file ;;; ret 0
  else ret 0.

(** ** Opening files *)

Definition LocalPathNameOpenFile (fileName : string) (fileFlags fileMode : Z)
    : M File :=
  fnamecopy <- sys (c_strdup fileName) ;;
  (if fnamecopy =? NULL
   then ereport ERROR ERRCODE_OUT_OF_MEMORY "out of memory" []
   else ret tt) ;;;
  file <- AllocateVfd ;;
  release_while_over_budget ;;;
  fd <- BasicOpenFile fileName fileFlags fileMode ;;
  set_vfd file (set_fd fd) ;;;
  if fd <? 0 then
    FreeVfd file ;;; ret (-1)
  else
    modify (fun s => with_nfile (nfile s + 1) s) ;;;
    Insert file ;;;
    set_vfd file (set_fileName (Some fileName)) ;;;
    (* Saved flags are adjusted to be OK for re-opening file *)
    set_vfd file (set_fileFlags
      (Z.land fileFlags (Z.lnot (Z.lor (Z.lor O_CREAT O_TRUNC) O_EXCL)))) ;;;
    set_vfd file (set_fileMode fileMode) ;;;
    set_vfd file (set_seekPos 0) ;;;
    set_vfd file (set_fdstate 0) ;;;
    ret file.

Definition HdfsPathNameOpenFile (fileName : string) (fileFlags fileMode : Z)
    : M File :=
  pathname <- sys (c_strdup fileName) ;;
  (if pathname =? NULL
   then ereport ERROR ERRCODE_OUT_OF_MEMORY "out of memory" []
   else ret tt) ;;;
  r <- HdfsBasicOpenFile fileName fileFlags fileMode InLocals (None, NULL, NULL) ;;
  let '(result, (protocol, fs, hfile)) := r in
  if negb result then
    elog WARNING "HdfsPathNameOpenFile: fail %s, errno %d" [fileName] ;;;
    ret (-1)
  else
    (* create virtual file after open hdfs file *)
    file <- AllocateVfd ;;
    set_vfd file (set_fileName (Some fileName)) ;;;
    set_vfd file (set_hFS fs) ;;;
    set_vfd file (set_hFile hfile) ;;;
    set_vfd file (set_hProtocol protocol) ;;;
    (* we always set O_APPEND since it will be ignored if the file is opened
       for read *)
    set_vfd file (set_fileFlags
      (Z.lor (Z.land fileFlags (Z.lnot O_CREAT)) O_APPEND)) ;;;
    set_vfd file (set_fileMode fileMode) ;;;
    set_vfd file (set_seekPos 0) ;;;
    set_vfd file (set_fdstate 0) ;;;
    ret file.

Definition PathNameOpenFile (fileName : string) (fileFlags fileMode : Z)
    : M File :=
  if IsLocalPath fileName
  then LocalPathNameOpenFile fileName fileFlags fileMode
  else HdfsPathNameOpenFile fileName fileFlags fileMode.

(** ** Closing files *)

Fixpoint gp_retry_close_loop (fuel : nat) (fd : Z) : M Z :=
  match fuel with
  | O => stuck
  | S fuel' =>
      err <- sys (c_close fd) ;;
      e <- gets errno ;;
      if (err =? -1) && (e =? EINTR) then gp_retry_close_loop fuel' fd
      else ret err
  end.

Definition gp_retry_close (fd : Z) : M Z :=
  fuel <- gets script_fuel ;;
  gp_retry_close_loop fuel fd.

Definition LocalFileClose (file : File) : M unit :=
  c <- gets VfdCache ;;
  (if negb (FileIsNotOpen c file) then
     (* remove the file from the lru ring *)
     Delete file ;;;
     (* close the file *)
     vfdP <- get_vfd file ;;
     r <- gp_retry_close (fd vfdP) ;;
     (if negb (r =? 0)
      then ereport ERROR ERRCODE_DEFAULT "could not close file %s: %m"
             [default "" (fileName vfdP)]
      else ret tt) ;;;
     modify (fun s => with_nfile (nfile s - 1) s) ;;;
     set_vfd file (set_fd VFD_CLOSED)
   else ret tt) ;;;
  (* Delete the file if it was temporary *)
  vfdP <- get_vfd file ;;
  (if has_flag (fdstate vfdP) FD_TEMPORARY then
     (* reset flag so that die() interrupt won't cause problems *)
     set_vfd file (fun v =>
       set_fdstate (uint16 (Z.land (fdstate v) (Z.lnot FD_TEMPORARY))) v) ;;;
     r <- sys (c_unlink (default "" (fileName vfdP))) ;;
     if negb (r =? 0)
     then elog DEBUG1 "failed to unlink %s: %m" [default "" (fileName vfdP)]
     else ret tt
   else ret tt) ;;;
  (* Return the Vfd slot to the free list *)
  FreeVfd file.

Definition HdfsFileClose (file : File) (canReportError : bool) : M unit :=
  c <- gets VfdCache ;;
  vfdP <- get_vfd file ;;
  retval <-
    (if negb (FileIsNotOpen c file) then
       (* no matter the return code, remove vfd, file cannot be closed twice *)
       retval <- sys (c_HdfsCloseFile (hProtocol vfdP) (hFS vfdP) (hFile vfdP)) ;;
       set_vfd file (set_fd VFD_CLOSED) ;;;
       set_vfd file (set_hFS NULL) ;;;
       set_vfd file (set_hFile NULL) ;;;
       set_vfd file (set_hProtocol None) ;;;
       ret retval
     else ret 0) ;;
  (* return the Vfd slot to the free list *)
  FreeVfd file ;;;
  if retval =? -1 then
    if canReportError
    then ereport ERROR ERRCODE_DEFAULT "could not close file %d : (%s) errno %d"
           [strncpy (default "" (fileName vfdP)) MAXPGPATH]
    else elog WARNING "could not close file %d : (%s) errno %d"
           [strncpy (default "" (fileName vfdP)) MAXPGPATH]
  else ret tt.

Definition FileClose (file : File) : M unit :=
  c <- gets VfdCache ;;
  if IsLocalFile c file
  then LocalFileClose file
  else HdfsFileClose file true.

(** close a file and forcibly delete the underlying Unix file *)
Definition FileUnlink (file : File) : M unit :=
  set_vfd file (fun v => set_fdstate (uint16 (Z.lor (fdstate v) FD_TEMPORARY)) v) ;;;
  FileClose file.

(** ** Reading, writing, seeking *)

Fixpoint FileReadIntr_loop (fuel : nat) (file : File) (amount : Z)
    (fRetryIntr : bool) : M Z :=
  match fuel with
  | O => stuck
  | S fuel' =>
      vfdP <- get_vfd file ;;
      returnCode <- sys (c_read (fd vfdP) amount) ;;
      if returnCode >=? 0 then
        set_vfd file (fun v => set_seekPos (int64 (seekPos v + returnCode)) v) ;;;
        ret returnCode
      else
        e <- gets errno ;;
        (* OK to retry if interrupted *)
        if (e =? EINTR) && fRetryIntr
        then FileReadIntr_loop fuel' file amount fRetryIntr
        else
          (* Trouble, so assume we don't know the file position anymore *)
          set_vfd file (set_seekPos FileUnknownPos) ;;;
          ret returnCode
  end.

Definition FileReadIntr (file : File) (amount : Z) (fRetryIntr : bool) : M Z :=
  returnCode <- FileAccess file ;;
  if returnCode <? 0 then ret returnCode
  else
    fuel <- gets script_fuel ;;
    FileReadIntr_loop fuel file amount fRetryIntr.

Definition LocalFileRead (file : File) (amount : Z) : M Z :=
  FileReadIntr file amount true.

Fixpoint LocalFileWrite_loop (fuel : nat) (file : File) (amount : Z) : M Z :=
  match fuel with
  | O => stuck
  | S fuel' =>
      set_errno 0 ;;;
      vfdP <- get_vfd file ;;
      returnCode <- sys (c_write (fd vfdP) amount) ;;
      e <- gets errno ;;
      (* if write didn't set errno, assume problem is no disk space *)
      (if negb (returnCode =? amount) && (e =? 0) then set_errno ENOSPC
       else ret tt) ;;;
      if returnCode >=? 0 then
        set_vfd file (fun v => set_seekPos (int64 (seekPos v + returnCode)) v) ;;;
        ret returnCode
      else
        e <- gets errno ;;
        (* OK to retry if interrupted *)
        if e =? EINTR then LocalFileWrite_loop fuel' file amount
        else
          (* Trouble, so assume we don't know the file position anymore *)
          set_vfd file (set_seekPos FileUnknownPos) ;;;
          ret returnCode
  end.

(** The replication statistics and the fault injector that surround the
    write belong to the host server and do not touch the VFD table. *)
Definition LocalFileWrite (file : File) (amount : Z) : M Z :=
  returnCode <- FileAccess file ;;
  if returnCode <? 0 then ret returnCode
  else
    fuel <- gets script_fuel ;;
    LocalFileWrite_loop fuel file amount.

Definition LocalFileSeek (file : File) (offset whence : Z) : M Z :=
  c <- gets VfdCache ;;
  early <-
  (if FileIsNotOpen c file then
     if whence =? SEEK_SET then
       set_vfd file (set_seekPos offset) ;;; ret None
     else if whence =? SEEK_CUR then
       set_vfd file (fun v => set_seekPos (int64 (seekPos v + offset)) v) ;;;
       ret None
     else if whence =? SEEK_END then
       returnCode <- FileAccess file ;;
       if returnCode <? 0 then ret (Some returnCode)
       else
         vfdP <- get_vfd file ;;
         pos <- sys (c_lseek (fd vfdP) offset whence) ;;
         set_vfd file (set_seekPos pos) ;;; ret None
     else ret None
   else
     vfdP <- get_vfd file ;;
     if whence =? SEEK_SET then
       if negb (seekPos vfdP =? offset) then
         pos <- sys (c_lseek (fd vfdP) offset whence) ;;
         set_vfd file (set_seekPos pos) ;;; ret None
       else ret None
     else if whence =? SEEK_CUR then
       if negb (offset =? 0) || (seekPos vfdP =? FileUnknownPos) then
         pos <- sys (c_lseek (fd vfdP) offset whence) ;;
         set_vfd file (set_seekPos pos) ;;; ret None
       else ret None
     else if whence =? SEEK_END then
       pos <- sys (c_lseek (fd vfdP) offset whence) ;;
       set_vfd file (set_seekPos pos) ;;; ret None
     else ret None) ;;
  match early with
  | Some returnCode => ret returnCode
  | None => vfdP <- get_vfd file ;; ret (seekPos vfdP)
  end.

(** ** The DFS back end: data operations *)

Definition HdfsFileRead (file : File) (amount : Z) : M Z :=
  vfdP0 <- get_vfd file ;;
  returnCode <- FileAccess file ;;
  if returnCode <? 0 then
    elog WARNING "cannot reopen file %s for read, errno %d"
      [default "" (fileName vfdP0)] ;;;
    ret returnCode
  else
    vfdP <- get_vfd file ;;
    returnCode <- sys (c_HdfsRead (hProtocol vfdP) (hFS vfdP) (hFile vfdP) amount) ;;
    if returnCode >=? 0 then
      set_vfd file (fun v => set_seekPos (int64 (seekPos v + returnCode)) v) ;;;
      ret returnCode
    else
      (* Trouble, so assume we don't know the file position anymore *)
      set_vfd file (set_seekPos FileUnknownPos) ;;;
      elog WARNING "cannot read from file %s, errno %d"
        [default "" (fileName vfdP)] ;;;
      ret returnCode.

Definition HdfsFileWrite (file : File) (amount : Z) : M Z :=
  vfdP0 <- get_vfd file ;;
  returnCode <- FileAccess file ;;
  if returnCode <? 0 then
    elog WARNING "cannot reopen file %s for write, errno %d"
      [default "" (fileName vfdP0)] ;;;
    ret returnCode
  else
    vfdP <- get_vfd file ;;
    returnCode <- sys (c_HdfsWrite (hProtocol vfdP) (hFS vfdP) (hFile vfdP) amount) ;;
    if returnCode >=? 0 then
      set_vfd file (fun v => set_seekPos (int64 (seekPos v + returnCode)) v) ;;;
      ret returnCode
    else
      (* Trouble, so assume we don't know the file position anymore *)
      elog WARNING "cannot write into file %s, errno %d"
        [default "" (fileName vfdP)] ;;;
      set_vfd file (set_seekPos FileUnknownPos) ;;;
      ret returnCode.

Definition HdfsFileSeek (file : File) (offset whence : Z) : M Z :=
  vfdP <- get_vfd file ;;
  let desiredPos :=
    if negb (seekPos vfdP =? FileUnknownPos) then seekPos vfdP else 0 in
  desiredPos <-
    (if whence =? SEEK_SET then ret offset
     else if whence =? SEEK_CUR then ret (int64 (desiredPos + offset))
     else if whence =? SEEK_END then
       conv <- ConvertToUnixPath (default "" (fileName vfdP)) (MAXPGPATH + 1) ;;
       info <- call (c_HdfsGetPathInfo (hProtocol vfdP) (hFS vfdP)
                       (default "" conv)) ;;
       (if r_ret info =? NULL
        then ereport ERROR ERRCODE_DEFAULT "hdfsGetPathInfo: failed" []
        else ret tt) ;;;
       notify (c_HdfsFreeFileInfo (default "" (hProtocol vfdP)) 1) ;;;
       ret (r_size info)
     else ret desiredPos) ;;
  returnCode <- FileAccess file ;;
  if returnCode <? 0 then
    elog WARNING "cannot open file: %s for seek, errno %d"
      [default "" (fileName vfdP)] ;;;
    ret returnCode
  else
    vfdP <- get_vfd file ;;
    sought <- sys (c_HdfsSeek (hProtocol vfdP) (hFS vfdP) (hFile vfdP) desiredPos) ;;
    (if negb (sought =? 0) then
       elog WARNING "cannot to seek file %s to %d errno %d"
         [default "" (fileName vfdP)] ;;;
       set_vfd file (set_seekPos (-1))
     else set_vfd file (set_seekPos desiredPos)) ;;;
    vfdP <- get_vfd file ;;
    ret (seekPos vfdP).

(** ** Dispatch on the kind of slot *)

Definition FileRead (file : File) (amount : Z) : M Z :=
  c <- gets VfdCache ;;
  if IsLocalFile c file then LocalFileRead file amount
  else HdfsFileRead file amount.

Definition FileWrite (file : File) (amount : Z) : M Z :=
  c <- gets VfdCache ;;
  if IsLocalFile c file then LocalFileWrite file amount
  else HdfsFileWrite file amount.

Definition FileSeek (file : File) (offset whence : Z) : M Z :=
  c <- gets VfdCache ;;
  if IsLocalFile c file then LocalFileSeek file offset whence
  else HdfsFileSeek file offset whence.

(** ** Allocated descriptors *)

Definition get_desc (i : Z) : M AllocateDesc :=
  gets (fun s => allocatedDescs s !!! Z.to_nat i).
Definition set_desc (i : Z) (g : AllocateDesc -> AllocateDesc) : M unit :=
  modify (fun s => with_allocatedDescs
    (<[Z.to_nat i := g (allocatedDescs s !!! Z.to_nat i)]> (allocatedDescs s)) s).

Definition fill_desc (k : AllocateDescKind) (p subid : Z) (d : AllocateDesc)
    : AllocateDesc :=
  mkAllocateDesc k p subid (protocol d) (filelist d) (cur d) (num d)
    (ret_d_name d).
Definition fill_remote_desc (p subid : Z) (proto : string)
    (names : list string) (d : AllocateDesc) : AllocateDesc :=
  mkAllocateDesc AllocateDescRemoteDir p subid proto names 0
    (Z.of_nat (length names)) (ret_d_name d).
Definition set_ad_create_subid (x : Z) (d : AllocateDesc) : AllocateDesc :=
  mkAllocateDesc (kind d) (desc d) x (protocol d) (filelist d) (cur d) (num d)
    (ret_d_name d).
Definition set_cur (x : Z) (d : AllocateDesc) : AllocateDesc :=
  mkAllocateDesc (kind d) (desc d) (ad_create_subid d) (protocol d)
    (filelist d) x (num d) (ret_d_name d).
Definition set_ret_d_name (x : string) (d : AllocateDesc) : AllocateDesc :=
  mkAllocateDesc (kind d) (desc d) (ad_create_subid d) (protocol d)
    (filelist d) (cur d) (num d) x.

Definition out_of_descs (s : State) : bool :=
  (numAllocatedDescs s >=? MAX_ALLOCATED_DESCS) ||
  (numAllocatedDescs s >=? max_safe_fds s - 1).

Fixpoint AllocateFile_loop (fuel : nat) (name mode : string) : M Z :=
  match fuel with
  | O => stuck
  | S fuel' =>
      file <- sys (c_fopen name mode) ;;
      if negb (file =? NULL) then
        n <- gets numAllocatedDescs ;;
        subid <- sys c_GetCurrentSubTransactionId ;;
        set_desc n (fill_desc AllocateDescFile file subid) ;;;
        modify (fun s => with_numAllocatedDescs (numAllocatedDescs s + 1) s) ;;;
        ret file
      else
        e <- gets errno ;;
        if (e =? EMFILE) || (e =? ENFILE) then
          elog LOG "out of file handles: %m; release and retry" [] ;;;
          set_errno 0 ;;;
          released <- ReleaseLruFile ;;
          if released then AllocateFile_loop fuel' name mode
          else set_errno e ;;; ret NULL
        else ret NULL
  end.

Definition AllocateFile (name mode : string) : M Z :=
  s <- get ;;
  (if out_of_descs s
   then ereport ERROR ERRCODE_DEFAULT
          "could not allocate file: out of file handles" []
   else ret tt) ;;;
  AllocateFile_loop (script_fuel s) name mode.

Fixpoint AllocateDir_loop (fuel : nat) (dirname : string) : M Z :=
  match fuel with
  | O => stuck
  | S fuel' =>
      dir <- sys (c_opendir dirname) ;;
      if negb (dir =? NULL) then
        n <- gets numAllocatedDescs ;;
        subid <- sys c_GetCurrentSubTransactionId ;;
        set_desc n (fill_desc AllocateDescDir dir subid) ;;;
        modify (fun s => with_numAllocatedDescs (numAllocatedDescs s + 1) s) ;;;
        ret dir
      else
        e <- gets errno ;;
        if (e =? EMFILE) || (e =? ENFILE) then
          elog LOG "out of file handles: %m; release and retry" [] ;;;
          set_errno 0 ;;;
          released <- ReleaseLruFile ;;
          if released then AllocateDir_loop fuel' dirname
          else set_errno e ;;; ret NULL
        else ret NULL
  end.

Definition AllocateDir_remote (dirname : string) : M Z :=
  got <- HdfsGetProtocol dirname MAXPGPATH ;;
  match got with
  | None => ret NULL
  | Some proto =>
      conv <- ConvertToUnixPath dirname MAXPGPATH ;;
      match conv with
      | None => ret NULL
      | Some unixpath =>
          fs <- HdfsGetConnection proto dirname ;;
          if fs =? NULL then ret NULL
          else
            info <- call (c_hdfsListDirectory fs unixpath) ;;
            if r_ret info =? NULL then ret NULL
            else
              dir <- sys (c_malloc 1) ;;
              (if dir =? NULL
               then ereport ERROR ERRCODE_OUT_OF_MEMORY "out of memory" []
               else ret tt) ;;;
              n <- gets numAllocatedDescs ;;
              subid <- sys c_GetCurrentSubTransactionId ;;
              set_desc n (fill_remote_desc dir subid (strncpy proto MAXPGPATH)
                            (r_names info)) ;;;
              modify (fun s => with_numAllocatedDescs (numAllocatedDescs s + 1) s) ;;;
              ret dir
      end
  end.

Definition AllocateDir (dirname : string) : M Z :=
  s <- get ;;
  (if out_of_descs s
   then ereport ERROR ERRCODE_DEFAULT
          "could not allocate directory: out of file handles" []
   else ret tt) ;;;
  if negb (IsLocalPath dirname) then AllocateDir_remote dirname
  else AllocateDir_loop (script_fuel s) dirname.

(** Free the entry at index [i] of [allocatedDescs]. *)
Definition FreeDesc (i : Z) : M Z :=
  d <- get_desc i ;;
  result <-
    match kind d with
    | AllocateDescFile => sys (c_fclose (desc d))
    | AllocateDescDir => sys (c_closedir (desc d))
    | AllocateDescRemoteDir =>
        notify (c_HdfsFreeFileInfo (protocol d) (num d)) ;;; ret 1
    end ;;
  (* Compact storage in the allocatedDescs array *)
  modify (fun s => with_numAllocatedDescs (numAllocatedDescs s - 1) s) ;;;
  n <- gets numAllocatedDescs ;;
  last <- get_desc n ;;
  set_desc i (fun _ => last) ;;;
  ret result.

(** [for (i = n; --i >= 0;) if (P(allocatedDescs[i])) ...]: the highest
    index below [n] whose entry satisfies [P]. *)
Fixpoint find_desc_down (P : AllocateDesc -> bool) (l : list AllocateDesc)
    (n : nat) : option nat :=
  match n with
  | O => None
  | S i => if P (l !!! i) then Some i else find_desc_down P l i
  end.

Definition FreeFile (file : Z) : M Z :=
  s <- get ;;
  match find_desc_down
          (fun d => bool_decide (kind d = AllocateDescFile) && (desc d =? file))
          (allocatedDescs s) (Z.to_nat (numAllocatedDescs s)) with
  | Some i => FreeDesc (Z.of_nat i)
  | None =>
      elog LOG
        "file to be closed was not opened through the virtual file descriptor system"
        [] ;;;
      sys (c_fclose file)
  end.

Definition FreeDir (dir : Z) : M Z :=
  s <- get ;;
  match find_desc_down
          (fun d => negb (bool_decide (kind d = AllocateDescFile)) && (desc d =? dir))
          (allocatedDescs s) (Z.to_nat (numAllocatedDescs s)) with
  | Some i => FreeDesc (Z.of_nat i)
  | None =>
      elog LOG
        "directory to be closed was not opened through the virtual file descriptor system"
        [] ;;;
      sys (c_closedir dir)
  end.

(** The part of a path after its last slash. *)
Fixpoint basename (s : string) : string :=
  match s with
  | EmptyString => EmptyString
  | String c rest =>
      match strstr rest "/" with
      | Some _ => basename rest
      | None => if Ascii.eqb c "/" then rest else s
      end
  end.

(** [for (cache_id = 0; cache_id < n; cache_id++) if (P(...)) break;] *)
Fixpoint find_desc_up (P : AllocateDesc -> bool) (l : list AllocateDesc)
    (i : nat) (count : nat) : nat :=
  match count with
  | O => i
  | S count' => if P (l !!! i) then i else find_desc_up P l (S i) count'
  end.

(** Returns the name of the next entry, [None] for the end of the
    directory. *)
Definition ReadDir (dir : Z) (dirname : string) : M (option string) :=
  (if dir =? NULL
   then ereport ERROR ERRCODE_FILE_ACCESS "could not open directory %s: %m"
          [dirname]
   else ret tt) ;;;
  if negb (IsLocalPath dirname) then
    s <- get ;;
    let is_dir d :=
      bool_decide (kind d = AllocateDescRemoteDir) && (desc d =? dir) in
    let cache_id := RecentRemoteAllocatedDesc s in
    cache_id <-
      (if (cache_id <? 0) || (cache_id >=? numAllocatedDescs s)
          || negb (is_dir (allocatedDescs s !!! Z.to_nat cache_id)) then
         let found := Z.of_nat (find_desc_up is_dir (allocatedDescs s) 0
                                  (Z.to_nat (numAllocatedDescs s))) in
         modify (with_RecentRemoteAllocatedDesc found) ;;; ret found
       else ret cache_id) ;;
    d <- get_desc cache_id ;;
    if cur d >=? num d then ret None
    else
      let fullname := default "" (filelist d !! Z.to_nat (cur d)) in
      set_desc cache_id (set_cur (cur d + 1)) ;;;
      let filename := basename fullname in
      (if 256 <? strlen filename + 1
       then ereport ERROR ERRCODE_DEFAULT "file name is too long %s" [filename]
       else ret tt) ;;;
      set_desc cache_id (set_ret_d_name filename) ;;;
      ret (Some filename)
  else
    set_errno 0 ;;;
    dent <- call (c_readdir dir) ;;
    if negb (r_ret dent =? NULL) then ret (Some (default "" (head (r_names dent))))
    else
      e <- gets errno ;;
      (if negb (e =? 0)
       then ereport ERROR ERRCODE_FILE_ACCESS "could not read directory %s: %m"
              [dirname]
       else ret tt) ;;;
      ret None.

(** ** Transaction and process-exit hooks *)

(** [for (i = first; i < SizeVfdCache; i++) body(i)], for a body that does
    not grow the table. *)
Fixpoint for_each_vfd (fuel : nat) (i : Z) (body : Z -> M unit) : M unit :=
  match fuel with
  | O => size <- gets SizeVfdCache ;; if i <? size then stuck else ret tt
  | S fuel' =>
      size <- gets SizeVfdCache ;;
      if i <? size then body i ;;; for_each_vfd fuel' (i + 1) body
      else ret tt
  end.

Definition for_all_vfds (body : Z -> M unit) : M unit :=
  size <- gets SizeVfdCache ;;
  if size >? 0 then for_each_vfd (Z.to_nat size) 1 body else ret tt.

(** The loop of [AtEOSubXact_Files] over [allocatedDescs]; the index is an
    unsigned [Index], stepped back after a [FreeDesc]. *)
Fixpoint AtEOSubXact_descs (fuel : nat) (i : Z) (isCommit : bool)
    (mySubid parentSubid : Z) : M unit :=
  match fuel with
  | O => n <- gets numAllocatedDescs ;; if i <? uint32 n then stuck else ret tt
  | S fuel' =>
      n <- gets numAllocatedDescs ;;
      if i <? uint32 n then
        d <- get_desc i ;;
        if ad_create_subid d =? mySubid then
          if isCommit then
            set_desc i (set_ad_create_subid parentSubid) ;;;
            AtEOSubXact_descs fuel' (uint32 (i + 1)) isCommit mySubid parentSubid
          else
            (* have to recheck the item after FreeDesc (ugly) *)
            FreeDesc i ;;;
            AtEOSubXact_descs fuel' (uint32 (uint32 (i - 1) + 1)) isCommit
              mySubid parentSubid
        else AtEOSubXact_descs fuel' (uint32 (i + 1)) isCommit mySubid parentSubid
      else ret tt
  end.

Definition AtEOSubXact_vfd (isCommit : bool) (mySubid parentSubid : Z)
    (i : Z) : M unit :=
  v <- get_vfd i ;;
  if has_flag (fdstate v) FD_CLOSE_AT_EOXACT && (create_subid v =? mySubid) then
    if isCommit then set_vfd i (set_create_subid parentSubid)
    else if bool_decide (fileName v <> None) then FileClose i
    else ret tt
  else ret tt.

Definition AtEOSubXact_Files (isCommit : bool) (mySubid parentSubid : Z)
    : M unit :=
  for_all_vfds (AtEOSubXact_vfd isCommit mySubid parentSubid) ;;;
  n <- gets numAllocatedDescs ;;
  AtEOSubXact_descs (Z.to_nat n) 0 isCommit mySubid parentSubid.

(** [while (numAllocatedDescs > 0) FreeDesc(&allocatedDescs[0]);] *)
Fixpoint free_all_descs (fuel : nat) : M unit :=
  match fuel with
  | O => n <- gets numAllocatedDescs ;; if n >? 0 then stuck else ret tt
  | S fuel' =>
      n <- gets numAllocatedDescs ;;
      if n >? 0 then FreeDesc 0 ;;; free_all_descs fuel' else ret tt
  end.

Definition CleanupTempFiles_vfd (isProcExit : bool) (i : Z) : M unit :=
  v <- get_vfd i ;;
  if has_flag (fdstate v) FD_CLOSE_AT_EOXACT
     || (isProcExit && has_flag (fdstate v) FD_TEMPORARY)
  then FileClose i
  else ret tt.

Definition CleanupTempFiles (isProcExit : bool) : M unit :=
  for_all_vfds (CleanupTempFiles_vfd isProcExit) ;;;
  n <- gets numAllocatedDescs ;;
  free_all_descs (Z.to_nat n).

Definition AtEOXact_Files : M unit := CleanupTempFiles false.

Definition AtProcExit_Files : M unit := CleanupTempFiles true.

Definition CloseAllHdfsFiles : M unit :=
  for_all_vfds (fun i =>
    c <- gets VfdCache ;;
    if FileIsNotOpen c i || IsLocalFile c i then ret tt
    else
      (* we are in transaction abort, cannot report error while close file *)
      HdfsFileClose i false).

Definition AtXactCancle_Files : M unit := CloseAllHdfsFiles.

Definition closeAllVfds : M unit :=
  for_all_vfds (fun i =>
    c <- gets VfdCache ;;
    if negb (FileIsNotOpen c i) then LruDelete i else ret tt).

(** ** Temporary files *)

Definition path_join (a b : string) : string := (a +:+ "/" +:+ b)%string.

Definition FileNameOpenFile (fileName : string) (fileFlags fileMode : Z)
    : M File :=
  tmp <- call c_getCurrentTempFilePath ;;
  let full := path_join (default "" (head (r_names tmp))) fileName in
  (if 4096 <? strlen full
   then ereport ERROR ERRCODE_DEFAULT "cannot generate path %s/%s" [fileName]
   else ret tt) ;;;
  PathNameOpenFile (snprintf 4096 full) fileFlags fileMode.

(** Returns the length needed and the prefix written to the buffer. *)
Definition GetTempFilePrefix (buflen : Z) (fileName : string) : Z * string :=
  let needlen := strlen PG_TEMP_FILES_DIR + strlen PG_TEMP_FILE_PREFIX
                 + strlen fileName + 2 in
  if buflen <? needlen then (needlen, ""%string)
  else (needlen,
        snprintf buflen
          (PG_TEMP_FILES_DIR +:+ "/" +:+ PG_TEMP_FILE_PREFIX +:+ "_" +:+ fileName)).

(** [%04d] *)
Definition fmt_04d (n : Z) : string :=
  let digits := pretty (Z.abs n) in
  let sign := if n <? 0 then "-"%string else ""%string in
  let width := (4 - String.length sign - String.length digits)%nat in
  (sign +:+ String.concat "" (replicate width "0"%string) +:+ digits)%string.

Definition HasTempFilePrefix (fileName : string) : bool :=
  String.prefix PG_TEMP_FILE_PREFIX fileName.

Definition OpenTemporaryFile (fileName : string) (extentseqnum : Z)
    (makenameunique create delOnClose closeAtEOXact : bool) (MyProcPid : Z)
    : M File :=
  let fileFlags := Z.lor O_RDWR PG_BINARY in
  let fileFlags :=
    if create then Z.lor fileFlags (Z.lor O_TRUNC O_CREAT) else fileFlags in
  let '(len, tempfileprefix) := GetTempFilePrefix MAXPGPATH fileName in
  insist_log (len <=? MAXPGPATH - 1) "could not generate temporary file name" [] ;;;
  tempfilepath <-
    (if makenameunique then
       counter <- gets tempFileCounter ;;
       modify (with_tempFileCounter (counter + 1)) ;;;
       ret (snprintf MAXPGPATH
              (tempfileprefix +:+ "_" +:+ pretty MyProcPid +:+ "_"
               +:+ fmt_04d extentseqnum +:+ "." +:+ pretty counter))
     else
       ret (snprintf MAXPGPATH (tempfileprefix +:+ "." +:+ fmt_04d extentseqnum))) ;;
  file <- FileNameOpenFile tempfilepath fileFlags 384 ;;
  opened <-
    (if file <=? 0 then
       if negb create then ret (inl file)
       else
         tmp <- call c_getCurrentTempFilePath ;;
         sys (c_mkdir (snprintf 4096
                         (path_join (default "" (head (r_names tmp)))
                            PG_TEMP_FILES_DIR)) S_IRWXU) ;;;
         file <- FileNameOpenFile tempfilepath fileFlags 384 ;;
         (if file <=? 0
          then ereport ERROR ERRCODE_DEFAULT
                 "could not create temporary file %s: %m" [tempfilepath]
          else ret tt) ;;;
         ret (inr file)
     else ret (inr file)) ;;
  match opened with
  | inl failure => ret failure
  | inr file =>
      (* Mark it for deletion at close *)
      (if delOnClose
       then set_vfd file (fun v =>
              set_fdstate (uint16 (Z.lor (fdstate v) FD_TEMPORARY)) v)
       else ret tt) ;;;
      (* Mark it to be closed at end of transaction. *)
      (if closeAtEOXact then
         set_vfd file (fun v =>
           set_fdstate (uint16 (Z.lor (fdstate v) FD_CLOSE_AT_EOXACT)) v) ;;;
         subid <- sys c_GetCurrentSubTransactionId ;;
         set_vfd file (set_create_subid subid)
       else ret tt) ;;;
      ret file
  end.

(** ** The startup sweep *)

Definition is_dot_entry (name : string) : bool :=
  String.eqb name "." || String.eqb name "..".

Fixpoint RemovePgTempFilesInDir_loop (fuel : nat) (temp_dir : Z)
    (tmpdirname : string) : M unit :=
  match fuel with
  | O => stuck
  | S fuel' =>
      temp_de <- ReadDir temp_dir tmpdirname ;;
      match temp_de with
      | None => ret tt
      | Some d_name =>
          (if is_dot_entry d_name then ret tt
           else
             let rm_path := snprintf MAXPGPATH (path_join tmpdirname d_name) in
             if HasTempFilePrefix d_name then
               sys (c_unlink rm_path) ;;; ret tt   (* note we ignore any error *)
             else
               elog LOG
                 "unexpected file found in temporary-files directory: %s"
                 [rm_path]) ;;;
          RemovePgTempFilesInDir_loop fuel' temp_dir tmpdirname
      end
  end.

(** A bound on the entries [ReadDir] can still return: one per answer left
    in the script, one per unread name of a remote listing. *)
Definition readdir_fuel (s : State) : nat :=
  (script_fuel s +
   list_sum (map (fun d => Z.to_nat (num d - cur d)) (allocatedDescs s)))%nat.

(** Process one pgsql_tmp directory for RemovePgTempFiles *)
Definition RemovePgTempFilesInDir (tmpdirname : string) : M unit :=
  temp_dir <- AllocateDir tmpdirname ;;
  if temp_dir =? NULL then
    (* anything except ENOENT is fishy *)
    e <- gets errno ;;
    if negb (e =? ENOENT)
    then elog LOG "could not open temporary-files directory %s: %m" [tmpdirname]
    else ret tt
  else
    fuel <- gets readdir_fuel ;;
    RemovePgTempFilesInDir_loop fuel temp_dir tmpdirname ;;;
    FreeDir temp_dir ;;; ret tt.

Fixpoint RemovePgTempFiles_loop (fuel : nat) (db_dir : Z) : M unit :=
  match fuel with
  | O => stuck
  | S fuel' =>
      db_de <- ReadDir db_dir "base" ;;
      match db_de with
      | None => ret tt
      | Some d_name =>
          (if is_dot_entry d_name then ret tt
           else
             RemovePgTempFilesInDir
               (snprintf MAXPGPATH
                  (path_join (path_join "base" d_name) PG_TEMP_FILES_DIR))) ;;;
          RemovePgTempFiles_loop fuel' db_dir
      end
  end.

Definition RemovePgTempFiles : M unit :=
  db_dir <- AllocateDir "base" ;;
  fuel <- gets readdir_fuel ;;
  RemovePgTempFiles_loop fuel db_dir ;;;
  FreeDir db_dir ;;; ret tt.

(** ** Public operations as a transition system *)

Inductive Op :=
| OpPathNameOpenFile (fileName : string) (fileFlags fileMode : Z)
| OpOpenTemporaryFile (fileName : string) (extentseqnum : Z)
    (makenameunique create delOnClose closeAtEOXact : bool) (MyProcPid : Z)
| OpFileClose (file : File)
| OpFileUnlink (file : File)
| OpFileRead (file : File) (amount : Z)
| OpFileWrite (file : File) (amount : Z)
| OpFileSeek (file : File) (offset whence : Z)
| OpAllocateFile (name mode : string)
| OpFreeFile (file : Z)
| OpAllocateDir (dirname : string)
| OpReadDir (dir : Z) (dirname : string)
| OpFreeDir (dir : Z)
| OpAtEOSubXact_Files (isCommit : bool) (mySubid parentSubid : Z)
| OpAtEOXact_Files
| OpAtXactCancle_Files
| OpAtProcExit_Files.

Definition forget {A} (m : M A) : M unit := m ;;; ret tt.

Definition run_op (op : Op) : M unit :=
  match op with
  | OpPathNameOpenFile n f m => forget (PathNameOpenFile n f m)
  | OpOpenTemporaryFile n e u c d x pid =>
      forget (OpenTemporaryFile n e u c d x pid)
  | OpFileClose f => FileClose f
  | OpFileUnlink f => FileUnlink f
  | OpFileRead f a => forget (FileRead f a)
  | OpFileWrite f a => forget (FileWrite f a)
  | OpFileSeek f o w => forget (FileSeek f o w)
  | OpAllocateFile n m => forget (AllocateFile n m)
  | OpFreeFile f => forget (FreeFile f)
  | OpAllocateDir d => forget (AllocateDir d)
  | OpReadDir d n => forget (ReadDir d n)
  | OpFreeDir d => forget (FreeDir d)
  | OpAtEOSubXact_Files c m p => AtEOSubXact_Files c m p
  | OpAtEOXact_Files => AtEOXact_Files
  | OpAtXactCancle_Files => AtXactCancle_Files
  | OpAtProcExit_Files => AtProcExit_Files
  end.

(** One public operation, run against the answers [script] of the
    environment.  The state survives a normal return and an [ERROR]
    (control unwinds to the caller of the module); the process ends at a
    [FATAL]. *)
Definition step (op : Op) (script : list Reply) (s : State) : option State :=
  match run_op op (with_replies script s) with
  | Normal _ s' => Some s'
  | Raised SevError _ _ s' => Some s'
  | Raised SevInsist _ _ s' => Some s'
  | Raised SevFatal _ _ _ => None
  | Stuck _ => None
  end.

Fixpoint run_ops (ops : list (Op * list Reply)) (s : State) : option State :=
  match ops with
  | [] => Some s
  | (op, script) :: rest =>
      match step op script s with
      | Some s' => run_ops rest s'
      | None => None
      end
  end.

(** The state of a backend after [InitFileAccess]. *)
Definition started : State :=
  with_VfdCache [set_fd VFD_CLOSED zeroVfd] (initial_state []).

Definition reachable (s : State) : Prop :=
  exists ops, run_ops ops started = Some s.

(** ** Vocabulary of the properties *)

(** Weakest precondition of a computation: [Qn] holds of a normal return,
    [Qe] of the state at an [ereport]; [T] is what a script that runs out of
    answers is worth. *)
Definition wpx (T : Prop) {A} (m : M A) (Qn : A -> State -> Prop)
    (Qe : Severity -> State -> Prop) (s : State) : Prop :=
  match m s with
  | Normal a s' => Qn a s'
  | Raised sev _ _ s' => Qe sev s'
  | Stuck _ => T
  end.

(** Partial: nothing is said when the script is too short. *)
Abbreviation wp := (wpx True).
(** Total: the script suffices. *)
Abbreviation twp := (wpx False).

(** The globals of the module, without the environment's script, [errno]
    and the log. *)
Definition globals (s : State) :=
  (max_files_per_process s, max_safe_fds s, VfdCache s, nfile s,
   numAllocatedDescs s, allocatedDescs s, RecentRemoteAllocatedDesc s,
   tempFileCounter s, HdfsFsTable s).

(** The highest descriptor among [fds], [0] when there is none. *)
Definition highest_fd (fds : list Z) : Z := fold_left Z.max fds 0.

(** How the probe of [count_usable_fds] ends after [n] successful dups: at
    the probe limit, or on a [dup] that fails for lack of descriptors. *)
Definition probe_stops (cap : Z) (n : nat) (stop : list Reply) : Prop :=
  (stop = [] /\ Z.of_nat n = cap) \/
  (exists f, stop = [f] /\ r_ret f < 0 /\
             (r_errno f = EMFILE \/ r_errno f = ENFILE) /\ Z.of_nat n < cap).

(** The calls of a given kind that the module has made so far. *)
Definition calls (kind_of : Call -> bool) (s : State) : list Call :=
  List.filter kind_of (map ev_call (trace s)).

Definition is_HdfsCloseFile (c : Call) : bool :=
  match c with c_HdfsCloseFile _ _ _ => true | _ => false end.
Definition is_unlink (c : Call) : bool :=
  match c with c_unlink _ => true | _ => false end.
Definition is_close (c : Call) : bool :=
  match c with c_close _ => true | _ => false end.
Definition is_open (c : Call) : bool :=
  match c with c_open _ _ _ => true | _ => false end.

(** A [close] that was interrupted by a signal. *)
Definition interrupted (r : Reply) : Prop := r_ret r = -1 /\ r_errno r = EINTR.

(** The answers to [gp_retry_close]: interrupted attempts, then one that is
    not retried. *)
Definition close_answers (rs : list Reply) (final : Reply) (e0 : Z) : Prop :=
  Forall interrupted rs /\
  (r_ret final =? -1) &&
  ((if r_errno final =? 0
    then (match rs with [] => e0 | _ => EINTR end)
    else r_errno final) =? EINTR) = false.

(** What a computation may change besides the environment: only the link
    fields of the LRU ring. *)
Definition same_but_links (v v' : Vfd) : Prop :=
  fd v' = fd v /\ fdstate v' = fdstate v /\ create_subid v' = create_subid v /\
  nextFree v' = nextFree v /\ seekPos v' = seekPos v /\
  fileName v' = fileName v /\ fileFlags v' = fileFlags v /\
  fileMode v' = fileMode v /\ hFS v' = hFS v /\ hFile v' = hFile v /\
  hProtocol v' = hProtocol v.

(** The events logged between two states. *)
Definition logged (s s' : State) (new : list Event) : Prop :=
  trace s' = trace s ++ new.



(** ** The ring invariant *)

(** Slot 0 and the slots that hold a kernel descriptor. *)
Definition in_ring (c : list Vfd) (i : File) : Prop :=
  i = 0 \/ (0 < i < Z.of_nat (length c) /\ fd (slot c i) <> VFD_CLOSED).

Definition more (c : list Vfd) (i : File) : File := lruMoreRecently (slot c i).
Definition less (c : list Vfd) (i : File) : File := lruLessRecently (slot c i).

(** Slot [i] is doubly linked to ring members other than [x]. *)
Definition linked (c : list Vfd) (x i : File) : Prop :=
  in_ring c (more c i) /\ more c i <> x /\
  in_ring c (less c i) /\ less c i <> x /\
  less c (more c i) = i /\ more c (less c i) = i.

(** Every ring member but [x] is linked, and none of them to [x]: the ring
    while [x] is being taken out or put in. *)
Definition ring_ok_except (c : list Vfd) (x : File) : Prop :=
  (0 < length c)%nat /\ forall i, in_ring c i -> i <> x -> linked c x i.

(** The LRU ring is well formed: the slots that hold a descriptor, with slot
    0, are linked both ways among themselves. *)
Definition ring_ok (c : list Vfd) : Prop := ring_ok_except c (-1).

(** ** Eviction *)

(** The globals other than the VFD table and [nfile]. *)
Definition registry (s : State) :=
  (max_files_per_process s, max_safe_fds s, numAllocatedDescs s,
   allocatedDescs s, RecentRemoteAllocatedDesc s, tempFileCounter s,
   HdfsFsTable s).

(** A slot after [LruDelete]: position saved, descriptor and handles gone. *)
Definition closed_slot (pos : Z) (v : Vfd) : Vfd :=
  set_hProtocol None (set_hFile NULL (set_hFS NULL
    (set_fd VFD_CLOSED (set_seekPos pos v)))).

Definition is_local (v : Vfd) : bool := (hFile v =? NULL) && (hFS v =? NULL).

(** The call that saves the position of a slot, and the call that closes it. *)
Definition saving_call (v : Vfd) : Call :=
  if is_local v then c_lseek (fd v) 0 SEEK_CUR
  else c_HdfsTell (hProtocol v) (hFS v) (hFile v).
Definition closing_call (v : Vfd) : Call :=
  if is_local v then c_close (fd v)
  else c_HdfsCloseFile (hProtocol v) (hFS v) (hFile v).

(** [LruDelete x] went through, with [pos] and [closed] the answers to its
    two calls. *)
Definition evicted (s : State) (x : File) (pos closed : Reply) (s' : State)
    : Prop :=
  r_ret pos <> -1 /\ r_ret closed = 0 /\
  nfile s' = nfile s - 1 /\ registry s' = registry s /\
  length (VfdCache s') = length (VfdCache s) /\
  same_but_links (closed_slot (r_ret pos) (slot (VfdCache s) x))
    (slot (VfdCache s') x) /\
  (forall f, f <> x ->
     same_but_links (slot (VfdCache s) f) (slot (VfdCache s') f)) /\
  (exists new, logged s s' new /\
     map ev_call new = [saving_call (slot (VfdCache s) x);
                        closing_call (slot (VfdCache s) x)]) /\
  replies s' = tl (tl (replies s)) /\
  (ring_ok (VfdCache s) -> in_ring (VfdCache s) x ->
   (x = 0 -> more (VfdCache s) 0 = 0) -> ring_ok (VfdCache s')).

(** [LruDelete x] was abandoned: the saved position was -1 ([Insist]), or
    the close failed (ERROR).  The accounting is as before; the slot keeps
    its descriptor, with the position just read. *)
Definition eviction_failed (s : State) (x : File) (sev : Severity)
    (s' : State) : Prop :=
  nfile s' = nfile s /\ registry s' = registry s /\
  length (VfdCache s') = length (VfdCache s) /\
  same_but_links
    (set_seekPos (seekPos (slot (VfdCache s') x)) (slot (VfdCache s) x))
    (slot (VfdCache s') x) /\
  (forall f, f <> x ->
     same_but_links (slot (VfdCache s) f) (slot (VfdCache s') f)) /\
  ((sev = SevInsist /\ exists pos rest,
      replies s = pos :: rest /\ r_ret pos = -1 /\
      seekPos (slot (VfdCache s') x) = -1 /\
      exists new, logged s s' new /\
        map ev_call new = [saving_call (slot (VfdCache s) x)]) \/
   (sev = SevError /\ exists pos closed rest,
      replies s = pos :: closed :: rest /\ r_ret pos <> -1 /\
      r_ret closed <> 0 /\
      seekPos (slot (VfdCache s') x) = r_ret pos)).

(** ** Reopening *)

(** What [FileAccess] may change of the slot it is called on: the kernel
    descriptor and the links of the ring. *)
Definition same_file (v v' : Vfd) : Prop :=
  fdstate v' = fdstate v /\ create_subid v' = create_subid v /\
  nextFree v' = nextFree v /\ seekPos v' = seekPos v /\
  fileName v' = fileName v /\ fileFlags v' = fileFlags v /\
  fileMode v' = fileMode v /\ hFS v' = hFS v /\ hFile v' = hFile v /\
  hProtocol v' = hProtocol v.

(** Slot [file], closed in [s0], while descriptors are made free for it:
    the ring stays well formed and the slot keeps its fields. *)
Definition kept (s0 : State) (file : File) (s : State) : Prop :=
  ring_ok (VfdCache s) /\
  length (VfdCache s) = length (VfdCache s0) /\
  same_but_links (slot (VfdCache s0) file) (slot (VfdCache s) file) /\
  exists new, logged s0 s new.

(** Call [c] was made between [s] and [s']. *)
Definition called (s s' : State) (c : Call) : Prop :=
  exists new, logged s s' new /\ In c (map ev_call new).

(** The [open] that brings a closed slot back. *)
Definition reopening_call (v : Vfd) : Call :=
  c_open (default "" (fileName v)) (fileFlags v) (fileMode v).

(** Between [s] and [s'] the VFD table was left alone. *)
Definition quiet (s s' : State) : Prop :=
  VfdCache s' = VfdCache s /\ exists new, logged s s' new.

(** The DFS client was asked to open a file with [fileFlags]. *)
Definition forwarded (s s' : State) (fileFlags : Z) : Prop :=
  exists protocol fs path rep,
    called s s' (c_HdfsOpenFile protocol fs path fileFlags 0 rep 0).

(** ** Seeking *)



(** ** Transfers *)

Inductive RW :=
| Rd (amount : Z)
| Wr (amount : Z).

Definition do_rw (file : File) (op : RW) : M Z :=
  match op with
  | Rd amount => FileRead file amount
  | Wr amount => FileWrite file amount
  end.

(** The calls of [ops] on [file], one after the other; the values they
    return. *)
Fixpoint do_rws (file : File) (ops : list RW) : M (list Z) :=
  match ops with
  | [] => ret []
  | op :: ops' =>
      n <- do_rw file op ;;
      ns <- do_rws file ops' ;;
      ret (n :: ns)
  end.

Definition sumZ (ns : list Z) : Z := fold_right Z.add 0 ns.

(** The table after a transfer on [file] that started from table [c1] and
    returned [r]: the position has advanced by [r], or is unknown when [r]
    is negative. *)
Definition transferred (c1 : list Vfd) (file : File) (r : Z)
    (c' : list Vfd) : Prop :=
  c' = upd file
         (set_seekPos (if r <? 0 then FileUnknownPos
                       else int64 (seekPos (slot c1 file) + r))) c1.

(** ** The end of a subtransaction *)




(** The entries of [allocatedDescs] that are in use. *)
Definition live_descs (s : State) : list AllocateDesc :=
  take (Z.to_nat (numAllocatedDescs s)) (allocatedDescs s).

(** A call that the environment answers with 0. *)
Definition succeeds (r : Reply) : Prop := r_ret r = 0.

(** A slot on the free list. *)
Definition freed (v : Vfd) : Prop :=
  fd v = VFD_CLOSED /\ fdstate v = 0 /\ fileName v = None /\
  hFS v = NULL /\ hFile v = NULL /\ hProtocol v = None.

(** The [unlink] that closing slot [v] calls: that of a temporary local
    file. *)
Definition unlinked (v : Vfd) : list Call :=
  if is_local v && has_flag (fdstate v) FD_TEMPORARY
  then [c_unlink (default "" (fileName v))] else [].

(** Closing slot [v] lowers [nfile] when [v] is a local slot that holds a
    descriptor ([LocalFileClose] under [!FileIsNotOpen]); [HdfsFileClose]
    leaves [nfile] alone. *)
Definition counted (v : Vfd) : bool :=
  is_local v && negb (fd v =? VFD_CLOSED).

Definition is_closing (c : Call) : bool := is_close c || is_HdfsCloseFile c.

(** The closing calls of [FileClose] on slot [v], in order: none for a
    local slot without a descriptor; [close] on the descriptor of a local
    slot, once and once more for each interrupted attempt
    ([gp_retry_close]), and only once if the script is [calm]; one
    [HdfsCloseFile] on the handles of a DFS slot. *)
Definition close_calls (calm : Prop) (v : Vfd) (l : list Call) : Prop :=
  if is_local v
  then if fd v =? VFD_CLOSED then l = []
       else exists k : nat,
              l = replicate (S k) (c_close (fd v)) /\ (calm -> k = 0%nat)
  else l = [c_HdfsCloseFile (hProtocol v) (hFS v) (hFile v)].

(** What [FileClose file] does to the descriptor or handles of the slot:
    the closing calls are made, and [nfile] counts the slot out. *)
Definition handle_closed (s : State) (file : File) (s' : State) : Prop :=
  let v := slot (VfdCache s) file in
  nfile s' = nfile s - (if counted v then 1 else 0) /\
  exists l, close_calls (Forall succeeds (replies s)) v l /\
            calls is_closing s' = calls is_closing s ++ l.

(** What [FileClose file] does to the table: the slot is on top of the
    free list. *)
Definition slot_freed (s : State) (file : File) (s' : State) : Prop :=
  length (VfdCache s') = length (VfdCache s) /\
  freed (slot (VfdCache s') file) /\
  nextFree (slot (VfdCache s') file) = nextFree (slot (VfdCache s) 0) /\
  nextFree (slot (VfdCache s') 0) = file /\
  (forall f, f <> file -> f <> 0 ->
     same_but_links (slot (VfdCache s) f) (slot (VfdCache s') f)) /\
  numAllocatedDescs s' = numAllocatedDescs s /\
  allocatedDescs s' = allocatedDescs s /\
  (exists new, logged s s' new /\
     List.filter is_unlink (map ev_call new)
     = unlinked (slot (VfdCache s) file)) /\
  (Forall succeeds (replies s) ->
   exists k, (k <= 2)%nat /\ replies s' = drop k (replies s)).

(** [FileClose file] went through. *)
Definition file_closed (s : State) (file : File) (s' : State) : Prop :=
  slot_freed s file s' /\ handle_closed s file s'.


(** The slots below [k] that a loop closing the slots chosen by [sel]
    has closed, in the order of the loop. *)
Definition selected_upto (sel : Vfd -> bool) (c : list Vfd) (k : Z)
    : list File :=
  List.filter (fun f => sel (slot c f)) (seqZ 1 (k - 1)).

(** The descriptors and handles of the slots [closed] of the table of [s]
    were closed, in that order: [nfile] counts out the local slots that
    held a descriptor, and the closing calls made are those of each slot. *)
Definition handles_closed (s : State) (closed : list File) (s' : State)
    : Prop :=
  nfile s'
  = nfile s
    - Z.of_nat (length (List.filter
                          (fun f => counted (slot (VfdCache s) f)) closed)) /\
  exists ls,
    Forall2 (fun f l => close_calls (Forall succeeds (replies s))
                          (slot (VfdCache s) f) l) closed ls /\
    calls is_closing s' = calls is_closing s ++ concat ls.

(** The first [n] slots of the free list that starts at [i], and the slot
    that follows them. *)
Fixpoint free_list (c : list Vfd) (n : nat) (i : File) : list File :=
  match n with
  | O => []
  | S n' => i :: free_list c n' (nextFree (slot c i))
  end.

Fixpoint free_nth (c : list Vfd) (n : nat) (i : File) : File :=
  match n with
  | O => i
  | S n' => free_nth c n' (nextFree (slot c i))
  end.

(** The call by which [FreeDesc] closes an entry. *)
Definition desc_close_call (d : AllocateDesc) : Call :=
  match kind d with
  | AllocateDescFile => c_fclose (desc d)
  | AllocateDescDir => c_closedir (desc d)
  | AllocateDescRemoteDir => c_HdfsFreeFileInfo (protocol d) (num d)
  end.

(** The state while a loop that closes the slots chosen by [sel] has gone
    through the slots below [k] of the table of [s]: the chosen slots are
    free and head the free list, the last closed first; the others keep all
    but their ring links. *)
Definition closed_pass (sel : Vfd -> bool) (s : State) (k : Z) (sk : State)
    : Prop :=
  let closed := selected_upto sel (VfdCache s) k in
  length (VfdCache sk) = length (VfdCache s) /\
  (forall f, 1 <= f ->
     if bool_decide (f < k) && sel (slot (VfdCache s) f)
     then freed (slot (VfdCache sk) f)
     else same_but_links (slot (VfdCache s) f) (slot (VfdCache sk) f)) /\
  numAllocatedDescs sk = numAllocatedDescs s /\
  allocatedDescs sk = allocatedDescs s /\
  (exists new, logged s sk new /\
     List.filter is_unlink (map ev_call new)
     = flat_map (fun f => unlinked (slot (VfdCache s) f)) closed) /\
  (free_list (VfdCache sk) (length closed) (nextFree (slot (VfdCache sk) 0))
   = rev closed /\
   free_nth (VfdCache sk) (length closed) (nextFree (slot (VfdCache sk) 0))
   = nextFree (slot (VfdCache s) 0)) /\
  (Forall succeeds (replies s) ->
   exists n, (Z.of_nat n <= 2 * (k - 1)) /\ replies sk = drop n (replies s)) /\
  handles_closed s closed sk.



(** ** Making room *)

(** A slot that is still the same logical file: it kept its descriptor and
    handles, or lost them to an eviction. *)
Definition parked (v v' : Vfd) : Prop :=
  fdstate v' = fdstate v /\ create_subid v' = create_subid v /\
  nextFree v' = nextFree v /\ fileName v' = fileName v /\
  fileFlags v' = fileFlags v /\ fileMode v' = fileMode v /\
  (fd v' = fd v /\ seekPos v' = seekPos v /\ hFS v' = hFS v /\
   hFile v' = hFile v /\ hProtocol v' = hProtocol v \/
   fd v' = VFD_CLOSED /\ hFS v' = NULL /\ hFile v' = NULL /\
   hProtocol v' = None).

(** Descriptors were released between [s] and [s']: the registry and the
    size of the table are as before, every slot is the same logical file,
    [nfile] has not grown, the ring is well formed and nothing was
    unlinked. *)
Definition released (s s' : State) : Prop :=
  ring_ok (VfdCache s') /\ registry s' = registry s /\
  length (VfdCache s') = length (VfdCache s) /\
  (forall f, parked (slot (VfdCache s) f) (slot (VfdCache s') f)) /\
  nfile s' <= nfile s /\
  calls is_unlink s' = calls is_unlink s.

(** [k] slots were evicted between [s] and [s'], with two answers each. *)
Definition evictions (s s' : State) (k : nat) : Prop :=
  replies s' = drop (2 * k) (replies s) /\ Z.of_nat k = nfile s - nfile s'.

(** ** Handing out slots *)

(** The head of the free list is a slot of the table that holds neither a
    descriptor nor DFS handles, or the list is empty. *)
Definition free_head_ok (c : list Vfd) : Prop :=
  let h := nextFree (slot c 0) in
  h = 0 \/ (0 < h < Z.of_nat (length c) /\ FileIsNotOpen c h = true).

(** [AllocateVfd] returned [file]: the head of the free list, or the first
    slot of the part by which the table has grown. *)
Definition allocated (s : State) (file : File) (s' : State) : Prop :=
  let c := VfdCache s in
  let c' := VfdCache s' in
  let size := Z.of_nat (length c) in
  0 < file < Z.of_nat (length c') /\
  FileIsNotOpen c' file = true /\
  nextFree (slot c' 0) = nextFree (slot c' file) /\
  same_but_links (set_nextFree (nextFree (slot c' 0)) (slot c 0)) (slot c' 0) /\
  lruMoreRecently (slot c' 0) = lruMoreRecently (slot c 0) /\
  lruLessRecently (slot c' 0) = lruLessRecently (slot c 0) /\
  (forall f, 0 < f < size -> slot c' f = slot c f) /\
  (if nextFree (slot c 0) =? 0
   then file = size /\
        Z.of_nat (length c') = Z.max 32 (2 * size) /\
        (forall f, size <= f < Z.of_nat (length c') ->
           slot c' f
           = set_nextFree (if f =? Z.of_nat (length c') - 1 then 0 else f + 1)
               (fresh_slot f))
   else file = nextFree (slot c 0) /\ length c' = length c) /\
  nfile s' = nfile s /\ registry s' = registry s.

(** ** Opening a local file *)

(** What an open leaves of the table of [s], [file] being the slot it took:
    the ring is well formed, the other slots are the same logical files,
    the registry is untouched and nothing was unlinked. *)
Definition table_kept (s : State) (file : File) (s' : State) : Prop :=
  ring_ok (VfdCache s') /\
  (length (VfdCache s) <= length (VfdCache s'))%nat /\
  (forall f, 0 < f < Z.of_nat (length (VfdCache s)) -> f <> file ->
     parked (slot (VfdCache s) f) (slot (VfdCache s') f)) /\
  registry s' = registry s /\
  calls is_unlink s' = calls is_unlink s.

(** Slot [file] after [LocalPathNameOpenFile] opened [name] in it. *)
Definition opened_local (s : State) (name : string) (flags mode : Z)
    (file : File) (s' : State) : Prop :=
  let c' := VfdCache s' in
  let v := slot c' file in
  0 < file < Z.of_nat (length c') /\
  0 <= fd v /\ IsLocalFile c' file = true /\
  fileName v = Some name /\
  fileFlags v = Z.land flags (Z.lnot (Z.lor (Z.lor O_CREAT O_TRUNC) O_EXCL)) /\
  fileMode v = mode /\ seekPos v = 0 /\ fdstate v = 0 /\
  lruLessRecently (slot c' 0) = file /\ lruMoreRecently v = 0 /\
  nfile s' <= nfile s + 1 /\
  (nfile s' + numAllocatedDescs s' <= max_safe_fds s' \/ nfile s' <= 1).

(** Slot [file] after an open that failed: back on top of the free list. *)
Definition open_failed (s : State) (file : File) (s' : State) : Prop :=
  let c' := VfdCache s' in
  0 < file < Z.of_nat (length c') /\
  freed (slot c' file) /\ nextFree (slot c' 0) = file /\
  nfile s' <= nfile s.

(** ** Opening a DFS file *)

(** The globals that describe files: all but the table of DFS
    connections. *)
Definition files (s : State) :=
  (max_files_per_process s, max_safe_fds s, VfdCache s, nfile s,
   numAllocatedDescs s, allocatedDescs s, RecentRemoteAllocatedDesc s,
   tempFileCounter s).

(** Between [s] and [s'] only the environment and the table of DFS
    connections were touched. *)
Definition aside (s s' : State) : Prop :=
  files s' = files s /\ exists new, logged s s' new.

(** Slot [file] after [HdfsPathNameOpenFile] opened [name] in it. *)
Definition opened_dfs (name : string) (flags mode : Z) (v : Vfd) : Prop :=
  fileName v = Some name /\ hFS v <> NULL /\ hFile v <> NULL /\
  fileFlags v = Z.lor (Z.land flags (Z.lnot O_CREAT)) O_APPEND /\
  fileMode v = mode /\ seekPos v = 0 /\ fdstate v = 0 /\ fd v = VFD_CLOSED.

(** ** The registry of streams and directories *)

Definition is_fclose (c : Call) : bool :=
  match c with c_fclose _ => true | _ => false end.

(** The registry is within its bounds. *)
Definition registry_ok (s : State) : Prop :=
  0 <= numAllocatedDescs s <= MAX_ALLOCATED_DESCS /\
  length (allocatedDescs s) = Z.to_nat MAX_ALLOCATED_DESCS.

(** Entry [d] records stream [file]. *)
Definition is_stream (file : Z) (d : AllocateDesc) : Prop :=
  kind d = AllocateDescFile /\ desc d = file.

(** ** Sweeping a directory of temporary files *)

Definition is_closedir (c : Call) : bool :=
  match c with c_closedir _ => true | _ => false end.

Definition is_log (c : Call) : bool :=
  match c with c_elog LOG _ _ => true | _ => false end.

(** The name of a directory entry returned by [readdir]. *)
Definition d_name (de : Reply) : string := default "" (head (r_names de)).

(** The path the sweep of [tmpdirname] builds for an entry. *)
Definition rm_path (tmpdirname name : string) : string :=
  snprintf MAXPGPATH (path_join tmpdirname name).

(** The entry is removed by the sweep. *)
Definition swept (name : string) : bool :=
  negb (is_dot_entry name) && HasTempFilePrefix name.

(** The entry is reported by the sweep and left in place. *)
Definition unexpected (name : string) : bool :=
  negb (is_dot_entry name) && negb (HasTempFilePrefix name).

(** The answers of the environment while a directory is swept: for each
    entry that of [readdir] and, if the entry is removed, that of
    [unlink]. *)
Definition sweep_answers (entries : list (Reply * Reply)) : list Reply :=
  flat_map (fun e => fst e :: if swept (d_name (fst e)) then [snd e] else [])
    entries.

(** What the sweep of directory [dir], opened as [tmpdirname], calls for
    an entry. *)
Definition sweep_calls (dir : Z) (tmpdirname : string) (name : string)
    : list Call :=
  c_readdir dir ::
  (if swept name then [c_unlink (rm_path tmpdirname name)]
   else if unexpected name
        then [c_elog LOG
                "unexpected file found in temporary-files directory: %s"
                [rm_path tmpdirname name]]
        else []).

(** ** Closing every descriptor *)

(** The slots below [k] that hold a descriptor or DFS handles. *)
Definition open_upto (c : list Vfd) (k : Z) : list File :=
  List.filter (fun f => negb (FileIsNotOpen c f)) (seqZ 1 (k - 1)).

(** The state while [closeAllVfds] has gone through the slots below [k] of
    the table of [s]. *)
Definition all_closed_upto (s : State) (k : Z) (sk : State) : Prop :=
  length (VfdCache sk) = length (VfdCache s) /\
  (forall f, 1 <= f ->
     if bool_decide (f < k)
     then parked (slot (VfdCache s) f) (slot (VfdCache sk) f) /\
          FileIsNotOpen (VfdCache sk) f = true
     else same_but_links (slot (VfdCache s) f) (slot (VfdCache sk) f)) /\
  registry sk = registry s /\
  nfile sk = nfile s - Z.of_nat (length (open_upto (VfdCache s) k)) /\
  calls is_unlink sk = calls is_unlink s /\
  (Forall succeeds (replies s) ->
   replies sk
   = drop (2 * length (open_upto (VfdCache s) k)) (replies s)).

(** ** Closing the DFS files *)

(** The slots below [k] that hold DFS handles. *)
Definition dfs_upto (c : list Vfd) (k : Z) : list File :=
  List.filter (fun f => negb (IsLocalFile c f)) (seqZ 1 (k - 1)).

(** The state while [CloseAllHdfsFiles] has gone through the slots below
    [k] of the table of [s]. *)
Definition hdfs_closed_upto (s : State) (k : Z) (sk : State) : Prop :=
  length (VfdCache sk) = length (VfdCache s) /\
  (forall f, 1 <= f ->
     if bool_decide (f < k) && negb (IsLocalFile (VfdCache s) f)
     then freed (slot (VfdCache sk) f)
     else slot (VfdCache sk) f = slot (VfdCache s) f) /\
  lruMoreRecently (slot (VfdCache sk) 0) = lruMoreRecently (slot (VfdCache s) 0) /\
  lruLessRecently (slot (VfdCache sk) 0) = lruLessRecently (slot (VfdCache s) 0) /\
  registry sk = registry s /\ nfile sk = nfile s /\
  calls is_HdfsCloseFile sk
  = calls is_HdfsCloseFile s
    ++ map (fun f => closing_call (slot (VfdCache s) f))
         (dfs_upto (VfdCache s) k) /\
  calls is_unlink sk = calls is_unlink s /\
  replies sk = drop (length (dfs_upto (VfdCache s) k)) (replies s).

(** ** The end of a transaction and of the process *)

(** The slot is closed by [CleanupTempFiles]. *)
Definition cleaned (isProcExit : bool) (v : Vfd) : bool :=
  has_flag (fdstate v) FD_CLOSE_AT_EOXACT
  || (isProcExit && has_flag (fdstate v) FD_TEMPORARY).

(** The registry after every live entry was freed. *)
Definition registry_emptied (s s' : State) : Prop :=
  VfdCache s' = VfdCache s /\ nfile s' = nfile s /\
  numAllocatedDescs s' = 0 /\
  (exists new, logged s s' new /\
     map ev_call new ≡ₚ map desc_close_call (live_descs s)) /\
  (Forall succeeds (replies s) ->
   exists n, Z.of_nat n <= numAllocatedDescs s /\
             replies s' = drop n (replies s)).

(** What [CleanupTempFiles] leaves: the marked slots were closed ([close]
    or [HdfsCloseFile] was called on each that held a descriptor or handles,
    and [nfile] counts the local ones out), they are free and head the free
    list, the last closed first, and the temporary local files among them
    were unlinked; the other slots keep all but their ring links; the
    registry is empty, each of its entries having been closed. *)
Definition files_cleaned (isProcExit : bool) (s s' : State) : Prop :=
  let closed :=
    selected_upto (cleaned isProcExit) (VfdCache s) (SizeVfdCache s) in
  length (VfdCache s') = length (VfdCache s) /\
  (forall f, 1 <= f < SizeVfdCache s ->
     if cleaned isProcExit (slot (VfdCache s) f)
     then freed (slot (VfdCache s') f)
     else same_but_links (slot (VfdCache s) f) (slot (VfdCache s') f)) /\
  free_list (VfdCache s') (length closed) (nextFree (slot (VfdCache s') 0))
  = rev closed /\
  free_nth (VfdCache s') (length closed) (nextFree (slot (VfdCache s') 0))
  = nextFree (slot (VfdCache s) 0) /\
  numAllocatedDescs s' = 0 /\
  handles_closed s closed s' /\
  exists new1 new2,
    logged s s' (new1 ++ new2) /\
    List.filter is_unlink (map ev_call new1)
    = flat_map (fun f => unlinked (slot (VfdCache s) f)) closed /\
    map ev_call new2 ≡ₚ map desc_close_call (live_descs s).

(** ** Listings of DFS directories *)

(** The registry entry of the DFS directory that [AllocateDir] returned
    as [dir]. *)
Definition is_remote_dir (dir : Z) (d : AllocateDesc) : bool :=
  bool_decide (kind d = AllocateDescRemoteDir) && (desc d =? dir).

(** Entry [i] is the one entry in use that stands for [dir]. *)
Definition listing_at (s : State) (dir : Z) (i : nat) : Prop :=
  (i < Z.to_nat (numAllocatedDescs s))%nat /\
  (i < length (allocatedDescs s))%nat /\
  is_remote_dir dir (allocatedDescs s !!! i) = true /\
  forall j, (j < Z.to_nat (numAllocatedDescs s))%nat ->
    is_remote_dir dir (allocatedDescs s !!! j) = true -> j = i.

(** The names of the listing of [d] that have not been read. *)
Definition unread (d : AllocateDesc) : list string :=
  drop (Z.to_nat (cur d)) (filelist d).

(** [while ((dirent = ReadDir(dir, path)) != NULL) process dirent;], the
    names seen in a list. *)
Fixpoint ReadDir_all (fuel : nat) (dir : Z) (dirname : string)
    : M (list string) :=
  match fuel with
  | O => stuck
  | S fuel' =>
      de <- ReadDir dir dirname ;;
      match de with
      | None => ret []
      | Some name =>
          names <- ReadDir_all fuel' dir dirname ;;
          ret (name :: names)
      end
  end.

(** Between [s] and [s'] at most [k] answers of the script were used. *)
Definition used_upto (k : nat) (s s' : State) : Prop :=
  exists j, (j <= k)%nat /\ replies s' = drop j (replies s).

(** Entry [d] is the unread listing [names] of the DFS directory [dir]. *)
Definition is_listing (dir : Z) (names : list string) (d : AllocateDesc)
    : Prop :=
  kind d = AllocateDescRemoteDir /\ desc d = dir /\ filelist d = names /\
  cur d = 0 /\ num d = Z.of_nat (length names).

(** Entry [d] stands for directory [dir], local or remote: the test of
    [FreeDir]. *)
Definition is_dir_entry (dir : Z) (d : AllocateDesc) : bool :=
  negb (bool_decide (kind d = AllocateDescFile)) && (desc d =? dir).

(** ** Interrupted transfers *)

Definition is_read (c : Call) : bool :=
  match c with c_read _ _ => true | _ => false end.
Definition is_write (c : Call) : bool :=
  match c with c_write _ _ => true | _ => false end.

(** A transfer that is not tried again: it went through, or it failed for
    another reason than a signal. *)
Definition settled (r : Reply) : Prop :=
  0 <= r_ret r \/ (r_errno r <> 0 /\ r_errno r <> EINTR).

(** The saved position of a slot at [pos] after a transfer that returned
    [n]. *)
Definition moved (pos n : Z) : Z :=
  if n >=? 0 then int64 (pos + n) else FileUnknownPos.

(** [errno] after a [write] of [amount] bytes that was answered by [r]: a
    short count that comes without an error is taken for a full disk. *)
Definition errno_written (amount : Z) (r : Reply) : Z :=
  if r_errno r =? 0 then (if r_ret r =? amount then 0 else ENOSPC)
  else r_errno r.

(** ** The sweep at start-up *)

(** The directory of temporary files of the database whose directory under
    base is [name]. *)
Definition db_temp_path (name : string) : string :=
  snprintf MAXPGPATH (path_join (path_join "base" name) PG_TEMP_FILES_DIR).

(** A directory that does not exist: the answer of [opendir]. *)
Definition missing (r : Reply) : Prop := r_ret r = NULL /\ r_errno r = ENOENT.

(** The answers of the environment while base is read and no database has
    a directory of temporary files: for each entry that of [readdir] and,
    unless the entry is "." or "..", that of [opendir]. *)
Definition db_answers (entries : list (Reply * Reply)) : list Reply :=
  flat_map (fun e => fst e :: if is_dot_entry (d_name (fst e)) then []
                              else [snd e])
    entries.

(** What [RemovePgTempFiles] calls for an entry of base then. *)
Definition db_calls (dir : Z) (name : string) : list Call :=
  c_readdir dir ::
  (if is_dot_entry name then [] else [c_opendir (db_temp_path name)]).

Definition is_opendir (c : Call) : bool :=
  match c with c_opendir _ => true | _ => false end.

(** [opendir] failed for lack of descriptors. *)
Definition out_of_fds (o : Reply) : bool :=
  (r_errno o =? EMFILE) || (r_errno o =? ENFILE).

(** What the environment answers while the directory of temporary files of
    one database is processed: [opendir] fails with answer [o], or the
    directory is opened (answers of [opendir] and of
    [GetCurrentSubTransactionId]), read (for each entry the answers of
    [readdir] and, if the entry is removed, of [unlink]) up to the answer
    [last] of [readdir] and closed (answer [cl] of [closedir]). *)
Inductive TempDir :=
| Unopened (o : Reply)
| Opened (dirp sub : Reply) (entries : list (Reply * Reply)) (last cl : Reply).

Definition temp_answers (t : TempDir) : list Reply :=
  match t with
  | Unopened o => [o]
  | Opened dirp sub entries last cl =>
      dirp :: sub :: sweep_answers entries ++ [last; cl]
  end.

(** The names read from the directory. *)
Definition temp_names (t : TempDir) : list string :=
  match t with
  | Unopened _ => []
  | Opened _ _ entries _ _ => map (fun e => d_name (fst e)) entries
  end.

(** The directory cannot be opened, and if that is for lack of descriptors
    no slot holds one that could be released ([n] is the counter [nfile]);
    or it is opened and all its entries are read. *)
Definition temp_dir_ok (n : Z) (t : TempDir) : Prop :=
  match t with
  | Unopened o =>
      r_ret o = NULL /\ r_errno o <> 0 /\ (out_of_fds o = true -> n <= 0)
  | Opened dirp sub entries last cl =>
      r_ret dirp <> NULL /\
      Forall (fun e => r_ret (fst e) <> NULL) entries /\
      r_ret last = NULL /\ r_errno last = 0
  end.

(** The LOG messages of the sweep of the directory [path]. *)
Definition temp_logs (path : string) (t : TempDir) : list Call :=
  match t with
  | Unopened o =>
      (if out_of_fds o
       then [c_elog LOG "out of file handles: %m; release and retry" []]
       else []) ++
      (if r_errno o =? ENOENT then []
       else [c_elog LOG "could not open temporary-files directory %s: %m"
               [path]])
  | Opened _ _ entries _ _ =>
      map (fun n => c_elog LOG
                      "unexpected file found in temporary-files directory: %s"
                      [rm_path path n])
        (List.filter unexpected (map (fun e => d_name (fst e)) entries))
  end.

(** The files the sweep of the directory [path] unlinks. *)
Definition temp_unlinks (path : string) (t : TempDir) : list Call :=
  map (fun n => c_unlink (rm_path path n)) (List.filter swept (temp_names t)).

(** Everything the sweep of the directory [path] calls. *)
Definition temp_calls (path : string) (t : TempDir) : list Call :=
  match t with
  | Unopened o => c_opendir path :: temp_logs path t
  | Opened dirp _ entries _ _ =>
      [c_opendir path; c_GetCurrentSubTransactionId]
      ++ flat_map (sweep_calls (r_ret dirp) path)
           (map (fun e => d_name (fst e)) entries)
      ++ [c_readdir (r_ret dirp); c_closedir (r_ret dirp)]
  end.

(** The entries of base that name a database: all but "." and "..". *)
Definition names_db (e : Reply * TempDir) : bool :=
  negb (is_dot_entry (d_name (fst e))).

(** The answers of the environment while base is read: for each entry that
    of [readdir] and, unless the entry is "." or "..", those of the sweep
    of the database's directory of temporary files. *)
Definition base_answers (dbs : list (Reply * TempDir)) : list Reply :=
  flat_map (fun e => fst e :: if names_db e then temp_answers (snd e) else [])
    dbs.

(** What [RemovePgTempFiles] calls for an entry of base. *)
Definition base_calls (dir : Z) (e : Reply * TempDir) : list Call :=
  c_readdir dir ::
  (if names_db e then temp_calls (db_temp_path (d_name (fst e))) (snd e)
   else []).

(** An entry of base that the sweep gets past: [readdir] returns it and,
    if it names a database, the path of the directory of temporary files
    is a local one and the directory is as [temp_dir_ok] says. *)
Definition db_ok (n : Z) (e : Reply * TempDir) : Prop :=
  r_ret (fst e) <> NULL /\
  (names_db e = true ->
   IsLocalPath (db_temp_path (d_name (fst e))) = true /\
   temp_dir_ok n (snd e)).

(** The registry is as before up to its unused entries, and so are the
    table, its counter and the budget. *)
Definition registry_kept (s s' : State) : Prop :=
  max_safe_fds s' = max_safe_fds s /\
  numAllocatedDescs s' = numAllocatedDescs s /\
  length (allocatedDescs s') = length (allocatedDescs s) /\
  live_descs s' = live_descs s /\
  VfdCache s' = VfdCache s /\ nfile s' = nfile s.

(** ** Example states *)

(** A local slot: physically open on descriptor [fd0], ring [0 <-> 1]. *)
Definition local_slot (fd0 state subid pos : Z) (name : string) : Vfd :=
  mkVfd fd0 state subid 0 0 0 pos (Some name) O_RDWR 384 NULL NULL None.

(** A DFS slot holding connection 7 and file handle 9. *)
Definition dfs_slot (state subid pos : Z) (name : string) : Vfd :=
  mkVfd VFD_CLOSED state subid 0 0 0 pos (Some name)
    (Z.lor O_WRONLY O_APPEND) 384 7 9 (Some "hdfs"%string).

Definition ring_head (more less free : File) : Vfd :=
  set_nextFree free (set_lruLessRecently less (set_lruMoreRecently more
    (set_fd VFD_CLOSED zeroVfd))).

(** One open temporary file [base/1/pgsql_tmp/pgsql_tmp_x] in slot 1,
    created in subtransaction 7 and to be closed at end of transaction. *)
Definition one_temp_file (script : list Reply) : State :=
  with_nfile 1
    (with_VfdCache
       [ring_head 1 1 0;
        local_slot 5 (Z.lor FD_TEMPORARY FD_CLOSE_AT_EOXACT) 7 5
          "base/1/pgsql_tmp/pgsql_tmp_x"]
       (initial_state script)).

(** One open DFS file in slot 1. *)
Definition one_dfs_file (script : list Reply) : State :=
  with_VfdCache
    [ring_head 0 0 0; dfs_slot 0 0 10 "hdfs://h:1/f"]
    (initial_state script).

(** A local file in slot 1 that is logically open at position 5 and holds
    no descriptor. *)
Definition one_closed_file (script : list Reply) : State :=
  with_VfdCache
    [ring_head 0 0 0; local_slot VFD_CLOSED 0 0 5 "base/1/f"]
    (initial_state script).

(** The temporary file of [one_temp_file] and, in the registry, a stream
    that subtransaction 7 got from [AllocateFile]. *)
Definition one_temp_file_and_stream (script : list Reply) : State :=
  with_numAllocatedDescs 1
    (with_allocatedDescs
       (<[0%nat := mkAllocateDesc AllocateDescFile 99 7 "" [] 0 0 ""]>
          (allocatedDescs (one_temp_file script)))
       (one_temp_file script)).

(** A table whose slot 1 is on the free list. *)
Definition one_free_slot (script : list Reply) : State :=
  with_VfdCache
    [ring_head 0 0 1; set_fd VFD_CLOSED zeroVfd]
    (initial_state script).

(** The listing of a DFS directory, got through descriptor 77, of which
    nothing has been read. *)
Definition one_listing (names : list string) (script : list Reply) : State :=
  with_numAllocatedDescs 1
    (with_allocatedDescs
       (<[0%nat := mkAllocateDesc AllocateDescRemoteDir 77 0 "hdfs" names 0
                     (Z.of_nat (length names)) ""]>
          (allocatedDescs (initial_state script)))
       (initial_state script)).

(** * Properties *)

(** ** Machine integers *)

Lemma int32_id (x : Z) : - 2 ^ 31 <= x < 2 ^ 31 -> int32 x = x.
Proof.
  intros H. unfold int32, wrap_signed.
  change (2 ^ (32 - 1)) with (2 ^ 31). rewrite Z.mod_small; lia.
Qed.

Lemma int64_id (x : Z) : - 2 ^ 63 <= x < 2 ^ 63 -> int64 x = x.
Proof.
  intros H. unfold int64, wrap_signed.
  change (2 ^ (64 - 1)) with (2 ^ 63). rewrite Z.mod_small; lia.
Qed.

(** ** Running the monad *)

Lemma call_answer (c : Call) (s : State) (r : Reply) (rest : list Reply) :
  replies s = r :: rest -> call c s = Normal r (answer c r s).
Proof. intros H. unfold call. now rewrite H. Qed.

Lemma sys_answer (c : Call) (s : State) (r : Reply) (rest : list Reply) :
  replies s = r :: rest -> sys c s = Normal (r_ret r) (answer c r s).
Proof. intros H. unfold sys, bind. now rewrite (call_answer c s r rest H). Qed.

Lemma sys_stuck (c : Call) (s : State) : replies s = [] -> sys c s = Stuck s.
Proof. intros H. unfold sys, bind, call. now rewrite H. Qed.

(** ** The descriptor budget probe *)

Lemma fold_max_ge (l : list Z) (a : Z) : a <= fold_left Z.max l a.
Proof.
  revert a. induction l as [|x l IH]; intros a; simpl; [lia|].
  specialize (IH (Z.max a x)). lia.
Qed.

Lemma fold_max_in (l : list Z) (a x : Z) : In x l -> x <= fold_left Z.max l a.
Proof.
  revert a. induction l as [|y l IH]; intros a; simpl; [tauto|].
  intros [->|Hin]; [|now apply IH].
  pose proof (fold_max_ge l (Z.max a x)). lia.
Qed.

Lemma fold_max_bound (l : list Z) (a b : Z) :
  a <= b -> (forall x, In x l -> x <= b) -> fold_left Z.max l a <= b.
Proof.
  revert a. induction l as [|y l IH]; intros a Ha Hl; simpl; [lia|].
  apply IH; [|intros x Hx; apply Hl; now right].
  specialize (Hl y (or_introl eq_refl)). lia.
Qed.

(** Distinct positive descriptors: there are at most as many as the highest
    of them. *)
Lemma distinct_fds_below_highest (l : list Z) :
  NoDup l -> (forall x, In x l -> 0 < x) ->
  Z.of_nat (length l) <= highest_fd l.
Proof.
  intros Hnd Hpos. unfold highest_fd.
  set (m := fold_left Z.max l 0).
  assert (Hm : 0 <= m) by apply fold_max_ge.
  assert (Hincl : incl l (map Z.of_nat (seq 1 (Z.to_nat m)))).
  { intros x Hx. apply in_map_iff. exists (Z.to_nat x).
    pose proof (Hpos x Hx). pose proof (fold_max_in l 0 x Hx).
    split; [lia|]. apply in_seq. fold m in H0. lia. }
  apply NoDup_ListNoDup in Hnd.
  pose proof (NoDup_incl_length Hnd Hincl) as Hlen.
  rewrite length_map, length_seq in Hlen. lia.
Qed.

Lemma count_usable_fds_loop_successes (cap : Z) (succ : list Reply) :
  forall (fuel : nat) (acc : list Z) (used high : Z) (s : State)
         (tail : list Reply),
    replies s = succ ++ tail ->
    Forall (fun r => 0 <= r_ret r) succ ->
    used + Z.of_nat (length succ) < cap ->
    exists s',
      count_usable_fds_loop (length succ + fuel) cap acc used high s
      = count_usable_fds_loop fuel cap (acc ++ map r_ret succ)
          (used + Z.of_nat (length succ))
          (fold_left Z.max (map r_ret succ) high) s'
      /\ replies s' = tail /\ globals s' = globals s.
Proof.
  induction succ as [|r succ IH]; intros fuel acc used high s tail Hr Hok Hcap.
  - exists s. simpl in *. rewrite app_nil_r, Z.add_0_r. auto.
  - inversion Hok as [|? ? Hr0 Hok']; subst.
    change (length (r :: succ)) with (S (length succ)) in *.
    cbn [count_usable_fds_loop Nat.add].
    unfold bind at 1. rewrite (sys_answer _ s r (succ ++ tail) Hr).
    destruct (Z.ltb_spec (r_ret r) 0) as [|_]; [lia|].
    destruct (Z.geb_spec (used + 1) cap) as [Hge|_]; [lia|].
    destruct (IH fuel (acc ++ [r_ret r]) (used + 1)
                (if high <? r_ret r then r_ret r else high)
                (answer (c_dup 0) r s) tail) as (s' & Heq & Hrep & Hg).
    + simpl. now rewrite Hr.
    + exact Hok'.
    + lia.
    + exists s'. rewrite Heq. repeat split; auto.
      rewrite <- app_assoc. simpl.
      replace (used + 1 + Z.of_nat (length succ))
        with (used + Z.of_nat (S (length succ))) by lia.
      replace (Z.max high (r_ret r))
        with (if high <? r_ret r then r_ret r else high); [reflexivity|].
      destruct (Z.ltb_spec high (r_ret r)); lia.
Qed.

Lemma close_all_run (fds : list Z) : forall (s : State) (closes rest : list Reply),
  replies s = closes ++ rest -> length closes = length fds ->
  exists s', close_all fds s = Normal tt s' /\ replies s' = rest
             /\ globals s' = globals s.
Proof.
  induction fds as [|f fds IH]; intros s closes rest Hr Hlen.
  - destruct closes; [|discriminate]. exists s. simpl in *. auto.
  - destruct closes as [|r closes]; [discriminate|]. simpl in Hr.
    cbn [close_all]. unfold bind at 1. rewrite (sys_answer _ s r _ Hr).
    destruct (IH (answer (c_close f) r s) closes rest) as (s' & He & Hrp & Hg).
    + simpl. now rewrite Hr.
    + simpl in Hlen. lia.
    + exists s'. auto.
Qed.

Lemma count_usable_fds_loop_complete (s : State)
    (succ stop tail : list Reply) (extra : nat) :
  replies s = succ ++ stop ++ tail ->
  Forall (fun r => 0 <= r_ret r) succ ->
  probe_stops (max_files_per_process s) (length succ) stop ->
  1 <= max_files_per_process s ->
  exists s',
    count_usable_fds_loop (S (length succ + extra)) (max_files_per_process s)
      [] 0 0 s
    = Normal (map r_ret succ, Z.of_nat (length succ),
              highest_fd (map r_ret succ)) s'
    /\ replies s' = tail /\ globals s' = globals s.
Proof.
  intros Hr Hok Hstop Hcap.
  destruct Hstop as [[-> Hn] | (f & -> & Hneg & Herr & Hn)].
  - (* the probe limit is reached on the last success *)
    destruct succ as [|r0 succ0 _] using rev_ind; [simpl in Hn; lia|].
    rename succ0 into succ. rewrite length_app in Hn. simpl in Hn.
    apply Forall_app in Hok as [Hok Hlast].
    inversion Hlast as [|? ? Hr0 _]; subst.
    rewrite <- app_assoc in Hr. simpl in Hr.
    destruct (count_usable_fds_loop_successes (max_files_per_process s) succ
                (S (S extra)) [] 0 0 s (r0 :: tail) Hr Hok)
      as (s1 & Heq & Hrep & Hg); [lia|].
    rewrite length_app. simpl length.
    replace (S (length succ + 1 + extra)) with (length succ + S (S extra))%nat
      by lia.
    rewrite Heq. cbn [count_usable_fds_loop]. unfold bind at 1.
    rewrite (sys_answer _ s1 r0 tail Hrep).
    destruct (Z.ltb_spec (r_ret r0) 0) as [|_]; [lia|].
    destruct (Z.geb_spec (0 + Z.of_nat (length succ) + 1)
                (max_files_per_process s)) as [_|Hlt]; [|lia].
    eexists. split; [|split].
    + unfold ret. f_equal. rewrite map_app. simpl.
      f_equal; [f_equal|].
      * lia.
      * unfold highest_fd. rewrite fold_left_app. simpl.
        destruct (Z.ltb_spec (fold_left Z.max (map r_ret succ) 0) (r_ret r0)); lia.
    + simpl. now rewrite Hrep.
    + exact Hg.
  - (* a dup fails for lack of descriptors *)
    simpl in Hr.
    destruct (count_usable_fds_loop_successes (max_files_per_process s) succ
                (S extra) [] 0 0 s (f :: tail) Hr Hok)
      as (s1 & Heq & Hrep & Hg); [lia|].
    replace (S (length succ + extra)) with (length succ + S extra)%nat by lia.
    rewrite Heq. cbn [count_usable_fds_loop]. unfold bind at 1.
    rewrite (sys_answer _ s1 f tail Hrep).
    destruct (Z.ltb_spec (r_ret f) 0) as [_|]; [|lia].
    unfold bind, gets. cbn [errno answer].
    assert (Hexp : (negb ((if r_errno f =? 0 then errno s1 else r_errno f) =? EMFILE)
                    && negb ((if r_errno f =? 0 then errno s1 else r_errno f) =? ENFILE))
                   = false).
    { destruct Herr as [-> | ->]; reflexivity. }
    rewrite Hexp. unfold ret. eexists. split; [reflexivity|]. split.
    + simpl. now rewrite Hrep.
    + exact Hg.
Qed.

Lemma count_usable_fds_loop_fishy (s : State) (succ : list Reply)
    (f : Reply) (tail : list Reply) (extra : nat) :
  replies s = succ ++ f :: tail ->
  Forall (fun r => 0 <= r_ret r) succ ->
  Z.of_nat (length succ) < max_files_per_process s ->
  r_ret f < 0 ->
  r_errno f <> 0 -> r_errno f <> EMFILE -> r_errno f <> ENFILE ->
  exists s',
    count_usable_fds_loop (S (length succ + extra)) (max_files_per_process s)
      [] 0 0 s
    = Raised SevInsist ERRCODE_INTERNAL_ERROR
        "dup(0) failed after %d successes: %m" s'
    /\ replies s' = tail /\ globals s' = globals s.
Proof.
  intros Hr Hok Hn Hneg He0 He1 He2.
  destruct (count_usable_fds_loop_successes (max_files_per_process s) succ
              (S extra) [] 0 0 s (f :: tail) Hr Hok)
    as (s1 & Heq & Hrep & Hg); [lia|].
  replace (S (length succ + extra)) with (length succ + S extra)%nat by lia.
  rewrite Heq. cbn [count_usable_fds_loop]. unfold bind at 1.
  rewrite (sys_answer _ s1 f tail Hrep).
  destruct (Z.ltb_spec (r_ret f) 0) as [_|]; [|lia].
  unfold bind, gets. cbn [errno answer].
  assert (Hexp : (negb ((if r_errno f =? 0 then errno s1 else r_errno f) =? EMFILE)
                  && negb ((if r_errno f =? 0 then errno s1 else r_errno f) =? ENFILE))
                 = true).
  { destruct (Z.eqb_spec (r_errno f) 0) as [|_]; [contradiction|].
    destruct (Z.eqb_spec (r_errno f) EMFILE) as [|_]; [contradiction|].
    destruct (Z.eqb_spec (r_errno f) ENFILE) as [|_]; [contradiction|].
    reflexivity. }
  rewrite Hexp. unfold insist_log, elog, notify, modify, raise, bind.
  eexists. split; [reflexivity|]. split.
  - simpl. now rewrite Hrep.
  - rewrite <- Hg. reflexivity.
Qed.

(** C2, as stated, fails for a probe that ends unexpectedly: a [dup] that
    fails with an errno other than EMFILE and ENFILE (here EIO, after 22
    successes) ends [set_max_safe_fds] in the internal error of
    [insist_log].  The value of the formula is 12, so the call should have
    returned normally, and no FATAL report is made either; [max_safe_fds]
    is not assigned (it keeps its old value 32). *)
Lemma C2_unexpected_errno_is_an_internal_error :
  let s := initial_state (map ok (seqZ 3 22) ++ [fails (-1) EIO]) in
  let usable_fds := 22 in
  let already_open := 24 + 1 - usable_fds in
  let value := Z.min usable_fds (max_files_per_process s - already_open) - 10 in
  value = 12 /\ max_safe_fds s = 32 /\
  exists s',
    set_max_safe_fds s
    = Raised SevInsist ERRCODE_INTERNAL_ERROR
        "dup(0) failed after %d successes: %m" s' /\
    max_safe_fds s' = 32 /\ max_safe_fds s' <> value /\
    calls is_close s' = [].
Proof.
  split; [reflexivity|]. split; [reflexivity|].
  eexists. split; [vm_compute; reflexivity|].
  split; [reflexivity|]. split; [discriminate|reflexivity].
Qed.

(** C2 — [set_max_safe_fds], for a probe whose dups return distinct
    positive descriptors.  If the probe ends as expected (at the limit of
    [max_files_per_process] successes, or on a [dup] failing with EMFILE or
    ENFILE), [max_safe_fds] is set to
    [min(usable_fds, max_files_per_process - already_open) - 10], where
    [usable_fds] is the number of successful dups and [already_open] is the
    highest descriptor seen plus one minus [usable_fds]; the call ends in
    the FATAL insufficient-resources report exactly when that value is below
    10 and returns normally otherwise.  If instead a [dup] fails with any
    other errno, the call ends in the internal error of [insist_log]:
    nothing is reported FATAL, nothing is returned and [max_safe_fds] keeps
    its old value. *)
Theorem C2_set_max_safe_fds (s : State) (succ stop closes rest : list Reply) :
  replies s = succ ++ stop ++ closes ++ rest ->
  Forall (fun r => 0 < r_ret r < 2 ^ 30) succ ->
  NoDup (map r_ret succ) ->
  1 <= max_files_per_process s < 2 ^ 31 ->
  (probe_stops (max_files_per_process s) (length succ) stop ->
   length closes = length succ ->
   let usable_fds := Z.of_nat (length succ) in
   let already_open := highest_fd (map r_ret succ) + 1 - usable_fds in
   let value :=
     Z.min usable_fds (max_files_per_process s - already_open) - 10 in
   exists s',
     max_safe_fds s' = value /\
     set_max_safe_fds s =
       if value <? 10
       then Raised SevFatal ERRCODE_INSUFFICIENT_RESOURCES
              "insufficient file handles available to start server process" s'
       else Normal tt s') /\
  (forall f,
     stop = [f] -> Z.of_nat (length succ) < max_files_per_process s ->
     r_ret f < 0 ->
     r_errno f <> 0 -> r_errno f <> EMFILE -> r_errno f <> ENFILE ->
     exists s',
       set_max_safe_fds s
       = Raised SevInsist ERRCODE_INTERNAL_ERROR
           "dup(0) failed after %d successes: %m" s' /\
       max_safe_fds s' = max_safe_fds s).
Proof.
  intros Hr Hfds Hnd Hmfpp.
  assert (Hok : Forall (fun r => 0 <= r_ret r) succ).
  { eapply Forall_impl; [exact Hfds|]. simpl. intros; lia. }
  split.
  2: { intros f -> Hn Hneg He0 He1 He2. simpl in Hr.
       destruct (count_usable_fds_loop_fishy s succ f (closes ++ rest)
                   (length (f :: closes ++ rest)) Hr Hok Hn Hneg He0 He1 He2)
         as (s1 & Hloop & _ & Hg1).
       exists s1. split.
       - unfold set_max_safe_fds, count_usable_fds, bind, gets.
         unfold script_fuel. rewrite Hr, length_app. rewrite Hloop. reflexivity.
       - unfold globals in Hg1. now inversion Hg1. }
  intros Hstop Hlen usable_fds already_open value.
  destruct (count_usable_fds_loop_complete s succ stop (closes ++ rest)
              (length (stop ++ closes ++ rest)) Hr Hok Hstop)
    as (s1 & Hloop & Hrep1 & Hg1); [lia|].
  destruct (close_all_run (map r_ret succ) s1 closes rest Hrep1)
    as (s2 & Hclose & Hrep2 & Hg2); [now rewrite length_map|].
  (* the arithmetic of the formula stays inside [int] *)
  assert (Hhigh : Z.of_nat (length succ) <= highest_fd (map r_ret succ)).
  { rewrite <- (length_map r_ret). apply distinct_fds_below_highest; [exact Hnd|].
    intros x Hx. apply in_map_iff in Hx as (r & <- & Hin).
    rewrite Forall_forall in Hfds. apply list_elem_of_In in Hin.
    specialize (Hfds r Hin). simpl in Hfds. lia. }
  assert (Hhigh2 : highest_fd (map r_ret succ) < 2 ^ 30).
  { unfold highest_fd.
    assert (fold_left Z.max (map r_ret succ) 0 <= 2 ^ 30 - 1); [|lia].
    apply fold_max_bound; [lia|].
    intros x Hx. apply in_map_iff in Hx as (r & <- & Hin).
    rewrite Forall_forall in Hfds. apply list_elem_of_In in Hin.
    specialize (Hfds r Hin). simpl in Hfds. lia. }
  assert (E30 : 2 ^ 30 = 1073741824) by reflexivity.
  assert (E31 : 2 ^ 31 = 2147483648) by reflexivity.
  assert (Hao : int32 (int32 (highest_fd (map r_ret succ) + 1)
                       - Z.of_nat (length succ)) = already_open).
  { unfold already_open, usable_fds.
    rewrite (int32_id (highest_fd (map r_ret succ) + 1)) by lia.
    apply int32_id. lia. }
  assert (Hdiff : int32 (max_files_per_process s - already_open)
                  = max_files_per_process s - already_open).
  { apply int32_id. unfold already_open, usable_fds. lia. }
  assert (Hval : int32 (Z.min usable_fds
                          (int32 (max_files_per_process s - already_open))
                        - NUM_RESERVED_FDS) = value).
  { rewrite Hdiff. unfold value, NUM_RESERVED_FDS. apply int32_id.
    unfold already_open, usable_fds. lia. }
  assert (Hmf : max_files_per_process s2 = max_files_per_process s).
  { assert (H : globals s2 = globals s) by congruence.
    unfold globals in H. now inversion H. }
  exists (record (c_elog (if value <? 10 then FATAL else DEBUG2)
            (if value <? 10
             then "insufficient file handles available to start server process"
             else "max_safe_fds = %d, usable_fds = %d, already_open = %d") [])
            (with_max_safe_fds value s2)).
  split; [now destruct (value <? 10)|].
  unfold set_max_safe_fds, count_usable_fds, bind, gets.
  unfold script_fuel. rewrite Hr, length_app.
  rewrite Hloop. rewrite Hclose. unfold ret, modify. cbn [max_safe_fds with_max_safe_fds].
  unfold usable_fds in Hval. rewrite Hao, Hval. unfold FD_MINFREE.
  destruct (value <? 10); reflexivity.
Qed.

Lemma C2_set_max_safe_fds_witness :
  (exists s',
     max_safe_fds s' = 12 /\
     set_max_safe_fds
       (initial_state (map ok (seqZ 3 22) ++ [fails (-1) EMFILE]
                       ++ replicate 22 (ok 0) ++ []))
     = Normal tt s') /\
  (exists s',
     set_max_safe_fds
       (initial_state (map ok (seqZ 3 22) ++ [fails (-1) EIO] ++ [] ++ []))
     = Raised SevInsist ERRCODE_INTERNAL_ERROR
         "dup(0) failed after %d successes: %m" s' /\
     max_safe_fds s' = 32).
Proof.
  assert (Hfds : Forall (fun r => 0 < r_ret r < 2 ^ 30) (map ok (seqZ 3 22))).
  { apply Forall_forall. intros r Hr.
    apply list_elem_of_In, in_map_iff in Hr as (x & <- & Hx).
    apply list_elem_of_In, elem_of_seqZ in Hx. simpl. lia. }
  assert (Hnd : NoDup (map r_ret (map ok (seqZ 3 22)))).
  { apply (bool_decide_unpack _). vm_compute. exact I. }
  split.
  - destruct (C2_set_max_safe_fds
                (initial_state (map ok (seqZ 3 22) ++ [fails (-1) EMFILE]
                                ++ replicate 22 (ok 0) ++ []))
                (map ok (seqZ 3 22)) [fails (-1) EMFILE]
                (replicate 22 (ok 0)) [])
      as [Hexpected _].
    + reflexivity.
    + exact Hfds.
    + exact Hnd.
    + simpl. lia.
    + destruct Hexpected as (s' & Hmax & Hrun).
      * right. exists (fails (-1) EMFILE).
        split; [reflexivity|]. split; [simpl; lia|].
        split; [now left|simpl; lia].
      * reflexivity.
      * exists s'. split; [exact Hmax | exact Hrun].
  - destruct (C2_set_max_safe_fds
                (initial_state (map ok (seqZ 3 22) ++ [fails (-1) EIO] ++ [] ++ []))
                (map ok (seqZ 3 22)) [fails (-1) EIO] [] [])
      as [_ Hfishy].
    + reflexivity.
    + exact Hfds.
    + exact Hnd.
    + simpl. lia.
    + apply (Hfishy (fails (-1) EIO)).
      * reflexivity.
      * simpl. lia.
      * simpl. lia.
      * discriminate.
      * discriminate.
      * discriminate.
Defined.

(** ** Weakest preconditions *)

Section WP.
Context {T : Prop} {A : Type}.
Implicit Types (Qn : A -> State -> Prop) (Qe : Severity -> State -> Prop).

Lemma wp_ret (a : A) Qn Qe s : Qn a s -> wpx T (ret a) Qn Qe s.
Proof. auto. Qed.

Lemma wp_mono (m : M A) Qn Qn' Qe Qe' s :
  wpx T m Qn Qe s ->
  (forall a s', Qn a s' -> Qn' a s') ->
  (forall sev s', Qe sev s' -> Qe' sev s') ->
  wpx T m Qn' Qe' s.
Proof. unfold wpx. destruct (m s); auto. Qed.

Lemma wp_bind {B} (m : M B) (f : B -> M A) Qn Qe s :
  wpx T m (fun b s' => wpx T (f b) Qn Qe s') Qe s -> wpx T (bind m f) Qn Qe s.
Proof. unfold wpx, bind. destruct (m s); auto. Qed.

Lemma wp_raise sev code msg Qn Qe s :
  Qe sev s -> wpx T (raise sev code msg) Qn Qe s.
Proof. auto. Qed.

Lemma wp_stuck Qn Qe s : T -> wpx T (@stuck A) Qn Qe s.
Proof. auto. Qed.

Lemma wp_ereport lvl code msg args Qn Qe s :
  Qe (match lvl with FATAL => SevFatal | _ => SevError end)
     (record (c_elog lvl msg args) s) ->
  wpx T (ereport lvl code msg args) Qn Qe s.
Proof. auto. Qed.
End WP.

Section WP_primitives.
Context {T : Prop}.

Lemma wp_gets {B} (f : State -> B) Qn Qe s :
  Qn (f s) s -> wpx T (gets f) Qn Qe s.
Proof. auto. Qed.

Lemma wp_get Qn Qe s : Qn s s -> wpx T get Qn Qe s.
Proof. auto. Qed.

Lemma wp_modify (f : State -> State) Qn Qe s :
  Qn tt (f s) -> wpx T (modify f) Qn Qe s.
Proof. auto. Qed.

Lemma wp_call (c : Call) Qn Qe s :
  (replies s = [] -> T) ->
  (forall r rest, replies s = r :: rest -> Qn r (answer c r s)) ->
  wpx T (call c) Qn Qe s.
Proof. intros HT H. unfold wpx, call. destruct (replies s); eauto. Qed.

Lemma wp_sys (c : Call) Qn Qe s :
  (replies s = [] -> T) ->
  (forall r rest, replies s = r :: rest -> Qn (r_ret r) (answer c r s)) ->
  wpx T (sys c) Qn Qe s.
Proof.
  intros HT H. unfold wpx, sys, bind, call. destruct (replies s); simpl; eauto.
Qed.

Lemma wp_notify (c : Call) Qn Qe s :
  Qn tt (record c s) -> wpx T (notify c) Qn Qe s.
Proof. auto. Qed.

Lemma wp_elog lvl msg args Qn Qe s :
  Qn tt (record (c_elog lvl msg args) s) -> wpx T (elog lvl msg args) Qn Qe s.
Proof. auto. Qed.

Lemma wp_set_vfd file g Qn Qe s :
  Qn tt (with_VfdCache (upd file g (VfdCache s)) s) ->
  wpx T (set_vfd file g) Qn Qe s.
Proof. auto. Qed.

Lemma wp_get_vfd file Qn Qe s :
  Qn (slot (VfdCache s) file) s -> wpx T (get_vfd file) Qn Qe s.
Proof. auto. Qed.

Lemma wp_set_errno e Qn Qe s :
  Qn tt (with_errno e s) -> wpx T (set_errno e) Qn Qe s.
Proof. auto. Qed.

Lemma wp_Insist (b : bool) what Qn Qe s :
  (b = true -> Qn tt s) -> (b = false -> Qe SevInsist s) ->
  wpx T (Insist b what) Qn Qe s.
Proof. intros H1 H2. destruct b; [apply H1|apply H2]; reflexivity. Qed.
End WP_primitives.

(** A total run ends in a return or in a report. *)
Lemma twp_elim {A} (m : M A) Qn Qe s :
  twp m Qn Qe s ->
  (exists a s', m s = Normal a s' /\ Qn a s') \/
  (exists sev code msg s', m s = Raised sev code msg s' /\ Qe sev s').
Proof.
  unfold wpx. destruct (m s) as [a s'|sev code msg s'|s']; intros H.
  - left. eauto.
  - right. eauto 6.
  - destruct H.
Qed.

Lemma twp_wp {A} (m : M A) Qn Qe s : twp m Qn Qe s -> wp m Qn Qe s.
Proof. unfold wpx. destruct (m s); tauto. Qed.

Lemma wp_normal {A} (m : M A) Qn Qe (s : State) (a : A) (s' : State) :
  wp m Qn Qe s -> m s = Normal a s' -> Qn a s'.
Proof. unfold wpx. intros H E. now rewrite E in H. Qed.

(** Normalise the fields of a state built by updates. *)
Ltac st_simpl :=
  cbv beta delta
      [with_max_safe_fds with_VfdCache with_nfile with_numAllocatedDescs
       with_allocatedDescs with_RecentRemoteAllocatedDesc with_tempFileCounter
       with_HdfsFsTable with_errno with_replies with_trace answer record];
  cbn [max_files_per_process max_safe_fds VfdCache nfile numAllocatedDescs
       allocatedDescs RecentRemoteAllocatedDesc tempFileCounter HdfsFsTable
       errno replies trace].

(** The same, for states nested several updates deep. *)
Ltac st_norm :=
  cbn [with_max_safe_fds with_VfdCache with_nfile with_numAllocatedDescs
       with_allocatedDescs with_RecentRemoteAllocatedDesc with_tempFileCounter
       with_HdfsFsTable with_errno with_replies with_trace answer record
       max_files_per_process max_safe_fds VfdCache nfile numAllocatedDescs
       allocatedDescs RecentRemoteAllocatedDesc tempFileCounter HdfsFsTable
       errno replies trace].

Ltac st_simpl_in H :=
  cbv beta delta
      [with_max_safe_fds with_VfdCache with_nfile with_numAllocatedDescs
       with_allocatedDescs with_RecentRemoteAllocatedDesc with_tempFileCounter
       with_HdfsFsTable with_errno with_replies with_trace answer record] in H;
  cbn [max_files_per_process max_safe_fds VfdCache nfile numAllocatedDescs
       allocatedDescs RecentRemoteAllocatedDesc tempFileCounter HdfsFsTable
       errno replies trace] in H.

(** The head of the script is known: [replies s = r :: rest]. *)
Ltac script_nonempty :=
  let H := fresh in
  intros H; st_simpl_in H;
  first [ exact I
        | assumption
        | congruence
        | match goal with
          | E : replies _ = _ :: _ |- _ => rewrite E in H; discriminate H
          end ].

(** One step of symbolic execution. *)
Ltac wp_step :=
  lazymatch goal with
  | |- wpx _ (bind _ _) _ _ _ => apply wp_bind
  | |- wpx _ (ret _) _ _ _ => apply wp_ret
  | |- wpx _ (gets _) _ _ _ => apply wp_gets; st_simpl
  | |- wpx _ get _ _ _ => apply wp_get
  | |- wpx _ (get_vfd _) _ _ _ => apply wp_get_vfd; st_simpl
  | |- wpx _ (set_vfd _ _) _ _ _ => apply wp_set_vfd; st_simpl
  | |- wpx _ (set_errno _) _ _ _ => apply wp_set_errno; st_simpl
  | |- wpx _ (modify _) _ _ _ => apply wp_modify; st_simpl
  | |- wpx _ (sys _) _ _ _ =>
      apply wp_sys;
      [ script_nonempty
      | let H := fresh "Hrep" in intros ? ? H; st_simpl_in H; st_simpl ]
  | |- wpx _ (call _) _ _ _ =>
      apply wp_call;
      [ script_nonempty
      | let H := fresh "Hrep" in intros ? ? H; st_simpl_in H; st_simpl ]
  | |- wpx _ (elog _ _ _) _ _ _ => apply wp_elog; st_simpl
  | |- wpx _ (notify _) _ _ _ => apply wp_notify; st_simpl
  | |- wpx _ (ereport _ _ _ _) _ _ _ => apply wp_ereport; st_simpl
  | |- wpx _ (raise _ _ _) _ _ _ => apply wp_raise
  | |- wpx True stuck _ _ _ => exact I
  | |- wpx _ (Insist _ _) _ _ _ => apply wp_Insist; intros ?
  | |- wpx _ (if negb ?b then _ else _) _ _ _ =>
      first [ match goal with H : b = _ |- _ => rewrite H end
            | let E := fresh "E" in destruct b eqn:E ];
      cbn [negb]
  | |- wpx _ (if ?b then _ else _) _ _ _ =>
      first [ match goal with H : b = _ |- _ => rewrite H end
            | let E := fresh "E" in destruct b eqn:E ]
  | |- wpx _ (match ?o with Some _ => _ | None => _ end) _ _ _ =>
      let E := fresh "E" in destruct o eqn:E
  end.

Ltac wp_go := repeat wp_step.

(** A step that does not split on a condition: the condition is rewritten
    with a hypothesis, or the step fails. *)
Ltac wp_known :=
  lazymatch goal with
  | |- wpx _ (if negb ?b then _ else _) _ _ _ =>
      match goal with H : b = _ |- _ => rewrite H; cbn [negb] end
  | |- wpx _ (if ?b then _ else _) _ _ _ =>
      match goal with H : b = _ |- _ => rewrite H end
  | |- wpx _ (match _ with Some _ => _ | None => _ end) _ _ _ => fail
  | |- wpx _ (sys _) _ _ _ => fail
  | |- wpx _ (call _) _ _ _ => fail
  | _ => wp_step
  end.

(** ** The VFD table as an array *)

Lemma length_upd file g c : length (upd file g c) = length c.
Proof. unfold upd. destruct (file <? 0); [reflexivity|apply length_insert]. Qed.

Lemma slot_upd file g c file' :
  slot (upd file g c) file' =
  if bool_decide (file = file' /\ 0 <= file < Z.of_nat (length c))
  then g (slot c file) else slot c file'.
Proof.
  unfold upd, slot.
  destruct (Z.ltb_spec file 0) as [Hneg|Hpos].
  - rewrite bool_decide_eq_false_2 by lia. reflexivity.
  - destruct (Z.ltb_spec file' 0) as [Hneg'|Hpos'].
    + rewrite bool_decide_eq_false_2 by lia. reflexivity.
    + rewrite list_lookup_total_insert.
      destruct (decide (Z.to_nat file = Z.to_nat file' /\
                        (Z.to_nat file < length c)%nat)) as [[He Hl]|Hn].
      * rewrite bool_decide_eq_true_2 by lia. reflexivity.
      * rewrite bool_decide_eq_false_2 by lia. reflexivity.
Qed.

Lemma slot_upd_same file g c :
  0 <= file < Z.of_nat (length c) -> slot (upd file g c) file = g (slot c file).
Proof. intros H. rewrite slot_upd, bool_decide_eq_true_2; auto. Qed.

Lemma slot_upd_other file g c file' :
  file <> file' -> slot (upd file g c) file' = slot c file'.
Proof. intros H. rewrite slot_upd, bool_decide_eq_false_2; [auto|tauto]. Qed.

Ltac slot_simpl :=
  repeat first
    [ rewrite slot_upd_other by lia
    | rewrite slot_upd_same by (rewrite ?length_upd; lia) ];
  cbn [fd fdstate create_subid nextFree lruMoreRecently lruLessRecently
       seekPos fileName fileFlags fileMode hFS hFile hProtocol
       set_fd set_fdstate set_create_subid set_nextFree set_lruMoreRecently
       set_lruLessRecently set_seekPos set_fileName set_fileFlags set_fileMode
       set_hFS set_hFile set_hProtocol].

Lemma not_local_is_open (c : list Vfd) (file : File) :
  IsLocalFile c file = false -> FileIsNotOpen c file = false.
Proof.
  unfold IsLocalFile, FileIsNotOpen. intros H.
  destruct (hFile (slot c file) =? NULL), (hFS (slot c file) =? NULL);
    simpl in *; try discriminate; now rewrite ?andb_false_r.
Qed.

(** ** Closing a DFS slot *)

Lemma dfs_close_always_frees (s : State) (file : File) (r : Reply)
    (rest : list Reply) :
  0 < file < SizeVfdCache s ->
  IsLocalFile (VfdCache s) file = false ->
  replies s = r :: rest ->
  let v := slot (VfdCache s) file in
  exists s',
    (r_ret r <> -1 /\ FileClose file s = Normal tt s' \/
     r_ret r = -1 /\
     exists code msg, FileClose file s = Raised SevError code msg s') /\
    (let v' := slot (VfdCache s') file in
     fd v' = VFD_CLOSED /\ hFS v' = NULL /\ hFile v' = NULL /\
     hProtocol v' = None /\ fileName v' = None /\ fdstate v' = 0 /\
     nextFree v' = nextFree (slot (VfdCache s) 0)) /\
    nextFree (slot (VfdCache s') 0) = file /\
    FileIsNotOpen (VfdCache s') file = true /\
    calls is_HdfsCloseFile s'
    = calls is_HdfsCloseFile s ++ [c_HdfsCloseFile (hProtocol v) (hFS v) (hFile v)].
Proof.
  intros Hfile Hdfs Hr v. unfold SizeVfdCache in Hfile.
  pose proof (not_local_is_open _ _ Hdfs) as Hopen.
  set (Post := fun s' : State =>
    (let v' := slot (VfdCache s') file in
     fd v' = VFD_CLOSED /\ hFS v' = NULL /\ hFile v' = NULL /\
     hProtocol v' = None /\ fileName v' = None /\ fdstate v' = 0 /\
     nextFree v' = nextFree (slot (VfdCache s) 0)) /\
    nextFree (slot (VfdCache s') 0) = file /\
    FileIsNotOpen (VfdCache s') file = true /\
    calls is_HdfsCloseFile s'
    = calls is_HdfsCloseFile s ++ [c_HdfsCloseFile (hProtocol v) (hFS v) (hFile v)]).
  assert (Htwp : twp (FileClose file)
            (fun _ s' => r_ret r <> -1 /\ Post s')
            (fun sev s' => sev = SevError /\ r_ret r = -1 /\ Post s') s).
  { unfold FileClose, HdfsFileClose, FreeVfd. wp_go.
    all: match goal with
         | H : replies _ = _ :: _ |- _ =>
             rewrite Hr in H; injection H as <- <-
         end.
    all: repeat match goal with
                | |- _ /\ _ => split
                | |- _ = SevError => reflexivity
                | |- r_ret _ = -1 => lia
                | |- r_ret _ <> -1 => lia
                end.
    all: unfold Post, FileIsNotOpen, calls; st_simpl; slot_simpl;
      repeat split; try reflexivity.
    all: rewrite ?map_app, ?List.filter_app; simpl; now rewrite ?app_nil_r. }
  apply twp_elim in Htwp
    as [([] & s' & Heq & Hne & HP) | (sev & code & msg & s' & Heq & -> & He & HP)].
  - exists s'. split; [left; auto|exact HP].
  - exists s'. split; [right; eauto|exact HP].
Qed.

(** ** Frames *)

Lemma same_but_links_refl v : same_but_links v v.
Proof. unfold same_but_links. tauto. Qed.

Lemma same_but_links_trans v1 v2 v3 :
  same_but_links v1 v2 -> same_but_links v2 v3 -> same_but_links v1 v3.
Proof. unfold same_but_links. intuition congruence. Qed.

Lemma slot_upd_links file g c file' :
  (forall v, same_but_links v (g v)) ->
  same_but_links (slot c file') (slot (upd file g c) file').
Proof.
  intros Hg. rewrite slot_upd. case_bool_decide as H.
  - destruct H as [<- _]. apply Hg.
  - apply same_but_links_refl.
Qed.

Lemma set_lruMoreRecently_links x v : same_but_links v (set_lruMoreRecently x v).
Proof. unfold same_but_links. simpl. tauto. Qed.

Lemma set_lruLessRecently_links x v : same_but_links v (set_lruLessRecently x v).
Proof. unfold same_but_links. simpl. tauto. Qed.

Create HintDb fd.
#[local] Hint Resolve same_but_links_refl set_lruMoreRecently_links
  set_lruLessRecently_links : fd.

(** [Delete] and [Insert] touch nothing but ring links. *)
Lemma Delete_run (file : File) (s : State) :
  exists c',
    Delete file s = Normal tt (with_VfdCache c' s) /\
    length c' = length (VfdCache s) /\
    forall f, same_but_links (slot (VfdCache s) f) (slot c' f).
Proof.
  unfold Delete, bind, get_vfd, set_vfd, gets, modify. st_simpl.
  eexists. split; [reflexivity|]. split.
  - now rewrite !length_upd.
  - intros f. eapply same_but_links_trans; apply slot_upd_links; auto with fd.
Qed.

Lemma Insert_run (file : File) (s : State) :
  exists c',
    Insert file s = Normal tt (with_VfdCache c' s) /\
    length c' = length (VfdCache s) /\
    forall f, same_but_links (slot (VfdCache s) f) (slot c' f).
Proof.
  unfold Insert, bind, get_vfd, set_vfd, gets, modify. st_simpl.
  eexists. split; [reflexivity|]. split.
  - now rewrite !length_upd.
  - intros f.
    eapply same_but_links_trans; [|apply slot_upd_links; auto with fd].
    eapply same_but_links_trans; [|apply slot_upd_links; auto with fd].
    eapply same_but_links_trans; apply slot_upd_links; auto with fd.
Qed.

(** ** Retrying close *)

Lemma gp_retry_close_loop_run (fd0 : Z) (ints : list Reply) :
  forall (fuel : nat) (s : State) (final : Reply) (rest : list Reply),
    replies s = ints ++ final :: rest ->
    close_answers ints final (errno s) ->
    exists s',
      gp_retry_close_loop (S (length ints + fuel)) fd0 s
      = Normal (r_ret final) s' /\
      globals s' = globals s /\ replies s' = rest /\
      trace s' = trace s
                 ++ replicate (S (length ints)) (mkEvent (c_close fd0) (VfdCache s)).
Proof.
  induction ints as [|r ints IH]; intros fuel s final rest Hr [Hints Hfinal].
  - simpl in Hr. cbn [gp_retry_close_loop length Nat.add].
    unfold bind at 1. rewrite (sys_answer _ s final rest Hr).
    unfold bind, gets. st_simpl. rewrite Hfinal.
    eexists. split; [reflexivity|]. st_simpl. rewrite Hr. auto.
  - simpl in Hr. inversion Hints as [|? ? [Hret Herr] Hints']; subst.
    cbn [gp_retry_close_loop length Nat.add].
    unfold bind at 1. rewrite (sys_answer _ s r _ Hr).
    unfold bind at 1. unfold gets at 1.
    assert (Hretry : (r_ret r =? -1)
                     && (errno (answer (c_close fd0) r s) =? EINTR) = true).
    { st_simpl. now rewrite Hret, Herr. }
    rewrite Hretry.
    destruct (IH fuel (answer (c_close fd0) r s) final rest)
      as (s' & Hrun & Hg & Hrep & Htr).
    + st_simpl. now rewrite Hr.
    + split; [exact Hints'|]. st_simpl. rewrite Herr. cbn [Z.eqb EINTR Pos.eqb].
      destruct ints; exact Hfinal.
    + exists s'. split; [exact Hrun|]. split; [exact Hg|]. split; [exact Hrep|].
      rewrite Htr. st_simpl. rewrite <- app_assoc. reflexivity.
Qed.

Lemma gp_retry_close_run (fd0 : Z) (s : State) (ints : list Reply)
    (final : Reply) (rest : list Reply) :
  replies s = ints ++ final :: rest ->
  close_answers ints final (errno s) ->
  exists s',
    gp_retry_close fd0 s = Normal (r_ret final) s' /\
    globals s' = globals s /\ replies s' = rest /\
    trace s' = trace s
               ++ replicate (S (length ints)) (mkEvent (c_close fd0) (VfdCache s)).
Proof.
  intros Hr Hc. unfold gp_retry_close, bind, gets, script_fuel.
  rewrite Hr, length_app. simpl length.
  replace (S (length ints + S (length rest)))
    with (S (length ints + S (length rest)))%nat by lia.
  apply gp_retry_close_loop_run; assumption.
Qed.

Lemma bind_Normal {A B} (m : M A) (f : A -> M B) s a s' :
  m s = Normal a s' -> bind m f s = f a s'.
Proof. intros H. unfold bind. now rewrite H. Qed.

Lemma bind_Raised {A B} (m : M A) (f : A -> M B) s sev code msg s' :
  m s = Raised sev code msg s' -> bind m f s = Raised sev code msg s'.
Proof. intros H. unfold bind. now rewrite H. Qed.

Lemma globals_fields s s' :
  globals s' = globals s ->
  max_files_per_process s' = max_files_per_process s /\
  max_safe_fds s' = max_safe_fds s /\ VfdCache s' = VfdCache s /\
  nfile s' = nfile s /\ numAllocatedDescs s' = numAllocatedDescs s /\
  allocatedDescs s' = allocatedDescs s /\
  RecentRemoteAllocatedDesc s' = RecentRemoteAllocatedDesc s /\
  tempFileCounter s' = tempFileCounter s /\ HdfsFsTable s' = HdfsFsTable s.
Proof. unfold globals. intros H. inversion H. tauto. Qed.

(** ** Freeing a slot *)

Lemma FreeVfd_wp {T : Prop} (file : File) (s : State) Qn Qe :
  0 < file < SizeVfdCache s ->
  (forall c',
     length c' = length (VfdCache s) ->
     fileName (slot c' file) = None -> fdstate (slot c' file) = 0 ->
     hFS (slot c' file) = NULL -> hFile (slot c' file) = NULL ->
     hProtocol (slot c' file) = None ->
     fd (slot c' file) = fd (slot (VfdCache s) file) ->
     nextFree (slot c' file) = nextFree (slot (VfdCache s) 0) ->
     nextFree (slot c' 0) = file ->
     (forall f, f <> file -> f <> 0 -> slot c' f = slot (VfdCache s) f) ->
     Qn tt (with_VfdCache c' s)) ->
  wpx T (FreeVfd file) Qn Qe s.
Proof.
  intros Hfile HQ. unfold SizeVfdCache in Hfile.
  unfold FreeVfd. wp_go.
  match goal with
  | |- Qn tt ?st => change st with (with_VfdCache (VfdCache st) s)
  end. st_simpl.
  apply HQ; slot_simpl; try reflexivity.
  - now rewrite !length_upd.
  - intros f Hf Hf0. slot_simpl. reflexivity.
Qed.

Lemma Delete_wp {T : Prop} (file : File) (s : State) Qn Qe :
  (forall c',
     Delete file s = Normal tt (with_VfdCache c' s) ->
     length c' = length (VfdCache s) ->
     (forall f, same_but_links (slot (VfdCache s) f) (slot c' f)) ->
     Qn tt (with_VfdCache c' s)) ->
  wpx T (Delete file) Qn Qe s.
Proof.
  intros HQ. destruct (Delete_run file s) as (c' & Heq & Hl & Hf).
  unfold wpx. rewrite Heq. auto.
Qed.

Lemma Insert_wp {T : Prop} (file : File) (s : State) Qn Qe :
  (forall c',
     Insert file s = Normal tt (with_VfdCache c' s) ->
     length c' = length (VfdCache s) ->
     (forall f, same_but_links (slot (VfdCache s) f) (slot c' f)) ->
     Qn tt (with_VfdCache c' s)) ->
  wpx T (Insert file) Qn Qe s.
Proof.
  intros HQ. destruct (Insert_run file s) as (c' & Heq & Hl & Hf).
  unfold wpx. rewrite Heq. auto.
Qed.

Lemma gp_retry_close_twp {T : Prop} (fd0 : Z) (s : State) (ints : list Reply)
    (final : Reply) (rest : list Reply) Qn Qe :
  replies s = ints ++ final :: rest ->
  close_answers ints final (errno s) ->
  (forall s',
     globals s' = globals s -> replies s' = rest ->
     logged s s' (replicate (S (length ints))
                    (mkEvent (c_close fd0) (VfdCache s))) ->
     Qn (r_ret final) s') ->
  wpx T (gp_retry_close fd0) Qn Qe s.
Proof.
  intros Hr Hc HQ.
  destruct (gp_retry_close_run fd0 s ints final rest Hr Hc)
    as (s' & Heq & Hg & Hrep & Htr).
  unfold wpx. rewrite Heq. auto.
Qed.

Lemma gp_retry_close_loop_wp (fd0 : Z) (fuel : nat) :
  forall (s : State) Qn Qe,
    (forall r s' new,
       globals s' = globals s -> logged s s' new ->
       Forall (fun e => ev_call e = c_close fd0) new -> Qn r s') ->
    wp (gp_retry_close_loop fuel fd0) Qn Qe s.
Proof.
  induction fuel as [|fuel IH]; intros s Qn Qe HQ; [exact I|].
  cbn [gp_retry_close_loop]. wp_go.
  - apply IH. intros r1 s' new Hg Hl Hnew.
    apply (HQ r1 s' (mkEvent (c_close fd0) (VfdCache s) :: new)).
    + rewrite Hg. reflexivity.
    + unfold logged in *. rewrite Hl. st_simpl. now rewrite <- app_assoc.
    + constructor; [reflexivity|exact Hnew].
  - apply (HQ _ _ [mkEvent (c_close fd0) (VfdCache s)]).
    + reflexivity.
    + reflexivity.
    + repeat constructor.
Qed.

Lemma gp_retry_close_wp (fd0 : Z) (s : State) Qn Qe :
  (forall r s' new,
     globals s' = globals s -> logged s s' new ->
     Forall (fun e => ev_call e = c_close fd0) new -> Qn r s') ->
  wp (gp_retry_close fd0) Qn Qe s.
Proof.
  intros HQ. unfold gp_retry_close. wp_step. wp_step.
  apply gp_retry_close_loop_wp. exact HQ.
Qed.

(** [gp_retry_close] calls [close] on its descriptor and nothing else: once,
    and once more for each interrupted attempt. *)
Lemma gp_retry_close_loop_calls (fd0 : Z) (fuel : nat) :
  forall (s : State) Qn Qe,
    (forall r s' (k : nat),
       globals s' = globals s ->
       calls is_closing s' = calls is_closing s ++ replicate (S k) (c_close fd0) ->
       (Forall succeeds (replies s) -> k = 0%nat) ->
       Qn r s') ->
    wp (gp_retry_close_loop fuel fd0) Qn Qe s.
Proof.
  induction fuel as [|fuel IH]; intros s Qn Qe HQ; [exact I|].
  cbn [gp_retry_close_loop]. wp_go.
  - apply IH. intros r1 s' k Hg Hc Hcalm.
    apply (HQ r1 s' (S k)).
    + rewrite Hg. reflexivity.
    + rewrite Hc. unfold calls. st_simpl.
      rewrite map_app, List.filter_app. simpl. now rewrite <- app_assoc.
    + intros Hall. rewrite Hrep in Hall. apply Forall_cons in Hall as [H0 _].
      unfold succeeds in H0. apply andb_prop in E as [E _].
      apply Z.eqb_eq in E. lia.
  - apply (HQ _ _ 0%nat).
    + reflexivity.
    + unfold calls. st_simpl. now rewrite map_app, List.filter_app.
    + reflexivity.
Qed.

Lemma gp_retry_close_calls (fd0 : Z) (s : State) Qn Qe :
  (forall r s' (k : nat),
     globals s' = globals s ->
     calls is_closing s' = calls is_closing s ++ replicate (S k) (c_close fd0) ->
     (Forall succeeds (replies s) -> k = 0%nat) ->
     Qn r s') ->
  wp (gp_retry_close fd0) Qn Qe s.
Proof.
  intros HQ. unfold gp_retry_close. wp_step. wp_step.
  apply gp_retry_close_loop_calls. exact HQ.
Qed.

(** ** The state bitmask *)

Lemma testbit_one (n : Z) : 0 <= n -> Z.testbit 1 n = (n =? 0).
Proof.
  intros Hn. destruct (Z.eqb_spec n 0) as [->|Hne]; [reflexivity|].
  change 1 with (2 ^ 0). apply Z.pow2_bits_false. lia.
Qed.

Lemma has_flag_testbit0 (x : Z) : has_flag x 1 = Z.testbit x 0.
Proof.
  unfold has_flag.
  assert (H : Z.land x 1 = if Z.testbit x 0 then 1 else 0).
  { apply Z.bits_inj'. intros n Hn. rewrite Z.land_spec, testbit_one by lia.
    destruct (Z.eqb_spec n 0) as [->|Hne].
    - rewrite andb_true_r. destruct (Z.testbit x 0); reflexivity.
    - rewrite andb_false_r. destruct (Z.testbit x 0).
      + rewrite testbit_one by lia. symmetry. now apply Z.eqb_neq.
      + symmetry. apply Z.bits_0. }
  rewrite H. destruct (Z.testbit x 0); reflexivity.
Qed.


(** [fdstate |= FD_TEMPORARY] sets it. *)
Lemma set_FD_TEMPORARY (x : Z) :
  has_flag (uint16 (Z.lor x FD_TEMPORARY)) FD_TEMPORARY = true.
Proof.
  change FD_TEMPORARY with 1. rewrite has_flag_testbit0. unfold uint16.
  rewrite Z.mod_pow2_bits_low by lia.
  rewrite Z.lor_spec. simpl. apply orb_true_r.
Qed.

(** ** Closing a temporary file *)

Ltac solve_logged :=
  unfold logged in *; st_simpl;
  repeat match goal with
         | H : trace ?x = _ |- context [trace ?x] => st_simpl_in H; rewrite H
         end;
  st_simpl; rewrite <- ?app_assoc;
  first [reflexivity | symmetry; apply app_nil_r].






Lemma calls_logged kind_of s s' new :
  logged s s' new ->
  calls kind_of s' = calls kind_of s ++ List.filter kind_of (map ev_call new).
Proof.
  unfold logged, calls. intros ->. now rewrite map_app, List.filter_app.
Qed.





(** ** The local close path, for contrast *)

Lemma local_close_error_keeps_slot (s : State) (file : File)
    (ints : list Reply) (final : Reply) (rest : list Reply) :
  0 < file < SizeVfdCache s ->
  IsLocalFile (VfdCache s) file = true ->
  FileIsNotOpen (VfdCache s) file = false ->
  replies s = ints ++ final :: rest ->
  close_answers ints final (errno s) ->
  r_ret final <> 0 ->
  exists s' code msg,
    FileClose file s = Raised SevError code msg s' /\
    fileName (slot (VfdCache s') file) = fileName (slot (VfdCache s) file) /\
    fd (slot (VfdCache s') file) = fd (slot (VfdCache s) file) /\
    nextFree (slot (VfdCache s') 0) = nextFree (slot (VfdCache s) 0) /\
    nfile s' = nfile s.
Proof.
  intros Hfile Hlocal Hopen Hr Hca Hret.
  assert (Htwp : twp (FileClose file) (fun _ _ => False)
            (fun sev s' =>
               sev = SevError /\
               fileName (slot (VfdCache s') file) = fileName (slot (VfdCache s) file) /\
               fd (slot (VfdCache s') file) = fd (slot (VfdCache s) file) /\
               nextFree (slot (VfdCache s') 0) = nextFree (slot (VfdCache s) 0) /\
               nfile s' = nfile s) s).
  { unfold FileClose. wp_step. wp_step. wp_step. unfold LocalFileClose.
    wp_step. wp_step. wp_step. wp_step. wp_step.
    apply Delete_wp. intros c' _ Hlen Hlinks.
    wp_step. wp_step. wp_step.
    eapply gp_retry_close_twp; [exact Hr|exact Hca|].
    intros s1 Hg Hrep1 Hl1.
    apply globals_fields in Hg as (_ & _ & Hc & Hn & _).
    st_simpl_in Hc. st_simpl_in Hn.
    apply Z.eqb_neq in Hret. rewrite Hret. cbn [negb].
    wp_step. wp_step. st_simpl. rewrite Hc, Hn.
    pose proof (Hlinks file) as Hf. pose proof (Hlinks 0) as H0.
    unfold same_but_links in *. intuition congruence. }
  apply twp_elim in Htwp
    as [(? & ? & _ & []) | (sev & code & msg & s' & Heq & -> & HP)].
  exists s', code, msg. auto.
Qed.

(** C10 — [FileClose] on a slot that holds DFS handles asks the client to
    close the handle exactly once and then, whatever the answer, clears the
    slot ([fd], [hFS], [hFile], [hProtocol]) and pushes it on the freelist;
    only then is a failed close (-1) reported as an ERROR.  The slot does not
    refer to the handle any more, so it cannot be closed a second time.  The
    local path differs: when [close] fails, the ERROR is raised with the slot
    still holding its name and descriptor and not on the freelist. *)
Theorem C10_dfs_close_always_frees :
  (forall (s : State) (file : File) (r : Reply) (rest : list Reply),
     0 < file < SizeVfdCache s ->
     IsLocalFile (VfdCache s) file = false ->
     replies s = r :: rest ->
     let v := slot (VfdCache s) file in
     exists s',
       (r_ret r <> -1 /\ FileClose file s = Normal tt s' \/
        r_ret r = -1 /\
        exists code msg, FileClose file s = Raised SevError code msg s') /\
       (let v' := slot (VfdCache s') file in
        fd v' = VFD_CLOSED /\ hFS v' = NULL /\ hFile v' = NULL /\
        hProtocol v' = None /\ fileName v' = None /\ fdstate v' = 0 /\
        nextFree v' = nextFree (slot (VfdCache s) 0)) /\
       nextFree (slot (VfdCache s') 0) = file /\
       FileIsNotOpen (VfdCache s') file = true /\
       calls is_HdfsCloseFile s'
       = calls is_HdfsCloseFile s
         ++ [c_HdfsCloseFile (hProtocol v) (hFS v) (hFile v)])
  /\
  (forall (s : State) (file : File) (ints : list Reply) (final : Reply)
          (rest : list Reply),
     0 < file < SizeVfdCache s ->
     IsLocalFile (VfdCache s) file = true ->
     FileIsNotOpen (VfdCache s) file = false ->
     replies s = ints ++ final :: rest ->
     close_answers ints final (errno s) ->
     r_ret final <> 0 ->
     exists s' code msg,
       FileClose file s = Raised SevError code msg s' /\
       fileName (slot (VfdCache s') file) = fileName (slot (VfdCache s) file) /\
       fd (slot (VfdCache s') file) = fd (slot (VfdCache s) file) /\
       nextFree (slot (VfdCache s') 0) = nextFree (slot (VfdCache s) 0) /\
       nfile s' = nfile s).
Proof.
  split.
  - exact dfs_close_always_frees.
  - exact local_close_error_keeps_slot.
Qed.

Lemma C10_dfs_close_always_frees_witness :
  (exists s' code msg,
     FileClose 1 (one_dfs_file [fails (-1) EIO]) = Raised SevError code msg s' /\
     hFile (slot (VfdCache s') 1) = NULL /\
     fileName (slot (VfdCache s') 1) = None /\
     nextFree (slot (VfdCache s') 0) = 1 /\
     calls is_HdfsCloseFile s' = [c_HdfsCloseFile (Some "hdfs"%string) 7 9])
  /\
  (exists s' code msg,
     FileClose 1 (one_temp_file [fails (-1) EIO]) = Raised SevError code msg s' /\
     fileName (slot (VfdCache s') 1) = Some "base/1/pgsql_tmp/pgsql_tmp_x"%string /\
     nextFree (slot (VfdCache s') 0) = 0).
Proof.
  split.
  - destruct (proj1 C10_dfs_close_always_frees
                (one_dfs_file [fails (-1) EIO]) 1 (fails (-1) EIO) [])
      as (s' & [[Hne _] | [_ (code & msg & Heq)]]
          & (_ & _ & Hh & _ & Hfn & _) & Hnf & _ & Hcalls).
    + vm_compute. split; reflexivity.
    + reflexivity.
    + reflexivity.
    + exfalso. apply Hne. reflexivity.
    + exists s', code, msg. auto.
  - destruct (proj2 C10_dfs_close_always_frees
                (one_temp_file [fails (-1) EIO]) 1 [] (fails (-1) EIO) [])
      as (s' & code & msg & Heq & Hfn & _ & Hnf & _).
    + vm_compute. split; reflexivity.
    + reflexivity.
    + reflexivity.
    + reflexivity.
    + split; [constructor|reflexivity].
    + simpl. lia.
    + exists s', code, msg. auto.
Defined.

(** ** The LRU ring *)

Lemma in_ring_range c i : (0 < length c)%nat -> in_ring c i ->
  0 <= i < Z.of_nat (length c).
Proof. intros Hlen [->|[H _]]; lia. Qed.

Lemma in_ring_ext c c' i :
  length c' = length c ->
  (i <> 0 -> (fd (slot c' i) = VFD_CLOSED <-> fd (slot c i) = VFD_CLOSED)) ->
  in_ring c i -> in_ring c' i.
Proof.
  intros Hlen Hfd [->|[Hr Hopen]]; [now left|right].
  rewrite Hlen. split; [exact Hr|]. intros H. apply Hopen, Hfd; [lia|exact H].
Qed.

(** A table that agrees with [c] on links and on which slots are open,
    except perhaps at [x], has the same ring around [x]. *)
Lemma ring_ok_except_ext c c' x :
  ring_ok_except c x ->
  length c' = length c ->
  (forall i, i <> x -> more c' i = more c i /\ less c' i = less c i) ->
  (forall i, i <> x -> i <> 0 ->
     (fd (slot c' i) = VFD_CLOSED <-> fd (slot c i) = VFD_CLOSED)) ->
  ring_ok_except c' x.
Proof.
  intros [Hlen Hring] Hl Hlinks Hfd. split; [now rewrite Hl|].
  intros i Hi Hix.
  assert (Hi0 : in_ring c i).
  { apply (in_ring_ext c' c); [now rewrite Hl| |exact Hi].
    intros Hne. symmetry. now apply Hfd. }
  destruct (Hring i Hi0 Hix) as (Hm & Hmx & Hle & Hlx & Hlm & Hml).
  destruct (Hlinks i Hix) as [Em El].
  unfold linked. rewrite Em, El.
  destruct (Hlinks (more c i) Hmx) as [_ El2].
  destruct (Hlinks (less c i) Hlx) as [Em2 _].
  rewrite El2, Em2.
  repeat split; auto.
  - apply (in_ring_ext c c'); [exact Hl| |exact Hm]. intros Hne. now apply Hfd.
  - apply (in_ring_ext c c'); [exact Hl| |exact Hle]. intros Hne. now apply Hfd.
Qed.

Lemma ring_ok_without c x : ring_ok c -> ~ in_ring c x -> ring_ok_except c x.
Proof.
  intros [Hlen Hring] Hx. split; [exact Hlen|]. intros i Hi _.
  assert (Hi1 : i <> -1).
  { pose proof (in_ring_range c i Hlen Hi). lia. }
  destruct (Hring i Hi Hi1) as (Hm & _ & Hle & _ & Hlm & Hml).
  repeat split; auto; intros E; apply Hx; rewrite <- E; assumption.
Qed.

Lemma ring_ok_except_closed c x : ring_ok_except c x -> ~ in_ring c x -> ring_ok c.
Proof.
  intros [Hlen Hring] Hx. split; [exact Hlen|]. intros i Hi _.
  assert (Hix : i <> x) by (intros ->; contradiction).
  destruct (Hring i Hi Hix) as (Hm & _ & Hle & _ & Hlm & Hml).
  repeat split; auto.
  - pose proof (in_ring_range c _ Hlen Hm). lia.
  - pose proof (in_ring_range c _ Hlen Hle). lia.
Qed.

Ltac links_cases :=
  unfold more, less; rewrite ?slot_upd, ?length_upd;
  repeat case_bool_decide; simpl;
  repeat match goal with
         | H : _ /\ _ |- _ => destruct H
         end;
  subst; try reflexivity; try (exfalso; intuition (try lia; congruence)).

Lemma unlink_links c L M :
  0 <= L < Z.of_nat (length c) ->
  0 <= M < Z.of_nat (length c) ->
  forall i,
    more (upd M (set_lruLessRecently L) (upd L (set_lruMoreRecently M) c)) i
    = (if bool_decide (i = L) then M else more c i) /\
    less (upd M (set_lruLessRecently L) (upd L (set_lruMoreRecently M) c)) i
    = (if bool_decide (i = M) then L else less c i).
Proof. intros HL HM i. split; links_cases. Qed.

(** The links after [Delete]. *)
Lemma Delete_links (x : File) (s : State) :
  let c := VfdCache s in
  0 <= less c x < Z.of_nat (length c) ->
  0 <= more c x < Z.of_nat (length c) ->
  exists c',
    Delete x s = Normal tt (with_VfdCache c' s) /\
    length c' = length c /\
    (forall f, same_but_links (slot c f) (slot c' f)) /\
    (forall i, more c' i = if bool_decide (i = less c x) then more c x else more c i) /\
    (forall i, less c' i = if bool_decide (i = more c x) then less c x else less c i).
Proof.
  intros c HL HM.
  destruct (Delete_run x s) as (c' & Heq & Hlen & Hsame).
  exists c'. split; [exact Heq|]. split; [exact Hlen|]. split; [exact Hsame|].
  (* recover the table from the run *)
  unfold Delete, bind, get_vfd, set_vfd, gets, modify in Heq.
  st_simpl_in Heq. injection Heq as Hc'. fold c in Hc'.
  assert (HL1 : lruLessRecently
                  (slot (upd (less c x) (set_lruMoreRecently (more c x)) c) x)
                = less c x).
  { rewrite slot_upd. case_bool_decide as H; [|reflexivity].
    destruct H as [E _]. simpl. rewrite E at 1. reflexivity. }
  assert (HM1 : lruMoreRecently
                  (slot (upd (less c x) (set_lruMoreRecently (more c x)) c) x)
                = more c x).
  { rewrite slot_upd. case_bool_decide as H; reflexivity. }
  unfold more, less in HL1, HM1 |- *. unfold more, less in HL, HM.
  rewrite HL1, HM1 in Hc'. subst c'.
  split; intros i.
  - apply (unlink_links c _ _ HL HM i).
  - apply (unlink_links c _ _ HL HM i).
Qed.

Lemma in_ring_same c c' i :
  length c' = length c ->
  (forall f, same_but_links (slot c f) (slot c' f)) ->
  in_ring c i <-> in_ring c' i.
Proof.
  intros Hlen Hsame. unfold in_ring. rewrite Hlen.
  destruct (Hsame i) as (Hfd & _). rewrite Hfd. tauto.
Qed.

(** Taking a member out of a well-formed ring. *)
Lemma Delete_ring (x : File) (s : State) :
  ring_ok (VfdCache s) -> in_ring (VfdCache s) x -> x <> 0 ->
  exists c',
    Delete x s = Normal tt (with_VfdCache c' s) /\
    length c' = length (VfdCache s) /\
    (forall f, same_but_links (slot (VfdCache s) f) (slot c' f)) /\
    ring_ok_except c' x.
Proof.
  intros Hok Hx Hx0. pose proof Hok as [Hlen Hring].
  assert (Hx1 : x <> -1) by (pose proof (in_ring_range _ _ Hlen Hx); lia).
  destruct (Hring x Hx Hx1) as (HM & _ & HL & _ & HlM & HmL).
  destruct (Delete_links x s) as (c' & Heq & Hl' & Hsame & Hmore & Hless).
  { apply in_ring_range; assumption. }
  { apply in_ring_range; assumption. }
  exists c'. split; [exact Heq|]. split; [exact Hl'|]. split; [exact Hsame|].
  split; [now rewrite Hl'|].
  intros i Hi Hix.
  apply (in_ring_same _ _ _ Hl' Hsame) in Hi.
  assert (Hi1 : i <> -1) by (pose proof (in_ring_range _ _ Hlen Hi); lia).
  destruct (Hring i Hi Hi1) as (Hmi & _ & Hli & _ & Hlmi & Hmli).
  unfold linked. rewrite !Hmore, !Hless.
  set (c := VfdCache s) in *.
  assert (Hin : forall j, in_ring c j -> in_ring c' j).
  { intros j. apply (in_ring_same c c' j Hl' Hsame). }
  repeat case_bool_decide; repeat split; auto;
    try congruence; try (intros E; congruence).
Qed.

Lemma link_in_links c x T :
  x <> 0 -> T <> x ->
  0 < x < Z.of_nat (length c) -> 0 <= T < Z.of_nat (length c) ->
  forall i,
    more (upd T (set_lruMoreRecently x)
            (upd 0 (set_lruLessRecently x)
               (upd x (set_lruLessRecently T)
                  (upd x (set_lruMoreRecently 0) c)))) i
    = (if bool_decide (i = T) then x
       else if bool_decide (i = x) then 0 else more c i) /\
    less (upd T (set_lruMoreRecently x)
            (upd 0 (set_lruLessRecently x)
               (upd x (set_lruLessRecently T)
                  (upd x (set_lruMoreRecently 0) c)))) i
    = (if bool_decide (i = 0) then x
       else if bool_decide (i = x) then T else less c i).
Proof. intros Hx0 HTx Hx HT i. split; links_cases. Qed.

(** The links after [Insert]. *)
Lemma Insert_links (x : File) (s : State) :
  let c := VfdCache s in
  x <> 0 -> less c 0 <> x ->
  0 < x < Z.of_nat (length c) -> 0 <= less c 0 < Z.of_nat (length c) ->
  exists c',
    Insert x s = Normal tt (with_VfdCache c' s) /\
    length c' = length c /\
    (forall f, same_but_links (slot c f) (slot c' f)) /\
    (forall i, more c' i = if bool_decide (i = less c 0) then x
                           else if bool_decide (i = x) then 0 else more c i) /\
    (forall i, less c' i = if bool_decide (i = 0) then x
                           else if bool_decide (i = x) then less c 0
                                else less c i).
Proof.
  intros c Hx0 HTx Hx HT.
  destruct (Insert_run x s) as (c' & Heq & Hlen & Hsame).
  exists c'. split; [exact Heq|]. split; [exact Hlen|]. split; [exact Hsame|].
  unfold Insert, bind, get_vfd, set_vfd, gets, modify in Heq.
  st_simpl_in Heq. injection Heq as Hc'. fold c in Hc'.
  assert (H0 : lruLessRecently (slot (upd x (set_lruMoreRecently 0) c) 0)
               = less c 0).
  { rewrite slot_upd_other by exact Hx0. reflexivity. }
  rewrite H0 in Hc'.
  assert (H1 : lruLessRecently
                 (slot (upd 0 (set_lruLessRecently x)
                          (upd x (set_lruLessRecently (less c 0))
                             (upd x (set_lruMoreRecently 0) c))) x)
               = less c 0).
  { rewrite slot_upd_other by congruence.
    rewrite slot_upd_same by (rewrite length_upd; lia). reflexivity. }
  rewrite H1 in Hc'. subst c'.
  split; intros i; apply (link_in_links c x (less c 0) Hx0 HTx Hx HT i).
Qed.

(** Putting a slot that holds a descriptor into the ring. *)
Lemma Insert_ring (x : File) (s : State) :
  ring_ok_except (VfdCache s) x ->
  0 < x < Z.of_nat (length (VfdCache s)) ->
  fd (slot (VfdCache s) x) <> VFD_CLOSED ->
  exists c',
    Insert x s = Normal tt (with_VfdCache c' s) /\
    length c' = length (VfdCache s) /\
    (forall f, same_but_links (slot (VfdCache s) f) (slot c' f)) /\
    ring_ok c'.
Proof.
  intros [Hlen Hring] Hx Hfd.
  assert (H0 : in_ring (VfdCache s) 0) by now left.
  destruct (Hring 0 H0 ltac:(lia)) as (HM0 & HM0x & HT & HTx & HlM0 & HmT).
  destruct (Insert_links x s) as (c' & Heq & Hl' & Hsame & Hmore & Hless);
    [lia|exact HTx|exact Hx|now apply in_ring_range|].
  exists c'. split; [exact Heq|]. split; [exact Hl'|]. split; [exact Hsame|].
  split; [now rewrite Hl'|].
  set (c := VfdCache s) in *.
  assert (Hin : forall j, in_ring c j -> in_ring c' j).
  { intros j. apply (in_ring_same c c' j Hl' Hsame). }
  assert (Hxin : in_ring c' x).
  { apply Hin. right. auto. }
  intros i Hi _.
  apply (in_ring_same _ _ _ Hl' Hsame) in Hi.
  unfold linked. rewrite !Hmore, !Hless.
  assert (Hneg : forall j, in_ring c j -> j <> -1).
  { intros j Hj. pose proof (in_ring_range _ _ Hlen Hj). lia. }
  destruct (decide (i = x)) as [->|Hix].
  - repeat case_bool_decide; repeat split; auto; try lia; try congruence.
  - destruct (Hring i Hi Hix) as (Hmi & Hmix & Hli & Hlix & Hlmi & Hmli).
    repeat case_bool_decide; repeat split; auto;
      try lia; try congruence; try (intros E; congruence).
Qed.

(** ** Eviction *)

Lemma closing_keeps_ring (c1 : list Vfd) (x pos : Z) (c : list Vfd) :
  length c1 = length c ->
  (forall f, same_but_links (slot c f) (slot c1 f)) ->
  (forall i, more c1 i = if bool_decide (i = less c x) then more c x else more c i) ->
  (forall i, less c1 i = if bool_decide (i = more c x) then less c x else less c i) ->
  (x <> 0 -> ring_ok c -> in_ring c x -> ring_ok_except c1 x) ->
  0 <= x < Z.of_nat (length c) ->
  ring_ok c -> in_ring c x -> (x = 0 -> more c 0 = 0) ->
  ring_ok (upd x (set_hProtocol None) (upd x (set_hFile NULL)
            (upd x (set_hFS NULL) (upd x (set_fd VFD_CLOSED)
               (upd x (set_seekPos pos) c1))))).
Proof.
  intros Hlen Hsame Hmore Hless Hexc Hx Hok Hin Hempty.
  set (c2 := upd x (set_hProtocol None) _).
  assert (Hlen2 : length c2 = length c1) by (unfold c2; now rewrite !length_upd).
  assert (Hlinks2 : forall i, more c2 i = more c1 i /\ less c2 i = less c1 i).
  { intros i. unfold c2, more, less. rewrite !slot_upd, !length_upd.
    repeat case_bool_decide; simpl; auto;
      repeat match goal with H : _ /\ _ |- _ => destruct H end; subst; auto. }
  assert (Hother : forall i, i <> x -> slot c2 i = slot c1 i).
  { intros i Hi. unfold c2. now rewrite !slot_upd_other by congruence. }
  destruct (decide (x = 0)) as [->|Hx0].
  - (* the ring was empty: slot 0 is its only member *)
    specialize (Hempty eq_refl). pose proof Hok as [Hl0 Hring].
    destruct (Hring 0 ltac:(now left) ltac:(lia)) as (_ & _ & _ & _ & HlM & _).
    rewrite Hempty in HlM.
    apply (ring_ok_except_ext c c2 (-1) Hok); [congruence| |].
    + intros i _. destruct (Hlinks2 i) as [-> ->].
      rewrite Hmore, Hless, HlM, Hempty.
      split; case_bool_decide; congruence.
    + intros i _ Hi0. rewrite (Hother i Hi0).
      destruct (Hsame i) as (-> & _). tauto.
  - (* a real member leaves the ring *)
    apply (ring_ok_except_closed c2 x).
    + apply (ring_ok_except_ext c1 c2 x (Hexc Hx0 Hok Hin) Hlen2).
      * intros i _. apply Hlinks2.
      * intros i Hi _. now rewrite (Hother i Hi).
    + intros [->|[_ Hfd]]; [congruence|]. apply Hfd. unfold c2.
      rewrite !slot_upd, !length_upd.
      repeat case_bool_decide; simpl; try reflexivity; exfalso; intuition lia.
Qed.

Lemma IsLocalFile_is_local c x : IsLocalFile c x = is_local (slot c x).
Proof. reflexivity. Qed.

Lemma is_local_same v v' : same_but_links v v' -> is_local v' = is_local v.
Proof.
  unfold same_but_links, is_local.
  intros (_ & _ & _ & _ & _ & _ & _ & _ & -> & -> & _). reflexivity.
Qed.

Lemma LruDelete_spec {T : Prop} (x : File) (s : State) :
  0 <= x < Z.of_nat (length (VfdCache s)) ->
  (T \/ exists pos rest,
          replies s = pos :: rest /\ (r_ret pos = -1 \/ rest <> [])) ->
  wpx T (LruDelete x)
    (fun _ s' => exists pos closed rest,
                   replies s = pos :: closed :: rest /\ evicted s x pos closed s')
    (fun sev s' => eviction_failed s x sev s') s.
Proof.
  intros Hx Hscript. unfold LruDelete.
  wp_step. apply Delete_wp. intros c1 Hrun Hlen1 Hsame1.
  set (v := slot (VfdCache s) x).
  assert (Hv1 : same_but_links v (slot c1 x)) by apply Hsame1.
  pose proof Hv1 as (Hfd1 & _ & _ & _ & _ & Hname1 & _ & _ & HhFS1 & HhFile1 & Hproto1).
  wp_step. wp_step. wp_step. wp_step. wp_step.
  rewrite IsLocalFile_is_local, (is_local_same _ _ Hv1).
  rewrite Hfd1, HhFS1, HhFile1, Hproto1.
  fold (saving_call v).
  replace (if is_local v
           then sys (c_lseek (fd v) 0 SEEK_CUR)
           else sys (c_HdfsTell (hProtocol v) (hFS v) (hFile v)))
    with (sys (saving_call v))
    by (unfold saving_call; destruct (is_local v); reflexivity).
  apply wp_sys.
  { intros Hempty. destruct Hscript as [HT|(p & r & Hp & _)]; [exact HT|].
    st_simpl_in Hempty. congruence. }
  intros pos rest1 Hrep1. st_simpl_in Hrep1. st_simpl.
  wp_step. wp_step. wp_step. wp_step.
  - (* the position was saved *)
    apply negb_true_iff, Z.eqb_neq in H.
    wp_step. wp_step. wp_step. wp_step. wp_step.
    rewrite IsLocalFile_is_local.
    assert (Hv2 : same_but_links (set_seekPos (r_ret pos) v)
                    (slot (upd x (set_seekPos (r_ret pos)) c1) x)).
    { rewrite slot_upd_same by lia. unfold same_but_links in *. simpl. tauto. }
    rewrite (is_local_same _ _ Hv2).
    change (is_local (set_seekPos (r_ret pos) v)) with (is_local v).
    pose proof Hv2 as (Hfd2 & _ & _ & _ & _ & Hname2 & _ & _ & HhFS2 & HhFile2 & Hproto2).
    simpl in Hfd2, Hname2, HhFS2, HhFile2, Hproto2.
    rewrite Hfd2, HhFS2, HhFile2, Hproto2.
    replace (if is_local v
             then sys (c_close (fd v))
             else sys (c_HdfsCloseFile (hProtocol v) (hFS v) (hFile v)))
      with (sys (closing_call v))
      by (unfold closing_call; destruct (is_local v); reflexivity).
    apply wp_sys.
    { intros Hempty. st_simpl_in Hempty.
      destruct Hscript as [HT|(p & r & Hp & [Hm1|Hne])]; [exact HT| |].
      - rewrite Hp in Hrep1. injection Hrep1 as <- <-. contradiction.
      - rewrite Hp in Hrep1. injection Hrep1 as <- <-. rewrite Hp in Hempty.
        simpl in Hempty. contradiction. }
    intros closed rest2 Hrep2. st_simpl_in Hrep2. st_simpl.
    rewrite Hrep1 in Hrep2. simpl in Hrep2. subst rest1.
    wp_step. wp_step.
    + (* the slot is closed *)
      apply Z.eqb_eq in E.
      wp_go. exists pos, closed, rest2. split; [exact Hrep1|].
      unfold evicted. st_simpl.
      split; [exact H|]. split; [exact E|].
      split; [reflexivity|]. split; [reflexivity|].
      split; [now rewrite !length_upd|].
      split.
      { rewrite !slot_upd, !length_upd.
        repeat case_bool_decide; try (exfalso; intuition lia).
        unfold same_but_links, closed_slot in *. simpl. tauto. }
      split.
      { intros f Hf. rewrite !slot_upd_other by congruence. apply Hsame1. }
      split.
      { eexists. split; [solve_logged|]. reflexivity. }
      split; [now rewrite Hrep1|].
      intros Hok Hin Hempty.
      pose proof Hok as [Hl0 Hring].
      assert (Hx1 : x <> -1) by lia.
      destruct (Hring x Hin Hx1) as (HM & _ & HL & _ & _).
      destruct (Delete_links x s) as (c1' & Hrun' & _ & _ & Hmore & Hless);
        [now apply in_ring_range|now apply in_ring_range|].
      rewrite Hrun in Hrun'. injection Hrun' as <-.
      apply (closing_keeps_ring c1 x (r_ret pos) (VfdCache s)); auto.
      intros Hx0 _ _.
      destruct (Delete_ring x s Hok Hin Hx0) as (c1' & Hrun' & _ & _ & Hexc).
      rewrite Hrun in Hrun'. injection Hrun' as <-. exact Hexc.
    + (* the close failed *)
      apply Z.eqb_neq in E.
      wp_step. st_simpl. unfold eviction_failed. st_simpl.
      split; [reflexivity|]. split; [reflexivity|].
      split; [now rewrite length_upd|].
      split.
      { rewrite slot_upd_same by lia. unfold same_but_links in *. simpl. tauto. }
      split.
      { intros f Hf. rewrite slot_upd_other by congruence. apply Hsame1. }
      right. split; [reflexivity|]. exists pos, closed, rest2.
      split; [exact Hrep1|]. split; [exact H|]. split; [exact E|].
      rewrite slot_upd_same by lia. reflexivity.
  - (* the saved position is -1 *)
    apply negb_false_iff, Z.eqb_eq in H.
    unfold eviction_failed. st_simpl.
    split; [reflexivity|]. split; [reflexivity|].
    split; [now rewrite length_upd|].
    split.
    { rewrite slot_upd_same by lia. unfold same_but_links in *. simpl. tauto. }
    split.
    { intros f Hf. rewrite slot_upd_other by congruence. apply Hsame1. }
    left. split; [reflexivity|]. exists pos, rest1.
    split; [exact Hrep1|]. split; [exact H|].
    split; [rewrite slot_upd_same by lia; simpl; exact H|].
    eexists. split; [solve_logged|]. reflexivity.
Qed.

Lemma ReleaseLruFile_spec {T : Prop} (s : State) :
  ring_ok (VfdCache s) ->
  (T \/ exists pos rest,
          replies s = pos :: rest /\ (r_ret pos = -1 \/ rest <> [])) ->
  let victim := more (VfdCache s) 0 in
  wpx T ReleaseLruFile
    (fun released s' =>
       if released
       then 0 < nfile s /\
            exists pos closed rest,
              replies s = pos :: closed :: rest /\
              evicted s victim pos closed s' /\ ring_ok (VfdCache s')
       else nfile s <= 0 /\ s' = s)
    (fun sev s' => 0 < nfile s /\ eviction_failed s victim sev s') s.
Proof.
  intros Hok Hscript victim. unfold ReleaseLruFile.
  wp_step. wp_step. wp_step.
  - apply Z.gtb_lt in E. wp_step. wp_step. wp_step.
    fold (more (VfdCache s) 0). fold victim.
    pose proof Hok as [Hlen Hring].
    destruct (Hring 0 ltac:(now left) ltac:(lia)) as (Hvin & _).
    fold victim in Hvin.
    eapply wp_mono; [apply LruDelete_spec; [now apply in_ring_range|exact Hscript]| |].
    + intros _ s' (pos & closed & rest & Hrep & Hev). wp_step.
      split; [lia|]. exists pos, closed, rest. split; [exact Hrep|].
      split; [exact Hev|].
      destruct Hev as (_ & _ & _ & _ & _ & _ & _ & _ & _ & Hr). apply Hr; auto.
    + intros sev s' Hf. split; [lia|exact Hf].
  - wp_step. split; [|reflexivity].
    destruct (Z.gtb_spec (nfile s) 0); [discriminate|lia].
Qed.

Lemma one_temp_file_ring_ok (script : list Reply) :
  ring_ok (VfdCache (one_temp_file script)).
Proof.
  split; [simpl; lia|].
  intros i [->|[Hr _]] _.
  - vm_compute. intuition (auto; discriminate).
  - assert (i = 1) as -> by (simpl in Hr; lia).
    vm_compute. intuition (auto; discriminate).
Qed.




(** ** Making room for a closed slot *)

Lemma logged_trans s0 s s' new new' :
  logged s0 s new -> logged s s' new' -> logged s0 s' (new ++ new').
Proof. unfold logged. intros H ->. rewrite H. now rewrite app_assoc. Qed.

Lemma called_later s s1 s' c new :
  called s s1 c -> logged s1 s' new -> called s s' c.
Proof.
  intros (n1 & Hl & Hin) Hl'. exists (n1 ++ new).
  split; [eapply logged_trans; eauto|].
  rewrite map_app. apply in_or_app. now left.
Qed.

Lemma called_after s s1 s' c new :
  logged s s1 new -> called s1 s' c -> called s s' c.
Proof.
  intros Hl (n1 & Hl' & Hin). exists (new ++ n1).
  split; [eapply logged_trans; eauto|].
  rewrite map_app. apply in_or_app. now right.
Qed.

Lemma kept_refl (s : State) (file : File) :
  ring_ok (VfdCache s) -> kept s file s.
Proof.
  intros Hok. split; [exact Hok|]. split; [reflexivity|].
  split; [apply same_but_links_refl|]. exists []. unfold logged.
  now rewrite app_nil_r.
Qed.

Section Kept.
Variables (s0 : State) (file : File).
Hypothesis Hfile : 0 < file.
Hypothesis Hclosed : fd (slot (VfdCache s0) file) = VFD_CLOSED.

Lemma victim_is_not_kept (s : State) :
  kept s0 file s -> more (VfdCache s) 0 <> file.
Proof.
  intros ([Hl Hring] & _ & Hsame & _) Heq.
  destruct (Hring 0 (or_introl eq_refl) ltac:(lia)) as (Hvin & _).
  rewrite Heq in Hvin. destruct Hvin as [H0|[_ Hfd]]; [lia|].
  apply Hfd. destruct Hsame as (-> & _). exact Hclosed.
Qed.

Lemma kept_ext (s s' : State) (new : list Event) :
  kept s0 file s -> VfdCache s' = VfdCache s -> logged s s' new ->
  kept s0 file s'.
Proof.
  intros (Hok & Hlen & Hsame & n0 & Hn0) Hc Hl. unfold kept. rewrite Hc.
  split; [exact Hok|]. split; [exact Hlen|]. split; [exact Hsame|].
  exists (n0 ++ new). eapply logged_trans; eauto.
Qed.

Lemma ReleaseLruFile_kept (s : State) :
  kept s0 file s ->
  wp ReleaseLruFile
    (fun _ s' => kept s0 file s' /\ exists new, logged s s' new)
    (fun _ _ => True) s.
Proof.
  intros Hk. pose proof (victim_is_not_kept s Hk) as Hv.
  destruct Hk as (Hok & Hlen & Hsame & new & Hnew).
  eapply wp_mono;
    [apply (ReleaseLruFile_spec (T := True) s Hok); now left| |auto].
  intros [] s' H.
  - destruct H as (_ & pos & closed & rest & _ & Hev & Hok').
    destruct Hev as (_ & _ & _ & _ & Hlen' & _ & Hothers & (new' & Hl' & _) & _).
    split; [|eauto].
    split; [exact Hok'|]. split; [congruence|]. split.
    + eapply same_but_links_trans; [exact Hsame|]. apply Hothers. congruence.
    + exists (new ++ new'). eapply logged_trans; eauto.
  - destruct H as [_ ->]. split; [unfold kept; eauto|].
    exists []. unfold logged. now rewrite app_nil_r.
Qed.

Lemma release_loop_kept (fuel : nat) (s : State) :
  kept s0 file s ->
  wp (release_loop fuel)
    (fun _ s' => kept s0 file s' /\ exists new, logged s s' new)
    (fun _ _ => True) s.
Proof.
  revert s. induction fuel as [|fuel IH]; intros s Hk; simpl.
  - exact I.
  - assert (Hnil : exists new, logged s s new)
      by (exists []; unfold logged; now rewrite app_nil_r).
    wp_step. wp_step. wp_step; [|wp_step; auto].
    wp_step. eapply wp_mono; [apply ReleaseLruFile_kept; exact Hk| |auto].
    intros [] s' (Hk' & new & Hl); [|wp_step; eauto].
    eapply wp_mono; [apply IH; exact Hk'| |auto].
    intros _ s'' (Hk'' & new' & Hl'). split; [exact Hk''|].
    eexists. eapply logged_trans; eauto.
Qed.

Lemma release_while_over_budget_kept (s : State) :
  kept s0 file s ->
  wp release_while_over_budget
    (fun _ s' => kept s0 file s' /\ exists new, logged s s' new)
    (fun _ _ => True) s.
Proof.
  intros Hk. unfold release_while_over_budget. wp_step. wp_step.
  apply release_loop_kept. exact Hk.
Qed.

Lemma BasicOpenFile_loop_kept (fuel : nat) (name : string) (flags mode : Z)
    (s : State) :
  kept s0 file s ->
  wp (BasicOpenFile_loop fuel name flags mode)
    (fun r s' => kept s0 file s' /\ called s s' (c_open name flags mode) /\
                 (0 <= r \/ r = -1))
    (fun _ _ => True) s.
Proof.
  revert s. induction fuel as [|fuel IH]; intros s Hk; simpl.
  - exact I.
  - wp_step. wp_step. wp_step.
    + wp_step. split; [eapply kept_ext; [exact Hk|reflexivity|solve_logged]|].
      split; [|left; lia].
      eexists. split; [solve_logged|]. now left.
    + wp_step. wp_step. wp_step; [|wp_step].
      * wp_step. wp_step. wp_step. wp_step. wp_step.
        eapply wp_mono;
          [apply ReleaseLruFile_kept;
           eapply kept_ext; [exact Hk|reflexivity|solve_logged]| |auto].
        intros [] s' (Hk' & new & Hl).
        -- eapply wp_mono; [apply IH; exact Hk'| |auto].
           intros r' s'' (Hk'' & Hc & Hr). split; [exact Hk''|].
           split; [|exact Hr]. eapply called_after; [|exact Hc].
           eapply logged_trans; [|exact Hl]. solve_logged.
        -- wp_step. wp_step. wp_step.
           split; [eapply kept_ext with (new := []);
                   [exact Hk'|reflexivity|
                    unfold logged; st_simpl; now rewrite app_nil_r]|].
           split; [|now right].
           eapply called_later; [|exact Hl].
           eexists. split; [solve_logged|]. simpl. now left.
      * split; [eapply kept_ext; [exact Hk|reflexivity|solve_logged]|].
        split; [|now right].
        eexists. split; [solve_logged|]. now left.
Qed.

Lemma BasicOpenFile_kept (name : string) (flags mode : Z) (s : State) :
  kept s0 file s ->
  wp (BasicOpenFile name flags mode)
    (fun r s' => kept s0 file s' /\ called s s' (c_open name flags mode) /\
                 (0 <= r \/ r = -1))
    (fun _ _ => True) s.
Proof.
  intros Hk. unfold BasicOpenFile. wp_step. wp_step.
  apply BasicOpenFile_loop_kept. exact Hk.
Qed.

End Kept.

(** ** Reopening a slot *)

Lemma Insert_ring_wp {T : Prop} (x : File) (s : State) Qn Qe :
  ring_ok_except (VfdCache s) x ->
  0 < x < Z.of_nat (length (VfdCache s)) ->
  fd (slot (VfdCache s) x) <> VFD_CLOSED ->
  (forall c',
     length c' = length (VfdCache s) ->
     (forall f, same_but_links (slot (VfdCache s) f) (slot c' f)) ->
     ring_ok c' ->
     Qn tt (with_VfdCache c' s)) ->
  wpx T (Insert x) Qn Qe s.
Proof.
  intros Hex Hx Hfd HQ.
  destruct (Insert_ring x s Hex Hx Hfd) as (c' & Heq & Hl & Hf & Hok).
  unfold wpx. rewrite Heq. auto.
Qed.

Lemma Delete_ring_wp {T : Prop} (x : File) (s : State) Qn Qe :
  ring_ok (VfdCache s) -> in_ring (VfdCache s) x -> x <> 0 ->
  (forall c',
     length c' = length (VfdCache s) ->
     (forall f, same_but_links (slot (VfdCache s) f) (slot c' f)) ->
     ring_ok_except c' x ->
     Qn tt (with_VfdCache c' s)) ->
  wpx T (Delete x) Qn Qe s.
Proof.
  intros Hok Hin Hx HQ.
  destruct (Delete_ring x s Hok Hin Hx) as (c' & Heq & Hl & Hf & Hex).
  unfold wpx. rewrite Heq. auto.
Qed.

Lemma same_file_links v v' : same_but_links v v' -> same_file v v'.
Proof. unfold same_but_links, same_file. tauto. Qed.

Lemma same_file_refl v : same_file v v.
Proof. unfold same_file. tauto. Qed.

Lemma same_file_trans v1 v2 v3 :
  same_file v1 v2 -> same_file v2 v3 -> same_file v1 v3.
Proof. unfold same_file. intuition congruence. Qed.

Lemma FileIsNotOpen_closed c file :
  FileIsNotOpen c file = true ->
  fd (slot c file) = VFD_CLOSED /\ IsLocalFile c file = true.
Proof.
  unfold FileIsNotOpen, IsLocalFile. intros H.
  apply andb_prop in H as [Hfd H]. apply andb_prop in H as [H1 H2].
  apply Z.eqb_eq in Hfd. rewrite H1, H2. auto.
Qed.

(** A slot that was closed and now holds a descriptor joins a ring that
    was well formed without it. *)
Lemma ring_ok_opened c file fd0 :
  ring_ok c -> 0 < file -> fd (slot c file) = VFD_CLOSED ->
  ring_ok_except (upd file (set_fd fd0) c) file.
Proof.
  intros Hok Hfile Hclosed.
  assert (Hnot : ~ in_ring c file).
  { intros [H0|[_ Hfd]]; [lia|contradiction]. }
  eapply ring_ok_except_ext; [apply ring_ok_without; eauto| | |].
  - apply length_upd.
  - intros i Hi. unfold more, less. rewrite slot_upd.
    case_bool_decide as Hd; [destruct Hd; congruence|auto].
  - intros i Hi _. rewrite slot_upd_other by congruence. reflexivity.
Qed.

Lemma LruInsert_closed (file : File) (s : State) :
  ring_ok (VfdCache s) -> 0 < file < Z.of_nat (length (VfdCache s)) ->
  FileIsNotOpen (VfdCache s) file = true ->
  wp (LruInsert file)
    (fun r s' =>
       length (VfdCache s') = length (VfdCache s) /\
       same_file (slot (VfdCache s) file) (slot (VfdCache s') file) /\
       called s s' (reopening_call (slot (VfdCache s) file)) /\
       (r = 0 /\ ring_ok (VfdCache s') /\ 0 <= fd (slot (VfdCache s') file)
        \/ r < 0))
    (fun _ _ => True) s.
Proof.
  intros Hok Hfile Hnot.
  destruct (FileIsNotOpen_closed _ _ Hnot) as [Hclosed Hlocal].
  set (v := slot (VfdCache s) file).
  unfold LruInsert. wp_step. wp_step. rewrite Hnot.
  wp_step. wp_step. wp_step. wp_step. wp_step.
  unfold LruInsert_open. do 5 wp_step. rewrite Hlocal. wp_step.
  eapply wp_mono;
    [apply (release_while_over_budget_kept s file (proj1 Hfile) Hclosed);
     eapply kept_ext; [apply kept_refl; exact Hok|reflexivity|solve_logged]| |auto].
  intros _ s1 (Hk1 & new1 & Hl1). wp_step.
  eapply wp_mono;
    [apply (BasicOpenFile_kept s file (proj1 Hfile) Hclosed); exact Hk1| |auto].
  intros r s2 (Hk2 & Hc2 & Hr). fold v.
  assert (Hcalled : called s s2 (reopening_call v)).
  { eapply called_after; [|exact Hc2].
    eapply logged_trans; [|exact Hl1]. solve_logged. }
  clear Hl1 Hc2 Hk1 new1 s1.
  destruct Hk2 as (Hok2 & Hlen2 & Hsame2 & _). fold v in Hsame2.
  assert (Hclosed2 : fd (slot (VfdCache s2) file) = VFD_CLOSED).
  { destruct Hsame2 as (-> & _). exact Hclosed. }
  pose proof (ring_ok_opened _ file r Hok2 (proj1 Hfile) Hclosed2) as Hex.
  assert (Hslot : slot (upd file (set_fd r) (VfdCache s2)) file
                  = set_fd r (slot (VfdCache s2) file))
    by (apply slot_upd_same; lia).
  assert (Hfile2 : same_file v (set_fd r (slot (VfdCache s2) file))).
  { unfold same_file, same_but_links in *. simpl. tauto. }
  wp_step. wp_step. wp_step.
  - (* the open failed *)
    apply Z.ltb_lt in E. wp_step. cbv beta iota. wp_step.
    cbv beta iota. wp_step. st_simpl.
    split; [now rewrite length_upd|]. split; [now rewrite Hslot|].
    split; [|now right].
    destruct Hcalled as (new & Hl & Hin). exists new. split; [|exact Hin].
    unfold logged in *. st_simpl. exact Hl.
  - apply Z.ltb_ge in E. wp_step. wp_step. wp_step. cbv beta iota.
    unfold LruInsert_seek. wp_step. wp_step. rewrite Hslot.
    cbn [seekPos fd set_fd].
    assert (Hlocal2 : IsLocalFile (upd file (set_fd r) (VfdCache s2)) file
                      = true).
    { rewrite IsLocalFile_is_local, Hslot.
      change (is_local (set_fd r (slot (VfdCache s2) file)))
        with (is_local (slot (VfdCache s2) file)).
      rewrite (is_local_same _ _ Hsame2). exact Hlocal. }
    assert (Htail : forall sX,
      VfdCache sX = upd file (set_fd r) (VfdCache s2) ->
      (exists new, logged s2 sX new) ->
      wp (c <- gets VfdCache ;;
          (if IsLocalFile c file then Insert file else ret tt) ;;; ret 0)
        (fun r0 s'0 =>
           length (VfdCache s'0) = length (VfdCache s) /\
           same_file v (slot (VfdCache s'0) file) /\
           called s s'0 (reopening_call v) /\
           (r0 = 0 /\ ring_ok (VfdCache s'0) /\
            0 <= fd (slot (VfdCache s'0) file) \/ r0 < 0))
        (fun _ _ => True) sX).
    { intros sX HX (new & Hl). wp_step. wp_step. rewrite HX, Hlocal2.
      wp_step. apply Insert_ring_wp; rewrite ?HX, ?length_upd, ?Hslot;
        [exact Hex|lia|simpl; unfold VFD_CLOSED; lia|].
      intros c' Hlen' Hsame' Hok'. wp_step. st_simpl.
      pose proof (Hsame' file) as Hsf. rewrite Hslot in Hsf.
      split; [lia|]. split.
      { eapply same_file_trans; [exact Hfile2|].
        apply same_file_links. exact Hsf. }
      split.
      { eapply called_later; [exact Hcalled|]. exact Hl. }
      left. split; [reflexivity|]. split; [exact Hok'|].
      destruct Hsf as (-> & _). simpl. exact E. }
    wp_step.
    + wp_step. cbv beta iota. apply Htail; [reflexivity|].
      eexists. solve_logged.
    + wp_step. wp_step. wp_step. wp_step. wp_step. wp_step.
      * wp_step. cbv beta iota. wp_step. st_simpl.
        split; [now rewrite length_upd|]. split; [now rewrite Hslot|].
        split; [|right; lia].
        eapply called_later; [exact Hcalled|]. solve_logged.
      * wp_step. cbv beta iota. apply Htail; [reflexivity|].
        eexists. solve_logged.
Qed.

Lemma logged_refl s : logged s s [].
Proof. unfold logged. now rewrite app_nil_r. Qed.

(** [FileAccess] leaves the slot its position and its other fields; it can
    fail only when the slot has to be reopened, and then [open] was
    called. *)
Lemma FileAccess_spec (file : File) (s : State) :
  ring_ok (VfdCache s) -> 0 < file < Z.of_nat (length (VfdCache s)) ->
  wp (FileAccess file)
    (fun r s' =>
       length (VfdCache s') = length (VfdCache s) /\
       same_file (slot (VfdCache s) file) (slot (VfdCache s') file) /\
       (exists new, logged s s' new) /\
       (r = 0 /\ ring_ok (VfdCache s') \/
        r < 0 /\ FileIsNotOpen (VfdCache s) file = true) /\
       (FileIsNotOpen (VfdCache s) file = true ->
        called s s' (reopening_call (slot (VfdCache s) file)) /\
        (r = 0 -> 0 <= fd (slot (VfdCache s') file))) /\
       (FileIsNotOpen (VfdCache s) file = false ->
        r = 0 /\ replies s' = replies s /\ trace s' = trace s /\
        fd (slot (VfdCache s') file) = fd (slot (VfdCache s) file)))
    (fun _ _ => True) s.
Proof.
  intros Hok Hfile. unfold FileAccess. wp_step. wp_step.
  destruct (FileIsNotOpen (VfdCache s) file) eqn:Hnot.
  - wp_step.
    eapply wp_mono; [apply LruInsert_closed; assumption| |auto].
    intros r s' (Hlen & Hsf & Hc & Hres).
    assert (Hlog : exists new, logged s s' new)
      by (destruct Hc as (new & Hl & _); eauto).
    wp_step; wp_step.
    + apply Z.eqb_eq in E. subst r.
      destruct Hres as [(_ & Hok' & Hfd)|Hneg]; [|lia].
      split; [exact Hlen|]. split; [exact Hsf|]. split; [exact Hlog|].
      split; [left; auto|]. split; [auto|discriminate].
    + apply Z.eqb_neq in E.
      destruct Hres as [(H0 & _)|Hneg]; [contradiction|].
      split; [exact Hlen|]. split; [exact Hsf|]. split; [exact Hlog|].
      split; [right; auto|]. split; [|discriminate].
      intros _. split; [exact Hc|]. intros; lia.
  - wp_step.
    + apply andb_prop in E as [Hl Hloc].
      apply negb_true_iff, Z.eqb_neq in Hl.
      assert (Hfd : fd (slot (VfdCache s) file) <> VFD_CLOSED).
      { unfold FileIsNotOpen in Hnot. unfold IsLocalFile in Hloc.
        apply andb_prop in Hloc as [H1 H2]. rewrite H1, H2 in Hnot.
        rewrite !andb_true_r in Hnot. now apply Z.eqb_neq in Hnot. }
      wp_step.
      apply Delete_ring_wp; [exact Hok|right; split; [lia|exact Hfd]|lia|].
      intros c1 Hlen1 Hsame1 Hex1. wp_step.
      apply Insert_ring_wp; st_simpl; [exact Hex1|lia| |].
      { destruct (Hsame1 file) as (-> & _). exact Hfd. }
      intros c2 Hlen2 Hsame2 Hok2. wp_step. st_simpl.
      assert (Hs : same_but_links (slot (VfdCache s) file) (slot c2 file)).
      { eapply same_but_links_trans; [apply Hsame1|apply Hsame2]. }
      split; [lia|]. split; [now apply same_file_links|].
      split; [exists []; unfold logged; st_simpl; now rewrite app_nil_r|].
      split; [left; auto|]. split; [discriminate|].
      intros _. split; [reflexivity|]. split; [reflexivity|].
      split; [reflexivity|]. now destruct Hs as (-> & _).
    + wp_step. split; [reflexivity|]. split; [apply same_file_refl|].
      split; [exists []; apply logged_refl|].
      split; [left; auto|]. split; [discriminate|]. auto.
Qed.

(** ** Seeking in a local file *)

Lemma twp_returns {A} (m : M A) (a : A) (s1 s : State) :
  twp m (fun r s' => r = a /\ s' = s1) (fun _ _ => False) s ->
  m s = Normal a s1.
Proof.
  unfold wpx. destruct (m s) as [r s'|? ? ? ?|?]; try tauto.
  intros [-> ->]. reflexivity.
Qed.

Lemma FileIsNotOpen_local c file :
  IsLocalFile c file = true ->
  FileIsNotOpen c file = (fd (slot c file) =? VFD_CLOSED).
Proof.
  unfold IsLocalFile, FileIsNotOpen. intros H.
  apply andb_prop in H as [-> ->]. now rewrite andb_true_r.
Qed.

Ltac whence_simpl :=
  change (SEEK_SET =? SEEK_SET) with true;
  change (SEEK_CUR =? SEEK_SET) with false;
  change (SEEK_CUR =? SEEK_CUR) with true;
  change (SEEK_END =? SEEK_SET) with false;
  change (SEEK_END =? SEEK_CUR) with false;
  change (SEEK_END =? SEEK_END) with true;
  cbv iota.














(** ** Seek accounting *)

Lemma transferred_facts (c1 : list Vfd) (file : File) (r : Z) (c' : list Vfd) :
  ring_ok c1 -> 0 <= file < Z.of_nat (length c1) ->
  transferred c1 file r c' ->
  length c' = length c1 /\ ring_ok c' /\
  seekPos (slot c' file)
  = (if r <? 0 then FileUnknownPos else int64 (seekPos (slot c1 file) + r)).
Proof.
  intros Hok Hfile ->. split; [apply length_upd|]. split.
  - eapply ring_ok_except_ext; [exact Hok|apply length_upd| |].
    + intros i _. unfold more, less. rewrite slot_upd.
      case_bool_decide as Hd; [destruct Hd as [<- _]|]; auto.
    + intros i _ _. rewrite slot_upd.
      case_bool_decide as Hd; [destruct Hd as [<- _]|]; reflexivity.
  - rewrite slot_upd_same by lia. reflexivity.
Qed.

Lemma FileReadIntr_loop_spec (fuel : nat) (file : File) (amount : Z)
    (fRetryIntr : bool) (s : State) :
  wp (FileReadIntr_loop fuel file amount fRetryIntr)
    (fun r s' => transferred (VfdCache s) file r (VfdCache s'))
    (fun _ _ => True) s.
Proof.
  revert s. induction fuel as [|fuel IH]; intros s; simpl.
  - exact I.
  - wp_step. wp_step. wp_step. wp_step. wp_step.
    + apply Z.geb_le in E. wp_step. wp_step. wp_step. st_simpl.
      unfold transferred. destruct (Z.ltb_spec (r_ret r) 0); [lia|].
      reflexivity.
    + wp_step. wp_step. wp_step.
      * eapply wp_mono; [apply IH|intros r' s' H; exact H|auto].
      * wp_step. wp_step. wp_step. st_simpl. unfold transferred.
        destruct (Z.geb_spec (r_ret r) 0); [discriminate|].
        destruct (Z.ltb_spec (r_ret r) 0); [|lia]. reflexivity.
Qed.

Lemma LocalFileWrite_loop_spec (fuel : nat) (file : File) (amount : Z)
    (s : State) :
  wp (LocalFileWrite_loop fuel file amount)
    (fun r s' => transferred (VfdCache s) file r (VfdCache s'))
    (fun _ _ => True) s.
Proof.
  revert s. induction fuel as [|fuel IH]; intros s; simpl.
  - exact I.
  - assert (Hend : forall sX : State, VfdCache sX = VfdCache s ->
      forall r : Z,
      wp (if r >=? 0
          then set_vfd file (fun v => set_seekPos (int64 (seekPos v + r)) v) ;;;
               ret r
          else e <- gets errno ;;
               if e =? EINTR then LocalFileWrite_loop fuel file amount
               else set_vfd file (set_seekPos FileUnknownPos) ;;; ret r)
        (fun r s' => transferred (VfdCache s) file r (VfdCache s'))
        (fun _ _ => True) sX).
    { intros sX HX r. wp_step.
      - apply Z.geb_le in E. wp_step. wp_step. wp_step. st_simpl.
        unfold transferred. rewrite HX.
        destruct (Z.ltb_spec r 0); [lia|]. reflexivity.
      - wp_step. wp_step. wp_step.
        + eapply wp_mono; [apply IH| |auto].
          intros r' s' H. rewrite HX in H. exact H.
        + wp_step. wp_step. wp_step. st_simpl. unfold transferred.
          rewrite HX. destruct (Z.geb_spec r 0); [discriminate|].
          destruct (Z.ltb_spec r 0); [|lia]. reflexivity. }
    wp_step. wp_step. wp_step. wp_step. wp_step. wp_step. wp_step.
    wp_step. wp_step. wp_step.
    + wp_step. apply Hend. reflexivity.
    + wp_step. apply Hend. reflexivity.
Qed.

Lemma wp_bind_run {T : Prop} {A B} (m : M A) (f : A -> M B) Qn Qe s :
  (forall a s1, m s = Normal a s1 -> wpx T (f a) Qn Qe s1) ->
  (forall sev code msg s1, m s = Raised sev code msg s1 -> Qe sev s1) ->
  (forall s1, m s = Stuck s1 -> T) ->
  wpx T (bind m f) Qn Qe s.
Proof.
  intros Hn He Hs. unfold wpx, bind.
  destruct (m s) as [a s1|sev code msg s1|s1] eqn:E.
  - exact (Hn a s1 eq_refl).
  - exact (He sev code msg s1 eq_refl).
  - exact (Hs s1 eq_refl).
Qed.

(** A read or a write is [FileAccess], then, unless that failed, the
    transfer. *)
Lemma do_rw_access (file : File) (op : RW) (s : State) :
  wp (do_rw file op)
    (fun r s' =>
       exists rc s1,
         FileAccess file s = Normal rc s1 /\
         (rc < 0 /\ r = rc /\ VfdCache s' = VfdCache s1 \/
          0 <= rc /\ transferred (VfdCache s1) file r (VfdCache s')))
    (fun _ _ => True) s.
Proof.
  destruct op as [amount|amount]; simpl.
  - unfold FileRead. wp_step. wp_step. wp_step.
    + unfold LocalFileRead, FileReadIntr.
      apply wp_bind_run; auto. intros rc s1 HFA. wp_step.
      * apply Z.ltb_lt in E0. wp_step. exists rc, s1. auto.
      * apply Z.ltb_ge in E0. wp_step. wp_step.
        eapply wp_mono; [apply FileReadIntr_loop_spec| |auto].
        intros r s' H. exists rc, s1. auto.
    + unfold HdfsFileRead. wp_step. wp_step.
      apply wp_bind_run; auto. intros rc s1 HFA. wp_step.
      * apply Z.ltb_lt in E0. wp_step. wp_step. wp_step.
        exists rc, s1. auto.
      * apply Z.ltb_ge in E0. wp_step. wp_step. wp_step. wp_step. wp_step.
        -- apply Z.geb_le in E1. wp_step. wp_step. wp_step. st_simpl.
           exists rc, s1. split; [exact HFA|]. right. split; [exact E0|].
           unfold transferred. destruct (Z.ltb_spec (r_ret r) 0); [lia|].
           reflexivity.
        -- wp_step. wp_step. wp_step. wp_step. wp_step. st_simpl.
           exists rc, s1. split; [exact HFA|]. right. split; [exact E0|].
           unfold transferred. destruct (Z.geb_spec (r_ret r) 0); [discriminate|].
           destruct (Z.ltb_spec (r_ret r) 0); [|lia]. reflexivity.
  - unfold FileWrite. wp_step. wp_step. wp_step.
    + unfold LocalFileWrite.
      apply wp_bind_run; auto. intros rc s1 HFA. wp_step.
      * apply Z.ltb_lt in E0. wp_step. exists rc, s1. auto.
      * apply Z.ltb_ge in E0. wp_step. wp_step.
        eapply wp_mono; [apply LocalFileWrite_loop_spec| |auto].
        intros r s' H. exists rc, s1. auto.
    + unfold HdfsFileWrite. wp_step. wp_step.
      apply wp_bind_run; auto. intros rc s1 HFA. wp_step.
      * apply Z.ltb_lt in E0. wp_step. wp_step. wp_step.
        exists rc, s1. auto.
      * apply Z.ltb_ge in E0. wp_step. wp_step. wp_step. wp_step. wp_step.
        -- apply Z.geb_le in E1. wp_step. wp_step. wp_step. st_simpl.
           exists rc, s1. split; [exact HFA|]. right. split; [exact E0|].
           unfold transferred. destruct (Z.ltb_spec (r_ret r) 0); [lia|].
           reflexivity.
        -- wp_step. wp_step. wp_step. wp_step. wp_step. st_simpl.
           exists rc, s1. split; [exact HFA|]. right. split; [exact E0|].
           unfold transferred. destruct (Z.geb_spec (r_ret r) 0); [discriminate|].
           destruct (Z.ltb_spec (r_ret r) 0); [|lia]. reflexivity.
Qed.

Lemma do_rw_spec (file : File) (op : RW) (s : State) (r : Z) (s' : State) :
  ring_ok (VfdCache s) -> 0 < file < Z.of_nat (length (VfdCache s)) ->
  do_rw file op s = Normal r s' ->
  length (VfdCache s') = length (VfdCache s) /\
  (0 <= r ->
   ring_ok (VfdCache s') /\
   seekPos (slot (VfdCache s') file)
   = int64 (seekPos (slot (VfdCache s) file) + r)) /\
  (r < 0 ->
   exists rc s1,
     FileAccess file s = Normal rc s1 /\
     (rc < 0 /\ r = rc /\ FileIsNotOpen (VfdCache s) file = true /\
      seekPos (slot (VfdCache s') file) = seekPos (slot (VfdCache s) file)
      \/
      0 <= rc /\ seekPos (slot (VfdCache s') file) = FileUnknownPos)).
Proof.
  intros Hok Hfile Hrun.
  destruct (wp_normal _ _ _ _ _ _ (do_rw_access file op s) Hrun)
    as (rc & s1 & HFA & Hcases).
  destruct (wp_normal _ _ _ _ _ _ (FileAccess_spec file s Hok Hfile) HFA)
    as (Hlen & Hsf & _ & Hres & _).
  assert (Hpos : seekPos (slot (VfdCache s1) file)
                 = seekPos (slot (VfdCache s) file))
    by now destruct Hsf as (_ & _ & _ & -> & _).
  destruct Hcases as [(Hneg & -> & Hc)|(Hpos0 & Htr)].
  - destruct Hres as [(-> & _)|(_ & Hno)]; [lia|].
    rewrite Hc. split; [exact Hlen|]. split; [lia|].
    intros _. exists rc, s1. split; [exact HFA|]. left. auto.
  - destruct Hres as [(-> & Hok1)|(Hneg & _)]; [|lia].
    destruct (transferred_facts _ file r _ Hok1 ltac:(lia) Htr)
      as (Hlen' & Hok' & Hseek).
    rewrite Hpos in Hseek.
    split; [lia|]. split.
    + intros Hr. destruct (Z.ltb_spec r 0); [lia|]. auto.
    + intros Hr. destruct (Z.ltb_spec r 0); [|lia].
      exists 0, s1. split; [exact HFA|]. right. auto.
Qed.

Lemma do_rws_cons (file : File) (op : RW) (ops : list RW) (s : State)
    (ns : list Z) (s' : State) :
  do_rws file (op :: ops) s = Normal ns s' ->
  exists n ns' s1,
    ns = n :: ns' /\ do_rw file op s = Normal n s1 /\
    do_rws file ops s1 = Normal ns' s'.
Proof.
  simpl. unfold bind at 1.
  destruct (do_rw file op s) as [n s1| |] eqn:E1; try discriminate.
  unfold bind.
  destruct (do_rws file ops s1) as [ns' s2| |] eqn:E2; try discriminate.
  unfold ret. intros H. injection H as <- <-.
  exists n, ns', s1. auto.
Qed.

Lemma seek_accounting (file : File) (ops : list RW) :
  forall (s : State) (ns : list Z) (s' : State),
    ring_ok (VfdCache s) -> 0 < file < Z.of_nat (length (VfdCache s)) ->
    do_rws file ops s = Normal ns s' ->
    Forall (fun n => 0 <= n) ns ->
    - 2 ^ 63 <= seekPos (slot (VfdCache s) file) ->
    seekPos (slot (VfdCache s) file) + sumZ ns < 2 ^ 63 ->
    seekPos (slot (VfdCache s') file)
    = seekPos (slot (VfdCache s) file) + sumZ ns.
Proof.
  induction ops as [|op ops IH]; intros s ns s' Hok Hfile Hrun Hns Hlo Hhi.
  - simpl in Hrun. injection Hrun as <- <-. simpl. lia.
  - apply do_rws_cons in Hrun as (n & ns' & s1 & -> & Hop & Hrest).
    apply Forall_cons in Hns as [Hn Hns']. simpl in Hhi |- *.
    assert (Hsum : 0 <= sumZ ns').
    { clear -Hns'. induction Hns'; simpl; lia. }
    destruct (do_rw_spec file op s n s1 Hok Hfile Hop) as (Hlen & Hgood & _).
    destruct (Hgood Hn) as (Hok1 & Hpos1).
    rewrite int64_id in Hpos1 by lia.
    rewrite (IH s1 ns' s'); auto; try lia.
Qed.

(** C5, as stated, fails for a read that cannot reopen its slot: the slot
    of [one_closed_file] is at position 5 and holds no descriptor; [open]
    answers -1 with [ENOENT]; [FileRead] returns -1 and the position is
    still 5, not [FileUnknownPos]. *)
Lemma C5_failed_reopen_keeps_position :
  let s := one_closed_file [fails (-1) ENOENT] in
  seekPos (slot (VfdCache s) 1) = 5 /\
  exists s',
    FileRead 1 10 s = Normal (-1) s' /\
    seekPos (slot (VfdCache s') 1) = 5 /\
    seekPos (slot (VfdCache s') 1) <> FileUnknownPos.
Proof.
  split; [reflexivity|].
  eexists. split; [vm_compute; reflexivity|].
  split; [reflexivity|discriminate].
Qed.

(** C5 (amended) — seek accounting.  From a well-formed ring, after any
    sequence of [FileRead] and [FileWrite] calls on a slot that return
    [n1 .. nk], all non-negative, the slot's [seekPos] is the position it
    started from plus [n1 + ... + nk] (the sum staying within 64 bits).  A
    call that returns a negative value either failed in its transfer, after
    [FileAccess] succeeded, and then [seekPos] is [FileUnknownPos]; or it
    returns the negative code of a [FileAccess] that could not reopen the
    slot, and then [seekPos] is as before. *)
Theorem C5_seek_accounting (file : File) (s : State) :
  ring_ok (VfdCache s) -> 0 < file < Z.of_nat (length (VfdCache s)) ->
  let start := seekPos (slot (VfdCache s) file) in
  (forall (ops : list RW) (ns : list Z) (s' : State),
     do_rws file ops s = Normal ns s' ->
     Forall (fun n => 0 <= n) ns ->
     - 2 ^ 63 <= start -> start + sumZ ns < 2 ^ 63 ->
     seekPos (slot (VfdCache s') file) = start + sumZ ns) /\
  (forall (op : RW) (r : Z) (s' : State),
     do_rw file op s = Normal r s' -> r < 0 ->
     exists rc s1,
       FileAccess file s = Normal rc s1 /\
       (0 <= rc /\ seekPos (slot (VfdCache s') file) = FileUnknownPos
        \/
        rc < 0 /\ r = rc /\ FileIsNotOpen (VfdCache s) file = true /\
        seekPos (slot (VfdCache s') file) = start)).
Proof.
  intros Hok Hfile start. split.
  - intros ops ns s' Hrun Hns Hlo Hhi.
    apply (seek_accounting file ops s ns s'); assumption.
  - intros op r s' Hrun Hr.
    destruct (do_rw_spec file op s r s' Hok Hfile Hrun) as (_ & _ & Hbad).
    destruct (Hbad Hr) as (rc & s1 & HFA & Hcases).
    exists rc, s1. split; [exact HFA|]. tauto.
Qed.

Lemma C5_seek_accounting_witness :
  exists s',
    do_rws 1 [Rd 10; Wr 20] (one_temp_file [ok 10; ok 20])
    = Normal [10; 20] s' /\
    seekPos (slot (VfdCache s') 1) = 35.
Proof.
  assert (E : exists s',
            do_rws 1 [Rd 10; Wr 20] (one_temp_file [ok 10; ok 20])
            = Normal [10; 20] s')
    by (vm_compute; eexists; reflexivity).
  destruct E as [s' E]. exists s'. split; [exact E|].
  destruct (C5_seek_accounting 1 (one_temp_file [ok 10; ok 20])) as [Hacc _].
  - apply one_temp_file_ring_ok.
  - simpl. lia.
  - apply (Hacc _ _ _ E).
    + repeat constructor; lia.
    + vm_compute. discriminate.
    + vm_compute. reflexivity.
Defined.

(** ** The end of a subtransaction: commit *)

Lemma with_VfdCache_same (s : State) : with_VfdCache (VfdCache s) s = s.
Proof. destruct s. reflexivity. Qed.


Section Commit.
Variables (mine parent : Z).



End Commit.



(** ** Closing a slot, whatever its kind *)

Lemma wpx_of {T : Prop} {A} (m : M A) Qn Qe s :
  T -> wp m Qn Qe s -> wpx T m Qn Qe s.
Proof. unfold wpx. destruct (m s); auto. Qed.

Lemma gp_retry_close_gen {T : Prop} (fd0 : Z) (s : State) Qn Qe :
  (T \/ exists r0 rest, replies s = r0 :: rest /\ r_ret r0 = 0) ->
  (forall r s' new r0 rest,
     globals s' = globals s -> logged s s' new ->
     Forall (fun e => ev_call e = c_close fd0) new ->
     replies s = r0 :: rest ->
     (r_ret r0 = 0 -> r = 0 /\ replies s' = rest) ->
     Qn r s') ->
  wpx T (gp_retry_close fd0) Qn Qe s.
Proof.
  intros Hscr HQ.
  assert (Hcalm : forall r0 rest, replies s = r0 :: rest -> r_ret r0 = 0 ->
            wpx T (gp_retry_close fd0) Qn Qe s).
  { intros r0 rest Hrep H0.
    eapply (gp_retry_close_twp fd0 s [] r0 rest); [exact Hrep| |].
    - split; [constructor|]. rewrite H0. reflexivity.
    - intros s' Hg Hrest Hl. eapply HQ; [exact Hg|exact Hl| |exact Hrep|].
      + simpl. repeat constructor.
      + auto. }
  destruct Hscr as [HT|(r0 & rest & Hrep & H0)]; [|eauto].
  destruct (replies s) as [|r0 rest] eqn:Hrep.
  - unfold wpx, gp_retry_close, bind, gets, script_fuel. rewrite Hrep.
    simpl. unfold bind, sys, bind, call. rewrite Hrep. exact HT.
  - destruct (Z.eq_dec (r_ret r0) 0) as [H0|Hne]; [eauto|].
    apply wpx_of; [exact HT|]. apply gp_retry_close_wp.
    intros r s' new Hg Hl Hnew. eapply HQ; eauto. contradiction.
Qed.

Lemma filter_unlink_close (fd0 : Z) (new : list Event) :
  Forall (fun e => ev_call e = c_close fd0) new ->
  List.filter is_unlink (map ev_call new) = [].
Proof.
  induction 1 as [|e l He _ IH]; [reflexivity|].
  simpl. rewrite He. simpl. exact IH.
Qed.

Lemma FileClose_slot_freed {T : Prop} (file : File) (s : State) :
  0 < file < SizeVfdCache s ->
  (T \/ Forall succeeds (replies s) /\ (2 <= length (replies s))%nat) ->
  wpx T (FileClose file) (fun _ s' => slot_freed s file s')
    (fun _ _ => T) s.
Proof.
  intros Hfile Hscr.
  assert (Hidx : 0 <= file < Z.of_nat (length (VfdCache s)))
    by (unfold SizeVfdCache in Hfile; lia).
  set (v := slot (VfdCache s) file).
  unfold FileClose. wp_step. wp_step.
  destruct (IsLocalFile (VfdCache s) file) eqn:Hlocal.
  - (* a local slot *)
    unfold LocalFileClose. wp_step. wp_step. wp_step.
    apply wp_mono with
      (Qn := fun _ s0 =>
         length (VfdCache s0) = length (VfdCache s) /\
         (forall f, f <> file ->
            same_but_links (slot (VfdCache s) f) (slot (VfdCache s0) f)) /\
         same_file v (slot (VfdCache s0) file) /\
         fd (slot (VfdCache s0) file) = VFD_CLOSED /\
         numAllocatedDescs s0 = numAllocatedDescs s /\
         allocatedDescs s0 = allocatedDescs s /\
         (exists new, logged s s0 new /\
            List.filter is_unlink (map ev_call new) = []) /\
         (Forall succeeds (replies s) ->
          exists k, (k <= 1)%nat /\ replies s0 = drop k (replies s)))
      (Qe := fun _ _ => T).
    + destruct (FileIsNotOpen (VfdCache s) file) eqn:Eopen; cbn [negb].
      * wp_step. destruct (FileIsNotOpen_closed _ _ Eopen) as [Hfd _].
        split; [reflexivity|]. split; [intros; apply same_but_links_refl|].
        split; [apply same_file_refl|]. split; [exact Hfd|].
        split; [reflexivity|]. split; [reflexivity|].
        split; [exists []; split; [apply logged_refl|reflexivity]|].
        intros _. exists 0%nat. split; [lia|reflexivity].
      * wp_step. apply Delete_wp. intros c' _ Hlen Hlinks.
        wp_step. wp_step. wp_step.
        apply gp_retry_close_gen.
        { destruct Hscr as [HT|[Hall Hlen2]]; [now left|right]. st_simpl.
          destruct (replies s) as [|r1 rest]; [simpl in Hlen2; lia|].
          exists r1, rest. split; [reflexivity|].
          now apply Forall_cons in Hall as [H1 _]. }
        intros r s1 new r0 rest Hg Hl Hnew Hrep Hcalm.
        apply globals_fields in Hg
          as (_ & _ & Hc & _ & Hn & Hd & _). st_simpl_in Hc.
        st_simpl_in Hn. st_simpl_in Hd. st_simpl_in Hrep.
        wp_step. wp_step.
        -- apply Z.eqb_eq in E. subst r. wp_step. wp_step. wp_step. wp_step.
           rewrite Hc, length_upd.
           split; [exact Hlen|]. split.
           { intros f Hf. rewrite slot_upd_other by congruence. apply Hlinks. }
           split.
           { rewrite slot_upd_same by lia.
             pose proof (same_file_links _ _ (Hlinks file)) as Hsf.
             unfold same_file in *. simpl. exact Hsf. }
           split; [rewrite slot_upd_same by lia; reflexivity|].
           split; [exact Hn|]. split; [exact Hd|]. split.
           { exists new. split; [unfold logged in *; st_simpl; exact Hl|].
             eapply filter_unlink_close; exact Hnew. }
           intros Hall. exists 1%nat. split; [lia|]. rewrite Hrep in Hall |- *.
           apply Forall_cons in Hall as [H0 _].
           destruct (Hcalm H0) as [_ ->]. reflexivity.
        -- apply Z.eqb_neq in E. wp_step. st_simpl.
           destruct Hscr as [HT|[Hall _]]; [exact HT|].
           rewrite Hrep in Hall. apply Forall_cons in Hall as [H0 _].
           destruct (Hcalm H0) as [-> _]. contradiction.
    + intros _ s0 (Hlen0 & Hothers0 & Hsf0 & Hfd0 & Hn0 & Hd0
                   & (new0 & Hl0 & Hu0) & Hrep0).
      assert (Hst0 : fdstate (slot (VfdCache s0) file) = fdstate v)
        by now destruct Hsf0 as (-> & _).
      assert (Hname0 : fileName (slot (VfdCache s0) file) = fileName v)
        by now destruct Hsf0 as (_ & _ & _ & _ & -> & _).
      wp_step. wp_step. wp_step.
      apply wp_mono with
        (Qn := fun _ s1 =>
           length (VfdCache s1) = length (VfdCache s) /\
           (forall f, f <> file ->
              same_but_links (slot (VfdCache s) f) (slot (VfdCache s1) f)) /\
           fd (slot (VfdCache s1) file) = VFD_CLOSED /\
           numAllocatedDescs s1 = numAllocatedDescs s /\
           allocatedDescs s1 = allocatedDescs s /\
           (exists new, logged s s1 new /\
              List.filter is_unlink (map ev_call new) = unlinked v) /\
           (Forall succeeds (replies s) ->
            exists k, (k <= 2)%nat /\ replies s1 = drop k (replies s)))
        (Qe := fun _ _ => T).
      * assert (Hloc : is_local v = true) by exact Hlocal.
        unfold unlinked. rewrite Hloc. cbn [andb]. rewrite Hst0, Hname0.
        destruct (has_flag (fdstate v) FD_TEMPORARY) eqn:Htemp.
        -- wp_step. wp_step. wp_step.
           apply wp_sys.
           { st_simpl. intros Hempty.
             destruct Hscr as [HT|[Hall Hlen2]]; [exact HT|exfalso].
             destruct (Hrep0 Hall) as (k & Hk & Hdrop).
             rewrite Hdrop in Hempty.
             apply (f_equal (@length Reply)) in Hempty.
             rewrite length_drop in Hempty. simpl in Hempty. lia. }
           intros u rest Hrepu. st_simpl_in Hrepu. st_simpl.
           assert (Hfinal : forall s1,
             VfdCache s1
             = upd file (fun v0 => set_fdstate
                 (uint16 (Z.land (fdstate v0) (Z.lnot FD_TEMPORARY))) v0)
                 (VfdCache s0) ->
             numAllocatedDescs s1 = numAllocatedDescs s0 ->
             allocatedDescs s1 = allocatedDescs s0 ->
             replies s1 = tl (replies s0) ->
             (exists extra,
                trace s1 = (trace s0
                            ++ [mkEvent (c_unlink (default "" (fileName v)))
                                  (VfdCache s1)]) ++ extra /\
                List.filter is_unlink (map ev_call extra) = []) ->
             length (VfdCache s1) = length (VfdCache s) /\
             (forall f, f <> file ->
                same_but_links (slot (VfdCache s) f) (slot (VfdCache s1) f)) /\
             fd (slot (VfdCache s1) file) = VFD_CLOSED /\
             numAllocatedDescs s1 = numAllocatedDescs s /\
             allocatedDescs s1 = allocatedDescs s /\
             (exists new, logged s s1 new /\
                List.filter is_unlink (map ev_call new)
                = [c_unlink (default "" (fileName v))]) /\
             (Forall succeeds (replies s) ->
              exists k, (k <= 2)%nat /\ replies s1 = drop k (replies s))).
           { intros s1 Hc1 Hn1 Hd1 Hr1 (extra & Ht1 & Hex).
             rewrite Hc1, length_upd. split; [exact Hlen0|]. split.
             { intros f Hf. rewrite slot_upd_other by congruence.
               now apply Hothers0. }
             split; [rewrite slot_upd_same by lia; exact Hfd0|].
             split; [congruence|]. split; [congruence|]. split.
             { eexists. split.
               - unfold logged in *. rewrite Ht1, Hl0, <- !app_assoc.
                 reflexivity.
               - rewrite !map_app, !List.filter_app, Hu0, Hex. reflexivity. }
             intros Hall. destruct (Hrep0 Hall) as (k & Hk & Hdrop).
             exists (S k). split; [lia|]. rewrite Hr1, Hrepu. simpl.
             rewrite Hdrop in Hrepu. clear -Hrepu.
             revert k Hrepu. generalize (replies s).
             induction l as [|a l IH]; intros [|k] H; simpl in *;
               try discriminate.
             - injection H as <- <-. now rewrite drop_0.
             - now apply IH. }
           wp_step; [wp_step|apply wp_elog].
           ++ apply Hfinal; try reflexivity.
              exists []. split; [st_simpl; now rewrite app_nil_r|reflexivity].
           ++ apply Hfinal; try reflexivity.
              eexists [_]. split; reflexivity.
        -- wp_step.
           split; [exact Hlen0|]. split; [exact Hothers0|].
           split; [exact Hfd0|]. split; [exact Hn0|]. split; [exact Hd0|].
           split; [eauto|].
           intros Hall. destruct (Hrep0 Hall) as (k & Hk & Hdrop).
           exists k. split; [lia|exact Hdrop].
      * intros _ s1 (Hlen1 & Hothers1 & Hfd1 & Hn1 & Hd1 & Hlog1 & Hrep1).
        apply FreeVfd_wp; [unfold SizeVfdCache in *; lia|].
        intros c' Hlen' Hname' Hst' HhFS' HhFile' Hproto' Hfd' Hnext' Hhead'
          Hrest'.
        unfold slot_freed. st_simpl.
        split; [lia|]. split; [unfold freed; intuition congruence|].
        split.
        { rewrite Hnext'. now destruct (Hothers1 0 ltac:(lia)) as (_ & _ & _ & -> & _). }
        split; [exact Hhead'|]. split.
        { intros f Hf Hf0. rewrite Hrest' by assumption. now apply Hothers1. }
        split; [exact Hn1|]. split; [exact Hd1|]. split; [exact Hlog1|].
        exact Hrep1.
      * auto.
    + auto.
  - (* a DFS slot *)
    pose proof (not_local_is_open _ _ Hlocal) as Hopen.
    assert (Hun : unlinked v = []).
    { unfold unlinked. change (is_local v) with (IsLocalFile (VfdCache s) file).
      now rewrite Hlocal. }
    unfold HdfsFileClose. wp_step. wp_step. wp_step. wp_step. wp_step.
    wp_step. wp_step.
    apply wp_sys.
    { intros Hempty. destruct Hscr as [HT|[_ Hlen2]]; [exact HT|].
      rewrite Hempty in Hlen2. simpl in Hlen2. lia. }
    intros r rest Hrep. st_simpl.
    do 10 wp_step.
    apply FreeVfd_wp; [unfold SizeVfdCache in *; st_simpl; now rewrite !length_upd|].
    st_simpl.
    intros c' Hlen' Hname' Hst' HhFS' HhFile' Hproto' Hfd' Hnext' Hhead'
      Hrest'.
    rewrite !length_upd in Hlen'.
    assert (Hpost : forall s1 extra,
      VfdCache s1 = c' ->
      numAllocatedDescs s1 = numAllocatedDescs s ->
      allocatedDescs s1 = allocatedDescs s ->
      replies s1 = tl (replies s) ->
      trace s1 = trace s ++ extra ->
      List.filter is_unlink (map ev_call extra) = [] ->
      slot_freed s file s1).
    { intros s1 extra Hc1 Hn1 Hd1 Hr1 Ht1 Hex. unfold slot_freed.
      rewrite Hc1. split; [exact Hlen'|]. split.
      { unfold freed. rewrite Hfd'. slot_simpl. tauto. }
      split; [rewrite Hnext'; slot_simpl; reflexivity|].
      split; [exact Hhead'|]. split.
      { intros f Hf Hf0. rewrite Hrest' by assumption. slot_simpl.
        apply same_but_links_refl. }
      split; [exact Hn1|]. split; [exact Hd1|]. split.
      { exists extra. split; [exact Ht1|]. fold v. now rewrite Hun. }
      intros _. exists 1%nat. split; [lia|]. rewrite Hr1.
      now destruct (replies s). }
    cbv beta. wp_step.
    + wp_step. st_simpl. apply Z.eqb_eq in E.
      destruct Hscr as [HT|[Hall _]]; [exact HT|].
      rewrite Hrep in Hall. apply Forall_cons in Hall as [H0 _].
      unfold succeeds in H0. lia.
    + wp_step. eapply Hpost; try reflexivity.
Qed.

Lemma wpx_conj {T : Prop} {A} (m : M A) (Q1 Q2 : A -> State -> Prop) Qe s :
  wpx T m Q1 Qe s -> wp m Q2 (fun _ _ => True) s ->
  wpx T m (fun a s' => Q1 a s' /\ Q2 a s') Qe s.
Proof. unfold wpx. destruct (m s); tauto. Qed.

Lemma FileClose_handle_closed (file : File) (s : State) :
  0 < file < SizeVfdCache s ->
  wp (FileClose file) (fun _ s' => handle_closed s file s')
    (fun _ _ => True) s.
Proof.
  intros Hfile.
  assert (Hidx : 0 <= file < Z.of_nat (length (VfdCache s)))
    by (unfold SizeVfdCache in Hfile; lia).
  set (v := slot (VfdCache s) file).
  unfold FileClose. wp_step. wp_step.
  destruct (IsLocalFile (VfdCache s) file) eqn:Hlocal.
  - (* a local slot *)
    assert (Hloc : is_local v = true) by exact Hlocal.
    unfold LocalFileClose. wp_step. wp_step. wp_step.
    apply wp_mono with
      (Qn := fun _ s0 =>
         length (VfdCache s0) = length (VfdCache s) /\
         handle_closed s file s0)
      (Qe := fun _ _ => True).
    + unfold handle_closed, counted, close_calls. fold v. rewrite Hloc.
      cbn [andb].
      destruct (FileIsNotOpen (VfdCache s) file) eqn:Eopen; cbn [negb].
      * wp_step. destruct (FileIsNotOpen_closed _ _ Eopen) as [Hfd _].
        fold v in Hfd. rewrite Hfd, Z.eqb_refl. cbn [negb].
        split; [reflexivity|]. split; [lia|].
        exists []. split; [reflexivity|now rewrite app_nil_r].
      * rewrite FileIsNotOpen_local in Eopen by exact Hlocal.
        fold v in Eopen. rewrite Eopen. cbn [negb].
        wp_step. apply Delete_wp. intros c' _ Hlen Hlinks.
        wp_step. wp_step. wp_step.
        assert (Hfd' : fd (slot c' file) = fd v)
          by now destruct (Hlinks file) as (-> & _).
        rewrite Hfd'.
        apply gp_retry_close_calls. intros r s1 k Hg Hc Hcalm.
        pose proof (globals_fields _ _ Hg) as (_ & _ & Hc1 & Hn1 & _).
        st_simpl_in Hc1. st_simpl_in Hn1. st_simpl_in Hcalm.
        wp_go; [|exact I]. st_simpl.
        rewrite length_upd, Hc1. split; [exact Hlen|].
        split; [lia|].
        exists (replicate (S k) (c_close (fd v))).
        split; [exists k; auto|exact Hc].
    + intros _ s0 (Hlen0 & Hnf0 & l & Hl & Hcalls0).
      wp_step. wp_step. wp_step.
      apply wp_mono with
        (Qn := fun _ s1 =>
           length (VfdCache s1) = length (VfdCache s) /\
           nfile s1 = nfile s0 /\ calls is_closing s1 = calls is_closing s0)
        (Qe := fun _ _ => True).
      * wp_go; st_simpl; rewrite ?length_upd;
          (split; [exact Hlen0|]); (split; [reflexivity|]);
          unfold calls; st_simpl;
          rewrite ?map_app, ?List.filter_app; simpl;
          now rewrite ?app_nil_r.
      * intros _ s1 (Hlen1 & Hnf1 & Hcalls1).
        apply FreeVfd_wp; [unfold SizeVfdCache in *; lia|].
        intros c' _ _ _ _ _ _ _ _ _ _.
        unfold handle_closed. st_simpl.
        split; [congruence|]. exists l. split; [exact Hl|].
        rewrite <- Hcalls0, <- Hcalls1. reflexivity.
      * auto.
    + auto.
  - (* a DFS slot *)
    pose proof (not_local_is_open _ _ Hlocal) as Hopen.
    assert (Hloc : is_local v = false) by exact Hlocal.
    unfold HdfsFileClose. wp_step. wp_step. wp_step. wp_step. wp_step.
    wp_step. wp_step. wp_step.
    do 10 wp_step.
    apply FreeVfd_wp; [unfold SizeVfdCache in *; st_simpl; now rewrite !length_upd|].
    st_simpl. intros c' _ _ _ _ _ _ _ _ _ _.
    assert (Hpost : forall s1,
      nfile s1 = nfile s ->
      calls is_closing s1
      = calls is_closing s
        ++ [c_HdfsCloseFile (hProtocol v) (hFS v) (hFile v)] ->
      handle_closed s file s1).
    { intros s1 Hn1 Hc1. unfold handle_closed, counted, close_calls.
      fold v. rewrite Hloc. cbn [andb]. split; [lia|].
      eexists. split; [reflexivity|exact Hc1]. }
    cbv beta. wp_go; try exact I; apply Hpost; try reflexivity;
      unfold calls; st_simpl; rewrite ?map_app, ?List.filter_app; simpl;
      now rewrite ?app_nil_r.
Qed.

Lemma FileClose_spec {T : Prop} (file : File) (s : State) :
  0 < file < SizeVfdCache s ->
  (T \/ Forall succeeds (replies s) /\ (2 <= length (replies s))%nat) ->
  wpx T (FileClose file) (fun _ s' => file_closed s file s')
    (fun _ _ => T) s.
Proof.
  intros Hfile Hscr. apply wpx_conj.
  - now apply FileClose_slot_freed.
  - now apply FileClose_handle_closed.
Qed.

(** ** The end of a subtransaction: abort *)


Lemma unlinked_same v v' : same_but_links v v' -> unlinked v' = unlinked v.
Proof.
  intros H. unfold unlinked. rewrite (is_local_same _ _ H).
  destruct H as (_ & -> & _ & _ & _ & -> & _). reflexivity.
Qed.

Lemma freed_same v v' : freed v -> same_but_links v v' -> freed v'.
Proof. unfold freed, same_but_links. intuition congruence. Qed.

Lemma counted_same v v' : same_but_links v v' -> counted v' = counted v.
Proof.
  intros H. unfold counted. rewrite (is_local_same _ _ H).
  destruct H as (-> & _). reflexivity.
Qed.

Lemma close_calls_same calm v v' l :
  same_but_links v v' -> close_calls calm v' l -> close_calls calm v l.
Proof.
  intros H. unfold close_calls. rewrite (is_local_same _ _ H).
  destruct H as (-> & _ & _ & _ & _ & _ & _ & _ & -> & -> & ->). auto.
Qed.

Lemma close_calls_mono (P Q : Prop) v l :
  (Q -> P) -> close_calls P v l -> close_calls Q v l.
Proof.
  intros HQP. unfold close_calls.
  destruct (is_local v); [|auto].
  destruct (fd v =? VFD_CLOSED); [auto|].
  intros (k & -> & Hk). exists k. auto.
Qed.

Lemma selected_upto_S sel c k :
  1 <= k ->
  selected_upto sel c (k + 1)
  = selected_upto sel c k ++ (if sel (slot c k) then [k] else []).
Proof.
  intros Hk. unfold selected_upto.
  replace (k + 1 - 1) with ((k - 1) + 1) by lia.
  rewrite seqZ_app by lia. rewrite List.filter_app.
  replace (1 + (k - 1)) with k by lia. reflexivity.
Qed.

Lemma selected_upto_range sel c k f :
  In f (selected_upto sel c k) -> 1 <= f < k.
Proof.
  unfold selected_upto. intros H. apply List.filter_In in H as [H _].
  apply list_elem_of_In, elem_of_seqZ in H. lia.
Qed.

Lemma selected_upto_max sel c size :
  selected_upto sel c (Z.max 1 size) = selected_upto sel c size.
Proof.
  destruct (Z.max_spec 1 size) as [[_ ->]|[Hle ->]]; [reflexivity|].
  unfold selected_upto. now rewrite !seqZ_nil by lia.
Qed.

Lemma free_list_ext c c' n h :
  (forall f, In f (free_list c n h) ->
     nextFree (slot c' f) = nextFree (slot c f)) ->
  free_list c' n h = free_list c n h /\ free_nth c' n h = free_nth c n h.
Proof.
  revert h. induction n as [|n IH]; intros h H; [auto|].
  simpl in *. rewrite (H h) by now left.
  destruct (IH (nextFree (slot c h))) as [-> ->]; auto.
Qed.

Lemma pass_start (sel : Vfd -> bool) (s : State) : closed_pass sel s 1 s.
Proof.
  unfold closed_pass, handles_closed, selected_upto. simpl.
  split; [reflexivity|]. split.
  { intros f Hf. rewrite bool_decide_eq_false_2 by lia.
    apply same_but_links_refl. }
  split; [reflexivity|]. split; [reflexivity|]. split.
  { exists []. split; [apply logged_refl|reflexivity]. }
  split; [auto|]. split.
  { intros _. exists 0%nat. split; [lia|reflexivity]. }
  split; [lia|]. exists []. split; [constructor|].
  simpl. now rewrite app_nil_r.
Qed.

Lemma pass_skip sel s k sk :
  1 <= k -> sel (slot (VfdCache s) k) = false ->
  closed_pass sel s k sk -> closed_pass sel s (k + 1) sk.
Proof.
  intros Hk Hno (Hlen & Hslots & Hn & Hd & Hlog & Hfree & Hrep & Hh).
  unfold closed_pass. rewrite selected_upto_S, Hno, app_nil_r by lia.
  split; [exact Hlen|]. split.
  { intros f Hf. specialize (Hslots f Hf).
    destruct (decide (f = k)) as [->|Hne].
    - rewrite Hno, andb_false_r. rewrite bool_decide_eq_false_2 in Hslots by lia.
      exact Hslots.
    - destruct (decide (f < k)).
      + rewrite bool_decide_eq_true_2 in Hslots |- * by lia. exact Hslots.
      + rewrite bool_decide_eq_false_2 in Hslots |- * by lia. exact Hslots. }
  split; [exact Hn|]. split; [exact Hd|]. split; [exact Hlog|].
  split; [exact Hfree|]. split; [|exact Hh].
  intros Hall. destruct (Hrep Hall) as (n & Hle & Hdrop).
  exists n. split; [lia|exact Hdrop].
Qed.

Lemma pass_close sel s k sk sk' :
  1 <= k < SizeVfdCache s -> sel (slot (VfdCache s) k) = true ->
  closed_pass sel s k sk -> file_closed sk k sk' ->
  closed_pass sel s (k + 1) sk'.
Proof.
  intros Hk Hyes
    (Hlen & Hslots & Hn & Hd & (new & Hl & Hu) & (Hfl & Hfn) & Hrep
     & (Hnf & ls & Hls & Hcl))
    ((Hlen' & Hfreed & Hnext & Hhead & Hothers & Hn' & Hd' & (new' & Hl' & Hu')
      & Hrep') & (Hnf' & l & Hcalls & Hcl')).
  assert (Hk_same : same_but_links (slot (VfdCache s) k) (slot (VfdCache sk) k)).
  { specialize (Hslots k ltac:(lia)).
    rewrite bool_decide_eq_false_2 in Hslots by lia. exact Hslots. }
  unfold closed_pass. rewrite selected_upto_S, Hyes by lia.
  split; [lia|]. split.
  { intros f Hf. specialize (Hslots f Hf).
    destruct (decide (f = k)) as [->|Hne].
    - rewrite Hyes, bool_decide_eq_true_2 by lia. exact Hfreed.
    - specialize (Hothers f Hne ltac:(lia)).
      destruct (decide (f < k)).
      + rewrite bool_decide_eq_true_2 in Hslots |- * by lia.
        destruct (sel (slot (VfdCache s) f)); cbn [andb] in *.
        * exact (freed_same _ _ Hslots Hothers).
        * exact (same_but_links_trans _ _ _ Hslots Hothers).
      + rewrite bool_decide_eq_false_2 in Hslots |- * by lia.
        cbn [andb] in *.
        exact (same_but_links_trans _ _ _ Hslots Hothers). }
  split; [congruence|]. split; [congruence|]. split.
  { exists (new ++ new'). split; [eapply logged_trans; eauto|].
    rewrite map_app, List.filter_app, Hu, Hu', flat_map_app. simpl.
    rewrite app_nil_r. now rewrite (unlinked_same _ _ Hk_same). }
  split.
  { cbv zeta in *. rewrite length_app, rev_app_distr. simpl.
    replace (length (selected_upto sel (VfdCache s) k) + 1)%nat
      with (S (length (selected_upto sel (VfdCache s) k))) by lia.
    simpl. rewrite Hhead, Hnext.
    destruct (free_list_ext (VfdCache sk) (VfdCache sk')
                (length (selected_upto sel (VfdCache s) k))
                (nextFree (slot (VfdCache sk) 0))) as [E1 E2].
    { intros f Hin. rewrite Hfl in Hin. apply in_rev in Hin.
      apply selected_upto_range in Hin.
      now destruct (Hothers f ltac:(lia) ltac:(lia)) as (_ & _ & _ & -> & _). }
    rewrite E1, E2, Hfl, Hfn. auto. }
  split.
  { intros Hall. destruct (Hrep Hall) as (n & Hle & Hdrop).
    assert (Hall' : Forall succeeds (replies sk))
      by (rewrite Hdrop; now apply Forall_drop).
    destruct (Hrep' Hall') as (n' & Hle' & Hdrop').
    exists (n + n')%nat. split; [lia|].
    rewrite Hdrop', Hdrop, drop_drop. reflexivity. }
  unfold handles_closed. split.
  { rewrite Hnf', Hnf, List.filter_app, length_app. simpl.
    rewrite (counted_same _ _ Hk_same).
    destruct (counted (slot (VfdCache s) k)); simpl; lia. }
  exists (ls ++ [l]). split.
  { apply Forall2_app; [exact Hls|]. constructor; [|constructor].
    apply (close_calls_same _ _ _ _ Hk_same).
    eapply close_calls_mono; [|exact Hcalls].
    intros Hall. destruct (Hrep Hall) as (n & _ & ->).
    now apply Forall_drop. }
  rewrite Hcl', Hcl, concat_app. simpl.
  now rewrite app_nil_r, app_assoc.
Qed.

Section Abort.
Context {T : Prop}.
Variables (mine parent : Z) (s : State).
Hypothesis Hscript :
  T \/ Forall succeeds (replies s) /\
       2 * (SizeVfdCache s - 1) + numAllocatedDescs s
       <= Z.of_nat (length (replies s)).
Hypothesis Hdescs : 0 <= numAllocatedDescs s.



End Abort.

(** ** Freeing entries of the registry *)

Lemma compact_perm {A} `{Inhabited A} (l : list A) (i n : nat) :
  (i < n)%nat -> (n <= length l)%nat ->
  drop i (take (n - 1) (<[i := l !!! (n - 1)%nat]> l))
  ≡ₚ drop (S i) (take n l).
Proof.
  intros Hi Hn. set (x := l !!! (n - 1)%nat).
  assert (Hx : l !! (n - 1)%nat = Some x).
  { apply list_lookup_lookup_total_lt. lia. }
  destruct (decide (i = n - 1)%nat) as [->|Hne].
  - rewrite (drop_ge (take (n - 1) _))
      by (rewrite length_take, length_insert; lia).
    rewrite drop_ge by (rewrite length_take; lia). reflexivity.
  - rewrite take_insert_lt by lia.
    set (m := take (n - 1) l).
    assert (Hm : length m = (n - 1)%nat) by (unfold m; rewrite length_take; lia).
    rewrite insert_take_drop by lia.
    rewrite drop_app_length' by (rewrite length_take; lia).
    assert (En : take (S (n - 1)) l = m ++ [x]) by (apply take_S_r; exact Hx).
    replace (S (n - 1)) with n in En by lia. rewrite En.
    rewrite drop_app_le by lia.
    apply Permutation_cons_append.
Qed.

Lemma drop_take_cons {A} `{Inhabited A} (l : list A) (i n : nat) :
  (i < n)%nat -> (n <= length l)%nat ->
  drop i (take n l) = l !!! i :: drop (S i) (take n l).
Proof.
  intros Hi Hn. apply drop_S.
  rewrite lookup_take_lt by lia. apply list_lookup_lookup_total_lt. lia.
Qed.


Lemma FreeDesc_spec {T : Prop} (i : Z) (s : State) :
  (T \/ replies s <> []) ->
  wpx T (FreeDesc i)
    (fun _ s' =>
       VfdCache s' = VfdCache s /\ nfile s' = nfile s /\
       numAllocatedDescs s' = numAllocatedDescs s - 1 /\
       allocatedDescs s'
       = <[Z.to_nat i := allocatedDescs s
                           !!! Z.to_nat (numAllocatedDescs s - 1)]>
           (allocatedDescs s) /\
       logged s s' [mkEvent (desc_close_call (allocatedDescs s !!! Z.to_nat i))
                      (VfdCache s)] /\
       exists n, (n <= 1)%nat /\ replies s' = drop n (replies s))
    (fun _ _ => T) s.
Proof.
  intros Hscr. unfold FreeDesc, get_desc, set_desc. wp_step. wp_step.
  unfold desc_close_call.
  assert (Hne : replies s = [] -> T).
  { intros E. destruct Hscr as [HT|Hn]; [exact HT|contradiction]. }
  destruct (kind (allocatedDescs s !!! Z.to_nat i)).
  - wp_step. apply wp_sys; [exact Hne|]. intros r rest Hrep. st_simpl.
    wp_go. st_simpl. repeat split. exists 1%nat. split; [lia|].
    now rewrite Hrep.
  - wp_step. apply wp_sys; [exact Hne|]. intros r rest Hrep. st_simpl.
    wp_go. st_simpl. repeat split. exists 1%nat. split; [lia|].
    now rewrite Hrep.
  - wp_go. st_simpl. repeat split. exists 0%nat. split; [lia|reflexivity].
Qed.



Lemma desc_close_calls_not_closing (l : list AllocateDesc)
    (new : list Event) :
  map ev_call new ≡ₚ map desc_close_call l ->
  List.filter is_closing (map ev_call new) = [].
Proof.
  intros Hperm.
  assert (Hall : Forall (fun c => is_closing c = false)
                   (map desc_close_call l)).
  { apply Forall_forall. intros c Hc.
    apply list_elem_of_In, in_map_iff in Hc as (d & <- & _).
    unfold desc_close_call. now destruct (kind d). }
  rewrite <- Hperm in Hall. clear Hperm.
  induction Hall as [|c cs Hc _ IH]; [reflexivity|].
  simpl. now rewrite Hc.
Qed.

Lemma handles_closed_later (s : State) (closed : list File)
    (s1 s' : State) (new : list Event) :
  handles_closed s closed s1 -> nfile s' = nfile s1 ->
  logged s1 s' new -> List.filter is_closing (map ev_call new) = [] ->
  handles_closed s closed s'.
Proof.
  intros (Hnf & ls & Hls & Hcl) Hnf' Hl Hnone.
  split; [congruence|]. exists ls. split; [exact Hls|].
  rewrite (calls_logged _ _ _ _ Hl), Hnone, app_nil_r. exact Hcl.
Qed.






(** ** Opening a DFS file *)

Lemma quiet_refl s : quiet s s.
Proof. split; [reflexivity|]. exists []. apply logged_refl. Qed.

Lemma quiet_trans s1 s2 s3 : quiet s1 s2 -> quiet s2 s3 -> quiet s1 s3.
Proof.
  intros [H1 (n1 & L1)] [H2 (n2 & L2)]. split; [congruence|].
  exists (n1 ++ n2). eapply logged_trans; eauto.
Qed.

(** Symbolic execution through the [match]es of the path parsers. *)
Ltac wp_auto :=
  repeat first
    [ wp_step
    | match goal with
      | |- wpx _ (match ?x with _ => _ end) _ _ _ => destruct x eqn:?
      | |- wpx _ (let '(_, _) := ?x in _) _ _ _ => destruct x eqn:?
      end ].

Ltac solve_quiet :=
  split; [reflexivity|eexists; solve_logged].

Lemma HdfsGetProtocol_quiet fileName size s :
  wp (HdfsGetProtocol fileName size) (fun _ s' => quiet s s') (fun _ _ => True) s.
Proof. unfold HdfsGetProtocol. wp_auto; solve_quiet. Qed.

Lemma HdfsParseOptions_quiet fileName rep s :
  wp (HdfsParseOptions fileName rep) (fun _ s' => quiet s s') (fun _ _ => True) s.
Proof. unfold HdfsParseOptions. wp_auto; solve_quiet. Qed.

Lemma ConvertToUnixPath_quiet fileName len s :
  wp (ConvertToUnixPath fileName len) (fun _ s' => quiet s s') (fun _ _ => True) s.
Proof. unfold ConvertToUnixPath. wp_auto; solve_quiet. Qed.

Lemma HdfsGetConnection_quiet protocol path s :
  wp (HdfsGetConnection protocol path) (fun _ s' => quiet s s') (fun _ _ => True) s.
Proof. unfold HdfsGetConnection. wp_auto; solve_quiet. Qed.

Lemma wp_quiet_bind {A B} (m : M A) (f : A -> M B) Qn s0 s :
  quiet s0 s ->
  (forall s1, wp m (fun _ s' => quiet s1 s') (fun _ _ => True) s1) ->
  (forall a s', quiet s0 s' -> wp (f a) Qn (fun _ _ => True) s') ->
  wp (bind m f) Qn (fun _ _ => True) s.
Proof.
  intros Hq Hm Hf. apply wp_bind.
  eapply wp_mono; [apply Hm| |auto].
  intros a s' Hq'. apply Hf. eapply quiet_trans; eauto.
Qed.

Lemma quiet_env s0 s e rs new :
  quiet s0 s ->
  quiet s0 (with_errno e (with_replies rs (with_trace (trace s ++ new) s))).
Proof.
  intros [Hc (n0 & Hl)]. split; [exact Hc|].
  exists (n0 ++ new). unfold logged in *. st_simpl. rewrite Hl.
  now rewrite app_assoc.
Qed.

Lemma forwarded_later s s1 s' flags :
  forwarded s s1 flags -> (exists new, logged s1 s' new) ->
  forwarded s s' flags.
Proof.
  intros (p & fs & path & rep & Hc) (new & Hl).
  exists p, fs, path, rep. eapply called_later; eauto.
Qed.

Lemma HdfsBasicOpenFile_locals (fileName : string) (fileFlags fileMode : Z)
    (init : option string * Z * Z) (s : State) :
  wp (HdfsBasicOpenFile fileName fileFlags fileMode InLocals init)
    (fun r s' => quiet s s' /\ (fst r = true -> forwarded s s' fileFlags))
    (fun _ _ => True) s.
Proof.
  destruct init as [[p0 fs0] h0]. unfold HdfsBasicOpenFile.
  apply (wp_quiet_bind _ _ _ s s (quiet_refl s)).
  { intros s1. apply HdfsGetProtocol_quiet. }
  intros [protocol|] s1 Hq1.
  2:{ wp_go. split; [|discriminate]. eapply quiet_trans; [exact Hq1|solve_quiet]. }
  apply (wp_quiet_bind _ _ _ s s1 Hq1).
  { intros s2. apply HdfsParseOptions_quiet. }
  intros r s2 Hq2. unfold put_out.
  wp_step. wp_step. wp_step. wp_step.
  match goal with
  | |- wpx _ _ _ _ ?st =>
      assert (Hq3 : quiet s st)
        by (eapply quiet_trans; [exact Hq2|solve_quiet])
  end.
  apply (wp_quiet_bind _ _ _ s _ Hq3).
  { intros s3. apply HdfsGetConnection_quiet. }
  intros fs s4 Hq4.
  wp_step. wp_step. wp_step.
  { wp_step. split; [exact Hq4|discriminate]. }
  apply (wp_quiet_bind _ _ _ s s4 Hq4).
  { intros s5. apply ConvertToUnixPath_quiet. }
  intros [path|] s5 Hq5.
  2:{ wp_step. split; [exact Hq5|discriminate]. }
  wp_step.
  apply wp_mono with
    (Qn := fun hFile s6 =>
       quiet s s6 /\ forwarded s s6 fileFlags)
    (Qe := fun _ _ => True).
  - destruct Hq5 as [Hc5 (n5 & Hl5)].
    wp_step; wp_step.
    all: split;
      [split; [exact Hc5|eexists; eapply logged_trans; [exact Hl5|solve_logged]]|].
    all: do 4 eexists; eapply called_after; [exact Hl5|].
    all: eexists; split; [solve_logged|now left].
  - intros hFile s6 (Hq6 & Hf6).
    assert (Hdone : forall (b : bool) (hp : option string * Z * Z) sX extra,
              VfdCache sX = VfdCache s6 ->
              trace sX = trace s6 ++ extra ->
              quiet s sX /\ (fst (b, hp) = true -> forwarded s sX fileFlags)).
    { intros b hp sX extra Hc Ht. split.
      - eapply quiet_trans; [exact Hq6|]. split; [exact Hc|eauto].
      - intros _. eapply forwarded_later; [exact Hf6|eauto]. }
    wp_go; st_simpl.
    all: try (eapply Hdone; [reflexivity|solve_logged]).
    all: try (eapply (Hdone _ _ _ []); [reflexivity|now rewrite app_nil_r]).
  - auto.
Qed.

Lemma AllocateVfd_spec (s : State) :
  0 <= nextFree (slot (VfdCache s) 0) < SizeVfdCache s ->
  wp AllocateVfd
    (fun file s' =>
       0 < file < SizeVfdCache s' /\ exists new, logged s s' new)
    (fun _ _ => True) s.
Proof.
  unfold SizeVfdCache. intros Hfree. unfold AllocateVfd.
  wp_step. wp_step. wp_step.
  apply wp_mono with
    (Qn := fun _ s1 =>
       0 < nextFree (slot (VfdCache s1) 0) < Z.of_nat (length (VfdCache s1)) /\
       exists new, logged s s1 new)
    (Qe := fun _ _ => True).
  - wp_step.
    + apply Z.eqb_eq in E. wp_step. wp_step. unfold SizeVfdCache.
      set (size := Z.of_nat (length (VfdCache s))).
      set (newsize := if size * 2 <? 32 then 32 else size * 2).
      assert (Hnew : size < newsize /\ 32 <= newsize).
      { unfold newsize. destruct (Z.ltb_spec (size * 2) 32); lia. }
      wp_step. wp_step. wp_step. wp_step; [wp_step; exact I|].
      wp_step. wp_step. wp_step. wp_step. wp_step. st_simpl.
      set (c1 := VfdCache s ++ map fresh_slot (seqZ size (newsize - size))).
      assert (Hlen1 : Z.of_nat (length c1) = newsize).
      { unfold c1. rewrite length_app, length_map, length_seqZ. lia. }
      wp_step.
      rewrite !length_upd, slot_upd_same by (rewrite length_upd; lia).
      simpl. split; [lia|]. eexists. solve_logged.
    + apply Z.eqb_neq in E. wp_step. split; [lia|].
      exists []. apply logged_refl.
  - intros _ s1 (Hin & new & Hl). wp_step. wp_step. wp_step. wp_step.
    wp_step. wp_step. wp_step. unfold SizeVfdCache. st_simpl.
    rewrite length_upd. split; [exact Hin|].
    exists new. unfold logged in *. st_simpl. exact Hl.
  - auto.
Qed.

(** * Further properties of fd.c *)

(** ** Slots that hold DFS handles *)

(** X1 — a slot that holds a DFS connection or file handle never counts as
    closed: [FileAccess] and [LruInsert] return 0 on it without a call and
    without a change of state, so the DFS reopen code of [LruInsert] is never
    run and a DFS slot is never put on the LRU ring by them. *)
Theorem X1_dfs_slot_is_never_reopened (s : State) (file : File) :
  hFile (slot (VfdCache s) file) <> NULL \/
  hFS (slot (VfdCache s) file) <> NULL ->
  FileIsNotOpen (VfdCache s) file = false /\
  FileAccess file s = Normal 0 s /\
  LruInsert file s = Normal 0 s.
Proof.
  intros Hdfs.
  assert (Hlocal : IsLocalFile (VfdCache s) file = false).
  { unfold IsLocalFile. destruct Hdfs as [H|H]; apply Z.eqb_neq in H;
      rewrite H; [reflexivity|apply andb_false_r]. }
  pose proof (not_local_is_open _ _ Hlocal) as Hopen.
  split; [exact Hopen|]. split.
  - apply twp_returns. unfold FileAccess. wp_step. wp_step.
    rewrite Hopen, Hlocal, andb_false_r. wp_step. auto.
  - apply twp_returns. unfold LruInsert. wp_step. wp_step. wp_step.
    rewrite Hopen. wp_step. cbv beta iota. wp_step. wp_step. wp_step.
    rewrite Hlocal. wp_step. wp_step. auto.
Qed.

Lemma X1_dfs_slot_is_never_reopened_witness :
  FileAccess 1 (one_dfs_file []) = Normal 0 (one_dfs_file []).
Proof.
  apply (X1_dfs_slot_is_never_reopened (one_dfs_file []) 1).
  left. discriminate.
Defined.

(** ** Forced deletion *)

(** X2 — [FileUnlink] on a valid slot, when the environment answers every
    call with 0: it returns, the slot is on top of the free list, and the
    only [unlink] it calls is that of the file of a local slot.  For a slot
    that holds DFS handles nothing is unlinked: the file is closed and the
    slot freed, but the file stays. *)
Theorem X2_FileUnlink (s : State) (file : File) :
  0 < file < SizeVfdCache s ->
  Forall succeeds (replies s) -> (2 <= length (replies s))%nat ->
  exists s',
    FileUnlink file s = Normal tt s' /\
    freed (slot (VfdCache s') file) /\
    nextFree (slot (VfdCache s') 0) = file /\
    nextFree (slot (VfdCache s') file) = nextFree (slot (VfdCache s) 0) /\
    calls is_unlink s'
    = calls is_unlink s ++
      (if IsLocalFile (VfdCache s) file
       then [c_unlink (default "" (fileName (slot (VfdCache s) file)))]
       else []).
Proof.
  intros Hfile Hall Hlong.
  assert (Hidx : 0 <= file < Z.of_nat (length (VfdCache s)))
    by (unfold SizeVfdCache in Hfile; lia).
  set (mark := fun v : Vfd =>
         set_fdstate (uint16 (Z.lor (fdstate v) FD_TEMPORARY)) v).
  set (s1 := with_VfdCache (upd file mark (VfdCache s)) s).
  assert (Htwp : twp (FileUnlink file) (fun _ s' => slot_freed s1 file s')
                   (fun _ _ => False) s).
  { unfold FileUnlink. wp_step. wp_step.
    apply (FileClose_slot_freed (T := False) file).
    - unfold SizeVfdCache. st_simpl. rewrite length_upd. lia.
    - right. st_simpl. auto. }
  apply twp_elim in Htwp
    as [([] & s' & Hrun & Hc)|(sev & code & msg & s' & _ & [])].
  exists s'. split; [exact Hrun|].
  destruct Hc as (_ & Hfreed & Hnext & Hhead & _ & _ & _ & Hlog & _).
  split; [exact Hfreed|]. split; [exact Hhead|]. split.
  - rewrite Hnext. unfold s1. st_simpl. now slot_simpl.
  - destruct Hlog as (new & Hnew & Hun). unfold calls.
    rewrite Hnew, map_app, List.filter_app, Hun.
    unfold s1, unlinked, is_local, IsLocalFile, mark. st_simpl. slot_simpl.
    rewrite set_FD_TEMPORARY, andb_true_r. reflexivity.
Qed.

Lemma X2_FileUnlink_witness :
  exists s',
    FileUnlink 1 (one_dfs_file [ok 0; ok 0]) = Normal tt s' /\
    freed (slot (VfdCache s') 1) /\
    nextFree (slot (VfdCache s') 0) = 1 /\
    nextFree (slot (VfdCache s') 1) = 0 /\
    calls is_unlink s' = [].
Proof.
  apply (X2_FileUnlink (one_dfs_file [ok 0; ok 0]) 1).
  - vm_compute. split; reflexivity.
  - repeat constructor.
  - simpl. lia.
Defined.

(** ** Opening under descriptor pressure *)

(** X3 — [BasicOpenFile] when the kernel is out of descriptors and the
    counter [nfile] is positive (the test [ReleaseLruFile] makes: the
    counter decides, not a scan of the table).  On a well-formed ring, an
    [open] that fails with EMFILE or ENFILE is logged, the least recently
    used slot of the ring is closed (position saved, [nfile] lowered by
    one, ring kept well formed) and the [open] is tried again; when the
    position query does not answer -1, the [close] answers 0 and the second
    [open] succeeds, the descriptor of the second [open] is returned. *)
Theorem X3_BasicOpenFile_retries (s : State) (name : string) (flags mode : Z)
    (e pos closed o : Reply) (rest : list Reply) :
  ring_ok (VfdCache s) -> 0 < nfile s ->
  replies s = e :: pos :: closed :: o :: rest ->
  r_ret e < 0 -> r_errno e = EMFILE \/ r_errno e = ENFILE ->
  r_ret pos <> -1 -> r_ret closed = 0 -> 0 <= r_ret o ->
  let victim := lruMoreRecently (slot (VfdCache s) 0) in
  let v := slot (VfdCache s) victim in
  exists s',
    BasicOpenFile name flags mode s = Normal (r_ret o) s' /\
    nfile s' = nfile s - 1 /\
    fd (slot (VfdCache s') victim) = VFD_CLOSED /\
    seekPos (slot (VfdCache s') victim) = r_ret pos /\
    (forall f, f <> victim ->
       same_but_links (slot (VfdCache s) f) (slot (VfdCache s') f)) /\
    ring_ok (VfdCache s') /\
    replies s' = rest /\
    exists new,
      logged s s' new /\
      map ev_call new
      = [c_open name flags mode;
         c_elog LOG "out of file handles: %m; release and retry" [];
         saving_call v; closing_call v;
         c_open name flags mode].
Proof.
  intros Hring Hn Hrep He Herr Hpos Hclosed Ho victim v.
  set (Post := fun (r : Z) (s' : State) =>
    r = r_ret o /\
    nfile s' = nfile s - 1 /\
    fd (slot (VfdCache s') victim) = VFD_CLOSED /\
    seekPos (slot (VfdCache s') victim) = r_ret pos /\
    (forall f, f <> victim ->
       same_but_links (slot (VfdCache s) f) (slot (VfdCache s') f)) /\
    ring_ok (VfdCache s') /\
    replies s' = rest /\
    exists new,
      logged s s' new /\
      map ev_call new
      = [c_open name flags mode;
         c_elog LOG "out of file handles: %m; release and retry" [];
         saving_call v; closing_call v;
         c_open name flags mode]).
  assert (Htwp : twp (BasicOpenFile name flags mode) Post (fun _ _ => False) s).
  { unfold BasicOpenFile. wp_step. wp_step. unfold script_fuel.
    rewrite Hrep. cbn [length BasicOpenFile_loop].
    wp_step. wp_step. rewrite Hrep in Hrep0. injection Hrep0 as <- <-.
    assert (Hneg : (r_ret e >=? 0) = false) by lia. rewrite Hneg.
    assert (Hfull : ((if r_errno e =? 0 then errno s else r_errno e) =? EMFILE)
                    || ((if r_errno e =? 0 then errno s else r_errno e) =? ENFILE)
                    = true).
    { destruct Herr as [->| ->]; reflexivity. }
    wp_step. wp_step. rewrite Hfull. wp_step. wp_step. wp_step. wp_step.
    wp_step.
    eapply wp_mono;
      [apply (ReleaseLruFile_spec (T := False));
       [exact Hring|right; st_simpl; rewrite Hrep; simpl; eauto 6]| |].
    - intros [] s1 H1.
      + destruct H1 as (_ & pos' & closed' & rest' & Hrep1 & Hev & Hok).
        st_simpl_in Hrep1. rewrite Hrep in Hrep1. simpl in Hrep1.
        injection Hrep1 as <- <- <-.
        destruct Hev as (_ & _ & Hnf & _ & _ & Hvic & Hothers
                         & (new & Hnew & Hcalls) & Hrep1 & _).
        st_simpl_in Hnf. st_simpl_in Hvic. st_simpl_in Hothers.
        st_simpl_in Hcalls. st_simpl_in Hrep1. rewrite Hrep in Hrep1.
        simpl in Hrep1. unfold more in *. st_simpl_in Hok.
        wp_step. wp_step.
        assert (Hpos' : (r_ret r >=? 0) = true)
          by (rewrite Hrep1 in Hrep0; injection Hrep0 as <- <-; lia).
        rewrite Hpos'. wp_step.
        rewrite Hrep1 in Hrep0. injection Hrep0 as <- <-.
        unfold Post. split; [reflexivity|]. split; [exact Hnf|].
        destruct Hvic as (Hfd & _ & _ & _ & Hsp & _).
        split; [exact Hfd|]. split; [exact Hsp|].
        split; [exact Hothers|]. split; [exact Hok|].
        split; [now rewrite Hrep1|].
        eexists. split; [solve_logged|].
        rewrite !map_app, Hcalls. reflexivity.
      + destruct H1 as [H1 _]. st_simpl_in H1. lia.
    - intros sev s1 (_ & _ & _ & _ & _ & _ & [(_ & p & r & Hp & Hm1 & _)|
                                             (_ & p & c & r & Hp & _ & Hc & _)]);
        st_simpl_in Hp; rewrite Hrep in Hp; simpl in Hp; congruence. }
  apply twp_elim in Htwp
    as [(r & s' & Hrun & -> & HP)|(sev & code & msg & s' & _ & [])].
  exists s'. split; [exact Hrun|exact HP].
Qed.

Lemma X3_BasicOpenFile_retries_witness :
  exists s',
    BasicOpenFile "base/1/g" O_RDWR 384
      (one_temp_file [fails (-1) EMFILE; ok 40; ok 0; ok 6]) = Normal 6 s' /\
    nfile s' = 0 /\ fd (slot (VfdCache s') 1) = VFD_CLOSED /\
    seekPos (slot (VfdCache s') 1) = 40.
Proof.
  destruct (X3_BasicOpenFile_retries
              (one_temp_file [fails (-1) EMFILE; ok 40; ok 0; ok 6])
              "base/1/g" O_RDWR 384 (fails (-1) EMFILE) (ok 40) (ok 0) (ok 6) [])
    as (s' & Hrun & Hn & Hfd & Hpos & _).
  - apply one_temp_file_ring_ok.
  - reflexivity.
  - reflexivity.
  - reflexivity.
  - now left.
  - discriminate.
  - reflexivity.
  - discriminate.
  - exists s'. auto.
Defined.

(** X4 — [BasicOpenFile] gives up after one [open] when the failure is
    not for lack of descriptors, or when it is and no slot holds a
    descriptor that could be released: it returns -1 with [errno] as the
    failed [open] left it (restored after the attempt to release), and the
    table and [nfile] are as before. *)
Theorem X4_BasicOpenFile_gives_up (s : State) (name : string) (flags mode : Z)
    (e : Reply) (rest : list Reply) :
  replies s = e :: rest ->
  r_ret e < 0 -> r_errno e <> 0 ->
  (r_errno e = EMFILE \/ r_errno e = ENFILE -> nfile s <= 0) ->
  exists s',
    BasicOpenFile name flags mode s = Normal (-1) s' /\
    errno s' = r_errno e /\
    VfdCache s' = VfdCache s /\ nfile s' = nfile s /\
    replies s' = rest /\
    calls is_open s' = calls is_open s ++ [c_open name flags mode].
Proof.
  intros Hrep He Herr Hn.
  assert (Htwp : twp (BasicOpenFile name flags mode)
            (fun r s' =>
               r = -1 /\ errno s' = r_errno e /\
               VfdCache s' = VfdCache s /\ nfile s' = nfile s /\
               replies s' = rest /\
               calls is_open s' = calls is_open s ++ [c_open name flags mode])
            (fun _ _ => False) s).
  { unfold BasicOpenFile. wp_step. wp_step. unfold script_fuel.
    rewrite Hrep. cbn [length BasicOpenFile_loop].
    wp_step. wp_step. rewrite Hrep in Hrep0. injection Hrep0 as <- <-.
    assert (Hneg : (r_ret e >=? 0) = false) by lia. rewrite Hneg.
    apply Z.eqb_neq in Herr. rewrite Herr.
    wp_step. wp_step. wp_step.
    - wp_step. wp_step. wp_step. wp_step. wp_step.
      unfold ReleaseLruFile. wp_step. wp_step.
      assert (Hnone : (nfile s >? 0) = false).
      { apply orb_true_iff in E. rewrite !Z.eqb_eq in E. specialize (Hn E).
        lia. }
      rewrite Hnone. wp_step. cbv beta iota. wp_step. wp_step. wp_step.
      rewrite Hrep. unfold calls. st_simpl.
      rewrite !map_app, !List.filter_app. simpl. now rewrite app_nil_r.
    - wp_step. rewrite Hrep. unfold calls. st_simpl.
      rewrite !map_app, !List.filter_app. simpl. auto 10. }
  apply twp_elim in Htwp
    as [(r & s' & Hrun & -> & HP)|(sev & code & msg & s' & _ & [])].
  exists s'. split; [exact Hrun|exact HP].
Qed.

Lemma X4_BasicOpenFile_gives_up_witness :
  exists s',
    BasicOpenFile "base/1/g" O_RDWR 384 (one_closed_file [fails (-1) EMFILE])
    = Normal (-1) s' /\
    errno s' = EMFILE.
Proof.
  destruct (X4_BasicOpenFile_gives_up (one_closed_file [fails (-1) EMFILE])
              "base/1/g" O_RDWR 384 (fails (-1) EMFILE) [])
    as (s' & Hrun & Herr & _).
  - reflexivity.
  - reflexivity.
  - discriminate.
  - intros _. vm_compute. discriminate.
  - exists s'. auto.
Defined.

(** ** Making room in the budget *)

Lemma parked_refl v : parked v v.
Proof. unfold parked. tauto. Qed.

Lemma parked_trans v1 v2 v3 : parked v1 v2 -> parked v2 v3 -> parked v1 v3.
Proof.
  unfold parked.
  intros (-> & -> & -> & -> & -> & -> & H1) (-> & -> & -> & -> & -> & -> & H2).
  repeat (split; [reflexivity|]).
  destruct H2 as [(E1 & E2 & E3 & E4 & E5)|H2]; [|now right].
  rewrite E1, E2, E3, E4, E5. exact H1.
Qed.

Lemma parked_links v v' : same_but_links v v' -> parked v v'.
Proof. unfold same_but_links, parked. intuition. Qed.

Lemma parked_closed pos v v' :
  same_but_links (closed_slot pos v) v' -> parked v v'.
Proof.
  unfold same_but_links, parked, closed_slot. cbn. intuition.
Qed.

Lemma released_refl s : ring_ok (VfdCache s) -> released s s.
Proof.
  intros Hok. split; [exact Hok|]. split; [reflexivity|].
  split; [reflexivity|]. split; [intros f; apply parked_refl|].
  split; [lia|reflexivity].
Qed.

Lemma released_trans s1 s2 s3 :
  released s1 s2 -> released s2 s3 -> released s1 s3.
Proof.
  intros (_ & Hr1 & Hl1 & Hp1 & Hn1 & Hu1) (Hok & Hr2 & Hl2 & Hp2 & Hn2 & Hu2).
  split; [exact Hok|]. split; [congruence|]. split; [congruence|].
  split; [intros f; eapply parked_trans; eauto|]. split; [lia|congruence].
Qed.

Lemma evictions_trans s1 s2 s3 k1 k2 :
  evictions s1 s2 k1 -> evictions s2 s3 k2 -> evictions s1 s3 (k1 + k2).
Proof.
  intros [Hk1 Hd1] [Hk2 Hd2]. split; [|lia].
  rewrite Hk2, Hk1, drop_drop. f_equal. lia.
Qed.

Lemma evicted_calls_no_unlink v :
  List.filter is_unlink [saving_call v; closing_call v] = [].
Proof. unfold saving_call, closing_call. now destruct (is_local v). Qed.

Lemma evicted_released s x pos closed s' :
  evicted s x pos closed s' -> ring_ok (VfdCache s') -> released s s'.
Proof.
  intros (_ & _ & Hnf & Hreg & Hlen & Hvic & Hothers
          & (new & Hnew & Hcalls) & Hrep' & _) Hok'.
  split; [exact Hok'|]. split; [exact Hreg|]. split; [exact Hlen|].
  split; [|split; [lia|]].
  - intros f. destruct (decide (f = x)) as [->|Hne].
    + eapply parked_closed. exact Hvic.
    + apply parked_links, Hothers. exact Hne.
  - unfold calls. rewrite Hnew, map_app, List.filter_app, Hcalls.
    rewrite evicted_calls_no_unlink. apply app_nil_r.
Qed.

Lemma ReleaseLruFile_released {T : Prop} (s : State) :
  ring_ok (VfdCache s) ->
  (T \/ Forall succeeds (replies s) /\
        2 * nfile s <= Z.of_nat (length (replies s))) ->
  wpx T ReleaseLruFile
    (fun b s' =>
       released s s' /\
       if b then 0 < nfile s /\ evictions s s' 1
       else nfile s <= 0 /\ s' = s)
    (fun _ _ => T) s.
Proof.
  intros Hok Hscr.
  destruct (Z.gtb_spec (nfile s) 0) as [Hpos|Hnone].
  - eapply wp_mono; [apply (ReleaseLruFile_spec (T := T) s Hok)| |].
    + destruct Hscr as [HT|[Hall Hlen]]; [now left|right].
      destruct (replies s) as [|pos [|closed rest]]; simpl in Hlen; try lia.
      exists pos, (closed :: rest). split; [reflexivity|now right].
    + intros [] s' H; [|lia].
      destruct H as (_ & pos & closed & rest & Hrep & Hev & Hok').
      split; [eapply evicted_released; eauto|]. split; [exact Hpos|].
      destruct Hev as (_ & _ & Hnf & _ & _ & _ & _ & _ & Hrep' & _).
      split; [|lia]. rewrite Hrep', Hrep. reflexivity.
    + intros sev s' (_ & _ & _ & _ & _ & _ & Hwhy).
      destruct Hscr as [HT|[Hall _]]; [exact HT|exfalso].
      destruct Hwhy as [(_ & p & r & Hp & Hm1 & _)|(_ & p & c & r & Hp & _ & Hc & _)];
        rewrite Hp in Hall.
      * apply Forall_cons in Hall as [H0 _]. unfold succeeds in H0. lia.
      * apply Forall_cons in Hall as [_ Hall].
        apply Forall_cons in Hall as [H0 _]. unfold succeeds in H0. lia.
  - unfold ReleaseLruFile. wp_step. wp_step.
    assert (Hno : (nfile s >? 0) = false) by lia. rewrite Hno. wp_step.
    split; [now apply released_refl|]. split; [lia|reflexivity].
Qed.

Lemma release_loop_released {T : Prop} (fuel : nat) : forall s : State,
  ring_ok (VfdCache s) ->
  (Z.to_nat (nfile s) < fuel)%nat ->
  (T \/ Forall succeeds (replies s) /\
        2 * nfile s <= Z.of_nat (length (replies s))) ->
  wpx T (release_loop fuel)
    (fun _ s' =>
       released s s' /\ (exists k, evictions s s' k) /\
       (nfile s' + numAllocatedDescs s' < max_safe_fds s' \/ nfile s' <= 0))
    (fun _ _ => T) s.
Proof.
  induction fuel as [|fuel IH]; intros s Hok Hfuel Hscr; [lia|].
  assert (Hnone : evictions s s 0) by (split; [reflexivity|lia]).
  cbn [release_loop]. wp_step. wp_step. wp_step.
  - wp_step.
    eapply wp_mono; [apply ReleaseLruFile_released; eauto| |auto].
    intros [] s' (Hrel & Hb).
    + destruct Hb as (Hpos & Hev). pose proof Hev as [Hk Hnf].
      eapply wp_mono; [apply IH| |auto].
      * now destruct Hrel.
      * lia.
      * destruct Hscr as [HT|[Hall Hlen]]; [now left|right].
        rewrite Hk. split.
        -- now apply Forall_drop.
        -- rewrite length_drop. lia.
      * intros _ s'' (Hrel' & (k & Hev') & Hroom).
        split; [eapply released_trans; eauto|]. split; [|exact Hroom].
        exists (1 + k)%nat. eapply evictions_trans; eauto.
    + destruct Hb as [Hno ->]. wp_step. split; [exact Hrel|].
      split; [eauto|now right].
  - wp_step. split; [now apply released_refl|]. split; [eauto|left; lia].
Qed.

Lemma release_while_over_budget_released {T : Prop} (s : State) :
  ring_ok (VfdCache s) ->
  (T \/ Forall succeeds (replies s) /\
        2 * nfile s <= Z.of_nat (length (replies s))) ->
  wpx T release_while_over_budget
    (fun _ s' =>
       released s s' /\ (exists k, evictions s s' k) /\
       (nfile s' + numAllocatedDescs s' < max_safe_fds s' \/ nfile s' <= 0))
    (fun _ _ => T) s.
Proof.
  intros Hok Hscr. unfold release_while_over_budget. wp_step. wp_step.
  apply release_loop_released; [exact Hok|lia|exact Hscr].
Qed.

(** X5 — the loop that makes room before an [open]
    ([while (nfile + numAllocatedDescs >= max_safe_fds) if
    (!ReleaseLruFile()) break;]).  On return there is room in the budget
    ([nfile + numAllocatedDescs < max_safe_fds]) or the counter [nfile] is
    at 0 or below (the loop consults the counter, not the table); every
    slot is still the same logical file (name, flags, mode, state bits),
    [nfile] went down by one and two answers were used per eviction, the
    registry is untouched, the ring is well formed and nothing was
    unlinked.  It returns whenever the environment answers 0 to each call
    and the script holds two answers per unit of [nfile]. *)
Theorem X5_release_while_over_budget (s : State) :
  ring_ok (VfdCache s) ->
  (forall s', release_while_over_budget s = Normal tt s' ->
     released s s' /\ (exists k, evictions s s' k) /\
     (nfile s' + numAllocatedDescs s' < max_safe_fds s' \/ nfile s' <= 0)) /\
  (Forall succeeds (replies s) ->
   2 * nfile s <= Z.of_nat (length (replies s)) ->
   exists s', release_while_over_budget s = Normal tt s').
Proof.
  intros Hok. split.
  - intros s' Hrun.
    exact (wp_normal _ _ _ _ _ _
             (release_while_over_budget_released (T := True) s Hok
                (or_introl I)) Hrun).
  - intros Hall Hlen.
    destruct (twp_elim _ _ _ _
                (release_while_over_budget_released (T := False) s Hok
                   (or_intror (conj Hall Hlen))))
      as [([] & s' & Hrun & _)|(sev & code & msg & s' & _ & [])].
    eauto.
Qed.

Lemma X5_release_while_over_budget_witness :
  exists s',
    release_while_over_budget
      (with_max_safe_fds 1 (one_temp_file [ok 0; ok 0])) = Normal tt s'.
Proof.
  apply (X5_release_while_over_budget
           (with_max_safe_fds 1 (one_temp_file [ok 0; ok 0]))).
  - apply (one_temp_file_ring_ok [ok 0; ok 0]).
  - repeat constructor.
  - vm_compute. discriminate.
Defined.

(** ** Handing out slots *)

Lemma slot_app_l (c c2 : list Vfd) (f : File) :
  0 <= f < Z.of_nat (length c) -> slot (c ++ c2) f = slot c f.
Proof.
  intros Hf. unfold slot. destruct (Z.ltb_spec f 0); [lia|].
  apply lookup_total_app_l. lia.
Qed.

Lemma slot_grow (c : list Vfd) (n f : Z) :
  Z.of_nat (length c) <= f < Z.of_nat (length c) + n ->
  slot (c ++ map fresh_slot (seqZ (Z.of_nat (length c)) n)) f = fresh_slot f.
Proof.
  intros Hf. unfold slot. destruct (Z.ltb_spec f 0); [lia|].
  rewrite lookup_total_app_r by lia.
  apply list_lookup_total_correct.
  change (map fresh_slot) with (fmap (M := list) fresh_slot).
  rewrite list_lookup_fmap, lookup_seqZ_lt by lia. simpl. f_equal. f_equal. lia.
Qed.

Lemma AllocateVfd_allocated {T : Prop} (s : State) :
  (0 < length (VfdCache s))%nat ->
  free_head_ok (VfdCache s) ->
  (T \/ nextFree (slot (VfdCache s) 0) <> 0 \/ replies s <> []) ->
  wpx T AllocateVfd
    (fun file s' => allocated s file s' /\ exists new, logged s s' new /\
                      List.filter is_unlink (map ev_call new) = [])
    (fun sev s' => sev = SevError /\ VfdCache s' = VfdCache s /\
                   nfile s' = nfile s /\ registry s' = registry s) s.
Proof.
  intros Hlen Hfree Hscr. unfold AllocateVfd.
  wp_step. wp_step. wp_step.
  destruct (nextFree (slot (VfdCache s) 0) =? 0) eqn:E.
  - set (size := Z.of_nat (length (VfdCache s))).
    set (newsize := if size * 2 <? 32 then 32 else size * 2).
    assert (Hnew : 2 * size <= newsize /\ 32 <= newsize /\
                   newsize = Z.max 32 (2 * size)).
    { unfold newsize. destruct (Z.ltb_spec (size * 2) 32); lia. }
    assert (Hsize : 0 < size) by (unfold size; lia).
    wp_step. wp_step. unfold SizeVfdCache. fold size. cbv zeta. fold newsize.
    wp_step. apply wp_sys.
    { intros Hnil. destruct Hscr as [HT|[Hne|Hne]]; [exact HT| |congruence].
      apply Z.eqb_eq in E. contradiction. }
    intros r rest Hrep. st_simpl. wp_step. wp_step.
    { wp_step. repeat split; reflexivity. }
    wp_step. wp_step. wp_step. wp_step. wp_step. wp_step.
    set (c1 := VfdCache s ++ map fresh_slot (seqZ size (newsize - size))).
    assert (Hlen1 : Z.of_nat (length c1) = newsize).
    { unfold c1. rewrite length_app, length_map, length_seqZ. lia. }
    set (c2 := upd (newsize - 1) (set_nextFree 0) c1).
    set (c3 := upd 0 (set_nextFree size) c2).
    assert (Hlen2 : Z.of_nat (length c2) = newsize)
      by (unfold c2; now rewrite length_upd).
    assert (Hlen3 : Z.of_nat (length c3) = newsize)
      by (unfold c3; now rewrite length_upd).
    assert (H30 : slot c3 0 = set_nextFree size (slot (VfdCache s) 0)).
    { unfold c3. rewrite slot_upd_same by lia. unfold c2.
      rewrite slot_upd_other by lia. unfold c1.
      rewrite slot_app_l by lia. reflexivity. }
    assert (Hold : forall f, 0 < f < size -> slot c3 f = slot (VfdCache s) f).
    { intros f Hf. unfold c3, c2, c1. rewrite !slot_upd_other by lia.
      apply slot_app_l. lia. }
    assert (Hfresh : forall f, size <= f < newsize ->
              slot c3 f = set_nextFree (if f =? newsize - 1 then 0 else f + 1)
                            (fresh_slot f)).
    { intros f Hf. unfold c3. rewrite slot_upd_other by lia. unfold c2.
      rewrite slot_upd, Hlen1.
      assert (Hc1 : slot c1 f = fresh_slot f)
        by (apply slot_grow; fold size; lia).
      destruct (Z.eqb_spec f (newsize - 1)) as [->|Hne].
      - rewrite bool_decide_eq_true_2 by lia. now rewrite Hc1.
      - rewrite bool_decide_eq_false_2 by lia. now rewrite Hc1. }
    fold c1 c2 c3.
    wp_step. wp_step. wp_step. wp_step. rewrite H30. slot_simpl.
    wp_step. wp_step. wp_step.
    rewrite (Hfresh size) by lia.
    assert (Hlast : (size =? newsize - 1) = false) by lia. rewrite Hlast.
    slot_simpl.
    assert (Hz : forall f, 0 < f -> slot (upd 0 (set_nextFree (size + 1)) c3) f
                                   = slot c3 f)
      by (intros f Hf; apply slot_upd_other; lia).
    assert (Hz0 : slot (upd 0 (set_nextFree (size + 1)) c3) 0
                  = set_nextFree (size + 1) (slot (VfdCache s) 0)).
    { rewrite slot_upd_same by lia. rewrite H30. reflexivity. }
    split.
    + unfold allocated. cbv zeta. st_simpl. unfold registry. st_simpl.
      rewrite E, length_upd, Hlen3. fold size.
      unfold FileIsNotOpen.
      rewrite !Hz0, !(Hz size) by lia. rewrite !(Hfresh size) by lia.
      rewrite Hlast.
      cbn [fd nextFree lruMoreRecently lruLessRecently set_nextFree fresh_slot
           set_hProtocol set_hFile set_hFS set_fd].
      split; [lia|]. split; [reflexivity|]. split; [reflexivity|].
      split; [unfold same_but_links; cbn; tauto|].
      split; [reflexivity|]. split; [reflexivity|].
      split; [intros f Hf; rewrite Hz by lia; now apply Hold|].
      split; [|split; reflexivity].
      split; [reflexivity|]. split; [lia|].
      intros f Hf. rewrite Hz by lia. now apply Hfresh.
    + eexists. split; [solve_logged|]. reflexivity.
  - apply Z.eqb_neq in E. wp_step. wp_step. wp_step. wp_step. wp_step.
    wp_step. wp_step. wp_step.
    destruct Hfree as [H0|[Hh Hfd]]; [contradiction|].
    set (h := nextFree (slot (VfdCache s) 0)) in *.
    set (c' := upd 0 (set_nextFree (nextFree (slot (VfdCache s) h))) (VfdCache s)).
    assert (Hz : forall f, 0 < f -> slot c' f = slot (VfdCache s) f)
      by (intros f Hf; apply slot_upd_other; lia).
    assert (Hz0 : slot c' 0 = set_nextFree (nextFree (slot (VfdCache s) h))
                                (slot (VfdCache s) 0))
      by (apply slot_upd_same; lia).
    split.
    + unfold allocated. cbv zeta. st_simpl. unfold registry. st_simpl.
      fold h. fold c'.
      assert (E' : (h =? 0) = false) by lia. rewrite E'.
      assert (Hlen' : length c' = length (VfdCache s)) by apply length_upd.
      rewrite !Hlen', !Hz0, !(Hz h) by lia.
      cbn [fd nextFree lruMoreRecently lruLessRecently set_nextFree].
      split; [lia|].
      split; [unfold FileIsNotOpen in *; now rewrite (Hz h) by lia|].
      split; [reflexivity|].
      split; [unfold same_but_links; cbn; tauto|].
      split; [reflexivity|]. split; [reflexivity|].
      split; [intros f Hf; apply Hz; lia|].
      split; [|split; reflexivity].
      split; reflexivity.
    + exists []. split; [|reflexivity].
      unfold logged. st_simpl. now rewrite app_nil_r.
Qed.

(** A table that agrees with [c] on the members of its ring, and has no
    other member, has the same ring. *)
Lemma ring_ok_agree (c c' : list Vfd) :
  ring_ok c ->
  (forall i, in_ring c' i <-> in_ring c i) ->
  (forall i, in_ring c i -> more c' i = more c i /\ less c' i = less c i) ->
  (0 < length c')%nat ->
  ring_ok c'.
Proof.
  intros [Hlen Hring] Hin Hlinks Hlen'. split; [exact Hlen'|].
  intros i Hi Hne. apply Hin in Hi.
  destruct (Hring i Hi Hne) as (Hm & Hmx & Hl & Hlx & Hlm & Hml).
  destruct (Hlinks i Hi) as [Em El].
  destruct (Hlinks _ Hm) as [_ El2]. destruct (Hlinks _ Hl) as [Em2 _].
  unfold linked. rewrite Em, El, El2, Em2.
  repeat split; auto; now apply Hin.
Qed.

Lemma allocated_ring (s : State) (file : File) (s' : State) :
  allocated s file s' -> ring_ok (VfdCache s) ->
  ring_ok (VfdCache s') /\ ~ in_ring (VfdCache s') file /\
  (length (VfdCache s) <= length (VfdCache s'))%nat.
Proof.
  unfold allocated. cbv zeta.
  intros (Hfile & Hclosed & _ & _ & Hm0 & Hl0 & Hold & Hcase & _) Hok.
  pose proof Hok as [Hlen _].
  set (c := VfdCache s) in *. set (c' := VfdCache s') in *.
  assert (Hle : (length c <= length c')%nat /\
                forall f, Z.of_nat (length c) <= f < Z.of_nat (length c') ->
                          fd (slot c' f) = VFD_CLOSED).
  { destruct (nextFree (slot c 0) =? 0).
    - destruct Hcase as (_ & Hl & Hfresh). split; [lia|].
      intros f Hf. rewrite Hfresh by lia. reflexivity.
    - destruct Hcase as (_ & ->). split; [lia|]. intros f Hf. lia. }
  destruct Hle as [Hle Hnew].
  assert (Hin : forall i, in_ring c' i <-> in_ring c i).
  { intros i. unfold in_ring. split; (intros [->|[Hr Hfd]]; [now left|right]).
    - destruct (Z.lt_ge_cases i (Z.of_nat (length c))) as [Hlt|Hge].
      + rewrite <- Hold by lia. split; [lia|exact Hfd].
      + exfalso. apply Hfd, Hnew. lia.
    - rewrite Hold by lia. split; [lia|exact Hfd]. }
  split; [|split; [|exact Hle]].
  - apply (ring_ok_agree c); [exact Hok|exact Hin| |lia].
    intros i [->|[Hr _]]; unfold more, less.
    + now rewrite Hm0, Hl0.
    + now rewrite Hold.
  - intros [->|[_ Hfd]]; [lia|]. apply Hfd.
    unfold FileIsNotOpen in Hclosed. apply andb_true_iff in Hclosed as [H _].
    now apply Z.eqb_eq in H.
Qed.

Lemma released_env (s0 s1 s2 : State) :
  released s0 s1 -> globals s2 = globals s1 ->
  calls is_unlink s2 = calls is_unlink s1 -> released s0 s2.
Proof.
  intros (Hok & Hreg & Hlen & Hp & Hn & Hu) Hg Hc.
  assert (Hv : VfdCache s2 = VfdCache s1) by (unfold globals in Hg; congruence).
  assert (Hnf : nfile s2 = nfile s1) by (unfold globals in Hg; congruence).
  assert (Hr2 : registry s2 = registry s1)
    by (unfold globals in Hg; unfold registry; congruence).
  unfold released. rewrite Hv, Hnf, Hr2, Hc. auto 10.
Qed.

Lemma BasicOpenFile_loop_released (fuel : nat) (name : string)
    (flags mode : Z) : forall (s0 s : State),
  released s0 s ->
  wp (BasicOpenFile_loop fuel name flags mode)
    (fun r s' => released s0 s' /\ (0 <= r \/ r = -1))
    (fun _ _ => True) s.
Proof.
  induction fuel as [|fuel IH]; intros s0 s Hrel; simpl; [exact I|].
  wp_step. wp_step.
  assert (Hcalls : forall l : list Event,
            List.filter is_unlink
              (map ev_call (l ++ [mkEvent (c_open name flags mode) (VfdCache s)]))
            = List.filter is_unlink (map ev_call l)).
  { intros l. rewrite map_app, List.filter_app. apply app_nil_r. }
  wp_step.
  - wp_step. split; [|left; lia].
    eapply released_env; [exact Hrel|reflexivity|]. unfold calls. st_simpl.
    apply Hcalls.
  - wp_step. wp_step. wp_step; [|wp_step].
    + wp_step. wp_step. wp_step. wp_step. wp_step.
      match goal with
      | |- wpx _ _ _ _ ?st =>
          assert (Hrel1 : released s0 st)
      end.
      { eapply released_env; [exact Hrel|reflexivity|]. unfold calls. st_simpl.
        rewrite map_app, List.filter_app, Hcalls. apply app_nil_r. }
      eapply wp_mono;
        [apply (ReleaseLruFile_released (T := True));
         [now destruct Hrel1|now left]| |auto].
      intros [] s' (Hrel' & _).
      * apply IH. eapply released_trans; eauto.
      * wp_step. wp_step. wp_step. split; [|now right].
        eapply released_env;
          [eapply released_trans; [exact Hrel1|exact Hrel']|reflexivity|].
        reflexivity.
    + split; [|now right].
      eapply released_env; [exact Hrel|reflexivity|]. unfold calls. st_simpl.
      apply Hcalls.
Qed.

Lemma BasicOpenFile_released (name : string) (flags mode : Z) (s0 s : State) :
  released s0 s ->
  wp (BasicOpenFile name flags mode)
    (fun r s' => released s0 s' /\ (0 <= r \/ r = -1))
    (fun _ _ => True) s.
Proof.
  intros Hrel. unfold BasicOpenFile. wp_step. wp_step.
  now apply BasicOpenFile_loop_released.
Qed.

(** ** Opening a local file *)

Lemma Insert_mru_wp {T : Prop} (x : File) (s : State) Qn Qe :
  ring_ok_except (VfdCache s) x ->
  0 < x < Z.of_nat (length (VfdCache s)) ->
  fd (slot (VfdCache s) x) <> VFD_CLOSED ->
  (forall c',
     length c' = length (VfdCache s) ->
     (forall f, same_but_links (slot (VfdCache s) f) (slot c' f)) ->
     ring_ok c' ->
     less c' 0 = x -> more c' x = 0 ->
     Qn tt (with_VfdCache c' s)) ->
  wpx T (Insert x) Qn Qe s.
Proof.
  intros Hex Hx Hfd HQ.
  destruct (Insert_ring x s Hex Hx Hfd) as (c' & Heq & Hl & Hf & Hok).
  pose proof Hex as [Hlen Hring].
  destruct (Hring 0 (or_introl eq_refl) ltac:(lia)) as (_ & _ & HT & HTx & _).
  destruct (Insert_links x s) as (c2 & Heq2 & _ & _ & Hmore & Hless);
    [lia|exact HTx|exact Hx|now apply in_ring_range|].
  assert (c2 = c') as ->.
  { rewrite Heq in Heq2. injection Heq2 as Hc. congruence. }
  unfold wpx. rewrite Heq. apply HQ; [exact Hl|exact Hf|exact Hok| |].
  - rewrite Hless. now rewrite bool_decide_eq_true_2.
  - rewrite Hmore. unfold less in HTx.
    rewrite bool_decide_eq_false_2 by (unfold less; congruence).
    now rewrite bool_decide_eq_true_2.
Qed.

Lemma FreeVfd_slots_wp {T : Prop} (file : File) (s : State) Qn Qe :
  0 < file < SizeVfdCache s ->
  (forall c',
     length c' = length (VfdCache s) ->
     slot c' file
     = set_nextFree (nextFree (slot (VfdCache s) 0))
         (set_hProtocol None (set_hFile NULL (set_hFS NULL
            (set_fdstate 0 (set_fileName None (slot (VfdCache s) file)))))) ->
     slot c' 0 = set_nextFree file (slot (VfdCache s) 0) ->
     (forall f, f <> file -> f <> 0 -> slot c' f = slot (VfdCache s) f) ->
     Qn tt (with_VfdCache c' s)) ->
  wpx T (FreeVfd file) Qn Qe s.
Proof.
  intros Hfile HQ. unfold SizeVfdCache in Hfile.
  unfold FreeVfd. wp_go.
  match goal with
  | |- Qn tt ?st => change st with (with_VfdCache (VfdCache st) s)
  end. st_simpl.
  apply HQ; slot_simpl; try reflexivity.
  - now rewrite !length_upd.
  - intros f Hf Hf0. slot_simpl. reflexivity.
Qed.

Lemma LocalPathNameOpenFile_spec (name : string) (flags mode : Z) (s : State) :
  ring_ok (VfdCache s) -> free_head_ok (VfdCache s) ->
  wp (LocalPathNameOpenFile name flags mode)
    (fun r s' =>
       exists file,
         table_kept s file s' /\
         (r = file /\ opened_local s name flags mode file s' \/
          r = -1 /\ open_failed s file s'))
    (fun _ _ => True) s.
Proof.
  intros Hok Hfree. unfold LocalPathNameOpenFile.
  wp_step. wp_step. wp_step. wp_step; [wp_step; exact I|]. wp_step. wp_step.
  match goal with
  | |- wpx _ _ _ _ ?st => set (s1 := st)
  end.
  eapply wp_mono;
    [apply (AllocateVfd_allocated (T := True) s1);
     [now destruct Hok|exact Hfree|now left]| |auto].
  intros file s2 (Hal & new2 & Hnew2 & Hun2).
  destruct (allocated_ring _ _ _ Hal Hok) as (Hok2 & Hnot2 & Hlen2).
  wp_step.
  eapply wp_mono;
    [apply (release_while_over_budget_released (T := True) s2 Hok2);
     now left| |auto].
  intros _ s3 (Hrel3 & _ & Hroom). wp_step.
  eapply wp_mono;
    [apply (BasicOpenFile_released name flags mode s3 s3);
     apply released_refl; now destruct Hrel3| |auto].
  intros fd0 s4 (Hrel34 & Hr). cbv beta.
  pose proof (released_trans _ _ _ Hrel3 Hrel34) as Hrel4.
  (* what is known of the table when the open has been tried *)
  unfold allocated in Hal. cbv zeta in Hal.
  change (VfdCache s1) with (VfdCache s) in Hal, Hlen2.
  change (nfile s1) with (nfile s) in Hal.
  change (registry s1) with (registry s) in Hal.
  destruct Hal as (Hfile2 & Hclosed2 & _ & _ & _ & _ & Hold2 & _ & Hnf2 & Hreg2).
  destruct Hrel4 as (Hok4 & Hreg4 & Hlen4 & Hp4 & Hn4 & Hu4).
  destruct Hrel34 as (_ & Hreg34 & _ & _ & Hn34 & _).
  set (c4 := VfdCache s4) in *.
  assert (Hfile4 : 0 < file < Z.of_nat (length c4)) by lia.
  assert (Hslot4 : fd (slot c4 file) = VFD_CLOSED /\
                   hFS (slot c4 file) = NULL /\ hFile (slot c4 file) = NULL).
  { unfold FileIsNotOpen in Hclosed2.
    apply andb_true_iff in Hclosed2 as [H1 H2].
    apply andb_true_iff in H2 as [H2 H3].
    apply Z.eqb_eq in H1, H2, H3.
    destruct (Hp4 file) as (_ & _ & _ & _ & _ & _ & [(-> & _ & -> & -> & _)|H]);
      [auto|tauto]. }
  destruct Hslot4 as (Hfd4 & HFS4 & HFile4).
  assert (Hkept : forall f, 0 < f < Z.of_nat (length (VfdCache s)) ->
            f <> file -> parked (slot (VfdCache s) f) (slot c4 f)).
  { intros f Hf _. rewrite <- Hold2 by exact Hf. apply Hp4. }
  assert (Hcalls : calls is_unlink s4 = calls is_unlink s).
  { rewrite Hu4. unfold calls. rewrite Hnew2. unfold s1. st_simpl.
    rewrite !map_app, !List.filter_app, Hun2. simpl. now rewrite !app_nil_r. }
  assert (Hreg : registry s4 = registry s) by congruence.
  wp_step. wp_step.
  set (c5 := upd file (set_fd fd0) c4).
  assert (Hlen5 : length c5 = length c4) by apply length_upd.
  assert (H5file : slot c5 file = set_fd fd0 (slot c4 file))
    by (apply slot_upd_same; lia).
  assert (H5 : forall f, f <> file -> slot c5 f = slot c4 f)
    by (intros f Hf; apply slot_upd_other; congruence).
  destruct (Z.ltb_spec fd0 0) as [Hneg|Hpos].
  - (* the open failed *)
    assert (fd0 = -1) as -> by lia.
    wp_step. apply FreeVfd_slots_wp.
    { unfold SizeVfdCache. st_simpl. rewrite length_upd. exact Hfile4. }
    st_simpl. fold c4. fold c5. intros c6 Hlen6 H6file H60 H6. rewrite H5file in H6file.
    rewrite (H5 0) in H60 by lia.
    wp_step. st_simpl. exists file.
    assert (Hfd6 : fd (slot c6 file) = VFD_CLOSED)
      by (rewrite H6file; reflexivity).
    assert (H6' : forall f, f <> file -> f <> 0 -> slot c6 f = slot c4 f).
    { intros f Hf Hf0. rewrite H6, H5; auto. }
    split.
    + unfold table_kept. st_simpl.
      split; [|split; [lia|split; [|split; [exact Hreg|exact Hcalls]]]].
      * apply (ring_ok_agree c4); [exact Hok4| | |lia].
        -- intros i. unfold in_ring. rewrite Hlen6, Hlen5.
           destruct (decide (i = 0)) as [->|Hi0]; [tauto|].
           destruct (decide (i = file)) as [->|Hif].
           ++ rewrite Hfd6, Hfd4. tauto.
           ++ rewrite H6' by auto. tauto.
        -- intros i [->|[Hi Hfdi]]; unfold more, less.
           ++ rewrite H60. auto.
           ++ rewrite H6'; [auto|congruence|lia].
      * intros f Hf Hne. rewrite H6' by lia. now apply Hkept.
    + right. split; [reflexivity|]. unfold open_failed. cbv zeta. st_simpl.
      split; [lia|]. split; [|split; [rewrite H60; reflexivity|lia]].
      unfold freed. rewrite H6file. cbn. auto 10.
  - (* the open succeeded *)
    wp_step. wp_step. wp_step. fold c4. fold c5.
    apply Insert_mru_wp; st_simpl; fold c4; fold c5.
    { apply ring_ok_opened; [exact Hok4|lia|exact Hfd4]. }
    { lia. }
    { rewrite H5file. cbn. unfold VFD_CLOSED. lia. }
    intros c6 Hlen6 Hsame6 Hok6 Hless6 Hmore6.
    do 10 wp_step. wp_step.
    set (c7 := upd file (set_fdstate 0) _).
    assert (Hlen7 : length c7 = length c6)
      by (unfold c7; now rewrite !length_upd).
    assert (H7 : forall f, f <> file -> slot c7 f = slot c6 f).
    { intros f Hf. unfold c7. now rewrite !slot_upd_other by congruence. }
    assert (H7file : slot c7 file
              = set_fdstate 0 (set_seekPos 0 (set_fileMode mode
                  (set_fileFlags
                     (Z.land flags
                        (Z.lnot (Z.lor (Z.lor O_CREAT O_TRUNC) O_EXCL)))
                     (set_fileName (Some name) (slot c6 file)))))).
    { unfold c7. now rewrite !slot_upd_same by (rewrite ?length_upd; lia). }
    assert (H6file : same_but_links (set_fd fd0 (slot c4 file)) (slot c6 file))
      by (rewrite <- H5file; apply Hsame6).
    exists file. split.
    + unfold table_kept. st_simpl.
      split; [|split; [lia|split; [|split; [exact Hreg|exact Hcalls]]]].
      * apply (ring_ok_agree c6); [exact Hok6| | |lia].
        -- intros i. unfold in_ring. rewrite Hlen7.
           destruct (decide (i = file)) as [->|Hif].
           ++ rewrite H7file. cbn. tauto.
           ++ rewrite H7 by auto. tauto.
        -- intros i _. unfold more, less.
           destruct (decide (i = file)) as [->|Hif].
           ++ rewrite H7file. cbn. auto.
           ++ rewrite H7 by auto. auto.
      * intros f Hf Hne. rewrite H7 by auto.
        eapply parked_trans; [now apply Hkept|].
        apply parked_links. rewrite <- (H5 f) by auto. apply Hsame6.
    + left. split; [reflexivity|]. unfold opened_local. cbv zeta. st_simpl.
      fold c7. unfold IsLocalFile. rewrite H7file, (H7 0) by lia.
      destruct H6file as (Efd & _ & _ & _ & _ & _ & _ & _ & EFS & EFile & _).
      cbn in Efd, EFS, EFile |- *. rewrite Efd, EFS, EFile, HFS4, HFile4.
      unfold less, more in Hless6, Hmore6.
      split; [lia|]. split; [lia|]. split; [reflexivity|].
      do 5 (split; [reflexivity|]). split; [exact Hless6|].
      split; [exact Hmore6|].
      assert (Hb : numAllocatedDescs s4 = numAllocatedDescs s3 /\
                   max_safe_fds s4 = max_safe_fds s3)
        by (unfold registry in Hreg34; split; congruence).
      destruct Hb as [-> ->]. lia.
Qed.

(** X6 — [LocalPathNameOpenFile] on a table with a well-formed ring.
    Whenever it returns, it returns -1 or the slot it took.  On success the
    slot holds the descriptor, the name, the mode, the flags without
    O_CREAT, O_TRUNC and O_EXCL, position 0 and no state bits, and is the
    most recently used member of the ring; [nfile] was counted up, and is
    within the budget unless this is the only open file.  On failure the
    slot is back on top of the free list.  Either way the ring stays well
    formed, the other slots remain the same logical files (some may have
    lost their descriptor), the registry is untouched and nothing is
    unlinked.  With a free slot at hand, room in the budget and an [open]
    that succeeds, it returns the head of the free list. *)
Theorem X6_LocalPathNameOpenFile (name : string) (flags mode : Z) (s : State) :
  ring_ok (VfdCache s) -> free_head_ok (VfdCache s) ->
  (forall r s',
     LocalPathNameOpenFile name flags mode s = Normal r s' ->
     exists file,
       table_kept s file s' /\
       (r = file /\ opened_local s name flags mode file s' \/
        r = -1 /\ open_failed s file s')) /\
  (forall dup o rest,
     replies s = dup :: o :: rest -> r_ret dup <> NULL -> 0 <= r_ret o ->
     nextFree (slot (VfdCache s) 0) <> 0 ->
     nfile s + numAllocatedDescs s < max_safe_fds s ->
     exists s',
       LocalPathNameOpenFile name flags mode s
       = Normal (nextFree (slot (VfdCache s) 0)) s').
Proof.
  intros Hok Hfree. split.
  - intros r s' Hrun.
    exact (wp_normal _ _ _ _ _ _
             (LocalPathNameOpenFile_spec name flags mode s Hok Hfree) Hrun).
  - intros dup o rest Hrep Hdup Ho Hh Hroom.
    assert (Htwp : twp (LocalPathNameOpenFile name flags mode)
              (fun r _ => r = nextFree (slot (VfdCache s) 0))
              (fun _ _ => False) s).
    { apply Z.eqb_neq in Hdup, Hh.
      assert (Hr : (nfile s + numAllocatedDescs s >=? max_safe_fds s) = false)
        by lia.
      assert (Hfd : (r_ret o >=? 0) = true) by lia.
      assert (Hlt : (r_ret o <? 0) = false) by lia.
      unfold LocalPathNameOpenFile. wp_step. wp_step.
      rewrite Hrep in Hrep0. injection Hrep0 as <- <-.
      unfold AllocateVfd, release_while_over_budget, BasicOpenFile.
      repeat wp_known. cbn [release_loop]. repeat wp_known.
      unfold script_fuel. st_simpl. rewrite Hrep.
      cbn [tail]. repeat wp_known. cbn [length BasicOpenFile_loop].
      wp_step. wp_step. injection Hrep0 as <- <-.
      repeat wp_known.
      apply Insert_wp. intros c' _ _ _. wp_go. reflexivity. }
    apply twp_elim in Htwp
      as [(r & s' & Hrun & ->)|(sev & code & msg & s' & _ & [])].
    eauto.
Qed.

Lemma one_free_slot_ring_ok (script : list Reply) :
  ring_ok (VfdCache (one_free_slot script)).
Proof.
  split; [simpl; lia|]. intros i [->|[Hr Hfd]] _.
  - vm_compute. intuition (auto; discriminate).
  - simpl in Hr. assert (i = 1) as -> by lia. now contradiction Hfd.
Qed.

Lemma X6_LocalPathNameOpenFile_witness :
  exists s',
    LocalPathNameOpenFile "base/1/f" O_RDWR 384 (one_free_slot [ok 1; ok 5])
    = Normal 1 s'.
Proof.
  apply (X6_LocalPathNameOpenFile "base/1/f" O_RDWR 384
           (one_free_slot [ok 1; ok 5])) with (dup := ok 1) (o := ok 5)
           (rest := []).
  - apply one_free_slot_ring_ok.
  - right. vm_compute. split; [split|]; reflexivity.
  - reflexivity.
  - discriminate.
  - discriminate.
  - discriminate.
  - reflexivity.
Defined.

(** ** Opening a DFS file: what is stored *)

Lemma aside_refl s : aside s s.
Proof. split; [reflexivity|]. exists []. apply logged_refl. Qed.

Lemma aside_trans s1 s2 s3 : aside s1 s2 -> aside s2 s3 -> aside s1 s3.
Proof.
  intros [H1 (n1 & L1)] [H2 (n2 & L2)]. split; [congruence|].
  exists (n1 ++ n2). eapply logged_trans; eauto.
Qed.

Ltac solve_aside :=
  split; [reflexivity|eexists; solve_logged].

Lemma HdfsGetProtocol_aside fileName size s :
  wp (HdfsGetProtocol fileName size) (fun _ s' => aside s s') (fun _ _ => True) s.
Proof. unfold HdfsGetProtocol. wp_auto; solve_aside. Qed.

Lemma HdfsParseOptions_aside fileName rep s :
  wp (HdfsParseOptions fileName rep) (fun _ s' => aside s s') (fun _ _ => True) s.
Proof. unfold HdfsParseOptions. wp_auto; solve_aside. Qed.

Lemma ConvertToUnixPath_aside fileName len s :
  wp (ConvertToUnixPath fileName len) (fun _ s' => aside s s') (fun _ _ => True) s.
Proof. unfold ConvertToUnixPath. wp_auto; solve_aside. Qed.

Lemma HdfsGetConnection_aside protocol path s :
  wp (HdfsGetConnection protocol path) (fun _ s' => aside s s') (fun _ _ => True) s.
Proof. unfold HdfsGetConnection. wp_auto; solve_aside. Qed.

Lemma wp_aside_bind {A B} (m : M A) (f : A -> M B) Qn s0 s :
  aside s0 s ->
  (forall s1, wp m (fun _ s' => aside s1 s') (fun _ _ => True) s1) ->
  (forall a s', aside s0 s' -> wp (f a) Qn (fun _ _ => True) s') ->
  wp (bind m f) Qn (fun _ _ => True) s.
Proof.
  intros Hq Hm Hf. apply wp_bind.
  eapply wp_mono; [apply Hm| |auto].
  intros a s' Hq'. apply Hf. eapply aside_trans; eauto.
Qed.

Lemma HdfsBasicOpenFile_opened (fileName : string) (fileFlags fileMode : Z)
    (init : option string * Z * Z) (s : State) :
  wp (HdfsBasicOpenFile fileName fileFlags fileMode InLocals init)
    (fun r s' =>
       aside s s' /\
       (fst r = true ->
        forwarded s s' fileFlags /\
        snd (fst (snd r)) <> NULL /\ snd (snd r) <> NULL))
    (fun _ _ => True) s.
Proof.
  destruct init as [[p0 fs0] h0]. unfold HdfsBasicOpenFile.
  apply (wp_aside_bind _ _ _ s s (aside_refl s)).
  { intros s1. apply HdfsGetProtocol_aside. }
  intros [protocol|] s1 Hq1.
  2:{ wp_go. split; [|discriminate]. eapply aside_trans; [exact Hq1|solve_aside]. }
  apply (wp_aside_bind _ _ _ s s1 Hq1).
  { intros s2. apply HdfsParseOptions_aside. }
  intros r s2 Hq2. unfold put_out.
  wp_step. wp_step. wp_step. wp_step.
  match goal with
  | |- wpx _ _ _ _ ?st =>
      assert (Hq3 : aside s st)
        by (eapply aside_trans; [exact Hq2|solve_aside])
  end.
  apply (wp_aside_bind _ _ _ s _ Hq3).
  { intros s3. apply HdfsGetConnection_aside. }
  intros fs s4 Hq4.
  wp_step. wp_step. wp_step.
  { wp_step. split; [exact Hq4|discriminate]. }
  apply Z.eqb_neq in E.
  apply (wp_aside_bind _ _ _ s s4 Hq4).
  { intros s5. apply ConvertToUnixPath_aside. }
  intros [path|] s5 Hq5.
  2:{ wp_step. split; [exact Hq5|discriminate]. }
  wp_step.
  apply wp_mono with
    (Qn := fun hFile s6 =>
       aside s s6 /\ forwarded s s6 fileFlags)
    (Qe := fun _ _ => True).
  - destruct Hq5 as [Hc5 (n5 & Hl5)].
    wp_step; wp_step.
    all: split;
      [split; [exact Hc5|eexists; eapply logged_trans; [exact Hl5|solve_logged]]|].
    all: do 4 eexists; eapply called_after; [exact Hl5|].
    all: eexists; split; [solve_logged|now left].
  - intros hFile s6 (Hq6 & Hf6).
    assert (Hdone : forall (b : bool) (hp : option string) sX extra,
              (b = true -> hFile <> NULL) ->
              files sX = files s6 ->
              trace sX = trace s6 ++ extra ->
              aside s sX /\
              (fst (b, (hp, fs, hFile)) = true ->
               forwarded s sX fileFlags /\
               snd (fst (snd (b, (hp, fs, hFile)))) <> NULL /\
               snd (snd (b, (hp, fs, hFile))) <> NULL)).
    { intros b hp sX extra Hb Hc Ht. split.
      - eapply aside_trans; [exact Hq6|]. split; [exact Hc|eauto].
      - simpl. intros Htrue. split; [|split; [exact E|auto]].
        eapply forwarded_later; [exact Hf6|eauto]. }
    wp_go; st_simpl.
    all: try apply Z.eqb_neq in E0.
    all: try (eapply Hdone; [auto; discriminate|reflexivity|solve_logged]).
    all: try (eapply (Hdone _ _ _ []);
              [auto; discriminate|reflexivity|now rewrite app_nil_r]).
  - auto.
Qed.

Lemma has_O_APPEND (x : Z) : has_flag (Z.lor x O_APPEND) O_APPEND = true.
Proof.
  unfold has_flag. rewrite Z.land_lor_distr_l, Z.land_diag.
  apply negb_true_iff, Z.eqb_neq. intros H.
  apply Z.lor_eq_0_iff in H as [_ H]. discriminate H.
Qed.

Lemma HdfsPathNameOpenFile_spec (name : string) (flags mode : Z) (s : State) :
  (0 < length (VfdCache s))%nat -> free_head_ok (VfdCache s) ->
  wp (HdfsPathNameOpenFile name flags mode)
    (fun r s' =>
       nfile s' = nfile s /\
       (r = -1 /\ VfdCache s' = VfdCache s \/
        0 < r < Z.of_nat (length (VfdCache s')) /\
        opened_dfs name flags mode (slot (VfdCache s') r) /\
        forwarded s s' flags /\
        (forall f, 0 < f < Z.of_nat (length (VfdCache s)) -> f <> r ->
           slot (VfdCache s') f = slot (VfdCache s) f) /\
        (ring_ok (VfdCache s) -> ring_ok (VfdCache s'))))
    (fun _ _ => True) s.
Proof.
  intros Hlen Hfree. unfold HdfsPathNameOpenFile.
  wp_step. wp_step. wp_step. wp_step; [wp_step; exact I|]. wp_step. wp_step.
  match goal with
  | |- wpx _ _ _ _ ?st => set (s1 := st)
  end.
  assert (Hs1 : aside s s1) by (unfold s1; solve_aside).
  eapply wp_mono; [apply HdfsBasicOpenFile_opened| |auto].
  intros [result [[protocol fs] hfile]] s2 (Has & Hres). cbv beta iota.
  pose proof (aside_trans _ _ _ Hs1 Has) as [Hfiles (new2 & Hnew2)].
  assert (Hc2 : VfdCache s2 = VfdCache s /\ nfile s2 = nfile s)
    by (unfold files in Hfiles; split; congruence).
  destruct Hc2 as [Hc2 Hn2].
  destruct result; cbn [negb].
  - destruct (Hres eq_refl) as (Hfw & Hfs & Hh). simpl in Hfs, Hh.
    wp_step.
    eapply wp_mono;
      [apply (AllocateVfd_allocated (T := True) s2);
       [now rewrite Hc2|now rewrite Hc2|now left]| |auto].
    intros file s3 (Hal & new3 & Hnew3 & _).
    assert (Hring : ring_ok (VfdCache s) ->
                    ring_ok (VfdCache s3) /\ ~ in_ring (VfdCache s3) file).
    { intros Hok. rewrite <- Hc2 in Hok.
      destruct (allocated_ring _ _ _ Hal Hok) as (H1 & H2 & _). auto. }
    unfold allocated in Hal. cbv zeta in Hal. rewrite Hc2, Hn2 in Hal.
    destruct Hal as (Hfile3 & Hclosed3 & _ & _ & _ & _ & Hold3 & _ & Hnf3 & _).
    set (c3 := VfdCache s3) in *.
    do 16 wp_step. wp_step. st_simpl. fold c3.
    set (c4 := upd file (set_fdstate 0) _).
    assert (Hlen4 : length c4 = length c3)
      by (unfold c4; now rewrite !length_upd).
    assert (H4 : forall f, f <> file -> slot c4 f = slot c3 f).
    { intros f Hf. unfold c4. now rewrite !slot_upd_other by congruence. }
    assert (H4file : slot c4 file
              = set_fdstate 0 (set_seekPos 0 (set_fileMode mode
                  (set_fileFlags (Z.lor (Z.land flags (Z.lnot O_CREAT)) O_APPEND)
                     (set_hProtocol protocol (set_hFile hfile (set_hFS fs
                        (set_fileName (Some name) (slot c3 file))))))))).
    { unfold c4. now rewrite !slot_upd_same by (rewrite ?length_upd; lia). }
    split; [exact Hnf3|]. right.
    split; [lia|]. split; [|split; [|split]].
    + unfold opened_dfs. rewrite H4file. cbn.
      apply FileIsNotOpen_closed in Hclosed3 as [Hfd3 _]. auto 10.
    + eapply forwarded_later; [|exists new3; exact Hnew3].
      destruct Hfw as (p & f1 & path & rep & new & Hl & Hin).
      exists p, f1, path, rep.
      destruct Hs1 as [_ (n1 & Hl1)].
      eapply called_after; [exact Hl1|]. exists new. auto.
    + intros f Hf Hne. rewrite H4 by auto. now apply Hold3.
    + intros Hok. destruct (Hring Hok) as [Hok3 Hnot3].
      apply (ring_ok_agree c3); [exact Hok3| | |lia].
      * intros i. unfold in_ring. rewrite Hlen4.
        destruct (decide (i = file)) as [->|Hif].
        -- rewrite H4file. cbn. tauto.
        -- rewrite H4 by auto. tauto.
      * intros i _. unfold more, less.
        destruct (decide (i = file)) as [->|Hif].
        -- rewrite H4file. cbn. auto.
        -- rewrite H4 by auto. auto.
  - wp_step. wp_step. wp_step. st_simpl. split; [exact Hn2|]. left. auto.
Qed.




(** X7 — [HdfsPathNameOpenFile], whenever it returns.  [nfile] is as
    before: DFS files are not counted in the descriptor budget.  On failure
    it returns -1 and the table is untouched (no slot is taken).  On
    success the slot holds the name, both DFS handles, the mode, position 0
    and no state bits; the saved flags are the caller's without O_CREAT and
    with O_APPEND, whatever the caller asked for, while the DFS client was
    asked to open the file with the caller's own flags.  The slot holds no
    kernel descriptor, so it does not join the LRU ring, which stays well
    formed; the other slots are unchanged. *)
Theorem X7_HdfsPathNameOpenFile (name : string) (flags mode : Z) (s : State)
    (r : File) (s' : State) :
  (0 < length (VfdCache s))%nat -> free_head_ok (VfdCache s) ->
  HdfsPathNameOpenFile name flags mode s = Normal r s' ->
  nfile s' = nfile s /\
  (r = -1 /\ VfdCache s' = VfdCache s \/
   0 < r < Z.of_nat (length (VfdCache s')) /\
   opened_dfs name flags mode (slot (VfdCache s') r) /\
   has_flag (fileFlags (slot (VfdCache s') r)) O_APPEND = true /\
   IsLocalFile (VfdCache s') r = false /\
   forwarded s s' flags /\
   (forall f, 0 < f < Z.of_nat (length (VfdCache s)) -> f <> r ->
      slot (VfdCache s') f = slot (VfdCache s) f) /\
   (ring_ok (VfdCache s) -> ring_ok (VfdCache s'))).
Proof.
  intros Hlen Hfree Hrun.
  destruct (wp_normal _ _ _ _ _ _
              (HdfsPathNameOpenFile_spec name flags mode s Hlen Hfree) Hrun)
    as (Hn & [Hfail|(Hr & Hop & Hfw & Hold & Hring)]).
  - split; [exact Hn|now left].
  - split; [exact Hn|right]. split; [exact Hr|]. split; [exact Hop|].
    destruct Hop as (_ & _ & Hh & Hflags & _).
    split; [rewrite Hflags; apply has_O_APPEND|].
    split; [|auto].
    unfold IsLocalFile. apply Z.eqb_neq in Hh. now rewrite Hh.
Qed.

Lemma X7_HdfsPathNameOpenFile_witness :
  exists s',
    HdfsPathNameOpenFile "hdfs://h:1/f" O_WRONLY 384
      (one_free_slot [ok 1; ok 1; ok 7; ok 9]) = Normal 1 s' /\
    fileFlags (slot (VfdCache s') 1) = Z.lor O_WRONLY O_APPEND /\
    forwarded (one_free_slot [ok 1; ok 1; ok 7; ok 9]) s' O_WRONLY.
Proof.
  set (s0 := one_free_slot [ok 1; ok 1; ok 7; ok 9]).
  set (s' := state_of (HdfsPathNameOpenFile "hdfs://h:1/f" O_WRONLY 384 s0)).
  assert (Hrun : HdfsPathNameOpenFile "hdfs://h:1/f" O_WRONLY 384 s0
                 = Normal 1 s') by (vm_compute; reflexivity).
  exists s'. split; [exact Hrun|].
  destruct (X7_HdfsPathNameOpenFile "hdfs://h:1/f" O_WRONLY 384 s0 1 s')
    as (_ & [[Hr _]|(_ & Hop & _ & _ & Hfw & _)]).
  - simpl. lia.
  - right. vm_compute. split; [split|]; reflexivity.
  - exact Hrun.
  - discriminate Hr.
  - destruct Hop as (_ & _ & _ & Hflags & _). split; [exact Hflags|exact Hfw].
Defined.

(** ** The registry of streams and directories *)

Lemma live_descs_pushed (l : list AllocateDesc) (n : nat) (d : AllocateDesc) :
  (n < length l)%nat -> take (S n) (<[n := d]> l) = take n l ++ [d].
Proof.
  intros Hn. erewrite take_S_r by (apply list_lookup_insert_eq; exact Hn).
  now rewrite take_insert_ge by lia.
Qed.

Lemma AllocateFile_run (name mode : string) (s : State) (f sub : Reply)
    (rest : list Reply) :
  out_of_descs s = false ->
  replies s = f :: sub :: rest -> r_ret f <> NULL ->
  AllocateFile name mode s
  = Normal (r_ret f)
      (with_numAllocatedDescs (numAllocatedDescs s + 1)
         (with_allocatedDescs
            (<[Z.to_nat (numAllocatedDescs s)
               := fill_desc AllocateDescFile (r_ret f) (r_ret sub)
                    (allocatedDescs s !!! Z.to_nat (numAllocatedDescs s))]>
               (allocatedDescs s))
            (answer c_GetCurrentSubTransactionId sub
               (answer (c_fopen name mode) f s)))).
Proof.
  intros Hroom Hrep Hf. apply twp_returns.
  apply Z.eqb_neq in Hf.
  unfold AllocateFile. wp_step. wp_step. rewrite Hroom. wp_step.
  wp_step. unfold script_fuel. rewrite Hrep.
  cbn [length AllocateFile_loop]. wp_step. wp_step.
  rewrite Hrep in Hrep0. injection Hrep0 as <- <-. rewrite Hf.
  cbn [negb]. wp_step. wp_step. wp_step. wp_step.
  rewrite Hrep in Hrep0. simpl in Hrep0. injection Hrep0 as <- <-.
  unfold set_desc. do 5 wp_step. split; reflexivity.
Qed.



Lemma find_desc_down_Some P l n i :
  find_desc_down P l n = Some i -> (i < n)%nat /\ P (l !!! i) = true.
Proof.
  induction n as [|n IH]; simpl; [discriminate|].
  destruct (P (l !!! n)) eqn:E.
  - intros [= <-]. split; [lia|exact E].
  - intros H. destruct (IH H). split; [lia|assumption].
Qed.

Lemma find_desc_down_None P l n :
  find_desc_down P l n = None -> forall j, (j < n)%nat -> P (l !!! j) = false.
Proof.
  induction n as [|n IH]; simpl; [intros _ j Hj; lia|].
  destruct (P (l !!! n)) eqn:E; [discriminate|].
  intros H j Hj. destruct (decide (j = n)) as [->|Hne]; [exact E|].
  apply IH; [exact H|lia].
Qed.

Lemma In_take_lookup {A} `{Inhabited A} (l : list A) (n : nat) (d : A) :
  (n <= length l)%nat ->
  In d (take n l) <-> exists j, (j < n)%nat /\ l !!! j = d.
Proof.
  intros Hn. rewrite <- list_elem_of_In, list_elem_of_lookup. split.
  - intros (j & Hj). pose proof (lookup_lt_Some _ _ _ Hj) as Hlt.
    rewrite length_take in Hlt. exists j. split; [lia|].
    rewrite lookup_take_lt in Hj by lia.
    now apply list_lookup_total_correct.
  - intros (j & Hj & <-). exists j. rewrite lookup_take_lt by lia.
    apply list_lookup_lookup_total_lt. lia.
Qed.

Lemma live_descs_removed {A} `{Inhabited A} (l : list A) (i n : nat) :
  (i < n)%nat -> (n <= length l)%nat ->
  take n l ≡ₚ l !!! i :: take (n - 1) (<[i := l !!! (n - 1)%nat]> l).
Proof.
  intros Hi Hn.
  rewrite <- (take_drop i (take n l)) at 1.
  rewrite <- (take_drop i (take (n - 1) _)).
  rewrite !take_take.
  replace (i `min` n)%nat with i by lia.
  replace (i `min` (n - 1))%nat with i by lia.
  rewrite take_insert_ge by lia.
  rewrite (drop_take_cons l i n) by lia.
  rewrite compact_perm by lia.
  symmetry. apply Permutation_middle.
Qed.

(** X9 — [FreeFile] always closes the stream it is given, with exactly one
    [fclose], and returns the result of that [fclose].  When the stream is
    a live entry of the registry, one such entry is removed (the registry is
    compacted, so the others are kept up to their order); when it is not,
    the fact is logged and the registry is left alone.  The table and
    [nfile] are untouched. *)
Theorem X9_FreeFile (file : Z) (s : State) (c : Reply) (rest : list Reply) :
  replies s = c :: rest -> registry_ok s ->
  exists s',
    FreeFile file s = Normal (r_ret c) s' /\
    calls is_fclose s' = calls is_fclose s ++ [c_fclose file] /\
    VfdCache s' = VfdCache s /\ nfile s' = nfile s /\ replies s' = rest /\
    ((exists d, In d (live_descs s) /\ is_stream file d) ->
     numAllocatedDescs s' = numAllocatedDescs s - 1 /\
     exists d, is_stream file d /\ live_descs s ≡ₚ d :: live_descs s') /\
    ((forall d, In d (live_descs s) -> ~ is_stream file d) ->
     numAllocatedDescs s' = numAllocatedDescs s /\
     allocatedDescs s' = allocatedDescs s /\
     called s s'
       (c_elog LOG
          "file to be closed was not opened through the virtual file descriptor system"
          [])).
Proof.
  intros Hrep [Hn Hlen].
  set (P := fun d : AllocateDesc =>
              bool_decide (kind d = AllocateDescFile) && (desc d =? file)).
  assert (HP : forall d, P d = true <-> is_stream file d).
  { intros d. unfold P, is_stream.
    rewrite andb_true_iff, bool_decide_eq_true, Z.eqb_eq. tauto. }
  set (n := Z.to_nat (numAllocatedDescs s)).
  assert (Hnl : (n <= length (allocatedDescs s))%nat)
    by (unfold n, MAX_ALLOCATED_DESCS in *; lia).
  destruct (find_desc_down P (allocatedDescs s) n) as [i|] eqn:Efind.
  - destruct (find_desc_down_Some _ _ _ _ Efind) as [Hi HPi].
    apply HP in HPi. destruct HPi as [Hkind Hdesc].
    assert (Htwp : twp (FreeFile file)
              (fun r s' =>
                 r = r_ret c /\
                 s' = with_allocatedDescs
                        (<[i := allocatedDescs s !!! (n - 1)%nat]>
                           (allocatedDescs s))
                        (with_numAllocatedDescs (numAllocatedDescs s - 1)
                           (answer (c_fclose file) c s)))
              (fun _ _ => False) s).
    { unfold FreeFile. wp_step. wp_step. fold P. fold n. rewrite Efind.
      unfold FreeDesc, get_desc, set_desc. wp_step. wp_step.
      rewrite Nat2Z.id, Hkind, Hdesc. wp_step. wp_step.
      rewrite Hrep in Hrep0. injection Hrep0 as <- <-. do 8 wp_step.
      split; [reflexivity|].
      replace (Z.to_nat (numAllocatedDescs s - 1)) with (n - 1)%nat
        by (unfold n; lia).
      reflexivity. }
    apply twp_elim in Htwp
      as [(r & s' & Hrun & -> & ->)|(sev & code & msg & s' & _ & [])].
    eexists. split; [exact Hrun|]. st_norm.
    split; [unfold calls; st_norm; now rewrite map_app, List.filter_app|].
    split; [reflexivity|]. split; [reflexivity|].
    split; [now rewrite Hrep|]. split.
    + intros _. split; [reflexivity|].
      exists (allocatedDescs s !!! i). split; [split; assumption|].
      unfold live_descs. st_norm. fold n.
      replace (Z.to_nat (numAllocatedDescs s - 1)) with (n - 1)%nat
        by (unfold n; lia).
      now apply live_descs_removed.
    + intros Hnone. exfalso. apply (Hnone (allocatedDescs s !!! i)).
      * unfold live_descs. fold n. apply In_take_lookup; eauto.
      * split; assumption.
  - pose proof (find_desc_down_None _ _ _ Efind) as Hnone.
    assert (Htwp : twp (FreeFile file)
              (fun r s' =>
                 r = r_ret c /\
                 s' = answer (c_fclose file) c
                        (record
                           (c_elog LOG
                              "file to be closed was not opened through the virtual file descriptor system"
                              []) s))
              (fun _ _ => False) s).
    { unfold FreeFile. wp_step. wp_step. fold P. fold n. rewrite Efind.
      wp_step. wp_step. wp_step.
      rewrite Hrep in Hrep0. injection Hrep0 as <- <-. split; reflexivity. }
    apply twp_elim in Htwp
      as [(r & s' & Hrun & -> & ->)|(sev & code & msg & s' & _ & [])].
    eexists. split; [exact Hrun|]. st_norm.
    split; [unfold calls; st_norm; rewrite !map_app, !List.filter_app;
            simpl; now rewrite app_nil_r|].
    split; [reflexivity|]. split; [reflexivity|].
    split; [now rewrite Hrep|]. split.
    + intros (d & Hin & Hd). exfalso.
      unfold live_descs in Hin. fold n in Hin.
      apply In_take_lookup in Hin as (j & Hj & <-); [|exact Hnl].
      apply HP in Hd. rewrite (Hnone j Hj) in Hd. discriminate.
    + intros _. split; [reflexivity|]. split; [reflexivity|].
      eexists. split; [solve_logged|]. simpl. now left.
Qed.

Lemma X9_FreeFile_witness :
  exists s',
    FreeFile 99 (one_temp_file_and_stream [ok 0]) = Normal (r_ret (ok 0)) s' /\
    calls is_fclose s' = [c_fclose 99] /\ numAllocatedDescs s' = 0.
Proof.
  destruct (X9_FreeFile 99 (one_temp_file_and_stream [ok 0]) (ok 0) [])
    as (s' & Hrun & Hcalls & _ & _ & _ & Hreg & _).
  - reflexivity.
  - split; [vm_compute; split; discriminate|reflexivity].
  - exists s'. split; [exact Hrun|]. split; [exact Hcalls|].
    apply Hreg. eexists. split; [left; reflexivity|]. split; reflexivity.
Defined.

(** X10 — a stream obtained from [AllocateFile] and given back to
    [FreeFile] leaves the registry as it was: the same live entries in the
    same order, the same count; the stream is closed by [fclose], whose
    result [FreeFile] returns. *)
Theorem X10_AllocateFile_FreeFile (name mode : string) (s : State)
    (f sub c : Reply) (rest : list Reply) :
  out_of_descs s = false -> registry_ok s ->
  replies s = f :: sub :: c :: rest -> r_ret f <> NULL ->
  exists s1 s2,
    AllocateFile name mode s = Normal (r_ret f) s1 /\
    FreeFile (r_ret f) s1 = Normal (r_ret c) s2 /\
    live_descs s2 = live_descs s /\
    numAllocatedDescs s2 = numAllocatedDescs s /\
    VfdCache s2 = VfdCache s /\ nfile s2 = nfile s /\ replies s2 = rest /\
    calls is_fclose s2 = calls is_fclose s ++ [c_fclose (r_ret f)].
Proof.
  intros Hroom [Hn Hlen] Hrep Hf.
  pose proof (AllocateFile_run name mode s f sub (c :: rest) Hroom Hrep Hf)
    as Hrun1.
  set (n := Z.to_nat (numAllocatedDescs s)) in *.
  set (d := fill_desc AllocateDescFile (r_ret f) (r_ret sub)
              (allocatedDescs s !!! n)) in *.
  set (l1 := <[n := d]> (allocatedDescs s)) in *.
  assert (Hbounds : numAllocatedDescs s < MAX_ALLOCATED_DESCS).
  { unfold out_of_descs in Hroom. apply orb_false_iff in Hroom. lia. }
  assert (Hnl : (n < length (allocatedDescs s))%nat)
    by (unfold n, MAX_ALLOCATED_DESCS in *; lia).
  assert (Hd : l1 !!! n = d).
  { apply list_lookup_total_correct, list_lookup_insert_eq. exact Hnl. }
  match type of Hrun1 with _ = Normal _ ?st => set (s1 := st) in * end.
  assert (Htwp : twp (FreeFile (r_ret f))
            (fun r s' =>
               r = r_ret c /\
               s' = with_allocatedDescs (<[n := d]> l1)
                      (with_numAllocatedDescs (numAllocatedDescs s)
                         (answer (c_fclose (r_ret f)) c s1)))
            (fun _ _ => False) s1).
  { unfold FreeFile. wp_step. wp_step. unfold s1 at 1 2. st_simpl.
    replace (Z.to_nat (numAllocatedDescs s + 1)) with (S n)
      by (unfold n; lia).
    fold l1. cbn [find_desc_down]. rewrite Hd. unfold d at 1 2. cbn [kind desc fill_desc].
    rewrite bool_decide_eq_true_2, Z.eqb_refl by reflexivity. cbn [andb].
    unfold FreeDesc, get_desc, set_desc. wp_step. wp_step.
    unfold s1 at 1. st_simpl. rewrite Nat2Z.id. fold l1. rewrite Hd.
    unfold d at 1 2. cbn [kind desc fill_desc]. fold d.
    wp_step. apply wp_sys.
    { unfold s1. st_simpl. rewrite Hrep. discriminate. }
    intros r0 rest0 Hrep0.
    unfold s1 in Hrep0. st_simpl_in Hrep0. rewrite Hrep in Hrep0.
    simpl in Hrep0. injection Hrep0 as <- <-.
    do 8 wp_step. split; [reflexivity|].
    unfold s1. st_simpl.
    replace (numAllocatedDescs s + 1 - 1) with (numAllocatedDescs s) by lia.
    fold n. rewrite !Hd. reflexivity. }

  apply twp_elim in Htwp
    as [(r & s2 & Hrun2 & -> & ->)|(sev & code & msg & s' & _ & [])].
  exists s1. eexists. split; [exact Hrun1|]. split; [exact Hrun2|].
  unfold live_descs, calls, s1. st_norm. fold n.
  split; [unfold l1; now rewrite !take_insert_ge by lia|].
  split; [reflexivity|]. split; [reflexivity|]. split; [reflexivity|].
  split; [now rewrite Hrep|].
  rewrite !map_app, !List.filter_app. simpl.
  now rewrite !app_nil_r.
Qed.

Lemma X10_AllocateFile_FreeFile_witness :
  exists s1 s2,
    AllocateFile "pg_hba.conf" "r" (one_temp_file [ok 99; ok 7; ok 0])
    = Normal (r_ret (ok 99)) s1 /\
    FreeFile (r_ret (ok 99)) s1 = Normal (r_ret (ok 0)) s2 /\
    live_descs s2 = live_descs (one_temp_file [ok 99; ok 7; ok 0]).
Proof.
  destruct (X10_AllocateFile_FreeFile "pg_hba.conf" "r"
              (one_temp_file [ok 99; ok 7; ok 0]) (ok 99) (ok 7) (ok 0) [])
    as (s1 & s2 & H1 & H2 & H3 & _).
  - reflexivity.
  - split; [vm_compute; split; discriminate|reflexivity].
  - reflexivity.
  - discriminate.
  - exists s1, s2. auto.
Defined.

(** ** Reading a local directory *)

Lemma twp_raises {A} (m : M A) (sev : Severity) (s1 s : State) :
  twp m (fun _ _ => False) (fun sev' s' => sev' = sev /\ s' = s1) s ->
  exists code msg, m s = Raised sev code msg s1.
Proof.
  unfold wpx. destruct (m s) as [r s'|sev' code msg s'|?]; try tauto.
  intros [-> ->]. eauto.
Qed.

Lemma ReadDir_local_run (dir : Z) (dirname : string) (s : State) (de : Reply)
    (rest : list Reply) :
  dir <> NULL -> IsLocalPath dirname = true -> replies s = de :: rest ->
  let s1 := answer (c_readdir dir) de (with_errno 0 s) in
  (r_ret de <> NULL -> ReadDir dir dirname s = Normal (Some (d_name de)) s1) /\
  (r_ret de = NULL -> r_errno de = 0 -> ReadDir dir dirname s = Normal None s1) /\
  (r_ret de = NULL -> r_errno de <> 0 ->
   exists code msg,
     ReadDir dir dirname s
     = Raised SevError code msg
         (record (c_elog ERROR "could not read directory %s: %m" [dirname]) s1)).
Proof.
  intros Hdir Hlocal Hrep s1. apply Z.eqb_neq in Hdir.
  split; [|split].
  - intros Hne. apply Z.eqb_neq in Hne. apply twp_returns.
    unfold ReadDir. repeat wp_known. wp_step.
    rewrite Hrep in Hrep0. injection Hrep0 as <- <-.
    repeat wp_known. split; reflexivity.
  - intros Hnull He. apply Z.eqb_eq in Hnull. apply twp_returns.
    unfold ReadDir. repeat wp_known. wp_step.
    rewrite Hrep in Hrep0. injection Hrep0 as <- <-.
    repeat wp_known. rewrite He. simpl. repeat wp_known.
    split; [reflexivity|]. unfold s1. st_simpl. now rewrite He.
  - intros Hnull He. apply Z.eqb_eq in Hnull. apply twp_raises.
    unfold ReadDir. repeat wp_known. wp_step.
    rewrite Hrep in Hrep0. injection Hrep0 as <- <-.
    repeat wp_known. apply Z.eqb_neq in He. rewrite He.
    assert (Hnz : (r_errno de =? 0) = false) by exact He.
    repeat wp_known. split; [reflexivity|].
    unfold s1, record. st_simpl. now rewrite He.
Qed.

(** ** Sweeping a directory of temporary files *)

Lemma sweep_loop_run (dir : Z) (tmpdirname : string) :
  dir <> NULL -> IsLocalPath tmpdirname = true ->
  forall (entries : list (Reply * Reply)) (fuel : nat) (s : State)
         (last : Reply) (rest : list Reply),
    (length entries < fuel)%nat ->
    replies s = sweep_answers entries ++ last :: rest ->
    Forall (fun e => r_ret (fst e) <> NULL) entries ->
    r_ret last = NULL -> r_errno last = 0 ->
    exists s',
      RemovePgTempFilesInDir_loop fuel dir tmpdirname s = Normal tt s' /\
      globals s' = globals s /\ replies s' = rest /\
      map ev_call (trace s')
      = map ev_call (trace s)
        ++ flat_map (fun e => sweep_calls dir tmpdirname (d_name (fst e)))
             entries
        ++ [c_readdir dir].
Proof.
  intros Hdir Hlocal entries.
  induction entries as [|[de u] entries IH];
    intros fuel s last rest Hfuel Hrep Hall Hnull Herr;
    (destruct fuel as [|fuel]; [simpl in Hfuel; lia|]).
  - simpl in Hrep.
    destruct (ReadDir_local_run dir tmpdirname s last rest Hdir Hlocal Hrep)
      as (_ & Hend & _).
    specialize (Hend Hnull Herr).
    eexists. split; [|split; [|split]].
    + cbn [RemovePgTempFilesInDir_loop]. rewrite (bind_Normal _ _ _ _ _ Hend).
      reflexivity.
    + reflexivity.
    + st_simpl. now rewrite Hrep.
    + st_simpl. now rewrite map_app.
  - apply Forall_cons in Hall as [Hde Hall]. simpl in Hde.
    cbn [sweep_answers flat_map fst snd] in Hrep.
    rewrite <- !app_comm_cons in Hrep.
    match type of Hrep with _ = _ :: ?tl => set (after := tl) in * end.
    destruct (ReadDir_local_run dir tmpdirname s de after Hdir Hlocal Hrep)
      as (Hsome & _ & _).
    specialize (Hsome Hde).
    match type of Hsome with _ = Normal _ ?st => remember st as s1 eqn:Es1 end.
    assert (Hrep1 : replies s1 = after) by (rewrite Es1; st_simpl; now rewrite Hrep).
    assert (Hg1 : globals s1 = globals s) by (rewrite Es1; reflexivity).
    assert (Htr1 : map ev_call (trace s1) = map ev_call (trace s) ++ [c_readdir dir])
      by (rewrite Es1; st_simpl; now rewrite map_app).
    clear Es1.
    set (name := d_name de) in *.
    assert (Hstep : exists s2,
      (if is_dot_entry name then ret tt
       else if HasTempFilePrefix name
            then sys (c_unlink (rm_path tmpdirname name)) ;;; ret tt
            else elog LOG
                   "unexpected file found in temporary-files directory: %s"
                   [rm_path tmpdirname name]) s1 = Normal tt s2 /\
      globals s2 = globals s /\
      replies s2 = sweep_answers entries ++ last :: rest /\
      map ev_call (trace s2)
      = map ev_call (trace s) ++ sweep_calls dir tmpdirname name).
    { unfold sweep_calls, swept, unexpected. unfold after in Hrep1.
      unfold swept in Hrep1. fold name in Hrep1.
      destruct (is_dot_entry name); cbn [negb andb] in *.
      - exists s1. split; [reflexivity|]. split; [exact Hg1|].
        split; [exact Hrep1|exact Htr1].
      - destruct (HasTempFilePrefix name); cbn [negb] in *.
        + simpl in Hrep1. eexists. split; [|split; [|split]].
          * unfold sys, bind, call, ret. cbv beta. rewrite Hrep1. reflexivity.
          * rewrite <- Hg1. reflexivity.
          * st_simpl. now rewrite Hrep1.
          * st_simpl. rewrite map_app, Htr1. simpl.
            now rewrite <- app_assoc.
        + simpl in Hrep1. eexists. split; [reflexivity|].
          split; [rewrite <- Hg1; reflexivity|]. split; [exact Hrep1|].
          unfold record. st_simpl. rewrite map_app, Htr1. simpl.
          now rewrite <- app_assoc. }
    destruct Hstep as (s2 & Hrun2 & Hg2 & Hrep2 & Htr2).
    destruct (IH fuel s2 last rest ltac:(simpl in Hfuel; lia) Hrep2 Hall
                Hnull Herr) as (s' & Hrun & Hg & Hrep' & Htr).
    exists s'. split; [|split; [congruence|split; [exact Hrep'|]]].
    + cbn [RemovePgTempFilesInDir_loop].
      rewrite (bind_Normal _ _ _ _ _ Hsome). cbv beta iota.
      fold name. fold (rm_path tmpdirname name).
      rewrite (bind_Normal _ _ _ _ _ Hrun2). exact Hrun.
    + rewrite Htr, Htr2. cbn [flat_map fst]. fold name.
      now rewrite <- !app_assoc.
Qed.

Lemma AllocateDir_run (dirname : string) (s : State) (dirp sub : Reply)
    (rest : list Reply) :
  IsLocalPath dirname = true -> out_of_descs s = false ->
  replies s = dirp :: sub :: rest -> r_ret dirp <> NULL ->
  AllocateDir dirname s
  = Normal (r_ret dirp)
      (with_numAllocatedDescs (numAllocatedDescs s + 1)
         (with_allocatedDescs
            (<[Z.to_nat (numAllocatedDescs s)
               := fill_desc AllocateDescDir (r_ret dirp) (r_ret sub)
                    (allocatedDescs s !!! Z.to_nat (numAllocatedDescs s))]>
               (allocatedDescs s))
            (answer c_GetCurrentSubTransactionId sub
               (answer (c_opendir dirname) dirp s)))).
Proof.
  intros Hlocal Hroom Hrep Hf. apply twp_returns.
  apply Z.eqb_neq in Hf.
  unfold AllocateDir. wp_step. wp_step. rewrite Hroom. wp_step.
  wp_step. rewrite Hlocal. cbn [negb]. unfold script_fuel. rewrite Hrep.
  cbn [length AllocateDir_loop]. wp_step. wp_step.
  rewrite Hrep in Hrep0. injection Hrep0 as <- <-. rewrite Hf.
  cbn [negb]. wp_step. wp_step. wp_step. wp_step.
  rewrite Hrep in Hrep0. simpl in Hrep0. injection Hrep0 as <- <-.
  unfold set_desc. do 5 wp_step. split; reflexivity.
Qed.

Lemma sweep_answers_length (entries : list (Reply * Reply)) :
  (length entries <= length (sweep_answers entries))%nat.
Proof.
  induction entries as [|e es IH]; simpl; [lia|].
  rewrite length_app. simpl in *. lia.
Qed.

Lemma sweep_calls_unlink (dir : Z) (tmpdirname : string) (names : list string) :
  List.filter is_unlink (flat_map (sweep_calls dir tmpdirname) names)
  = map (fun n => c_unlink (rm_path tmpdirname n)) (List.filter swept names).
Proof.
  induction names as [|n names IH]; [reflexivity|].
  cbn [flat_map List.filter]. rewrite List.filter_app, IH.
  unfold sweep_calls. destruct (swept n); [reflexivity|].
  destruct (unexpected n); reflexivity.
Qed.

Lemma sweep_calls_log (dir : Z) (tmpdirname : string) (names : list string) :
  List.filter is_log (flat_map (sweep_calls dir tmpdirname) names)
  = map (fun n => c_elog LOG
                    "unexpected file found in temporary-files directory: %s"
                    [rm_path tmpdirname n])
      (List.filter unexpected names).
Proof.
  induction names as [|n names IH]; [reflexivity|].
  cbn [flat_map List.filter]. rewrite List.filter_app, IH.
  unfold sweep_calls, swept, unexpected.
  destruct (is_dot_entry n), (HasTempFilePrefix n); reflexivity.
Qed.

(** Closing the directory that is the last live entry of the registry. *)
Lemma FreeDir_last (dir : Z) (s : State) (n : nat) (cl : Reply)
    (rest : list Reply) :
  numAllocatedDescs s = Z.of_nat (S n) ->
  kind (allocatedDescs s !!! n) = AllocateDescDir ->
  desc (allocatedDescs s !!! n) = dir ->
  (n < length (allocatedDescs s))%nat ->
  replies s = cl :: rest ->
  exists s',
    FreeDir dir s = Normal (r_ret cl) s' /\
    numAllocatedDescs s' = Z.of_nat n /\
    allocatedDescs s' = allocatedDescs s /\
    VfdCache s' = VfdCache s /\ nfile s' = nfile s /\
    max_safe_fds s' = max_safe_fds s /\ replies s' = rest /\
    trace s' = trace s ++ [mkEvent (c_closedir dir) (VfdCache s)].
Proof.
  intros Hn Hkind Hdesc Hlen Hrep.
  assert (Htwp : twp (FreeDir dir)
            (fun r s' =>
               r = r_ret cl /\
               s' = with_allocatedDescs
                      (<[n := allocatedDescs s !!! n]> (allocatedDescs s))
                      (with_numAllocatedDescs (Z.of_nat n)
                         (answer (c_closedir dir) cl s)))
            (fun _ _ => False) s).
  { unfold FreeDir. wp_step. wp_step. rewrite Hn, Nat2Z.id.
    cbn [find_desc_down]. rewrite Hkind, Hdesc, Z.eqb_refl.
    rewrite bool_decide_eq_false_2 by discriminate. cbn [negb andb].
    unfold FreeDesc, get_desc, set_desc. wp_step. wp_step.
    rewrite Nat2Z.id, Hkind, Hdesc. wp_step. wp_step.
    rewrite Hrep in Hrep0. injection Hrep0 as <- <-. do 8 wp_step.
    split; [reflexivity|]. rewrite Hn.
    replace (Z.of_nat (S n) - 1) with (Z.of_nat n) by lia.
    now rewrite !Nat2Z.id. }
  apply twp_elim in Htwp
    as [(r & s' & Hrun & -> & ->)|(sev & code & msg & s' & _ & [])].
  eexists. split; [exact Hrun|]. st_norm.
  split; [reflexivity|]. split; [|split; [reflexivity|]].
  - apply list_insert_id, list_lookup_lookup_total_lt. exact Hlen.
  - split; [reflexivity|]. split; [reflexivity|]. split; [now rewrite Hrep|].
    reflexivity.
Qed.

(** The sweep of a directory that is opened and read to its end. *)
Lemma RemovePgTempFilesInDir_opened (tmpdirname : string) (s : State)
    (dirp sub last cl : Reply) (entries : list (Reply * Reply))
    (rest : list Reply) :
  IsLocalPath tmpdirname = true -> out_of_descs s = false -> registry_ok s ->
  replies s = dirp :: sub :: sweep_answers entries ++ last :: cl :: rest ->
  r_ret dirp <> NULL ->
  Forall (fun e => r_ret (fst e) <> NULL) entries ->
  r_ret last = NULL -> r_errno last = 0 ->
  exists s',
    RemovePgTempFilesInDir tmpdirname s = Normal tt s' /\
    registry_kept s s' /\ replies s' = rest /\
    map ev_call (trace s')
    = map ev_call (trace s)
      ++ temp_calls tmpdirname (Opened dirp sub entries last cl).
Proof.
  intros Hlocal Hroom [Hn Hlen] Hrep Hdirp Hall Hnull Herr.
  set (names := map (fun e => d_name (fst e)) entries).
  set (dir := r_ret dirp).
  pose proof (AllocateDir_run tmpdirname s dirp sub _ Hlocal Hroom Hrep Hdirp)
    as Hrun1.
  set (n := Z.to_nat (numAllocatedDescs s)) in *.
  set (d := fill_desc AllocateDescDir (r_ret dirp) (r_ret sub)
              (allocatedDescs s !!! n)) in *.
  assert (Hbounds : numAllocatedDescs s < MAX_ALLOCATED_DESCS).
  { unfold out_of_descs in Hroom. apply orb_false_iff in Hroom. lia. }
  assert (Hnl : (n < length (allocatedDescs s))%nat)
    by (unfold n, MAX_ALLOCATED_DESCS in *; lia).
  match type of Hrun1 with _ = Normal _ ?st => remember st as s1 eqn:Es1 end.
  assert (H1 : replies s1 = sweep_answers entries ++ last :: cl :: rest /\
               numAllocatedDescs s1 = Z.of_nat (S n) /\
               allocatedDescs s1 = <[n := d]> (allocatedDescs s) /\
               VfdCache s1 = VfdCache s /\ nfile s1 = nfile s /\
               max_safe_fds s1 = max_safe_fds s /\
               map ev_call (trace s1)
               = map ev_call (trace s)
                 ++ [c_opendir tmpdirname; c_GetCurrentSubTransactionId]).
  { rewrite Es1. st_norm. rewrite Hrep. cbn [tail].
    split; [reflexivity|]. split; [unfold n; lia|].
    split; [reflexivity|]. split; [reflexivity|]. split; [reflexivity|].
    split; [reflexivity|].
    rewrite !map_app. simpl. now rewrite <- app_assoc. }
  clear Es1. destruct H1 as (Hrep1 & Hn1 & Hl1 & Hc1 & Hnf1 & Hms1 & Htr1).
  destruct (sweep_loop_run dir tmpdirname Hdirp Hlocal entries
              (readdir_fuel s1) s1 last (cl :: rest))
    as (s2 & Hrun2 & Hg2 & Hrep2 & Htr2);
    [|exact Hrep1|exact Hall|exact Hnull|exact Herr|].
  { unfold readdir_fuel, script_fuel. rewrite Hrep1, length_app.
    pose proof (sweep_answers_length entries). lia. }
  apply globals_fields in Hg2
    as (_ & Hms2 & Hc2 & Hnf2 & Hn2 & Hl2 & _).
  assert (Hd : allocatedDescs s2 !!! n = d).
  { rewrite Hl2, Hl1.
    apply list_lookup_total_correct, list_lookup_insert_eq. exact Hnl. }
  destruct (FreeDir_last dir s2 n cl rest)
    as (s3 & Hrun3 & Hn3 & Hl3 & Hc3 & Hnf3 & Hms3 & Hrep3 & Htr3).
  { congruence. }
  { rewrite Hd. reflexivity. }
  { rewrite Hd. reflexivity. }
  { rewrite Hl2, Hl1, length_insert. exact Hnl. }
  { exact Hrep2. }
  exists s3. split; [|split; [|split; [exact Hrep3|]]].
  - unfold RemovePgTempFilesInDir.
    rewrite (bind_Normal _ _ _ _ _ Hrun1). cbv beta.
    apply Z.eqb_neq in Hdirp. unfold dir in *. rewrite Hdirp.
    unfold bind at 1. unfold gets.
    rewrite (bind_Normal _ _ _ _ _ Hrun2).
    rewrite (bind_Normal _ _ _ _ _ Hrun3). reflexivity.
  - unfold registry_kept. split; [congruence|]. rewrite Hn3.
    split; [unfold n; lia|]. rewrite Hl3, Hl2, Hl1.
    split; [apply length_insert|]. split; [|split; congruence].
    unfold live_descs. rewrite Hn3, Hl3, Hl2, Hl1, Nat2Z.id. fold n.
    now rewrite take_insert_ge by lia.
  - rewrite Htr3, map_app, Htr2, Htr1. unfold temp_calls. fold names dir.
    assert (Hfm : forall l : list (Reply * Reply),
              flat_map (sweep_calls dir tmpdirname)
                (map (fun e => d_name (fst e)) l)
              = flat_map (fun e => sweep_calls dir tmpdirname (d_name (fst e))) l).
    { induction l as [|x l IH]; [reflexivity|]. simpl. now rewrite IH. }
    unfold names. rewrite Hfm, <- !app_assoc. reflexivity.
Qed.

Lemma sweep_calls_closedir (dir : Z) (tmpdirname : string)
    (names : list string) :
  List.filter is_closedir (flat_map (sweep_calls dir tmpdirname) names) = [].
Proof.
  induction names as [|x l IH]; [reflexivity|].
  cbn [flat_map]. rewrite List.filter_app, IH. unfold sweep_calls.
  destruct (swept x); [reflexivity|]. destruct (unexpected x); reflexivity.
Qed.

(** X11 — the sweep of one local directory of temporary files
    ([RemovePgTempFilesInDir]) when the directory can be opened and read to
    its end.  It unlinks, in directory order, exactly the entries other
    than "." and ".." whose name begins with PG_TEMP_FILE_PREFIX, under
    the path [tmpdirname/name]; every other entry but "." and ".." is
    reported with a LOG message and left in place; whether an [unlink]
    succeeds is ignored.  The directory is closed once, the registry holds
    the same live entries as before, and the table is untouched. *)
Theorem X11_RemovePgTempFilesInDir (tmpdirname : string) (s : State)
    (dirp sub last cl : Reply) (entries : list (Reply * Reply))
    (rest : list Reply) :
  IsLocalPath tmpdirname = true -> out_of_descs s = false -> registry_ok s ->
  replies s = dirp :: sub :: sweep_answers entries ++ last :: cl :: rest ->
  r_ret dirp <> NULL ->
  Forall (fun e => r_ret (fst e) <> NULL) entries ->
  r_ret last = NULL -> r_errno last = 0 ->
  let names := map (fun e => d_name (fst e)) entries in
  exists s',
    RemovePgTempFilesInDir tmpdirname s = Normal tt s' /\
    calls is_unlink s'
    = calls is_unlink s
      ++ map (fun n => c_unlink (rm_path tmpdirname n))
           (List.filter swept names) /\
    calls is_log s'
    = calls is_log s
      ++ map (fun n => c_elog LOG
                         "unexpected file found in temporary-files directory: %s"
                         [rm_path tmpdirname n])
           (List.filter unexpected names) /\
    calls is_closedir s' = calls is_closedir s ++ [c_closedir (r_ret dirp)] /\
    live_descs s' = live_descs s /\
    numAllocatedDescs s' = numAllocatedDescs s /\
    VfdCache s' = VfdCache s /\ nfile s' = nfile s /\ replies s' = rest.
Proof.
  intros Hlocal Hroom Hreg Hrep Hdirp Hall Hnull Herr names.
  destruct (RemovePgTempFilesInDir_opened tmpdirname s dirp sub last cl
              entries rest Hlocal Hroom Hreg Hrep Hdirp Hall Hnull Herr)
    as (s' & Hrun & (_ & Hn' & _ & Hlive & Hc & Hnf) & Hrep' & Htrace).
  unfold temp_calls in Htrace. fold names in Htrace.
  exists s'. split; [exact Hrun|].
  split; [|split; [|split; [|split; [exact Hlive|]]]].
  - unfold calls. rewrite Htrace, !List.filter_app, sweep_calls_unlink.
    simpl. now rewrite app_nil_r.
  - unfold calls. rewrite Htrace, !List.filter_app, sweep_calls_log.
    simpl. now rewrite app_nil_r.
  - unfold calls. rewrite Htrace, !List.filter_app, sweep_calls_closedir.
    reflexivity.
  - split; [exact Hn'|]. split; [exact Hc|]. split; [exact Hnf|exact Hrep'].
Qed.

Lemma X11_RemovePgTempFilesInDir_witness :
  exists s',
    RemovePgTempFilesInDir "base/1/pgsql_tmp"
      (one_closed_file
         [ok 50; ok 7; named 1 ["."%string]; named 1 ["pgsql_tmp_x"%string];
          ok 0; named 1 ["core"%string]; ok 0; ok 0]) = Normal tt s' /\
    calls is_unlink s' = [c_unlink "base/1/pgsql_tmp/pgsql_tmp_x"] /\
    calls is_log s'
    = [c_elog LOG "unexpected file found in temporary-files directory: %s"
         ["base/1/pgsql_tmp/core"%string]].
Proof.
  destruct (X11_RemovePgTempFilesInDir "base/1/pgsql_tmp"
              (one_closed_file
                 [ok 50; ok 7; named 1 ["."%string];
                  named 1 ["pgsql_tmp_x"%string]; ok 0;
                  named 1 ["core"%string]; ok 0; ok 0])
              (ok 50) (ok 7) (ok 0) (ok 0)
              [(named 1 ["."%string], ok 0);
               (named 1 ["pgsql_tmp_x"%string], ok 0);
               (named 1 ["core"%string], ok 0)] [])
    as (s' & Hrun & Hun & Hlog & _).
  - reflexivity.
  - reflexivity.
  - split; [vm_compute; split; discriminate|reflexivity].
  - reflexivity.
  - discriminate.
  - repeat constructor; discriminate.
  - reflexivity.
  - reflexivity.
  - exists s'. split; [exact Hrun|]. split; [exact Hun|exact Hlog].
Defined.

(** X12 — the sweep of a directory that cannot be opened.  When [opendir]
    fails (for a reason other than a lack of descriptors),
    [RemovePgTempFilesInDir] returns without reading, unlinking or closing
    anything and with the globals unchanged; the failure is reported with a
    LOG message unless the directory does not exist (ENOENT), which is
    silent. *)
Theorem X12_RemovePgTempFilesInDir_unopened (tmpdirname : string) (s : State)
    (dirp : Reply) (rest : list Reply) :
  IsLocalPath tmpdirname = true -> out_of_descs s = false ->
  replies s = dirp :: rest ->
  r_ret dirp = NULL -> r_errno dirp <> 0 ->
  r_errno dirp <> EMFILE -> r_errno dirp <> ENFILE ->
  exists s',
    RemovePgTempFilesInDir tmpdirname s = Normal tt s' /\
    globals s' = globals s /\ replies s' = rest /\
    map ev_call (trace s')
    = map ev_call (trace s)
      ++ c_opendir tmpdirname ::
         (if r_errno dirp =? ENOENT then []
          else [c_elog LOG "could not open temporary-files directory %s: %m"
                  [tmpdirname]]).
Proof.
  intros Hlocal Hroom Hrep Hnull Herr Hem Hen.
  apply Z.eqb_eq in Hnull. apply Z.eqb_neq in Herr, Hem, Hen.
  assert (Htwp : twp (RemovePgTempFilesInDir tmpdirname)
            (fun _ s' =>
               globals s' = globals s /\ replies s' = rest /\
               map ev_call (trace s')
               = map ev_call (trace s)
                 ++ c_opendir tmpdirname ::
                    (if r_errno dirp =? ENOENT then []
                     else [c_elog LOG
                             "could not open temporary-files directory %s: %m"
                             [tmpdirname]]))
            (fun _ _ => False) s).
  { unfold RemovePgTempFilesInDir, AllocateDir. repeat wp_known.
    unfold script_fuel. rewrite Hrep. cbn [length AllocateDir_loop].
    repeat wp_known. wp_step. rewrite Hrep in Hrep0.
    injection Hrep0 as <- <-. repeat wp_known. rewrite Herr, Hem, Hen.
    cbn [orb]. repeat wp_known.
    change (NULL =? NULL) with true. cbv iota.
    destruct (r_errno dirp =? ENOENT) eqn:E; repeat wp_known.
    - st_simpl. split; [reflexivity|]. split; [now rewrite Hrep|].
      rewrite map_app. reflexivity.
    - st_simpl. split; [reflexivity|]. split; [now rewrite Hrep|].
      rewrite !map_app. simpl. now rewrite <- app_assoc. }
  apply twp_elim in Htwp
    as [([] & s' & Hrun & HP)|(sev & code & msg & s' & _ & [])].
  eauto.
Qed.

Lemma X12_RemovePgTempFilesInDir_unopened_witness :
  exists s',
    RemovePgTempFilesInDir "base/1/pgsql_tmp"
      (one_closed_file [fails 0 ENOENT]) = Normal tt s' /\
    globals s' = globals (one_closed_file [fails 0 ENOENT]) /\
    map ev_call (trace s') = [c_opendir "base/1/pgsql_tmp"].
Proof.
  destruct (X12_RemovePgTempFilesInDir_unopened "base/1/pgsql_tmp"
              (one_closed_file [fails 0 ENOENT]) (fails 0 ENOENT) [])
    as (s' & Hrun & Hg & _ & Htr); try reflexivity; try discriminate.
  exists s'. auto.
Defined.

(** X13 — [ReadDir].  A NULL directory (a failed [AllocateDir]) raises the
    ERROR "could not open directory" without any call.  For a local
    directory [errno] is cleared, [readdir] is called once, and an entry is
    returned as it is; a NULL from [readdir] is the end of the directory
    only if [errno] is still 0, otherwise the ERROR "could not read
    directory" is raised.  The globals are never touched. *)
Theorem X13_ReadDir_local (dir : Z) (dirname : string) (s : State) :
  (dir = NULL ->
   exists code msg,
     ReadDir dir dirname s
     = Raised SevError code msg
         (record (c_elog ERROR "could not open directory %s: %m" [dirname]) s)) /\
  (dir <> NULL -> IsLocalPath dirname = true ->
   forall de rest, replies s = de :: rest ->
     let s1 := answer (c_readdir dir) de (with_errno 0 s) in
     (r_ret de <> NULL -> ReadDir dir dirname s = Normal (Some (d_name de)) s1) /\
     (r_ret de = NULL -> r_errno de = 0 ->
      ReadDir dir dirname s = Normal None s1) /\
     (r_ret de = NULL -> r_errno de <> 0 ->
      exists code msg,
        ReadDir dir dirname s
        = Raised SevError code msg
            (record (c_elog ERROR "could not read directory %s: %m" [dirname])
               s1))).
Proof.
  split.
  - intros ->. apply twp_raises. unfold ReadDir. wp_step.
    change (NULL =? NULL) with true. cbv iota. wp_step. split; reflexivity.
  - intros Hdir Hlocal de rest Hrep.
    exact (ReadDir_local_run dir dirname s de rest Hdir Hlocal Hrep).
Qed.

Lemma X13_ReadDir_local_witness :
  ReadDir 50 "base" (one_closed_file [named 1 ["1"%string]])
  = Normal (Some "1"%string)
      (answer (c_readdir 50) (named 1 ["1"%string])
         (with_errno 0 (one_closed_file [named 1 ["1"%string]]))).
Proof.
  destruct (X13_ReadDir_local 50 "base"
              (one_closed_file [named 1 ["1"%string]])) as [_ H].
  destruct (H ltac:(discriminate) eq_refl (named 1 ["1"%string]) [] eq_refl)
    as (Hsome & _).
  apply Hsome. discriminate.
Defined.

(** ** Loops over the table *)

Lemma for_each_vfd_wp {T : Prop} (body : Z -> M unit) (size : Z)
    (I : Z -> State -> Prop) (Qe : Severity -> State -> Prop) :
  (forall k sk, I k sk -> SizeVfdCache sk = size) ->
  (forall k sk, 1 <= k < size -> I k sk ->
     wpx T (body k) (fun _ sk' => I (k + 1) sk') Qe sk) ->
  forall (fuel : nat) (k : Z) (sk : State),
    1 <= k -> size <= Z.of_nat fuel + k -> I k sk ->
    wpx T (for_each_vfd fuel k body) (fun _ s' => I (Z.max k size) s') Qe sk.
Proof.
  intros Hsize Hbody.
  induction fuel as [|fuel IH]; intros k sk Hk Hfuel Hinv; simpl.
  - wp_step. wp_step. rewrite (Hsize _ _ Hinv).
    destruct (Z.ltb_spec k size); [lia|].
    wp_step. now rewrite Z.max_l by lia.
  - wp_step. wp_step. rewrite (Hsize _ _ Hinv).
    destruct (Z.ltb_spec k size).
    + wp_step.
      eapply wp_mono; [apply Hbody; [lia|exact Hinv]| |auto].
      intros [] sk' Hinv'.
      eapply wp_mono; [apply IH; [lia|lia|exact Hinv']| |auto].
      intros [] s' H'. now rewrite Z.max_r in H' |- * by lia.
    + wp_step. now rewrite Z.max_l by lia.
Qed.

Lemma for_all_vfds_wp {T : Prop} (body : Z -> M unit) (s : State)
    (I : Z -> State -> Prop) (Qe : Severity -> State -> Prop) :
  (forall k sk, I k sk -> SizeVfdCache sk = SizeVfdCache s) ->
  (forall k sk, 1 <= k < SizeVfdCache s -> I k sk ->
     wpx T (body k) (fun _ sk' => I (k + 1) sk') Qe sk) ->
  I 1 s ->
  wpx T (for_all_vfds body)
    (fun _ s' => I (Z.max 1 (SizeVfdCache s)) s') Qe s.
Proof.
  intros Hsize Hbody Hinv. unfold for_all_vfds. wp_step. wp_step.
  destruct (Z.gtb_spec (SizeVfdCache s) 0).
  - apply (for_each_vfd_wp body (SizeVfdCache s) I Qe Hsize Hbody);
      [lia|lia|exact Hinv].
  - wp_step. now rewrite Z.max_l by lia.
Qed.

(** ** Closing every descriptor *)

Lemma FileIsNotOpen_same c c' f :
  same_but_links (slot c f) (slot c' f) ->
  FileIsNotOpen c' f = FileIsNotOpen c f.
Proof.
  unfold FileIsNotOpen.
  intros (-> & _ & _ & _ & _ & _ & _ & _ & -> & -> & _). reflexivity.
Qed.

Lemma open_upto_S c k :
  1 <= k ->
  open_upto c (k + 1)
  = open_upto c k ++ (if FileIsNotOpen c k then [] else [k]).
Proof.
  intros Hk. unfold open_upto.
  replace (k + 1 - 1) with ((k - 1) + 1) by lia.
  rewrite seqZ_app by lia. rewrite List.filter_app.
  replace (1 + (k - 1)) with k by lia. f_equal.
  change (seqZ k 1) with [k]. cbn [List.filter].
  now destruct (FileIsNotOpen c k).
Qed.

Lemma LruDelete_calm {T : Prop} (x : File) (s : State) :
  0 <= x < Z.of_nat (length (VfdCache s)) ->
  (T \/ Forall succeeds (replies s) /\ (2 <= length (replies s))%nat) ->
  wpx T (LruDelete x)
    (fun _ s' => exists pos closed rest,
                   replies s = pos :: closed :: rest /\ evicted s x pos closed s')
    (fun _ _ => T) s.
Proof.
  intros Hx Hscr.
  eapply wp_mono; [apply (LruDelete_spec (T := T) x s Hx)| |].
  - destruct Hscr as [HT|[Hall Hlen]]; [now left|right].
    destruct (replies s) as [|pos [|closed rest]]; simpl in Hlen; try lia.
    exists pos, (closed :: rest). split; [reflexivity|now right].
  - auto.
  - intros sev s' (_ & _ & _ & _ & _ & Hwhy).
    destruct Hscr as [HT|[Hall _]]; [exact HT|exfalso].
    destruct Hwhy as [(_ & p & r & Hp & Hm1 & _)|(_ & p & c & r & Hp & _ & Hc & _)];
      rewrite Hp in Hall.
    + apply Forall_cons in Hall as [H0 _]. unfold succeeds in H0. lia.
    + apply Forall_cons in Hall as [_ Hall].
      apply Forall_cons in Hall as [H0 _]. unfold succeeds in H0. lia.
Qed.

Lemma tl_drop {A} (n : nat) (l : list A) : tl (drop n l) = drop (S n) l.
Proof.
  revert l. induction n as [|n IH]; intros [|x l]; simpl; auto.
Qed.

Lemma closed_slot_not_open c f pos v :
  same_but_links (closed_slot pos v) (slot c f) -> FileIsNotOpen c f = true.
Proof.
  unfold FileIsNotOpen, closed_slot. cbn.
  intros (-> & _ & _ & _ & _ & _ & _ & _ & -> & -> & _). reflexivity.
Qed.

Section CloseAll.
Context {T : Prop}.
Variable s : State.
Hypothesis Hscript :
  T \/ Forall succeeds (replies s) /\
       2 * Z.of_nat (length (open_upto (VfdCache s) (SizeVfdCache s)))
       <= Z.of_nat (length (replies s)).

Lemma open_upto_mono k :
  1 <= k < SizeVfdCache s ->
  (length (open_upto (VfdCache s) (k + 1))
   <= length (open_upto (VfdCache s) (SizeVfdCache s)))%nat.
Proof.
  intros Hk. unfold open_upto.
  replace (SizeVfdCache s - 1) with ((k + 1 - 1) + (SizeVfdCache s - (k + 1)))
    by lia.
  rewrite seqZ_app, List.filter_app, length_app by lia. apply Nat.le_add_r.
Qed.

Lemma closeAllVfds_step (k : Z) (sk : State) :
  1 <= k < SizeVfdCache s ->
  all_closed_upto s k sk ->
  wpx T (c <- gets VfdCache ;;
         if negb (FileIsNotOpen c k) then LruDelete k else ret tt)
    (fun _ sk' => all_closed_upto s (k + 1) sk') (fun _ _ => T) sk.
Proof.
  intros Hk (Hlen & Hslots & Hreg & Hnf & Hun & Hrep).
  assert (Hk_same : same_but_links (slot (VfdCache s) k) (slot (VfdCache sk) k)).
  { specialize (Hslots k ltac:(lia)).
    rewrite bool_decide_eq_false_2 in Hslots by lia. exact Hslots. }
  pose proof (FileIsNotOpen_same _ _ _ Hk_same) as Hopen.
  wp_step. wp_step. rewrite Hopen.
  destruct (FileIsNotOpen (VfdCache s) k) eqn:Hk_open; cbn [negb].
  - (* nothing to close *)
    wp_step. unfold all_closed_upto.
    rewrite open_upto_S, Hk_open, app_nil_r by lia.
    split; [exact Hlen|]. split; [|auto].
    intros f Hf. specialize (Hslots f Hf).
    destruct (decide (f = k)) as [->|Hne].
    + rewrite bool_decide_eq_true_2 by lia.
      split; [now apply parked_links|congruence].
    + destruct (decide (f < k)).
      * rewrite bool_decide_eq_true_2 in Hslots |- * by lia. exact Hslots.
      * rewrite bool_decide_eq_false_2 in Hslots |- * by lia. exact Hslots.
  - (* the slot is put to rest *)
    pose proof (open_upto_mono k Hk) as Hmono.
    rewrite open_upto_S, Hk_open, length_app in Hmono by lia. simpl in Hmono.
    eapply wp_mono; [apply LruDelete_calm| |auto].
    + unfold SizeVfdCache in Hk. lia.
    + destruct Hscript as [HT|[Hall Hlong]]; [now left|right].
      rewrite (Hrep Hall). split; [now apply Forall_drop|].
      rewrite length_drop. lia.
    + intros [] sk' (pos & closed & rest & Hrepk & Hev).
      destruct Hev as (_ & _ & Hnf' & Hreg' & Hlen' & Hvic & Hothers
                       & (new & Hnew & Hcalls) & Hrep' & _).
      unfold all_closed_upto.
      rewrite open_upto_S, Hk_open, length_app by lia. simpl.
      split; [congruence|]. split; [|split; [congruence|split; [lia|split]]].
      * intros f Hf. specialize (Hslots f Hf).
        destruct (decide (f = k)) as [->|Hne].
        -- rewrite bool_decide_eq_true_2 by lia. split.
           ++ eapply parked_trans; [apply parked_links; exact Hk_same|].
              eapply parked_closed. exact Hvic.
           ++ eapply closed_slot_not_open. exact Hvic.
        -- specialize (Hothers f Hne).
           destruct (decide (f < k)).
           ++ rewrite bool_decide_eq_true_2 in Hslots |- * by lia.
              destruct Hslots as [Hp Hno]. split.
              ** eapply parked_trans; [exact Hp|now apply parked_links].
              ** now rewrite (FileIsNotOpen_same _ _ _ Hothers).
           ++ rewrite bool_decide_eq_false_2 in Hslots |- * by lia.
              eapply same_but_links_trans; eauto.
      * rewrite <- Hun. unfold calls.
        rewrite Hnew, map_app, List.filter_app, Hcalls.
        rewrite evicted_calls_no_unlink. apply app_nil_r.
      * intros Hall. rewrite Hrep', (Hrep Hall).
        rewrite !tl_drop. f_equal. lia.
Qed.

Lemma closeAllVfds_spec :
  wpx T closeAllVfds
    (fun _ s' => all_closed_upto s (Z.max 1 (SizeVfdCache s)) s')
    (fun _ _ => T) s.
Proof.
  unfold closeAllVfds.
  apply (for_all_vfds_wp _ s (all_closed_upto s)).
  - intros k sk (Hlen & _). unfold SizeVfdCache. now rewrite Hlen.
  - intros k sk Hk Hinv. now apply closeAllVfds_step.
  - split; [reflexivity|]. split; [|split; [reflexivity|split; [|split]]].
    + intros f Hf. rewrite bool_decide_eq_false_2 by lia.
      apply same_but_links_refl.
    + unfold open_upto. simpl. lia.
    + reflexivity.
    + intros _. reflexivity.
Qed.

End CloseAll.

Lemma open_upto_max c size :
  open_upto c (Z.max 1 size) = open_upto c size.
Proof.
  destruct (Z.max_spec 1 size) as [[_ ->]|[Hle ->]]; [reflexivity|].
  unfold open_upto. now rewrite !seqZ_nil by lia.
Qed.

(** X14 — [closeAllVfds] puts every slot in the physically closed state
    and keeps the logical one: afterwards no slot holds a descriptor or a
    DFS handle, and each is still the same logical file (name, flags, mode,
    state bits, subtransaction).  [nfile] is lowered once for every slot
    that was open, DFS slots included; the registry is untouched and
    nothing is unlinked.  It returns whenever every call is answered with
    0, two answers per open slot being enough. *)
Theorem X14_closeAllVfds (s : State) :
  let size := SizeVfdCache s in
  let opened := open_upto (VfdCache s) size in
  (forall s',
     closeAllVfds s = Normal tt s' ->
     length (VfdCache s') = length (VfdCache s) /\
     (forall f, 1 <= f < size ->
        parked (slot (VfdCache s) f) (slot (VfdCache s') f) /\
        FileIsNotOpen (VfdCache s') f = true) /\
     registry s' = registry s /\
     nfile s' = nfile s - Z.of_nat (length opened) /\
     calls is_unlink s' = calls is_unlink s) /\
  (Forall succeeds (replies s) ->
   2 * Z.of_nat (length opened) <= Z.of_nat (length (replies s)) ->
   exists s', closeAllVfds s = Normal tt s').
Proof.
  intros size opened. split.
  - intros s' Hrun.
    destruct (wp_normal _ _ _ _ _ _
                (closeAllVfds_spec (T := True) s (or_introl I)) Hrun)
      as (Hlen & Hslots & Hreg & Hnf & Hun & _).
    rewrite open_upto_max in Hnf.
    split; [exact Hlen|]. split; [|auto].
    intros f Hf. specialize (Hslots f ltac:(lia)).
    rewrite bool_decide_eq_true_2 in Hslots by (fold size; lia).
    exact Hslots.
  - intros Hall Hlong.
    destruct (twp_elim _ _ _ _
                (closeAllVfds_spec (T := False) s
                   (or_intror (conj Hall Hlong))))
      as [([] & s' & Hrun & _)|(sev & code & msg & s' & _ & [])].
    eauto.
Qed.

Lemma X14_closeAllVfds_witness :
  exists s', closeAllVfds (one_temp_file [ok 0; ok 0]) = Normal tt s'.
Proof.
  apply (X14_closeAllVfds (one_temp_file [ok 0; ok 0])).
  - repeat constructor.
  - vm_compute. discriminate.
Defined.

(** ** Closing the DFS files *)

Lemma dfs_upto_S c k :
  1 <= k ->
  dfs_upto c (k + 1) = dfs_upto c k ++ (if IsLocalFile c k then [] else [k]).
Proof.
  intros Hk. unfold dfs_upto.
  replace (k + 1 - 1) with ((k - 1) + 1) by lia.
  rewrite seqZ_app by lia. rewrite List.filter_app.
  replace (1 + (k - 1)) with k by lia. f_equal.
  change (seqZ k 1) with [k]. cbn [List.filter].
  now destruct (IsLocalFile c k).
Qed.

Lemma dfs_upto_max c size : dfs_upto c (Z.max 1 size) = dfs_upto c size.
Proof.
  destruct (Z.max_spec 1 size) as [[_ ->]|[Hle ->]]; [reflexivity|].
  unfold dfs_upto. now rewrite !seqZ_nil by lia.
Qed.

(** [HdfsFileClose] told not to report errors: it returns whatever the
    client answers. *)
Lemma HdfsFileClose_quietly {T : Prop} (file : File) (s : State) Qn :
  0 < file < SizeVfdCache s ->
  IsLocalFile (VfdCache s) file = false ->
  (T \/ replies s <> []) ->
  (forall s',
     length (VfdCache s') = length (VfdCache s) ->
     freed (slot (VfdCache s') file) ->
     (forall f, f <> file -> f <> 0 ->
        slot (VfdCache s') f = slot (VfdCache s) f) ->
     lruMoreRecently (slot (VfdCache s') 0)
     = lruMoreRecently (slot (VfdCache s) 0) ->
     lruLessRecently (slot (VfdCache s') 0)
     = lruLessRecently (slot (VfdCache s) 0) ->
     registry s' = registry s -> nfile s' = nfile s ->
     replies s' = tl (replies s) ->
     (exists new, logged s s' new /\
        List.filter is_HdfsCloseFile (map ev_call new)
        = [closing_call (slot (VfdCache s) file)] /\
        List.filter is_unlink (map ev_call new) = []) ->
     Qn tt s') ->
  wpx T (HdfsFileClose file false) Qn (fun _ _ => False) s.
Proof.
  intros Hfile Hlocal Hscr HQ.
  pose proof (not_local_is_open _ _ Hlocal) as Hopen.
  assert (Hcall : closing_call (slot (VfdCache s) file)
                  = c_HdfsCloseFile (hProtocol (slot (VfdCache s) file))
                      (hFS (slot (VfdCache s) file))
                      (hFile (slot (VfdCache s) file))).
  { unfold closing_call.
    change (is_local (slot (VfdCache s) file))
      with (IsLocalFile (VfdCache s) file).
    now rewrite Hlocal. }
  unfold HdfsFileClose. do 7 wp_step.
  apply wp_sys.
  { intros Hempty. destruct Hscr as [HT|Hne]; [exact HT|contradiction]. }
  intros r rest Hrep. st_simpl. do 10 wp_step.
  apply FreeVfd_slots_wp;
    [unfold SizeVfdCache in *; st_simpl; now rewrite !length_upd|].
  st_simpl. intros c' Hlen' Hfile' H0' Hrest'.
  rewrite !length_upd in Hlen'.
  unfold SizeVfdCache in Hfile.
  assert (Hpost : forall s1 extra,
    VfdCache s1 = c' -> registry s1 = registry s -> nfile s1 = nfile s ->
    replies s1 = tl (replies s) ->
    trace s1
    = (trace s ++ [mkEvent (closing_call (slot (VfdCache s) file)) (VfdCache s)])
      ++ extra ->
    List.filter is_HdfsCloseFile (map ev_call extra) = [] ->
    List.filter is_unlink (map ev_call extra) = [] ->
    Qn tt s1).
  { intros s1 extra Hc1 Hreg1 Hn1 Hr1 Ht1 Hex1 Hex2. apply HQ; rewrite ?Hc1.
    - exact Hlen'.
    - rewrite Hfile'. slot_simpl. unfold freed. cbn. auto 10.
    - intros f Hf Hf0. rewrite Hrest' by assumption. now slot_simpl.
    - rewrite H0'. now slot_simpl.
    - rewrite H0'. now slot_simpl.
    - exact Hreg1.
    - exact Hn1.
    - exact Hr1.
    - eexists. split; [unfold logged; rewrite Ht1, <- app_assoc; reflexivity|].
      rewrite !map_app, !List.filter_app, Hex1, Hex2, Hcall. simpl. auto. }
  cbv beta iota. rewrite <- Hcall. wp_step.
  - wp_step. eapply Hpost; try reflexivity.
  - wp_step. eapply (Hpost _ []); try reflexivity.
    st_simpl. now rewrite app_nil_r.
Qed.

Section CloseHdfs.
Context {T : Prop}.
Variable s : State.
Hypothesis Hscript :
  T \/ (length (dfs_upto (VfdCache s) (SizeVfdCache s))
        <= length (replies s))%nat.

Lemma dfs_upto_mono k :
  1 <= k < SizeVfdCache s ->
  (length (dfs_upto (VfdCache s) (k + 1))
   <= length (dfs_upto (VfdCache s) (SizeVfdCache s)))%nat.
Proof.
  intros Hk. unfold dfs_upto.
  replace (SizeVfdCache s - 1) with ((k + 1 - 1) + (SizeVfdCache s - (k + 1)))
    by lia.
  rewrite seqZ_app, List.filter_app, length_app by lia. apply Nat.le_add_r.
Qed.

Lemma CloseAllHdfsFiles_step (k : Z) (sk : State) :
  1 <= k < SizeVfdCache s ->
  hdfs_closed_upto s k sk ->
  wpx T (c <- gets VfdCache ;;
         if FileIsNotOpen c k || IsLocalFile c k then ret tt
         else HdfsFileClose k false)
    (fun _ sk' => hdfs_closed_upto s (k + 1) sk') (fun _ _ => False) sk.
Proof.
  intros Hk (Hlen & Hslots & Hm0 & Hl0 & Hreg & Hnf & Hcalls & Hun & Hrep).
  assert (Hk_same : slot (VfdCache sk) k = slot (VfdCache s) k).
  { specialize (Hslots k ltac:(lia)).
    rewrite bool_decide_eq_false_2 in Hslots by lia. exact Hslots. }
  assert (Hloc : IsLocalFile (VfdCache sk) k = IsLocalFile (VfdCache s) k)
    by (unfold IsLocalFile; now rewrite Hk_same).
  wp_step. wp_step. rewrite Hloc.
  destruct (IsLocalFile (VfdCache s) k) eqn:Hk_local.
  - (* a local slot is left alone *)
    rewrite orb_true_r. wp_step. unfold hdfs_closed_upto.
    rewrite dfs_upto_S, Hk_local, app_nil_r by lia.
    split; [exact Hlen|]. split; [|auto 10].
    intros f Hf. specialize (Hslots f Hf).
    destruct (decide (f = k)) as [->|Hne].
    + rewrite Hk_local, andb_false_r. exact Hk_same.
    + destruct (decide (f < k)).
      * rewrite bool_decide_eq_true_2 in Hslots |- * by lia. exact Hslots.
      * rewrite bool_decide_eq_false_2 in Hslots |- * by lia. exact Hslots.
  - (* a DFS slot is closed and freed *)
    assert (Hloc' : IsLocalFile (VfdCache sk) k = false) by exact Hloc.
    rewrite (not_local_is_open _ _ Hloc'). cbn [orb].
    pose proof (dfs_upto_mono k Hk) as Hmono.
    rewrite dfs_upto_S, Hk_local, length_app in Hmono by lia. simpl in Hmono.
    apply HdfsFileClose_quietly.
    { unfold SizeVfdCache in *. lia. }
    { exact Hloc'. }
    { destruct Hscript as [HT|Hlong]; [now left|right].
      rewrite Hrep. intros E. apply (f_equal length) in E.
      rewrite length_drop in E. simpl in E. lia. }
    intros sk' Hlen' Hfreed Hothers Hm0' Hl0' Hreg' Hnf' Hrep'
      (new & Hnew & Hclose & Hnoun).
    unfold hdfs_closed_upto.
    rewrite dfs_upto_S, Hk_local, length_app, map_app by lia. simpl.
    split; [congruence|]. split; [|split; [congruence|split; [congruence|]]].
    + intros f Hf. specialize (Hslots f Hf).
      destruct (decide (f = k)) as [->|Hne].
      * rewrite Hk_local, bool_decide_eq_true_2 by lia. exact Hfreed.
      * rewrite (Hothers f Hne ltac:(lia)).
        destruct (decide (f < k)).
        -- rewrite bool_decide_eq_true_2 in Hslots |- * by lia. exact Hslots.
        -- rewrite bool_decide_eq_false_2 in Hslots |- * by lia. exact Hslots.
    + split; [congruence|]. split; [congruence|]. split; [|split].
      * unfold calls in *. rewrite Hnew, map_app, List.filter_app, Hcalls, Hclose.
        rewrite Hk_same. now rewrite <- app_assoc.
      * unfold calls in *. rewrite Hnew, map_app, List.filter_app, Hun, Hnoun.
        apply app_nil_r.
      * rewrite Hrep', Hrep, tl_drop. f_equal. lia.
Qed.

Lemma CloseAllHdfsFiles_spec :
  wpx T CloseAllHdfsFiles
    (fun _ s' => hdfs_closed_upto s (Z.max 1 (SizeVfdCache s)) s')
    (fun _ _ => False) s.
Proof.
  unfold CloseAllHdfsFiles.
  apply (for_all_vfds_wp _ s (hdfs_closed_upto s)).
  - intros k sk (Hlen & _). unfold SizeVfdCache. now rewrite Hlen.
  - intros k sk Hk Hinv. now apply CloseAllHdfsFiles_step.
  - split; [reflexivity|]. split; [|repeat split].
    + intros f Hf. now rewrite bool_decide_eq_false_2 by lia.
    + unfold dfs_upto. simpl. now rewrite app_nil_r.
Qed.

End CloseHdfs.

(** X15 — [CloseAllHdfsFiles] (and so [AtXactCancle_Files]) never raises
    an error, whatever the DFS client answers: a failing close is only
    reported as a WARNING.  With one answer per DFS slot it returns; each
    slot that held DFS handles has then been closed once, in slot order,
    and freed, while local slots and the ring links of slot 0 are exactly
    as before; [nfile] and the registry are untouched and nothing is
    unlinked. *)
Theorem X15_CloseAllHdfsFiles (s : State) :
  let size := SizeVfdCache s in
  let dfs := dfs_upto (VfdCache s) size in
  (length dfs <= length (replies s))%nat ->
  exists s',
    AtXactCancle_Files s = Normal tt s' /\
    length (VfdCache s') = length (VfdCache s) /\
    (forall f, 1 <= f < size ->
       if IsLocalFile (VfdCache s) f
       then slot (VfdCache s') f = slot (VfdCache s) f
       else freed (slot (VfdCache s') f)) /\
    lruMoreRecently (slot (VfdCache s') 0)
    = lruMoreRecently (slot (VfdCache s) 0) /\
    lruLessRecently (slot (VfdCache s') 0)
    = lruLessRecently (slot (VfdCache s) 0) /\
    registry s' = registry s /\ nfile s' = nfile s /\
    calls is_HdfsCloseFile s'
    = calls is_HdfsCloseFile s
      ++ map (fun f => closing_call (slot (VfdCache s) f)) dfs /\
    calls is_unlink s' = calls is_unlink s /\
    replies s' = drop (length dfs) (replies s).
Proof.
  intros size dfs Hlong.
  destruct (twp_elim _ _ _ _
              (CloseAllHdfsFiles_spec (T := False) s (or_intror Hlong)))
    as [([] & s' & Hrun & Hinv)|(sev & code & msg & s' & _ & [])].
  exists s'. split; [exact Hrun|].
  destruct Hinv as (Hlen & Hslots & Hm0 & Hl0 & Hreg & Hnf & Hcalls & Hun & Hrep).
  rewrite dfs_upto_max in Hcalls, Hrep.
  split; [exact Hlen|]. split; [|auto 10].
  intros f Hf. specialize (Hslots f ltac:(lia)).
  rewrite bool_decide_eq_true_2 in Hslots by (fold size; lia).
  now destruct (IsLocalFile (VfdCache s) f).
Qed.

Lemma X15_CloseAllHdfsFiles_witness :
  exists s',
    AtXactCancle_Files (one_dfs_file [fails (-1) EIO]) = Normal tt s' /\
    freed (slot (VfdCache s') 1) /\
    calls is_HdfsCloseFile s' = [c_HdfsCloseFile (Some "hdfs"%string) 7 9].
Proof.
  destruct (X15_CloseAllHdfsFiles (one_dfs_file [fails (-1) EIO]))
    as (s' & Hrun & _ & Hslots & _ & _ & _ & _ & Hcalls & _).
  - vm_compute. lia.
  - exists s'. split; [exact Hrun|]. split; [|exact Hcalls].
    apply (Hslots 1). vm_compute. split; [discriminate|reflexivity].
Defined.

(** ** The end of a transaction and of the process *)

Lemma cleaned_same b v v' : same_but_links v v' -> cleaned b v' = cleaned b v.
Proof.
  unfold same_but_links, cleaned. intros (_ & -> & _). reflexivity.
Qed.

Lemma free_all_descs_spec {T : Prop} (fuel : nat) : forall s : State,
  0 <= numAllocatedDescs s <= Z.of_nat (length (allocatedDescs s)) ->
  numAllocatedDescs s <= Z.of_nat fuel ->
  (T \/ Forall succeeds (replies s) /\
        numAllocatedDescs s <= Z.of_nat (length (replies s))) ->
  wpx T (free_all_descs fuel) (fun _ s' => registry_emptied s s')
    (fun _ _ => T) s.
Proof.
  assert (Hdone : forall s, numAllocatedDescs s = 0 -> registry_emptied s s).
  { intros s H0. split; [reflexivity|]. split; [reflexivity|].
    split; [exact H0|]. split.
    - exists []. split; [apply logged_refl|].
      unfold live_descs. rewrite H0. reflexivity.
    - intros _. exists 0%nat. split; [lia|reflexivity]. }
  induction fuel as [|fuel IH]; intros s Hn Hfuel Hscr; simpl.
  - wp_step. wp_step. destruct (Z.gtb_spec (numAllocatedDescs s) 0); [lia|].
    wp_step. apply Hdone. lia.
  - wp_step. wp_step.
    destruct (Z.gtb_spec (numAllocatedDescs s) 0) as [Hpos|Hzero].
    2:{ wp_step. apply Hdone. lia. }
    wp_step.
    eapply wp_mono; [apply FreeDesc_spec| |auto].
    { destruct Hscr as [HT|[_ Hlong]]; [now left|right].
      intros E. rewrite E in Hlong. simpl in Hlong. lia. }
    intros r2 s2 (Hc2 & Hnf2 & Hn2 & Hl2 & Hlog2 & (k & Hk & Hrep2)).
    eapply wp_mono; [apply (IH s2)| |auto].
    { rewrite Hl2, length_insert. lia. }
    { lia. }
    { destruct Hscr as [HT|[Hall Hlong]]; [now left|right].
      rewrite Hrep2. split; [now apply Forall_drop|].
      rewrite length_drop. lia. }
    intros [] s' (Hc' & Hnf' & Hn' & (new' & Hlog' & Hcalls') & Hrep').
    split; [congruence|]. split; [congruence|]. split; [exact Hn'|]. split.
    + eexists. split; [eapply logged_trans; [exact Hlog2|exact Hlog']|].
      rewrite map_app, Hcalls'. simpl.
      assert (Hperm : live_descs s
                      ≡ₚ allocatedDescs s !!! 0%nat :: live_descs s2).
      { unfold live_descs. rewrite Hn2, Hl2.
        replace (Z.to_nat (numAllocatedDescs s - 1))
          with (Z.to_nat (numAllocatedDescs s) - 1)%nat by lia.
        change (Z.to_nat 0) with 0%nat.
        apply live_descs_removed; lia. }
      rewrite Hperm. reflexivity.
    + intros Hall.
      destruct (Hrep' ltac:(rewrite Hrep2; now apply Forall_drop))
        as (k' & Hk' & Hdrop').
      exists (k + k')%nat. split; [lia|].
      rewrite Hdrop', Hrep2, drop_drop. reflexivity.
Qed.

Section Cleanup.
Context {T : Prop}.
Variables (isProcExit : bool) (s : State).
Hypothesis Hscript :
  T \/ Forall succeeds (replies s) /\
       2 * (SizeVfdCache s - 1) + numAllocatedDescs s
       <= Z.of_nat (length (replies s)).
Hypothesis Hdescs :
  0 <= numAllocatedDescs s <= Z.of_nat (length (allocatedDescs s)).
Hypothesis Hsize : 1 <= SizeVfdCache s.

Lemma CleanupTempFiles_step (k : Z) (sk : State) :
  1 <= k < SizeVfdCache s ->
  closed_pass (cleaned isProcExit) s k sk ->
  wpx T (CleanupTempFiles_vfd isProcExit k)
    (fun _ sk' => closed_pass (cleaned isProcExit) s (k + 1) sk')
    (fun _ _ => T) sk.
Proof.
  intros Hk Hinv.
  pose proof Hinv as (Hlen & Hslots & _ & _ & _ & _ & Hrep & _).
  assert (Hk_same : same_but_links (slot (VfdCache s) k) (slot (VfdCache sk) k)).
  { specialize (Hslots k ltac:(lia)).
    rewrite bool_decide_eq_false_2 in Hslots by lia. exact Hslots. }
  pose proof (cleaned_same isProcExit _ _ Hk_same) as Hcl.
  unfold CleanupTempFiles_vfd. wp_step. wp_step.
  fold (cleaned isProcExit (slot (VfdCache sk) k)). rewrite Hcl.
  destruct (cleaned isProcExit (slot (VfdCache s) k)) eqn:Hsel.
  - eapply wp_mono; [apply FileClose_spec| |auto].
    + unfold SizeVfdCache in *. lia.
    + destruct Hscript as [HT|[Hall Hlong]]; [now left|right].
      destruct (Hrep Hall) as (n & Hn & Hdrop). rewrite Hdrop.
      split; [now apply Forall_drop|]. rewrite length_drop. nia.
    + intros [] sk' Hclosed. eapply pass_close; eauto.
  - wp_step. apply pass_skip; auto. lia.
Qed.

Lemma CleanupTempFiles_spec :
  wpx T (CleanupTempFiles isProcExit)
    (fun _ s' => files_cleaned isProcExit s s') (fun _ _ => T) s.
Proof.
  unfold CleanupTempFiles. wp_step.
  eapply wp_mono;
    [apply (for_all_vfds_wp _ s (closed_pass (cleaned isProcExit) s)
              (fun _ _ => T))|
     |auto].
  - intros k sk (Hlen & _). unfold SizeVfdCache. now rewrite Hlen.
  - intros k sk Hk Hinv. now apply CleanupTempFiles_step.
  - apply pass_start.
  - intros [] s1 Hinv. rewrite Z.max_r in Hinv by lia.
    destruct Hinv as (Hlen1 & Hslots1 & Hn1 & Hd1 & (new1 & Hl1 & Hu1)
                      & (Hfl1 & Hfn1) & Hrep1 & Hh1).
    wp_step. wp_step.
    eapply wp_mono; [apply (free_all_descs_spec _ s1)| |auto];
      rewrite ?Hn1, ?Hd1; try lia.
    { destruct Hscript as [HT|[Hall Hlong]]; [now left|right].
      destruct (Hrep1 Hall) as (k & Hk & Hdrop). rewrite Hdrop.
      split; [now apply Forall_drop|]. rewrite length_drop. lia. }
    intros [] s' (Hc' & Hnf' & Hn' & (new2 & Hl2 & Hcalls2) & _).
    assert (Hlive1 : live_descs s1 = live_descs s)
      by (unfold live_descs; now rewrite Hn1, Hd1).
    rewrite Hlive1 in Hcalls2.
    unfold files_cleaned. cbv zeta in *. rewrite Hc'.
    split; [exact Hlen1|]. split.
    { intros f Hf. specialize (Hslots1 f ltac:(lia)).
      rewrite bool_decide_eq_true_2 in Hslots1 by lia. exact Hslots1. }
    split; [exact Hfl1|]. split; [exact Hfn1|]. split; [exact Hn'|].
    split.
    { eapply handles_closed_later; [exact Hh1|exact Hnf'|exact Hl2|].
      eapply desc_close_calls_not_closing; exact Hcalls2. }
    exists new1, new2. split; [eapply logged_trans; eauto|]. auto.
Qed.

End Cleanup.

(** X16 — [CleanupTempFiles], which is [AtEOXact_Files] (transaction end)
    and [AtProcExit_Files] (backend exit).  Whenever it returns, every slot
    marked FD_CLOSE_AT_EOXACT -- at process exit also every slot marked
    FD_TEMPORARY -- was closed, in slot order: [close] was called on the
    descriptor of each local slot that held one (again after each
    interrupted attempt, once if every call is answered 0) and [nfile]
    counts it out, and [HdfsCloseFile] was called once on the handles of
    each DFS slot; these slots are free (no descriptor, handles, name or
    state bits) and head the free list, the last closed first; the
    temporary local files among them were unlinked in slot order.  The
    other slots keep all but their ring links, and the registry is empty,
    each live entry having been closed exactly once.  It returns whenever
    every call is answered with 0. *)
Theorem X16_CleanupTempFiles (isProcExit : bool) (s : State) :
  1 <= SizeVfdCache s ->
  0 <= numAllocatedDescs s <= Z.of_nat (length (allocatedDescs s)) ->
  (forall s',
     (if isProcExit then AtProcExit_Files else AtEOXact_Files) s
     = Normal tt s' ->
     files_cleaned isProcExit s s') /\
  (Forall succeeds (replies s) ->
   2 * (SizeVfdCache s - 1) + numAllocatedDescs s
   <= Z.of_nat (length (replies s)) ->
   exists s',
     (if isProcExit then AtProcExit_Files else AtEOXact_Files) s
     = Normal tt s').
Proof.
  intros Hsize Hn.
  assert (Hsame : (if isProcExit then AtProcExit_Files else AtEOXact_Files)
                  = CleanupTempFiles isProcExit) by now destruct isProcExit.
  rewrite Hsame. split.
  - intros s' Hrun.
    exact (wp_normal _ _ _ _ _ _
             (CleanupTempFiles_spec (T := True) isProcExit s (or_introl I) Hn
                Hsize)
             Hrun).
  - intros Hall Hlong.
    destruct (twp_elim _ _ _ _
                (CleanupTempFiles_spec (T := False) isProcExit s
                   (or_intror (conj Hall Hlong)) Hn Hsize))
      as [([] & s' & Hrun & _)|(sev & code & msg & s' & _ & [])].
    eauto.
Qed.

Lemma X16_CleanupTempFiles_witness :
  exists s',
    AtEOXact_Files (one_temp_file_and_stream [ok 0; ok 0; ok 0]) = Normal tt s' /\
    freed (slot (VfdCache s') 1) /\ nextFree (slot (VfdCache s') 0) = 1 /\
    nfile s' = 0 /\ calls is_closing s' = [c_close 5].
Proof.
  destruct (X16_CleanupTempFiles false
              (one_temp_file_and_stream [ok 0; ok 0; ok 0]))
    as [Hpart Htot].
  - vm_compute. discriminate.
  - vm_compute. split; discriminate.
  - destruct Htot as (s' & Hrun).
    + repeat constructor.
    + vm_compute. discriminate.
    + exists s'. split; [exact Hrun|].
      destruct (Hpart s' Hrun)
        as (_ & Hslots & Hfl & _ & _ & (Hnf & ls & Hls & Hcl) & _).
      specialize (Hslots 1 ltac:(vm_compute; split; [discriminate|reflexivity])).
      change (cleaned false (slot (VfdCache (one_temp_file_and_stream
                [ok 0; ok 0; ok 0])) 1)) with true in Hslots.
      split; [exact Hslots|]. split; [|split].
      * vm_compute in Hfl. now injection Hfl.
      * exact Hnf.
      * change (selected_upto _ _ _) with [1] in Hls.
        inversion Hls as [|f l fs ls' Hl Hnil]; subst.
        inversion Hnil; subst.
        destruct Hl as (k & -> & Hk).
        rewrite (Hk ltac:(repeat constructor)) in Hcl. exact Hcl.
Defined.

(** ** Touching an open file *)

Lemma FileAccess_touch (file : File) (s : State) :
  ring_ok (VfdCache s) -> 0 < file < Z.of_nat (length (VfdCache s)) ->
  IsLocalFile (VfdCache s) file = true ->
  fd (slot (VfdCache s) file) <> VFD_CLOSED ->
  exists c',
    FileAccess file s = Normal 0 (with_VfdCache c' s) /\
    ring_ok c' /\ length c' = length (VfdCache s) /\
    lruLessRecently (slot c' 0) = file /\
    (forall f, same_but_links (slot (VfdCache s) f) (slot c' f)).
Proof.
  intros Hok Hfile Hlocal Hfd.
  assert (Hopen : FileIsNotOpen (VfdCache s) file = false).
  { rewrite FileIsNotOpen_local by exact Hlocal. now apply Z.eqb_neq. }
  assert (Htwp : twp (FileAccess file)
            (fun r s' =>
               r = 0 /\ exists c',
                 s' = with_VfdCache c' s /\
                 ring_ok c' /\ length c' = length (VfdCache s) /\
                 lruLessRecently (slot c' 0) = file /\
                 (forall f, same_but_links (slot (VfdCache s) f) (slot c' f)))
            (fun _ _ => False) s).
  { unfold FileAccess. wp_step. wp_step. rewrite Hopen, Hlocal, andb_true_r.
    destruct (Z.eqb_spec (lruLessRecently (slot (VfdCache s) 0)) file)
      as [Hmru|Hnot]; cbn [negb].
    - wp_step. split; [reflexivity|]. exists (VfdCache s).
      split; [symmetry; apply with_VfdCache_same|]. split; [exact Hok|].
      split; [reflexivity|]. split; [exact Hmru|].
      intros f. apply same_but_links_refl.
    - wp_step.
      apply Delete_ring_wp; [exact Hok|right; split; [lia|exact Hfd]|lia|].
      intros c1 Hlen1 Hsame1 Hex1. wp_step.
      apply Insert_mru_wp; st_simpl; [exact Hex1|lia| |].
      { destruct (Hsame1 file) as (-> & _). exact Hfd. }
      intros c2 Hlen2 Hsame2 Hok2 Hless2 _. wp_step.
      split; [reflexivity|]. exists c2. split; [reflexivity|].
      split; [exact Hok2|]. split; [lia|]. split; [exact Hless2|].
      intros f. eapply same_but_links_trans; [apply Hsame1|apply Hsame2]. }
  apply twp_elim in Htwp
    as [(r & s' & Hrun & -> & c' & -> & HP)|(sev & code & msg & s' & _ & [])].
  exists c'. split; [exact Hrun|exact HP].
Qed.

(** X17 — [FileAccess] on a local slot that holds a descriptor calls
    nothing and returns 0; it makes the slot the most recently used member
    of the ring ([VfdCache[0].lruLessRecently]), so that it is the last
    one [ReleaseLruFile] would close.  The ring stays well formed and no
    slot changes but in its ring links. *)
Theorem X17_FileAccess_touch (file : File) (s : State) :
  ring_ok (VfdCache s) -> 0 < file < Z.of_nat (length (VfdCache s)) ->
  IsLocalFile (VfdCache s) file = true ->
  fd (slot (VfdCache s) file) <> VFD_CLOSED ->
  exists c',
    FileAccess file s = Normal 0 (with_VfdCache c' s) /\
    ring_ok c' /\ length c' = length (VfdCache s) /\
    lruLessRecently (slot c' 0) = file /\
    (forall f, same_but_links (slot (VfdCache s) f) (slot c' f)).
Proof.
  intros Hok Hfile Hlocal Hfd. now apply FileAccess_touch.
Qed.

Lemma X17_FileAccess_touch_witness :
  exists c',
    FileAccess 1 (one_temp_file []) = Normal 0 (with_VfdCache c' (one_temp_file []))
    /\ lruLessRecently (slot c' 0) = 1.
Proof.
  destruct (X17_FileAccess_touch 1 (one_temp_file []))
    as (c' & Hrun & _ & _ & Hmru & _).
  - apply one_temp_file_ring_ok.
  - vm_compute. split; reflexivity.
  - reflexivity.
  - discriminate.
  - exists c'. auto.
Defined.

(** ** The cache of DFS connections *)

(** X18 — DFS connections are cached by host and port.  Once
    [HdfsGetConnection] has returned a connection for a path, a later call
    for the same path -- under any protocol name, and in any state that
    still holds the same table of connections -- returns that connection
    again without calling [HdfsConnect] or anything else. *)
Theorem X18_HdfsGetConnection_cached (protocol protocol2 path : string)
    (s s1 s2 : State) (fs : Z) :
  HdfsGetConnection protocol path s = Normal fs s1 -> fs <> NULL ->
  HdfsFsTable s2 = HdfsFsTable s1 ->
  exists e,
    HdfsGetConnection protocol2 path s2 = Normal fs (with_errno e s2).
Proof.
  intros Hrun Hfs Htab. unfold HdfsGetConnection in *.
  destruct (strstr path fsys_protocol_sep) as [p|].
  2:{ exfalso. apply Hfs. now injection Hrun. }
  set (after := str_from (p + String.length fsys_protocol_sep) path) in *.
  destruct (match after with
            | String "{" rest =>
                match strstr rest "}" with
                | Some e => Some (str_from (e + 1) rest)
                | None => None
                end
            | _ => Some after
            end) as [host|]; [|discriminate Hrun].
  destruct (strstr host ":") as [colon|].
  2:{ exfalso. apply Hfs. now injection Hrun. }
  destruct (strtol0 (str_from (colon + 1) host)) as [v e0].
  set (key := (substring 0 colon host +:+ ":" +:+ pretty (int32 v))%string) in *.
  assert (Hpre : forall {A} (k : M A) (t : State),
            (set_errno 0;;;
              (if e0 =? 0 then ret () else set_errno e0);;; k) t
              = k (with_errno e0 t)).
  { intros A k t. unfold bind, set_errno, modify, ret.
    destruct (e0 =? 0) eqn:He0; st_simpl; [|reflexivity].
    apply Z.eqb_eq in He0. now subst e0. }
  rewrite Hpre in Hrun. rewrite Hpre. clear Hpre.
  unfold bind at 1, gets at 1 in Hrun. unfold bind at 1, gets at 1.
  st_simpl_in Hrun. st_simpl.
  destruct ((e0 =? EINVAL) || (e0 =? ERANGE)
            || negb ((0 <? int32 v) && (int32 v <? 65536))).
  { exfalso. apply Hfs. unfold bind, elog, set_errno, modify, ret in Hrun.
    now injection Hrun. }
  unfold bind at 1, gets at 1 in Hrun. unfold bind at 1, gets at 1.
  st_simpl_in Hrun. st_simpl.
  assert (Hin : HdfsFsTable s1 !! key = Some fs).
  { destruct (HdfsFsTable s !! key) as [fs0|] eqn:Hk.
    - unfold ret in Hrun. injection Hrun as <- <-. exact Hk.
    - unfold sys, bind, call, ret in Hrun. cbn [replies] in Hrun.
      destruct (replies s) as [|r rest]; [discriminate Hrun|].
      cbv beta iota in Hrun.
      destruct (r_ret r =? NULL).
      + exfalso. apply Hfs. unfold elog, notify, modify in Hrun.
        now injection Hrun.
      + unfold modify in Hrun. injection Hrun as <- <-.
        cbn [HdfsFsTable answer]. apply lookup_insert_eq. }
  rewrite Htab, Hin. exists e0. reflexivity.
Qed.

Lemma X18_HdfsGetConnection_cached_witness :
  exists e,
    HdfsGetConnection "other" "hdfs://h:1/f"
      (with_VfdCache [] (state_of (HdfsGetConnection "hdfs" "hdfs://h:1/f"
                                      (initial_state [ok 7]))))
    = Normal 7 (with_errno e (with_VfdCache []
         (state_of (HdfsGetConnection "hdfs" "hdfs://h:1/f"
                                      (initial_state [ok 7]))))).
Proof.
  apply (X18_HdfsGetConnection_cached "hdfs" "other" "hdfs://h:1/f"
           (initial_state [ok 7])
           (state_of (HdfsGetConnection "hdfs" "hdfs://h:1/f"
                                      (initial_state [ok 7])))).
  - vm_compute. reflexivity.
  - discriminate.
  - reflexivity.
Defined.

(** ** Seeking in a DFS file *)

Lemma FileAccess_dfs (file : File) (s : State) :
  IsLocalFile (VfdCache s) file = false -> FileAccess file s = Normal 0 s.
Proof.
  intros Hlocal. pose proof (not_local_is_open _ _ Hlocal) as Hopen.
  apply twp_returns. unfold FileAccess. wp_step. wp_step.
  rewrite Hopen, Hlocal, andb_false_r. wp_step. auto.
Qed.

(** X19 — [FileSeek] on a slot that holds DFS handles, for SEEK_SET and
    SEEK_CUR: the seek is always passed on to the DFS client (never answered
    from the saved position, as it can be for a local file).  The position
    asked for is [offset], or the saved position plus [offset] -- counted
    from 0 when the saved position is unknown.  If the client answers 0 the
    slot saves that position and it is returned; otherwise the saved position
    becomes -1, a warning is logged and -1 is returned.  Nothing else in the
    table changes. *)
Theorem X19_HdfsFileSeek (s : State) (file : File) (offset whence : Z)
    (r : Reply) (rest : list Reply) :
  0 < file < Z.of_nat (length (VfdCache s)) ->
  IsLocalFile (VfdCache s) file = false ->
  replies s = r :: rest ->
  whence = SEEK_SET \/ whence = SEEK_CUR ->
  let v := slot (VfdCache s) file in
  let base := if seekPos v =? FileUnknownPos then 0 else seekPos v in
  let target := if whence =? SEEK_SET then offset else int64 (base + offset) in
  let pos := if r_ret r =? 0 then target else -1 in
  exists s',
    FileSeek file offset whence s = Normal pos s' /\
    VfdCache s' = upd file (set_seekPos pos) (VfdCache s) /\
    replies s' = rest /\
    called s s' (c_HdfsSeek (hProtocol v) (hFS v) (hFile v) target) /\
    (r_ret r = 0 -> logged s s' [mkEvent (c_HdfsSeek (hProtocol v) (hFS v)
                                            (hFile v) target) (VfdCache s)]) /\
    (r_ret r <> 0 ->
     exists msg args, called s s' (c_elog WARNING msg args)).
Proof.
  intros Hfile Hlocal Hrep Hwh v base target pos.
  set (seek := c_HdfsSeek (hProtocol v) (hFS v) (hFile v) target).
  assert (H : twp (FileSeek file offset whence)
                (fun a s' =>
                   a = pos /\
                   VfdCache s' = upd file (set_seekPos pos) (VfdCache s) /\
                   replies s' = rest /\
                   exists new,
                     logged s s' (mkEvent seek (VfdCache s) :: new) /\
                     (r_ret r = 0 -> new = []) /\
                     (r_ret r <> 0 ->
                      exists msg args,
                        In (c_elog WARNING msg args) (map ev_call new)))
                (fun _ _ => False) s).
  { unfold FileSeek. wp_step. wp_step. rewrite Hlocal.
    unfold HdfsFileSeek. wp_step. wp_step. fold v. wp_step.
    assert (Hgo : forall b, b = target ->
      twp
         (returnCode <- FileAccess file;;
          (if returnCode <? 0
           then
            elog WARNING "cannot open file: %s for seek, errno %d"
              [default "" (fileName v)];;;
            ret returnCode
           else
            vfdP <- get_vfd file;;
            sought <-
            sys (c_HdfsSeek (hProtocol vfdP) (hFS vfdP) (hFile vfdP) b);;
            (if negb (sought =? 0)
             then
              elog WARNING "cannot to seek file %s to %d errno %d"
                [default "" (fileName vfdP)];;;
              set_vfd file (set_seekPos (-1))
             else set_vfd file (set_seekPos b));;;
            vfdP0 <- get_vfd file;; ret (seekPos vfdP0)))
         (fun a s' =>
            a = pos /\
            VfdCache s' = upd file (set_seekPos pos) (VfdCache s) /\
            replies s' = rest /\
            exists new,
              logged s s' (mkEvent seek (VfdCache s) :: new) /\
              (r_ret r = 0 -> new = []) /\
              (r_ret r <> 0 ->
               exists msg args,
                 In (c_elog WARNING msg args) (map ev_call new)))
         (fun _ _ => False) s).
    { intros b ->. apply wp_bind_run.
      2,3: intros; rewrite (FileAccess_dfs _ _ Hlocal) in *; discriminate.
      intros a s1 Hrun. rewrite (FileAccess_dfs _ _ Hlocal) in Hrun.
      injection Hrun as <- <-. change (0 <? 0) with false. cbv iota.
      wp_step. wp_step. fold v. wp_step.
      apply wp_sys; [rewrite Hrep; discriminate|].
      intros r0 rest0 Hr0. rewrite Hrep in Hr0. injection Hr0 as <- <-.
      unfold pos. wp_step. destruct (r_ret r =? 0) eqn:Hr; cbn [negb].
      - wp_step. wp_step. wp_step. slot_simpl. rewrite Hrep.
        repeat split; auto. exists []. split; [solve_logged|].
        split; [auto|]. apply Z.eqb_eq in Hr. congruence.
      - wp_step. wp_step. wp_step. wp_step. wp_step. slot_simpl. rewrite Hrep.
        repeat split; auto. eexists. split; [solve_logged|].
        split; [apply Z.eqb_neq in Hr; congruence|].
        intros _. do 2 eexists. left. reflexivity. }
    destruct Hwh as [-> | ->]; whence_simpl.
    - wp_step. apply Hgo. reflexivity.
    - wp_step. apply Hgo. unfold target, base. whence_simpl.
      now destruct (seekPos v =? FileUnknownPos). }
  apply twp_elim in H as [(a & s' & Hrun & -> & Hc & Hr & new & Hlog & H0 & H1)
                         |(? & ? & ? & ? & _ & [])].
  exists s'. repeat split; auto.
  - exists (mkEvent seek (VfdCache s) :: new). split; [exact Hlog|]. now left.
  - intros Hz. now rewrite <- (H0 Hz).
  - intros Hnz. destruct (H1 Hnz) as (msg & args & Hin).
    exists msg, args, (mkEvent seek (VfdCache s) :: new).
    split; [exact Hlog|]. now right.
Qed.

Lemma X19_HdfsFileSeek_witness :
  exists s',
    FileSeek 1 5 SEEK_CUR (one_dfs_file [ok 0]) = Normal 15 s' /\
    VfdCache s' = upd 1 (set_seekPos 15) (VfdCache (one_dfs_file [ok 0])).
Proof.
  destruct (X19_HdfsFileSeek (one_dfs_file [ok 0]) 1 5 SEEK_CUR (ok 0) [])
    as (s' & Hrun & Hc & _).
  - simpl. lia.
  - reflexivity.
  - reflexivity.
  - now right.
  - exists s'. split; [exact Hrun|exact Hc].
Defined.

(** ** Reading the listing of a DFS directory *)

Lemma find_desc_up_first (P : AllocateDesc -> bool) (l : list AllocateDesc)
    (i : nat) :
  P (l !!! i) = true ->
  (forall j, (j < i)%nat -> P (l !!! j) = false) ->
  forall count k, (k <= i)%nat -> (i < k + count)%nat ->
    find_desc_up P l k count = i.
Proof.
  intros Hi Hlt. induction count as [|count IH]; intros k Hk Hc; [lia|].
  cbn [find_desc_up]. destruct (decide (k = i)) as [->|Hne].
  - now rewrite Hi.
  - rewrite Hlt by lia. apply IH; lia.
Qed.

Lemma with_RecentRemoteAllocatedDesc_same (s : State) :
  with_RecentRemoteAllocatedDesc (RecentRemoteAllocatedDesc s) s = s.
Proof. now destruct s. Qed.

Lemma ReadDir_remote_run (dir : Z) (dirname : string) (s : State) (i : nat) :
  dir <> NULL -> IsLocalPath dirname = false -> listing_at s dir i ->
  let d := allocatedDescs s !!! i in
  let s1 := with_RecentRemoteAllocatedDesc (Z.of_nat i) s in
  (num d <= cur d -> ReadDir dir dirname s = Normal None s1) /\
  (cur d < num d ->
   let name := basename (default "" (filelist d !! Z.to_nat (cur d))) in
   strlen name < 256 ->
   ReadDir dir dirname s
   = Normal (Some name)
       (with_allocatedDescs
          (<[i := set_ret_d_name name (set_cur (cur d + 1) d)]>
             (allocatedDescs s)) s1)).
Proof.
  intros Hdir Hremote (Hi & Hlen & Hd & Huniq) d s1.
  apply Z.eqb_neq in Hdir.
  assert (Hfind : Z.of_nat (find_desc_up (is_remote_dir dir) (allocatedDescs s) 0
                    (Z.to_nat (numAllocatedDescs s))) = Z.of_nat i).
  { f_equal. apply find_desc_up_first; [exact Hd| |lia|lia].
    intros j Hj. destruct (is_remote_dir dir (allocatedDescs s !!! j)) eqn:E;
      [|reflexivity]. apply Huniq in E; lia. }
  assert (Hsel : forall Q : Z -> State -> Prop, Q (Z.of_nat i) s1 ->
    twp (let cache_id := RecentRemoteAllocatedDesc s in
         if (cache_id <? 0) || (cache_id >=? numAllocatedDescs s)
            || negb (is_remote_dir dir (allocatedDescs s !!! Z.to_nat cache_id))
         then
           let found := Z.of_nat (find_desc_up (is_remote_dir dir)
                                    (allocatedDescs s) 0
                                    (Z.to_nat (numAllocatedDescs s))) in
           modify (with_RecentRemoteAllocatedDesc found) ;;; ret found
         else ret cache_id) Q (fun _ _ => False) s).
  { intros Q HQ. cbv zeta. rewrite Hfind.
    destruct ((RecentRemoteAllocatedDesc s <? 0)
              || (RecentRemoteAllocatedDesc s >=? numAllocatedDescs s)
              || negb (is_remote_dir dir
                         (allocatedDescs s !!! Z.to_nat (RecentRemoteAllocatedDesc s))))
      eqn:Hc.
    - wp_step. wp_step. wp_step. exact HQ.
    - apply orb_false_elim in Hc as [Hc Hm].
      apply orb_false_elim in Hc as [Hneg Hge].
      apply negb_false_iff in Hm. apply Z.ltb_ge in Hneg.
      rewrite Z.geb_leb in Hge. apply Z.leb_gt in Hge.
      apply Huniq in Hm; [|lia].
      assert (Hc : RecentRemoteAllocatedDesc s = Z.of_nat i) by lia.
      wp_step. rewrite Hc. unfold s1 in HQ. rewrite <- Hc in HQ at 2.
      now rewrite with_RecentRemoteAllocatedDesc_same in HQ. }
  split.
  - intros Hend. apply twp_returns. unfold ReadDir.
    rewrite Hdir, Hremote. cbn [negb]. wp_step. wp_step. wp_step. wp_step.
    wp_step. apply Hsel. unfold get_desc, set_desc.
    wp_step. wp_step. unfold s1 at 1 2. st_simpl. rewrite Nat2Z.id. fold d.
    assert (Hge : (cur d >=? num d) = true) by (rewrite Z.geb_leb; now apply Z.leb_le).
    rewrite Hge. wp_step. auto.
  - intros Hlt name Hname. apply twp_returns. unfold ReadDir.
    rewrite Hdir, Hremote. cbn [negb]. wp_step. wp_step. wp_step. wp_step.
    wp_step. apply Hsel. unfold get_desc, set_desc.
    wp_step. wp_step. rewrite !Nat2Z.id.
    change (allocatedDescs s1) with (allocatedDescs s). fold d.
    assert (Hge : (cur d >=? num d) = false) by (rewrite Z.geb_leb; now apply Z.leb_gt).
    rewrite Hge. fold name.
    assert (Hfit : (256 <? strlen name + 1) = false) by (apply Z.ltb_ge; lia).
    rewrite Hfit. wp_step. wp_step. wp_step. wp_step. wp_step. wp_step.
    wp_step. split; [reflexivity|].
    change (allocatedDescs s1) with (allocatedDescs s). fold d.
    rewrite list_lookup_total_insert_eq by exact Hlen.
    now rewrite list_insert_insert_eq.
Qed.

Lemma listing_at_read (s : State) (dir : Z) (i : nat) (g : AllocateDesc -> AllocateDesc) :
  (forall d, kind (g d) = kind d /\ desc (g d) = desc d) ->
  listing_at s dir i ->
  listing_at
    (with_allocatedDescs (<[i := g (allocatedDescs s !!! i)]> (allocatedDescs s))
       (with_RecentRemoteAllocatedDesc (Z.of_nat i) s)) dir i.
Proof.
  intros Hg (Hi & Hlen & Hd & Huniq). unfold listing_at. st_simpl.
  rewrite length_insert.
  assert (Hsame : forall j,
            is_remote_dir dir
              (<[i := g (allocatedDescs s !!! i)]> (allocatedDescs s) !!! j)
            = is_remote_dir dir (allocatedDescs s !!! j)).
  { intros j. destruct (decide (j = i)) as [->|Hne].
    - rewrite list_lookup_total_insert_eq by exact Hlen.
      unfold is_remote_dir. destruct (Hg (allocatedDescs s !!! i)) as [-> ->].
      reflexivity.
    - now rewrite list_lookup_total_insert_ne by congruence. }
  repeat split; auto.
  - now rewrite Hsame.
  - intros j Hj. rewrite Hsame. now apply Huniq.
Qed.

Lemma ReadDir_remote_end (dir : Z) (dirname : string) (s : State) (i : nat) :
  dir <> NULL -> IsLocalPath dirname = false -> listing_at s dir i ->
  RecentRemoteAllocatedDesc s = Z.of_nat i ->
  num (allocatedDescs s !!! i) <= cur (allocatedDescs s !!! i) ->
  ReadDir dir dirname s = Normal None s.
Proof.
  intros Hdir Hremote Hl Hrecent Hge.
  destruct (ReadDir_remote_run dir dirname s i Hdir Hremote Hl) as [Hend _].
  rewrite (Hend Hge), <- Hrecent.
  now rewrite with_RecentRemoteAllocatedDesc_same.
Qed.

Lemma ReadDir_all_run (dir : Z) (dirname : string) (s : State) (i : nat)
    (fuel : nat) :
  dir <> NULL -> IsLocalPath dirname = false -> listing_at s dir i ->
  let d := allocatedDescs s !!! i in
  0 <= cur d -> num d = Z.of_nat (length (filelist d)) ->
  Forall (fun name => strlen (basename name) < 256) (unread d) ->
  (length (unread d) < fuel)%nat ->
  exists s',
    ReadDir_all fuel dir dirname s = Normal (map basename (unread d)) s' /\
    trace s' = trace s /\ replies s' = replies s /\
    VfdCache s' = VfdCache s /\
    unread (allocatedDescs s' !!! i) = [] /\
    ReadDir dir dirname s' = Normal None s'.
Proof.
  intros Hdir Hremote Hl d Hcur Hnum Hfit Hfuel.
  remember (length (unread d)) as n eqn:Hn.
  revert s Hl d Hcur Hnum Hfit Hn fuel Hfuel.
  induction n as [|n IH]; intros s Hl d Hcur Hnum Hfit Hn fuel Hfuel;
    (destruct fuel as [|fuel]; [lia|]);
    destruct (ReadDir_remote_run dir dirname s i Hdir Hremote Hl)
      as [Hend Hnext]; fold d in Hend, Hnext; cbn [ReadDir_all];
    unfold unread in Hn; rewrite length_drop in Hn.
  - assert (Hge : num d <= cur d) by lia.
    exists (with_RecentRemoteAllocatedDesc (Z.of_nat i) s).
    unfold bind. rewrite (Hend Hge).
    assert (Hnil : unread d = []).
    { unfold unread. apply drop_ge. lia. }
    rewrite Hnil. repeat split; auto.
    apply (ReadDir_remote_end dir dirname _ i); auto.
  - assert (Hlt : cur d < num d) by lia.
    destruct (filelist d !! Z.to_nat (cur d)) as [name|] eqn:Ename.
    2:{ apply lookup_ge_None in Ename. lia. }
    assert (Hun : unread d = name :: drop (S (Z.to_nat (cur d))) (filelist d)).
    { unfold unread. now apply drop_S. }
    rewrite Hun in Hfit. apply Forall_cons in Hfit as [Hname Hfit].
    cbn [default] in Hnext. unfold bind at 1.
    rewrite (Hnext Hlt Hname).
    set (s1 := with_allocatedDescs _ _). unfold id.
    destruct Hl as (Hi & Hlen & Hl').
    assert (Hd1 : allocatedDescs s1 !!! i
                  = set_ret_d_name (basename name) (set_cur (cur d + 1) d)).
    { unfold s1. st_simpl. now apply list_lookup_total_insert_eq. }
    assert (Hun1 : unread (allocatedDescs s1 !!! i)
                   = drop (S (Z.to_nat (cur d))) (filelist d)).
    { rewrite Hd1. unfold unread. cbn [cur filelist set_ret_d_name set_cur].
      f_equal. lia. }
    destruct (IH s1) with (fuel := fuel)
      as (s' & Hrun & Htr & Hrep & Hc & Hdone & Hstop).
    + apply (listing_at_read s dir i
               (fun x => set_ret_d_name (basename name) (set_cur (cur d + 1) x))).
      * intros x. split; reflexivity.
      * repeat split; auto; apply Hl'.
    + rewrite Hd1. cbn [cur set_ret_d_name set_cur]. lia.
    + rewrite Hd1. cbn [cur num filelist set_ret_d_name set_cur]. exact Hnum.
    + rewrite Hun1. exact Hfit.
    + rewrite Hun1, length_drop. lia.
    + lia.
    + exists s'. unfold bind. rewrite Hrun, Hun, Hun1. cbn [map].
      repeat split; auto.
Qed.

(** X20 — Reading the listing of a DFS directory to its end.  When one
    registry entry in use stands for [dir], the loop
    [while (ReadDir(dir, path) != NULL)] sees the names that were not yet
    read, in the order of the listing and each cut down to the part after
    its last slash; it calls nothing, leaves the entry at the end of its
    listing, and a further [ReadDir] reports the end again. *)
Theorem X20_ReadDir_all (dir : Z) (dirname : string) (s : State) (i : nat)
    (fuel : nat) :
  dir <> NULL -> IsLocalPath dirname = false -> listing_at s dir i ->
  let d := allocatedDescs s !!! i in
  0 <= cur d -> num d = Z.of_nat (length (filelist d)) ->
  Forall (fun name => strlen (basename name) < 256) (unread d) ->
  (length (unread d) < fuel)%nat ->
  exists s',
    ReadDir_all fuel dir dirname s = Normal (map basename (unread d)) s' /\
    trace s' = trace s /\ replies s' = replies s /\
    VfdCache s' = VfdCache s /\
    unread (allocatedDescs s' !!! i) = [] /\
    ReadDir dir dirname s' = Normal None s'.
Proof.
  intros Hdir Hremote Hl d. now apply ReadDir_all_run.
Qed.

Lemma X20_ReadDir_all_witness :
  exists s',
    ReadDir_all 3 77 "hdfs://h:1/d" (one_listing ["/d/a"; "/d/sub/b"] [])
    = Normal ["a"; "b"] s' /\
    ReadDir 77 "hdfs://h:1/d" s' = Normal None s'.
Proof.
  destruct (X20_ReadDir_all 77 "hdfs://h:1/d"
              (one_listing ["/d/a"; "/d/sub/b"] []) 0 3)
    as (s' & Hrun & _ & _ & _ & _ & Hend).
  - discriminate.
  - reflexivity.
  - unfold listing_at. vm_compute. repeat split; lia.
  - vm_compute. discriminate.
  - reflexivity.
  - vm_compute. repeat constructor.
  - vm_compute. lia.
  - exists s'. split; [exact Hrun|exact Hend].
Defined.

(** ** Opening a DFS directory *)

Lemma used_upto_trans j k s1 s2 s3 :
  used_upto j s1 s2 -> used_upto k s2 s3 -> used_upto (j + k) s1 s3.
Proof.
  intros (a & Ha & E1) (b & Hb & E2). exists (a + b)%nat. split; [lia|].
  rewrite E2, E1, drop_drop. reflexivity.
Qed.

Lemma HdfsGetProtocol_unanswered fileName size s :
  wp (HdfsGetProtocol fileName size)
    (fun _ s' => aside s s' /\ replies s' = replies s) (fun _ _ => True) s.
Proof. unfold HdfsGetProtocol. wp_auto; (split; [solve_aside|reflexivity]). Qed.

Lemma ConvertToUnixPath_unanswered fileName len s :
  wp (ConvertToUnixPath fileName len)
    (fun _ s' => aside s s' /\ replies s' = replies s) (fun _ _ => True) s.
Proof. unfold ConvertToUnixPath. wp_auto; (split; [solve_aside|reflexivity]). Qed.

Lemma HdfsGetConnection_one_answer protocol path s :
  wp (HdfsGetConnection protocol path)
    (fun _ s' => aside s s' /\ used_upto 1 s s') (fun _ _ => True) s.
Proof.
  unfold HdfsGetConnection. wp_auto; (split; [solve_aside|]);
    solve [ exists 0%nat; split; [lia|reflexivity]
          | exists 1%nat; split; [lia|];
            match goal with H : replies s = _ |- _ => st_simpl; rewrite H end;
            reflexivity ].
Qed.

Lemma AllocateDir_remote_spec (dirname : string) (s : State) :
  wp (AllocateDir_remote dirname)
    (fun r s' =>
       VfdCache s' = VfdCache s /\ nfile s' = nfile s /\
       RecentRemoteAllocatedDesc s' = RecentRemoteAllocatedDesc s /\
       (r = NULL /\ numAllocatedDescs s' = numAllocatedDescs s /\
        allocatedDescs s' = allocatedDescs s
        \/
        r <> NULL /\
        exists k info m sub d,
          (k <= 1)%nat /\
          drop k (replies s) = info :: m :: sub :: replies s' /\
          r = r_ret m /\ is_listing r (r_names info) d /\
          ad_create_subid d = r_ret sub /\
          numAllocatedDescs s' = numAllocatedDescs s + 1 /\
          allocatedDescs s'
          = <[Z.to_nat (numAllocatedDescs s) := d]> (allocatedDescs s) /\
          exists fs path, called s s' (c_hdfsListDirectory fs path)))
    (fun _ _ => True) s.
Proof.
  assert (Hnull : forall s', aside s s' ->
            VfdCache s' = VfdCache s /\ nfile s' = nfile s /\
            RecentRemoteAllocatedDesc s' = RecentRemoteAllocatedDesc s /\
            numAllocatedDescs s' = numAllocatedDescs s /\
            allocatedDescs s' = allocatedDescs s).
  { intros s' [Hf _]. unfold files in Hf. injection Hf. auto 10. }
  unfold AllocateDir_remote. apply wp_bind.
  eapply wp_mono; [apply HdfsGetProtocol_unanswered| |auto].
  intros got s1 [Ha1 Hr1].
  destruct got as [proto|].
  2:{ wp_step. destruct (Hnull _ Ha1) as (? & ? & ? & ? & ?). auto 10. }
  apply wp_bind.
  eapply wp_mono; [apply ConvertToUnixPath_unanswered| |auto].
  intros conv s2 [Ha2 Hr2]. pose proof (aside_trans _ _ _ Ha1 Ha2) as Ha12.
  destruct conv as [unixpath|].
  2:{ wp_step. destruct (Hnull _ Ha12) as (? & ? & ? & ? & ?). auto 10. }
  apply wp_bind.
  eapply wp_mono; [apply HdfsGetConnection_one_answer| |auto].
  intros fs s3 [Ha3 (k & Hk & Hr3)].
  pose proof (aside_trans _ _ _ Ha12 Ha3) as Ha13.
  rewrite Hr2, Hr1 in Hr3.
  destruct (fs =? NULL) eqn:Hfs.
  { wp_step. destruct (Hnull _ Ha13) as (? & ? & ? & ? & ?). auto 10. }
  wp_step. apply wp_call; [auto|]. intros info rest Hinfo.
  destruct (Hnull _ Ha13) as (Hc & Hnf & Hrec & Hnum & Hdescs).
  destruct (r_ret info =? NULL).
  { wp_step. st_simpl. auto 10. }
  wp_step. apply wp_sys; [auto|]. intros m rest1 Hm.
  st_simpl_in Hm. rewrite Hinfo in Hm. cbn [tl] in Hm. subst rest.
  wp_step. destruct (r_ret m =? NULL) eqn:Hdir.
  { wp_step. auto. }
  wp_step. wp_step. wp_step. st_simpl. wp_step.
  apply wp_sys; [auto|]. intros sub rest2 Hsub.
  st_simpl_in Hsub. rewrite Hinfo in Hsub. cbn [tl] in Hsub. subst rest1.
  unfold set_desc. wp_step. wp_step. wp_step. wp_step. wp_step.
  st_simpl. rewrite Hinfo. cbn [tl]. rewrite Hnum, Hdescs.
  repeat split; auto. right. apply Z.eqb_neq in Hdir. split; [exact Hdir|].
  exists k, info, m, sub,
    (fill_remote_desc (r_ret m) (r_ret sub) (strncpy proto MAXPGPATH)
       (r_names info) (allocatedDescs s !!! Z.to_nat (numAllocatedDescs s))).
  split; [exact Hk|].
  split; [now rewrite <- Hr3|]. split; [reflexivity|].
  split; [repeat split|]. split; [reflexivity|]. split; [reflexivity|].
  split; [reflexivity|]. exists fs, unixpath.
  destruct Ha13 as [_ (new & Hnew)].
  exists (new ++ [mkEvent (c_hdfsListDirectory fs unixpath) (VfdCache s3)]
              ++ [mkEvent (c_malloc 1) (VfdCache s3)]
              ++ [mkEvent c_GetCurrentSubTransactionId (VfdCache s3)]).
  split.
  - unfold logged in *. st_simpl. rewrite Hnew, <- !app_assoc. reflexivity.
  - rewrite map_app. apply in_or_app. right. now left.
Qed.

Lemma AllocateDir_remote_inv (dirname : string) (s : State) (r : Z)
    (s' : State) :
  IsLocalPath dirname = false -> registry_ok s ->
  AllocateDir dirname s = Normal r s' ->
  VfdCache s' = VfdCache s /\ nfile s' = nfile s /\
  RecentRemoteAllocatedDesc s' = RecentRemoteAllocatedDesc s /\
  (r = NULL /\ numAllocatedDescs s' = numAllocatedDescs s /\
   allocatedDescs s' = allocatedDescs s
   \/
   r <> NULL /\
   (Z.to_nat (numAllocatedDescs s) < length (allocatedDescs s))%nat /\
   exists k info m sub d,
     (k <= 1)%nat /\
     drop k (replies s) = info :: m :: sub :: replies s' /\
     r = r_ret m /\ is_listing r (r_names info) d /\
     ad_create_subid d = r_ret sub /\
     numAllocatedDescs s' = numAllocatedDescs s + 1 /\
     allocatedDescs s'
     = <[Z.to_nat (numAllocatedDescs s) := d]> (allocatedDescs s) /\
     exists fs path, called s s' (c_hdfsListDirectory fs path)).
Proof.
  intros Hremote [Hn Hlen] Hrun.
  assert (H : wp (AllocateDir dirname)
                (fun r s' =>
                   out_of_descs s = false /\
                   AllocateDir_remote dirname s = Normal r s')
                (fun _ _ => True) s).
  { unfold AllocateDir. wp_step. wp_step. wp_step.
    destruct (out_of_descs s) eqn:Hout; [wp_step; auto|].
    wp_step. rewrite Hremote. cbn [negb]. unfold wpx.
    destruct (AllocateDir_remote dirname s); auto. }
  destruct (wp_normal _ _ _ _ _ _ H Hrun) as [Hout Hrun'].
  pose proof (wp_normal _ _ _ _ _ _ (AllocateDir_remote_spec dirname s) Hrun')
    as (Hc & Hnf & Hrec & Hcases).
  split; [exact Hc|]. split; [exact Hnf|]. split; [exact Hrec|].
  destruct Hcases as [Hnull|[Hr Hrest]]; [left; exact Hnull|right].
  split; [exact Hr|]. split; [|exact Hrest].
  unfold out_of_descs in Hout. apply orb_false_elim in Hout as [Hmax _].
  rewrite Z.geb_leb in Hmax. apply Z.leb_gt in Hmax. rewrite Hlen. lia.
Qed.

(** X21 — [AllocateDir] on a DFS path, whenever it returns.  It never
    touches the table of files or [nfile].  When it returns NULL the
    registry is as before.  Otherwise the value returned is the answer of
    [malloc], the listing that the DFS client gave is recorded, unread, as
    the last entry in use of the registry, under the current
    subtransaction; the script was used for the listing, the [malloc] and
    the subtransaction id, after at most one earlier answer (the
    connection). *)
Theorem X21_AllocateDir_remote (dirname : string) (s : State) (r : Z)
    (s' : State) :
  IsLocalPath dirname = false -> registry_ok s ->
  AllocateDir dirname s = Normal r s' ->
  VfdCache s' = VfdCache s /\ nfile s' = nfile s /\
  (r = NULL /\ live_descs s' = live_descs s
   \/
   r <> NULL /\
   exists k info m sub d,
     (k <= 1)%nat /\
     drop k (replies s) = info :: m :: sub :: replies s' /\
     r = r_ret m /\ is_listing r (r_names info) d /\
     ad_create_subid d = r_ret sub /\
     live_descs s' = live_descs s ++ [d] /\
     exists fs path, called s s' (c_hdfsListDirectory fs path)).
Proof.
  intros Hremote Hok Hrun.
  destruct (AllocateDir_remote_inv dirname s r s' Hremote Hok Hrun)
    as (Hc & Hnf & _ & Hcases).
  split; [exact Hc|]. split; [exact Hnf|].
  destruct Hcases as [(Hr & Hnum & Hdescs)|(Hr & Hlt & Hrest)].
  - left. split; [exact Hr|]. unfold live_descs. now rewrite Hnum, Hdescs.
  - right. split; [exact Hr|].
    destruct Hrest as (k & info & m & sub & d & Hk & Hdrop & Hm & Hl & Hsub
                       & Hnum & Hdescs & fs & path & new & Hlog & Hin).
    exists k, info, m, sub, d.
    split; [exact Hk|]. split; [exact Hdrop|]. split; [exact Hm|].
    split; [exact Hl|]. split; [exact Hsub|]. split.
    + unfold live_descs. rewrite Hnum, Hdescs.
      destruct Hok as [Hn _].
      replace (Z.to_nat (numAllocatedDescs s + 1))
        with (S (Z.to_nat (numAllocatedDescs s))) by lia.
      now apply live_descs_pushed.
    + exists fs, path, new. split; [exact Hlog|exact Hin].
Qed.

Lemma X21_AllocateDir_remote_witness :
  exists s' d,
    AllocateDir "hdfs://h:1/d"
      (initial_state [ok 7; named 1 ["/d/a"; "/d/sub/b"]; ok 77; ok 3])
    = Normal 77 s' /\
    live_descs s' = [d] /\ is_listing 77 ["/d/a"; "/d/sub/b"] d.
Proof.
  set (s0 := initial_state [ok 7; named 1 ["/d/a"; "/d/sub/b"]; ok 77; ok 3]).
  set (s' := state_of (AllocateDir "hdfs://h:1/d" s0)).
  assert (Hrun : AllocateDir "hdfs://h:1/d" s0 = Normal 77 s')
    by (vm_compute; reflexivity).
  destruct (X21_AllocateDir_remote "hdfs://h:1/d" s0 77 s')
    as (_ & _ & [[Hr _]|(_ & k & info & m & sub & d & Hk & Hdrop & _ & Hl & _
                          & Hlive & _)]).
  - reflexivity.
  - split; [vm_compute; split; discriminate|reflexivity].
  - exact Hrun.
  - discriminate Hr.
  - exists s', d. split; [exact Hrun|]. split; [exact Hlive|].
    assert (Hinfo : info = named 1 ["/d/a"; "/d/sub/b"]).
    { destruct k as [|[|k]]; [| |lia].
      - vm_compute in Hdrop. discriminate Hdrop.
      - vm_compute in Hdrop. now injection Hdrop as <-. }
    now rewrite Hinfo in Hl.
Defined.

(** X22 — Opening a DFS directory and reading it to its end.  When
    [AllocateDir] returns a directory for which the registry held no entry
    in use, the loop [while (ReadDir(dir, path) != NULL)] sees exactly the
    names of the listing that the DFS client answered, in its order, each
    cut down to the part after its last slash; reading calls nothing. *)
Theorem X22_AllocateDir_ReadDir_all (dirname : string) (s : State) (dir : Z)
    (s1 : State) (fuel : nat) :
  IsLocalPath dirname = false -> registry_ok s ->
  AllocateDir dirname s = Normal dir s1 -> dir <> NULL ->
  Forall (fun d => is_remote_dir dir d = false) (live_descs s) ->
  exists k info m sub,
    (k <= 1)%nat /\
    drop k (replies s) = info :: m :: sub :: replies s1 /\
    (Forall (fun name => strlen (basename name) < 256) (r_names info) ->
     (length (r_names info) < fuel)%nat ->
     exists s2,
       ReadDir_all fuel dir dirname s1
       = Normal (map basename (r_names info)) s2 /\
       trace s2 = trace s1 /\ replies s2 = replies s1 /\
       VfdCache s2 = VfdCache s).
Proof.
  intros Hremote Hok Hrun Hdir Hfresh.
  destruct (AllocateDir_remote_inv dirname s dir s1 Hremote Hok Hrun)
    as (Hc & _ & _ & [[Hr _]|(_ & Hlt & Hrest)]); [contradiction|].
  destruct Hrest as (k & info & m & sub & d & Hk & Hdrop & Hm & Hl & Hsub
                     & Hnum & Hdescs & _).
  destruct Hl as (Hkind & Hdesc & Hnames & Hcur & Hnumd).
  destruct Hok as [Hn Hlen].
  set (n := Z.to_nat (numAllocatedDescs s)) in *.
  exists k, info, m, sub. split; [exact Hk|]. split; [exact Hdrop|].
  intros Hfit Hfuel.
  assert (Hd : allocatedDescs s1 !!! n = d).
  { rewrite Hdescs. now apply list_lookup_total_insert_eq. }
  assert (Hat : listing_at s1 dir n).
  { unfold listing_at. rewrite Hnum, Hd, Hdescs, length_insert.
    split; [lia|]. split; [exact Hlt|]. split.
    - unfold is_remote_dir. rewrite Hkind, Hdesc, Z.eqb_refl.
      now rewrite bool_decide_eq_true_2.
    - intros j Hj Hrd. destruct (decide (j = n)) as [->|Hne]; [reflexivity|].
      exfalso. rewrite list_lookup_total_insert_ne in Hrd by congruence.
      rewrite Forall_forall in Hfresh.
      assert (Hjn : (j < n)%nat) by lia.
      assert (Hin : allocatedDescs s !!! j ∈ live_descs s).
      { apply list_elem_of_lookup. exists j.
        unfold live_descs. fold n. rewrite lookup_take_lt by exact Hjn.
        apply list_lookup_lookup_total_lt. lia. }
      rewrite (Hfresh _ Hin) in Hrd. discriminate Hrd. }
  destruct (ReadDir_all_run dir dirname s1 n fuel Hdir Hremote Hat)
    as (s2 & Hall & Htr & Hrep & Hc2 & _).
  - rewrite Hd, Hcur. lia.
  - rewrite Hd, Hnumd, Hnames. reflexivity.
  - rewrite Hd. unfold unread. rewrite Hcur, Hnames. exact Hfit.
  - rewrite Hd. unfold unread. rewrite Hcur, Hnames. exact Hfuel.
  - exists s2. rewrite Hd in Hall. unfold unread in Hall.
    rewrite Hcur, Hnames in Hall. cbn [Z.to_nat drop] in Hall.
    repeat split; auto. congruence.
Qed.

Lemma X22_AllocateDir_ReadDir_all_witness :
  exists s1 s2,
    AllocateDir "hdfs://h:1/d"
      (initial_state [ok 7; named 1 ["/d/a"; "/d/sub/b"]; ok 77; ok 3])
    = Normal 77 s1 /\
    ReadDir_all 3 77 "hdfs://h:1/d" s1 = Normal ["a"; "b"] s2.
Proof.
  set (s0 := initial_state [ok 7; named 1 ["/d/a"; "/d/sub/b"]; ok 77; ok 3]).
  set (s1 := state_of (AllocateDir "hdfs://h:1/d" s0)).
  assert (Hrun : AllocateDir "hdfs://h:1/d" s0 = Normal 77 s1)
    by (vm_compute; reflexivity).
  destruct (X22_AllocateDir_ReadDir_all "hdfs://h:1/d" s0 77 s1 3)
    as (k & info & m & sub & Hk & Hdrop & Hall).
  - reflexivity.
  - split; [vm_compute; split; discriminate|reflexivity].
  - exact Hrun.
  - discriminate.
  - vm_compute. constructor.
  - assert (Hinfo : info = named 1 ["/d/a"; "/d/sub/b"]).
    { destruct k as [|[|k]]; [| |lia].
      - vm_compute in Hdrop. discriminate Hdrop.
      - vm_compute in Hdrop. now injection Hdrop as <-. }
    subst info. destruct Hall as (s2 & Hall & _).
    + vm_compute. repeat constructor.
    + vm_compute. lia.
    + exists s1, s2. split; [exact Hrun|exact Hall].
Defined.

(** ** Closing a DFS directory *)

(** X23 — [FreeDir] on a directory whose entries in use are all listings
    of DFS directories: the listing is handed back to the DFS client, no
    [closedir] is called and no answer of the environment is used; one such
    entry leaves the registry (which is compacted), and the value returned
    is 1 -- not the 0 that closing a local directory returns on success.
    The table and [nfile] are untouched. *)
Theorem X23_FreeDir_remote (dir : Z) (s : State) :
  registry_ok s ->
  (exists d, In d (live_descs s) /\ is_dir_entry dir d = true) ->
  (forall d, In d (live_descs s) -> is_dir_entry dir d = true ->
     kind d = AllocateDescRemoteDir) ->
  exists s' d,
    FreeDir dir s = Normal 1 s' /\
    is_remote_dir dir d = true /\
    live_descs s ≡ₚ d :: live_descs s' /\
    numAllocatedDescs s' = numAllocatedDescs s - 1 /\
    called s s' (c_HdfsFreeFileInfo (protocol d) (num d)) /\
    calls is_closedir s' = calls is_closedir s /\
    replies s' = replies s /\
    VfdCache s' = VfdCache s /\ nfile s' = nfile s.
Proof.
  intros [Hn Hlen] (d0 & Hin0 & Hd0) Hremote.
  set (n := Z.to_nat (numAllocatedDescs s)).
  assert (Hnl : (n <= length (allocatedDescs s))%nat)
    by (unfold n, MAX_ALLOCATED_DESCS in *; lia).
  destruct (find_desc_down (is_dir_entry dir) (allocatedDescs s) n)
    as [i|] eqn:Efind.
  2:{ exfalso. pose proof (find_desc_down_None _ _ _ Efind) as Hnone.
      unfold live_descs in Hin0. fold n in Hin0.
      apply In_take_lookup in Hin0 as (j & Hj & <-); [|exact Hnl].
      rewrite (Hnone j Hj) in Hd0. discriminate. }
  destruct (find_desc_down_Some _ _ _ _ Efind) as [Hi HPi].
  set (d := allocatedDescs s !!! i) in *.
  assert (Hlive : In d (live_descs s)).
  { unfold live_descs. fold n. apply In_take_lookup; eauto. }
  pose proof (Hremote d Hlive HPi) as Hkind.
  assert (Hdesc : desc d = dir).
  { unfold is_dir_entry in HPi. apply andb_prop in HPi as [_ H].
    now apply Z.eqb_eq in H. }
  assert (Htwp : twp (FreeDir dir)
            (fun r s' =>
               r = 1 /\
               s' = with_allocatedDescs
                      (<[i := allocatedDescs s !!! (n - 1)%nat]>
                         (allocatedDescs s))
                      (with_numAllocatedDescs (numAllocatedDescs s - 1)
                         (record (c_HdfsFreeFileInfo (protocol d) (num d)) s)))
            (fun _ _ => False) s).
  { unfold FreeDir. wp_step. wp_step.
    change (fun d1 : AllocateDesc =>
              negb (bool_decide (kind d1 = AllocateDescFile)) && (desc d1 =? dir))
      with (is_dir_entry dir).
    fold n. rewrite Efind.
    unfold FreeDesc, get_desc, set_desc. wp_step. wp_step.
    rewrite Nat2Z.id. fold d. rewrite Hkind. do 10 wp_step.
    split; [reflexivity|].
    replace (Z.to_nat (numAllocatedDescs s - 1)) with (n - 1)%nat
      by (unfold n; lia).
    reflexivity. }
  apply twp_elim in Htwp
    as [(r & s' & Hrun & -> & ->)|(sev & code & msg & s' & _ & [])].
  eexists. exists d. split; [exact Hrun|]. st_norm.
  split.
  { unfold is_remote_dir. rewrite Hkind, Hdesc, Z.eqb_refl.
    now rewrite bool_decide_eq_true_2. }
  split.
  { unfold live_descs. st_norm. fold n.
    replace (Z.to_nat (numAllocatedDescs s - 1)) with (n - 1)%nat
      by (unfold n; lia).
    now apply live_descs_removed. }
  split; [reflexivity|]. split.
  { eexists. split; [unfold logged; st_norm; reflexivity|]. now left. }
  split.
  { unfold calls. st_norm. rewrite map_app, List.filter_app.
    apply app_nil_r. }
  repeat split; reflexivity.
Qed.

Lemma X23_FreeDir_remote_witness :
  exists s',
    FreeDir 77 (one_listing ["/d/a"] [ok 0]) = Normal 1 s' /\
    replies s' = [ok 0].
Proof.
  destruct (X23_FreeDir_remote 77 (one_listing ["/d/a"] [ok 0]))
    as (s' & d & Hrun & _ & _ & _ & _ & _ & Hrep & _).
  - split; [vm_compute; split; discriminate|reflexivity].
  - eexists. split; [left; reflexivity|reflexivity].
  - intros d [<-|[]] _. reflexivity.
  - exists s'. split; [exact Hrun|exact Hrep].
Defined.

(** ** Temporary files *)

Lemma wp_conj {A} (m : M A) (Q1 Q2 : A -> State -> Prop) Qe s :
  wp m Q1 Qe s -> wp m Q2 Qe s ->
  wp m (fun a s' => Q1 a s' /\ Q2 a s') Qe s.
Proof. unfold wpx. destruct (m s); tauto. Qed.

Lemma HdfsPathNameOpenFile_counter (name : string) (flags mode : Z)
    (s : State) :
  (0 < length (VfdCache s))%nat -> free_head_ok (VfdCache s) ->
  wp (HdfsPathNameOpenFile name flags mode)
    (fun _ s' => tempFileCounter s' = tempFileCounter s) (fun _ _ => True) s.
Proof.
  intros Hlen Hfree. unfold HdfsPathNameOpenFile.
  wp_step. wp_step. wp_step. wp_step; [wp_step; exact I|]. wp_step. wp_step.
  match goal with
  | |- wpx _ _ _ _ ?st => set (s1 := st)
  end.
  assert (Hs1 : aside s s1) by (unfold s1; solve_aside).
  eapply wp_mono; [apply HdfsBasicOpenFile_opened| |auto].
  intros [result [[protocol fs] hfile]] s2 (Has & Hres). cbv beta iota.
  pose proof (aside_trans _ _ _ Hs1 Has) as [Hfiles _].
  assert (Hc2 : VfdCache s2 = VfdCache s /\
                tempFileCounter s2 = tempFileCounter s)
    by (unfold files in Hfiles; split; congruence).
  destruct Hc2 as [Hc2 Ht2].
  destruct result; cbn [negb].
  - wp_step.
    eapply wp_mono;
      [apply (AllocateVfd_allocated (T := True) s2);
       [now rewrite Hc2|now rewrite Hc2|now left]| |auto].
    intros file s3 (Hal & _).
    unfold allocated in Hal. cbv zeta in Hal.
    destruct Hal as (_ & _ & _ & _ & _ & _ & _ & _ & _ & Hreg).
    assert (Ht3 : tempFileCounter s3 = tempFileCounter s)
      by (unfold registry in Hreg; congruence).
    do 16 wp_step. wp_step. st_simpl. exact Ht3.
  - wp_step. wp_step. wp_step. st_simpl. exact Ht2.
Qed.

Lemma open_failed_free_head (s : State) (file : File) (s' : State) :
  open_failed s file s' -> free_head_ok (VfdCache s').
Proof.
  unfold open_failed, free_head_ok. cbv zeta.
  intros (Hfile & (Hfd & _ & _ & Hfs & Hh & _) & Hhead & _).
  right. rewrite Hhead. split; [exact Hfile|].
  unfold FileIsNotOpen. rewrite Hfd, Hfs, Hh. reflexivity.
Qed.

(** What is known of the table after [PathNameOpenFile]. *)
Lemma PathNameOpenFile_spec (name : string) (flags mode : Z) (s : State) :
  ring_ok (VfdCache s) -> free_head_ok (VfdCache s) ->
  wp (PathNameOpenFile name flags mode)
    (fun r s' =>
       ring_ok (VfdCache s') /\ tempFileCounter s' = tempFileCounter s /\
       (r = -1 /\ free_head_ok (VfdCache s')
        \/
        0 < r < Z.of_nat (length (VfdCache s')) /\
        fdstate (slot (VfdCache s') r) = 0 /\
        fileName (slot (VfdCache s') r) = Some name))
    (fun _ _ => True) s.
Proof.
  intros Hok Hfree. unfold PathNameOpenFile.
  destruct (IsLocalPath name).
  - eapply wp_mono;
      [apply (LocalPathNameOpenFile_spec name flags mode s Hok Hfree)| |auto].
    intros r s' (file & (Hok' & _ & _ & Hreg & _) & Hcases).
    split; [exact Hok'|].
    split; [unfold registry in Hreg; congruence|].
    destruct Hcases as [[-> Hop]|[-> Hfail]].
    + right. unfold opened_local in Hop. cbv zeta in Hop.
      destruct Hop as (Hfile & _ & _ & Hname & _ & _ & _ & Hst & _). auto.
    + left. split; [reflexivity|]. eapply open_failed_free_head; eauto.
  - assert (Hlen : (0 < length (VfdCache s))%nat) by now destruct Hok.
    eapply wp_mono;
      [apply wp_conj;
       [apply (HdfsPathNameOpenFile_spec name flags mode s Hlen Hfree)
       |apply (HdfsPathNameOpenFile_counter name flags mode s Hlen Hfree)]
      | |auto].
    intros r s' [(_ & Hcases) Hcount]. cbv beta in Hcases.
    destruct Hcases as [[-> Hc]|(Hr & Hop & _ & _ & Hring)].
    + rewrite Hc. auto.
    + split; [auto|]. split; [exact Hcount|]. right.
      destruct Hop as (Hname & _ & _ & _ & _ & _ & Hst & _). auto.
Qed.

Lemma FileNameOpenFile_spec (name : string) (flags mode : Z) (s : State) :
  ring_ok (VfdCache s) -> free_head_ok (VfdCache s) ->
  wp (FileNameOpenFile name flags mode)
    (fun r s' =>
       ring_ok (VfdCache s') /\ tempFileCounter s' = tempFileCounter s /\
       (r = -1 /\ free_head_ok (VfdCache s')
        \/
        0 < r < Z.of_nat (length (VfdCache s')) /\
        fdstate (slot (VfdCache s') r) = 0 /\
        exists tmp,
          fileName (slot (VfdCache s') r)
          = Some (snprintf 4096 (path_join tmp name))))
    (fun _ _ => True) s.
Proof.
  intros Hok Hfree. unfold FileNameOpenFile.
  wp_step. apply wp_call; [auto|]. intros tmp rest Hrep.
  wp_step. wp_step; [wp_step; exact I|]. wp_step.
  eapply wp_mono; [apply PathNameOpenFile_spec; assumption| |auto].
  intros r s' (Hok' & Hcount & Hcases).
  split; [exact Hok'|]. split; [exact Hcount|].
  destruct Hcases as [Hfail|(Hr & Hst & Hname)]; [now left|right].
  split; [exact Hr|]. split; [exact Hst|]. eexists. exact Hname.
Qed.

Lemma substring_all (s : string) (n : nat) :
  (String.length s <= n)%nat -> substring 0 n s = s.
Proof.
  revert n. induction s as [|c s IH]; intros n Hn.
  - now destruct n.
  - destruct n as [|n]; [simpl in Hn; lia|]. simpl. f_equal. apply IH.
    simpl in Hn. lia.
Qed.

Lemma prefix_substring_app (p r : string) (n : nat) :
  (String.length p <= n)%nat ->
  String.prefix p (substring 0 n (p +:+ r)) = true.
Proof.
  revert n. induction p as [|c p IH]; intros n Hn.
  - now destruct (substring 0 n ("" +:+ r)).
  - destruct n as [|n]; [simpl in Hn; lia|].
    change (String c p +:+ r)%string with (String c (p +:+ r)). simpl.
    destruct (ascii_dec c c) as [_|Hne]; [|congruence].
    apply IH. simpl in Hn. lia.
Qed.

Lemma GetTempFilePrefix_fits (fileName : string) (len : Z) (prefix : string) :
  GetTempFilePrefix MAXPGPATH fileName = (len, prefix) ->
  (len <=? MAXPGPATH - 1) = true ->
  prefix = (PG_TEMP_FILES_DIR +:+ "/" +:+ PG_TEMP_FILE_PREFIX +:+ "_"
            +:+ fileName)%string /\
  (String.length prefix <= Z.to_nat (MAXPGPATH - 1))%nat.
Proof.
  unfold GetTempFilePrefix. intros H Hlen. apply Z.leb_le in Hlen.
  assert (Hneed : strlen PG_TEMP_FILES_DIR + strlen PG_TEMP_FILE_PREFIX
                  + strlen fileName + 2
                  = Z.of_nat (String.length fileName) + 20)
    by (unfold strlen; simpl; lia).
  rewrite Hneed in H.
  destruct (MAXPGPATH <? Z.of_nat (String.length fileName) + 20) eqn:E;
    injection H as <- <-; [unfold MAXPGPATH in *; lia|].
  assert (Hl : String.length
                 (PG_TEMP_FILES_DIR +:+ "/" +:+ PG_TEMP_FILE_PREFIX +:+ "_"
                  +:+ fileName)
               = (20 + String.length fileName)%nat) by reflexivity.
  unfold snprintf. rewrite substring_all by (rewrite Hl; unfold MAXPGPATH in *; lia).
  split; [reflexivity|]. rewrite Hl. unfold MAXPGPATH in *. lia.
Qed.

Lemma ring_ok_upd_mark (c : list Vfd) (file : File) (g : Vfd -> Vfd) :
  (forall v, fd (g v) = fd v /\ lruMoreRecently (g v) = lruMoreRecently v /\
             lruLessRecently (g v) = lruLessRecently v) ->
  ring_ok c -> ring_ok (upd file g c).
Proof.
  intros Hg Hok. apply (ring_ok_agree c); [exact Hok| | |].
  - intros i. unfold in_ring. rewrite length_upd, slot_upd.
    case_bool_decide as H; [|tauto].
    destruct H as [<- _]. destruct (Hg (slot c file)) as (-> & _). tauto.
  - intros i _. unfold more, less. rewrite slot_upd.
    case_bool_decide as H; [|auto].
    destruct H as [<- _]. destruct (Hg (slot c file)) as (_ & -> & ->). auto.
  - rewrite length_upd. now destruct Hok.
Qed.

Lemma OpenTemporaryFile_spec (name : string) (extentseqnum : Z)
    (makenameunique create delOnClose closeAtEOXact : bool) (MyProcPid : Z)
    (s : State) :
  ring_ok (VfdCache s) -> free_head_ok (VfdCache s) ->
  wp (OpenTemporaryFile name extentseqnum makenameunique create
        delOnClose closeAtEOXact MyProcPid)
    (fun r s' =>
       tempFileCounter s'
       = (if makenameunique then tempFileCounter s + 1 else tempFileCounter s) /\
       (r = -1 /\ create = false
        \/
        0 < r < Z.of_nat (length (VfdCache s')) /\
        ring_ok (VfdCache s') /\
        has_flag (fdstate (slot (VfdCache s') r)) FD_TEMPORARY = delOnClose /\
        has_flag (fdstate (slot (VfdCache s') r)) FD_CLOSE_AT_EOXACT
        = closeAtEOXact /\
        exists tmp path,
          fileName (slot (VfdCache s') r)
          = Some (snprintf 4096 (path_join tmp path)) /\
          String.prefix
            (PG_TEMP_FILES_DIR +:+ "/" +:+ PG_TEMP_FILE_PREFIX +:+ "_"
             +:+ name) path = true))
    (fun _ _ => True) s.
Proof.
  intros Hok Hfree. unfold OpenTemporaryFile.
  destruct (GetTempFilePrefix MAXPGPATH name) as [len prefix] eqn:Epre.
  wp_step. unfold insist_log.
  destruct (len <=? MAXPGPATH - 1) eqn:Hlen; [|wp_step; wp_step; wp_step; exact I].
  destruct (GetTempFilePrefix_fits _ _ _ Epre Hlen) as [Hprefix Hfits].
  set (P := (PG_TEMP_FILES_DIR +:+ "/" +:+ PG_TEMP_FILE_PREFIX +:+ "_"
             +:+ name)%string) in *.
  wp_step.
  set (Q := fun (r : File) (s' : State) =>
       tempFileCounter s'
       = (if makenameunique then tempFileCounter s + 1 else tempFileCounter s) /\
       (r = -1 /\ create = false
        \/
        0 < r < Z.of_nat (length (VfdCache s')) /\
        ring_ok (VfdCache s') /\
        has_flag (fdstate (slot (VfdCache s') r)) FD_TEMPORARY = delOnClose /\
        has_flag (fdstate (slot (VfdCache s') r)) FD_CLOSE_AT_EOXACT
        = closeAtEOXact /\
        exists tmp path,
          fileName (slot (VfdCache s') r)
          = Some (snprintf 4096 (path_join tmp path)) /\
          String.prefix P path = true)).
  assert (Hmarks : forall (b : string) (file : File) (s3 : State),
            String.prefix P b = true -> ring_ok (VfdCache s3) ->
            tempFileCounter s3
            = (if makenameunique then tempFileCounter s + 1
               else tempFileCounter s) ->
            0 < file < Z.of_nat (length (VfdCache s3)) ->
            fdstate (slot (VfdCache s3) file) = 0 ->
            (exists tmp, fileName (slot (VfdCache s3) file)
                         = Some (snprintf 4096 (path_join tmp b))) ->
            wp ((if delOnClose
                 then set_vfd file
                        (fun v => set_fdstate
                                    (uint16 (Z.lor (fdstate v) FD_TEMPORARY)) v)
                 else ret tt) ;;;
                (if closeAtEOXact
                 then
                   set_vfd file
                     (fun v => set_fdstate
                                 (uint16 (Z.lor (fdstate v) FD_CLOSE_AT_EOXACT)) v) ;;;
                   subid <- sys c_GetCurrentSubTransactionId ;;
                   set_vfd file (set_create_subid subid)
                 else ret tt) ;;;
                ret file) Q (fun _ _ => True) s3).
  { intros b file s3 Hb Hok3 Hc3 Hfile Hst (tmp & Hname).
    assert (Hdone : forall s', ring_ok (VfdCache s') ->
              length (VfdCache s') = length (VfdCache s3) ->
              fdstate (slot (VfdCache s') file)
              = Z.lor (if delOnClose then FD_TEMPORARY else 0)
                      (if closeAtEOXact then FD_CLOSE_AT_EOXACT else 0) ->
              fileName (slot (VfdCache s') file)
              = fileName (slot (VfdCache s3) file) ->
              tempFileCounter s' = tempFileCounter s3 ->
              Q file s').
    { intros s' Hok' Hlen' Hst' Hname' Hcount'. unfold Q.
      rewrite Hcount'. split; [exact Hc3|]. right.
      split; [lia|]. split; [exact Hok'|]. rewrite Hst'.
      split; [now destruct delOnClose, closeAtEOXact|].
      split; [now destruct delOnClose, closeAtEOXact|].
      exists tmp, b. rewrite Hname'. auto. }
    assert (Hmark : forall x v,
              fd (set_fdstate x v) = fd v /\
              lruMoreRecently (set_fdstate x v) = lruMoreRecently v /\
              lruLessRecently (set_fdstate x v) = lruLessRecently v)
      by (intros; repeat split).
    assert (Hsub : forall x v,
              fd (set_create_subid x v) = fd v /\
              lruMoreRecently (set_create_subid x v) = lruMoreRecently v /\
              lruLessRecently (set_create_subid x v) = lruLessRecently v)
      by (intros; repeat split).
    destruct delOnClose, closeAtEOXact; repeat wp_known;
      try (apply wp_sys; [auto|]; intros sub rest Hrep; repeat wp_known);
      (apply Hdone; st_simpl;
       [ repeat apply ring_ok_upd_mark; auto
       | now rewrite ?length_upd
       | slot_simpl; rewrite ?Hst; reflexivity
       | slot_simpl; reflexivity
       | reflexivity ]). }
  assert (Hrest : forall (b : string) (s1 : State),
            String.prefix P b = true -> ring_ok (VfdCache s1) ->
            free_head_ok (VfdCache s1) ->
            tempFileCounter s1
            = (if makenameunique then tempFileCounter s + 1
               else tempFileCounter s) ->
            wp (file <-
                FileNameOpenFile b
                  (if create
                   then Z.lor (Z.lor O_RDWR PG_BINARY) (Z.lor O_TRUNC O_CREAT)
                   else Z.lor O_RDWR PG_BINARY)
                  384;;
                opened <-
                (if file <=? 0
                 then
                  if negb create
                  then ret (inl file)
                  else
                   tmp <- call c_getCurrentTempFilePath;;
                   sys
                     (c_mkdir
                        (snprintf 4096
                           (path_join (default "" (head (r_names tmp)))
                              PG_TEMP_FILES_DIR))
                        S_IRWXU);;;
                   file0 <-
                   FileNameOpenFile b
                     (if create
                      then Z.lor (Z.lor O_RDWR PG_BINARY) (Z.lor O_TRUNC O_CREAT)
                      else Z.lor O_RDWR PG_BINARY)
                     384;;
                   (if file0 <=? 0
                    then
                     ereport ERROR ERRCODE_DEFAULT
                       "could not create temporary file %s: %m" [b]
                    else ret ());;;
                   ret (inr file0)
                 else ret (inr file));;
                match opened with
                | inl failure => ret failure
                | inr file0 =>
                    (if delOnClose
                     then
                      set_vfd file0
                        (fun v : Vfd =>
                           set_fdstate (uint16 (Z.lor (fdstate v) FD_TEMPORARY)) v)
                     else ret ());;;
                    (if closeAtEOXact
                     then
                      set_vfd file0
                        (fun v : Vfd =>
                           set_fdstate
                             (uint16 (Z.lor (fdstate v) FD_CLOSE_AT_EOXACT)) v);;;
                      subid <- sys c_GetCurrentSubTransactionId;;
                      set_vfd file0 (set_create_subid subid)
                     else ret ());;;
                    ret file0
                end) Q (fun _ _ => True) s1).
  { intros b s1 Hb Hok1 Hfree1 Hc1. apply wp_bind.
    eapply wp_mono; [apply FileNameOpenFile_spec; assumption| |auto].
    intros file s2 (Hok2 & Hc2 & [[-> Hfree2]|(Hr & Hst & Hname)]).
    - change (-1 <=? 0) with true. cbv iota. destruct create; cbn [negb].
      + wp_step. wp_step. apply wp_call; [auto|]. intros tmp rest Hrep.
        wp_step. apply wp_sys; [auto|]. intros mk rest' Hrep'.
        apply wp_bind.
        eapply wp_mono; [apply FileNameOpenFile_spec; assumption| |auto].
        intros file s3 (Hok3 & Hc3 & [[-> _]|(Hr & Hst & Hname)]).
        * change (-1 <=? 0) with true. cbv iota. wp_step. wp_step. exact I.
        * assert (Hpos : (file <=? 0) = false) by lia. rewrite Hpos.
          wp_step. wp_step. wp_step.
          apply (Hmarks b); auto. st_simpl_in Hc3. congruence.
      + wp_step. wp_step. wp_step. unfold Q. split; [congruence|]. now left.
    - assert (Hpos : (file <=? 0) = false) by lia. rewrite Hpos.
      wp_step. wp_step. apply (Hmarks b); auto. congruence. }
  destruct makenameunique.
  - wp_step. wp_step. wp_step. wp_step. wp_step. apply Hrest; auto.
    rewrite Hprefix. unfold snprintf. apply prefix_substring_app.
    rewrite <- Hprefix. exact Hfits.
  - wp_step. apply Hrest; auto.
    rewrite Hprefix. unfold snprintf. apply prefix_substring_app.
    rewrite <- Hprefix. exact Hfits.
Qed.

(** X24 — [OpenTemporaryFile] on a table with a well-formed ring,
    whenever it returns.  With [create] it returns a valid slot or does not
    return at all (a second failure, after making the directory, is an
    ERROR); without [create] a failed open returns -1.  The slot returned
    carries FD_TEMPORARY exactly when [delOnClose] was asked for and
    FD_CLOSE_AT_EOXACT exactly when [closeAtEOXact] was; its file is, under
    the directory of temporary files, a path that starts with
    pgsql_tmp/pgsql_tmp_ and the caller's name.  The counter of temporary
    files has advanced by one if a unique name was asked for, and not at all
    otherwise.  The ring stays well formed. *)
Theorem X24_OpenTemporaryFile (name : string) (extentseqnum : Z)
    (makenameunique create delOnClose closeAtEOXact : bool) (MyProcPid : Z)
    (s : State) (r : File) (s' : State) :
  ring_ok (VfdCache s) -> free_head_ok (VfdCache s) ->
  OpenTemporaryFile name extentseqnum makenameunique create delOnClose
    closeAtEOXact MyProcPid s = Normal r s' ->
  tempFileCounter s'
  = (if makenameunique then tempFileCounter s + 1 else tempFileCounter s) /\
  (r = -1 /\ create = false
   \/
   0 < r < Z.of_nat (length (VfdCache s')) /\
   ring_ok (VfdCache s') /\
   has_flag (fdstate (slot (VfdCache s') r)) FD_TEMPORARY = delOnClose /\
   has_flag (fdstate (slot (VfdCache s') r)) FD_CLOSE_AT_EOXACT
   = closeAtEOXact /\
   exists tmp path,
     fileName (slot (VfdCache s') r)
     = Some (snprintf 4096 (path_join tmp path)) /\
     String.prefix
       (PG_TEMP_FILES_DIR +:+ "/" +:+ PG_TEMP_FILE_PREFIX +:+ "_" +:+ name)
       path = true).
Proof.
  intros Hok Hfree Hrun.
  exact (wp_normal _ _ _ _ _ _
           (OpenTemporaryFile_spec name extentseqnum makenameunique create
              delOnClose closeAtEOXact MyProcPid s Hok Hfree) Hrun).
Qed.

Lemma X24_OpenTemporaryFile_witness :
  exists s',
    OpenTemporaryFile "sort" 2 true true true true 42
      (one_free_slot [named 1 ["/tmp/x"]; ok 1; fails (-1) ENOENT;
                      named 1 ["/tmp/x"]; ok 0;
                      named 1 ["/tmp/x"]; ok 1; ok 6; ok 3])
    = Normal 1 s' /\
    tempFileCounter s' = 1 /\
    has_flag (fdstate (slot (VfdCache s') 1)) FD_TEMPORARY = true /\
    has_flag (fdstate (slot (VfdCache s') 1)) FD_CLOSE_AT_EOXACT = true.
Proof.
  set (s0 := one_free_slot [named 1 ["/tmp/x"]; ok 1; fails (-1) ENOENT;
                            named 1 ["/tmp/x"]; ok 0;
                            named 1 ["/tmp/x"]; ok 1; ok 6; ok 3]).
  set (s' := state_of (OpenTemporaryFile "sort" 2 true true true true 42 s0)).
  assert (Hrun : OpenTemporaryFile "sort" 2 true true true true 42 s0
                 = Normal 1 s') by (vm_compute; reflexivity).
  exists s'. split; [exact Hrun|].
  destruct (X24_OpenTemporaryFile "sort" 2 true true true true 42 s0 1 s')
    as (Hcount & [[Hr _]|(_ & _ & Htemp & Hclose & _)]).
  - apply one_free_slot_ring_ok.
  - right. vm_compute. repeat split; discriminate.
  - exact Hrun.
  - discriminate Hr.
  - split; [exact Hcount|]. split; [exact Htemp|exact Hclose].
Defined.

(** ** Start-up *)

(** X25 — [InitFileAccess].  When [malloc] fails it raises a FATAL out of
    memory error and leaves the table alone.  Otherwise the table is the
    one header slot: it holds no descriptor, the LRU ring (the header
    alone) is well formed and the free list is empty, so that the first
    [AllocateVfd] that returns afterwards has grown the table to 32 slots
    and hands out slot 1. *)
Theorem X25_InitFileAccess (s : State) (m : Reply) (rest : list Reply) :
  replies s = m :: rest ->
  (r_ret m = NULL ->
   exists s',
     InitFileAccess s
     = Raised SevFatal ERRCODE_OUT_OF_MEMORY "out of memory" s' /\
     VfdCache s' = VfdCache s) /\
  (r_ret m <> NULL ->
   exists s',
     InitFileAccess s = Normal tt s' /\
     SizeVfdCache s' = 1 /\ fd (slot (VfdCache s') 0) = VFD_CLOSED /\
     ring_ok (VfdCache s') /\ free_head_ok (VfdCache s') /\
     nfile s' = nfile s /\ registry s' = registry s /\ replies s' = rest /\
     forall file s'',
       AllocateVfd s' = Normal file s'' ->
       file = 1 /\ SizeVfdCache s'' = 32 /\
       FileIsNotOpen (VfdCache s'') 1 = true).
Proof.
  intros Hrep. split.
  - intros Hm. eexists. split.
    + unfold InitFileAccess, sys, bind, call, ret. rewrite Hrep. cbv beta iota.
      apply Z.eqb_eq in Hm. rewrite Hm. reflexivity.
    + reflexivity.
  - intros Hm. apply Z.eqb_neq in Hm. eexists. split.
    + unfold InitFileAccess, sys, bind, call, ret. rewrite Hrep. cbv beta iota.
      rewrite Hm. reflexivity.
    + st_simpl.
      assert (Hok : ring_ok [set_fd VFD_CLOSED zeroVfd]).
      { split; [simpl; lia|]. intros i [->|[Hr Hfd]] _.
        - vm_compute. intuition (auto; discriminate).
        - simpl in Hr. lia. }
      assert (Hfree : free_head_ok [set_fd VFD_CLOSED zeroVfd])
        by (left; reflexivity).
      split; [reflexivity|]. split; [reflexivity|]. split; [exact Hok|].
      split; [exact Hfree|]. split; [reflexivity|]. split; [reflexivity|].
      split; [now rewrite Hrep|].
      intros file s'' Hrun.
      match type of Hrun with AllocateVfd ?st = _ => set (s1 := st) in * end.
      pose proof (wp_normal _ _ _ _ _ _
                    (AllocateVfd_allocated (T := True) s1
                       ltac:(simpl; lia) Hfree ltac:(now left)) Hrun)
        as [Hal _].
      unfold allocated in Hal. cbv zeta in Hal.
      destruct Hal as (_ & Hclosed & _ & _ & _ & _ & _ & Hgrow & _).
      change (nextFree (slot (VfdCache s1) 0) =? 0) with true in Hgrow.
      cbv iota in Hgrow. destruct Hgrow as (Hfile & Hlen & _).
      change (Z.of_nat (length (VfdCache s1))) with 1 in Hfile, Hlen.
      subst file. unfold SizeVfdCache. auto.
Qed.

Lemma X25_InitFileAccess_witness :
  exists s',
    InitFileAccess (initial_state [ok 1]) = Normal tt s' /\
    SizeVfdCache s' = 1 /\ ring_ok (VfdCache s').
Proof.
  destruct (X25_InitFileAccess (initial_state [ok 1]) (ok 1) [] eq_refl)
    as [_ H].
  destruct H as (s' & Hrun & Hsize & _ & Hok & _); [discriminate|].
  exists s'. auto.
Defined.

(** ** Interrupted reads and writes *)

Lemma FileReadIntr_loop_run (file : File) (amount : Z) (final : Reply)
    (rest : list Reply) :
  settled final ->
  forall (ints : list Reply) (s : State) (fuel : nat),
    replies s = ints ++ final :: rest -> Forall interrupted ints ->
    (length ints < fuel)%nat ->
    let v := slot (VfdCache s) file in
    exists s',
      FileReadIntr_loop fuel file amount true s = Normal (r_ret final) s' /\
      VfdCache s'
      = upd file (set_seekPos (moved (seekPos v) (r_ret final))) (VfdCache s) /\
      nfile s' = nfile s /\ registry s' = registry s /\ replies s' = rest /\
      trace s' = trace s
                 ++ replicate (S (length ints))
                      (mkEvent (c_read (fd v) amount) (VfdCache s)).
Proof.
  intros Hfinal. induction ints as [|r ints IH]; intros s fuel Hrep Hints Hfuel v;
    (destruct fuel as [|fuel]; [simpl in Hfuel; lia|]); cbn [FileReadIntr_loop].
  - simpl in Hrep.
    assert (Htwp : twp (vfdP <- get_vfd file;;
       returnCode <- sys (c_read (fd vfdP) amount);;
       (if returnCode >=? 0
        then
         set_vfd file (fun v0 => set_seekPos (int64 (seekPos v0 + returnCode)) v0);;;
         ret returnCode
        else
         e <- gets errno;;
         (if (e =? EINTR) && true
          then FileReadIntr_loop fuel file amount true
          else set_vfd file (set_seekPos FileUnknownPos);;; ret returnCode)))
       (fun a s' => a = r_ret final /\
          s' = with_VfdCache
                 (upd file (set_seekPos (moved (seekPos v) (r_ret final)))
                    (VfdCache s))
                 (answer (c_read (fd v) amount) final s))
       (fun _ _ => False) s).
    { wp_step. wp_step. fold v. wp_step.
      apply wp_sys; [rewrite Hrep; discriminate|].
      intros r0 rest0 Hr0. rewrite Hrep in Hr0. injection Hr0 as <- <-.
      unfold moved. destruct (r_ret final >=? 0) eqn:Hge.
      - wp_step. wp_step. wp_step. split; [reflexivity|].
        unfold upd. destruct (file <? 0); [reflexivity|]. reflexivity.
      - wp_step. wp_step. st_simpl.
        destruct Hfinal as [Hpos|[Hne0 HneI]]; [lia|].
        apply Z.eqb_neq in Hne0, HneI. rewrite Hne0, HneI. cbn [andb].
        wp_step. wp_step. wp_step. split; reflexivity. }
    apply twp_elim in Htwp
      as [(a & s' & Hrun & -> & ->)|(sev & code & msg & s' & _ & [])].
    eexists. split; [exact Hrun|]. st_norm. rewrite Hrep.
    repeat split; reflexivity.
  - apply Forall_cons in Hints as [[Hret Herr] Hints].
    set (s1 := answer (c_read (fd v) amount) r s).
    destruct (IH s1 fuel) as (s' & Hrun & Hc & Hn & Hreg & Hrest & Htr).
    { unfold s1. st_simpl. rewrite Hrep. reflexivity. }
    { exact Hints. }
    { simpl in Hfuel. lia. }
    exists s'. split.
    + unfold bind at 1. unfold get_vfd, gets. fold v.
      unfold sys, bind, call, ret. rewrite Hrep. cbn [app]. cbv beta iota.
      fold s1. rewrite Hret. change (-1 >=? 0) with false. cbv iota.
      assert (He : errno s1 = EINTR).
      { unfold s1. st_simpl. rewrite Herr. reflexivity. }
      cbv beta. rewrite He. change ((EINTR =? EINTR) && true) with true. cbv iota.
      exact Hrun.
    + change (VfdCache s1) with (VfdCache s) in Hc, Htr.
      split; [exact Hc|]. split; [exact Hn|]. split; [exact Hreg|].
      split; [exact Hrest|]. rewrite Htr. unfold s1. st_simpl.
      rewrite <- app_assoc. reflexivity.
Qed.

Lemma filter_replicate {A} (f : A -> bool) (n : nat) (x : A) :
  f x = true -> List.filter f (replicate n x) = replicate n x.
Proof.
  intros Hx. induction n as [|n IH]; [reflexivity|].
  cbn [replicate List.filter]. now rewrite Hx, IH.
Qed.

Lemma map_replicate' {A B} (f : A -> B) (n : nat) (x : A) :
  map f (replicate n x) = replicate n (f x).
Proof. induction n as [|n IH]; [reflexivity|]. simpl. now rewrite IH. Qed.

(** X26 — Reading from a local file that holds its descriptor.  A [read]
    that a signal interrupts (EINTR) is tried again: when the environment
    interrupts the first [length ints] attempts and then settles,
    [FileRead] calls [read] once more than it was interrupted, on the
    descriptor of the slot, and returns what the last attempt returned.  The
    saved position has then moved by the bytes read, or is unknown if the
    last attempt failed.  With [fRetryIntr] off, [FileReadIntr] calls [read]
    once and returns its result, interrupted or not. *)
Theorem X26_FileRead_interrupted (file : File) (amount : Z) (s : State)
    (ints : list Reply) (final : Reply) (rest : list Reply) :
  ring_ok (VfdCache s) -> 0 < file < Z.of_nat (length (VfdCache s)) ->
  IsLocalFile (VfdCache s) file = true ->
  fd (slot (VfdCache s) file) <> VFD_CLOSED ->
  replies s = ints ++ final :: rest ->
  Forall interrupted ints -> settled final ->
  let v := slot (VfdCache s) file in
  (exists s',
     FileRead file amount s = Normal (r_ret final) s' /\
     calls is_read s'
     = calls is_read s ++ replicate (S (length ints)) (c_read (fd v) amount) /\
     seekPos (slot (VfdCache s') file) = moved (seekPos v) (r_ret final) /\
     replies s' = rest /\ nfile s' = nfile s) /\
  (exists s',
     FileReadIntr file amount false s
     = Normal (r_ret (hd final ints)) s' /\
     calls is_read s' = calls is_read s ++ [c_read (fd v) amount] /\
     replies s' = tl (ints ++ final :: rest)).
Proof.
  intros Hok Hfile Hlocal Hfd Hrep Hints Hfinal v.
  destruct (FileAccess_touch file s Hok Hfile Hlocal Hfd)
    as (c' & Hacc & Hok' & Hlen' & _ & Hsame).
  set (s1 := with_VfdCache c' s) in *.
  assert (Hv : fd (slot c' file) = fd v /\ seekPos (slot c' file) = seekPos v).
  { destruct (Hsame file) as (H1 & _ & _ & _ & H2 & _). auto. }
  destruct Hv as [Hfd' Hpos'].
  split.
  - destruct (FileReadIntr_loop_run file amount final rest Hfinal ints s1
                (script_fuel s1))
      as (s' & Hrun & Hc & Hn & _ & Hrest & Htr).
    { exact Hrep. }
    { exact Hints. }
    { unfold script_fuel, s1. st_simpl. rewrite Hrep, length_app. simpl. lia. }
    exists s'. split.
    + unfold FileRead, bind, gets. rewrite Hlocal.
      unfold LocalFileRead, FileReadIntr, bind. rewrite Hacc.
      change (0 <? 0) with false. cbv iota. unfold gets. exact Hrun.
    + change (VfdCache s1) with c' in Hc, Htr.
      rewrite Hfd' in Htr. rewrite Hpos' in Hc.
      split.
      { unfold calls. rewrite Htr. change (trace s1) with (trace s).
        rewrite map_app, List.filter_app. f_equal.
        rewrite map_replicate'. now apply filter_replicate. }
      split; [rewrite Hc; now rewrite slot_upd_same by lia|].
      split; [exact Hrest|exact Hn].
  - assert (Hhd : replies s1 = hd final ints :: tl (ints ++ final :: rest)).
    { change (replies s1) with (replies s). rewrite Hrep. now destruct ints. }
    assert (Htwp : twp (FileReadIntr_loop (script_fuel s1) file amount false)
              (fun a s' =>
                 a = r_ret (hd final ints) /\
                 trace s' = trace s
                            ++ [mkEvent (c_read (fd v) amount) c'] /\
                 replies s' = tl (ints ++ final :: rest))
              (fun _ _ => False) s1).
    { unfold script_fuel. rewrite Hhd. cbn [length FileReadIntr_loop].
      wp_step. wp_step. change (VfdCache s1) with c'. rewrite Hfd'. wp_step.
      apply wp_sys; [rewrite Hhd; discriminate|].
      intros r0 rest0 Hr0. rewrite Hhd in Hr0. injection Hr0 as <- <-.
      destruct (r_ret (hd final ints) >=? 0).
      - wp_step. wp_step. wp_step. st_simpl. rewrite Hhd. auto.
      - wp_step. wp_step. rewrite andb_false_r. wp_step. wp_step. wp_step.
        st_simpl. rewrite Hhd. auto. }
    apply twp_elim in Htwp
      as [(a & s' & Hrun & -> & Htr & Hrest)|(sev & code & msg & s' & _ & [])].
    exists s'. split.
    + unfold FileReadIntr, bind. rewrite Hacc.
      change (0 <? 0) with false. cbv iota. unfold gets. exact Hrun.
    + split; [|exact Hrest]. unfold calls. rewrite Htr.
      now rewrite map_app, List.filter_app.
Qed.

Lemma X26_FileRead_interrupted_witness :
  exists s',
    FileRead 1 10 (one_temp_file [fails (-1) EINTR; fails (-1) EINTR; ok 7])
    = Normal 7 s' /\
    calls is_read s' = [c_read 5 10; c_read 5 10; c_read 5 10].
Proof.
  destruct (X26_FileRead_interrupted 1 10
              (one_temp_file [fails (-1) EINTR; fails (-1) EINTR; ok 7])
              [fails (-1) EINTR; fails (-1) EINTR] (ok 7) [])
    as [(s' & Hrun & Hcalls & _) _].
  - apply one_temp_file_ring_ok.
  - simpl. lia.
  - reflexivity.
  - discriminate.
  - reflexivity.
  - repeat constructor.
  - left. simpl. lia.
  - exists s'. split; [exact Hrun|exact Hcalls].
Defined.

Lemma LocalFileWrite_loop_run (file : File) (amount : Z) (final : Reply)
    (rest : list Reply) :
  0 <= r_ret final \/ r_errno final <> EINTR ->
  forall (ints : list Reply) (s : State) (fuel : nat),
    replies s = ints ++ final :: rest -> Forall interrupted ints ->
    (length ints < fuel)%nat ->
    let v := slot (VfdCache s) file in
    exists s',
      LocalFileWrite_loop fuel file amount s = Normal (r_ret final) s' /\
      VfdCache s'
      = upd file (set_seekPos (moved (seekPos v) (r_ret final))) (VfdCache s) /\
      nfile s' = nfile s /\ registry s' = registry s /\ replies s' = rest /\
      errno s' = errno_written amount final /\
      trace s' = trace s
                 ++ replicate (S (length ints))
                      (mkEvent (c_write (fd v) amount) (VfdCache s)).
Proof.
  intros Hfinal. induction ints as [|r ints IH]; intros s fuel Hrep Hints Hfuel v;
    (destruct fuel as [|fuel]; [simpl in Hfuel; lia|]); cbn [LocalFileWrite_loop].
  - simpl in Hrep.
    assert (Htwp : twp (set_errno 0;;;
       vfdP <- get_vfd file;;
       returnCode <- sys (c_write (fd vfdP) amount);;
       e <- gets errno;;
       (if negb (returnCode =? amount) && (e =? 0)
        then set_errno ENOSPC
        else ret ());;;
       (if returnCode >=? 0
        then
         set_vfd file (fun v0 => set_seekPos (int64 (seekPos v0 + returnCode)) v0);;;
         ret returnCode
        else
         e0 <- gets errno;;
         (if e0 =? EINTR
          then LocalFileWrite_loop fuel file amount
          else set_vfd file (set_seekPos FileUnknownPos);;; ret returnCode)))
       (fun a s' => a = r_ret final /\
          s' = with_VfdCache
                 (upd file (set_seekPos (moved (seekPos v) (r_ret final)))
                    (VfdCache s))
                 (with_errno (errno_written amount final)
                    (answer (c_write (fd v) amount) final (with_errno 0 s))))
       (fun _ _ => False) s).
    { wp_step. wp_step. wp_step. wp_step. fold v. wp_step.
      apply wp_sys; [st_simpl; rewrite Hrep; discriminate|].
      intros r0 rest0 Hr0. st_simpl_in Hr0. rewrite Hrep in Hr0.
      injection Hr0 as <- <-. wp_step. wp_step. st_simpl.
      unfold errno_written, moved.
      assert (Hnot : (r_ret final >=? 0) = false -> (r_errno final =? EINTR) = false).
      { intros Hneg. apply Z.eqb_neq. destruct Hfinal as [Hpos|Hne]; [lia|exact Hne]. }
      destruct (r_errno final =? 0) eqn:E0;
        destruct (r_ret final =? amount) eqn:Ea; cbn [negb andb];
        change (0 =? 0) with true; cbv iota;
        destruct (r_ret final >=? 0) eqn:Hge;
        repeat wp_known; st_simpl;
        try (change (ENOSPC =? EINTR) with false);
        try (change (0 =? EINTR) with false);
        try rewrite (Hnot eq_refl);
        repeat wp_known; st_simpl;
        (split; [reflexivity|]);
        unfold upd; destruct (file <? 0); reflexivity. }
    apply twp_elim in Htwp
      as [(a & s' & Hrun & -> & ->)|(sev & code & msg & s' & _ & [])].
    eexists. split; [exact Hrun|]. st_norm. rewrite Hrep.
    repeat split; reflexivity.
  - apply Forall_cons in Hints as [[Hret Herr] Hints].
    set (s1 := answer (c_write (fd v) amount) r (with_errno 0 s)).
    destruct (IH s1 fuel) as (s' & Hrun & Hc & Hn & Hreg & Hrest & He' & Htr).
    { unfold s1. st_simpl. rewrite Hrep. reflexivity. }
    { exact Hints. }
    { simpl in Hfuel. lia. }
    exists s'. split.
    + unfold bind at 1. unfold set_errno, modify. unfold bind at 1.
      unfold get_vfd, gets.
      change (VfdCache (with_errno 0 s)) with (VfdCache s). fold v.
      unfold sys, bind, call, ret.
      change (replies (with_errno 0 s)) with (replies s).
      rewrite Hrep. cbn [app]. cbv beta iota. fold s1.
      assert (He : errno s1 = EINTR).
      { unfold s1. st_simpl. rewrite Herr. reflexivity. }
      rewrite Hret, He.
      change (EINTR =? 0) with false. rewrite andb_false_r.
      change (-1 >=? 0) with false. cbv iota.
      cbv beta. rewrite He.
      change (EINTR =? EINTR) with true. cbv iota. exact Hrun.
    + change (VfdCache s1) with (VfdCache s) in Hc, Htr.
      split; [exact Hc|]. split; [exact Hn|]. split; [exact Hreg|].
      split; [exact Hrest|]. split; [exact He'|]. rewrite Htr. unfold s1. st_simpl.
      rewrite <- app_assoc. reflexivity.
Qed.

(** X27 — Writing to a local file that holds its descriptor.  A [write]
    that a signal interrupts (EINTR) is tried again: when the environment
    interrupts the first [length ints] attempts and the next one goes
    through or fails otherwise, [FileWrite] calls [write] once more than it
    was interrupted and returns what the last attempt returned.  The saved
    position has then moved by the bytes written, or is unknown if the last
    attempt failed.  [errno] is what the last attempt set; if it set
    nothing, [errno] is 0 for a complete write and ENOSPC for any other
    count: a short write is reported as a full disk. *)
Theorem X27_FileWrite_interrupted (file : File) (amount : Z) (s : State)
    (ints : list Reply) (final : Reply) (rest : list Reply) :
  ring_ok (VfdCache s) -> 0 < file < Z.of_nat (length (VfdCache s)) ->
  IsLocalFile (VfdCache s) file = true ->
  fd (slot (VfdCache s) file) <> VFD_CLOSED ->
  replies s = ints ++ final :: rest ->
  Forall interrupted ints -> 0 <= r_ret final \/ r_errno final <> EINTR ->
  let v := slot (VfdCache s) file in
  exists s',
    FileWrite file amount s = Normal (r_ret final) s' /\
    calls is_write s'
    = calls is_write s ++ replicate (S (length ints)) (c_write (fd v) amount) /\
    seekPos (slot (VfdCache s') file) = moved (seekPos v) (r_ret final) /\
    errno s' = errno_written amount final /\
    replies s' = rest /\ nfile s' = nfile s.
Proof.
  intros Hok Hfile Hlocal Hfd Hrep Hints Hfinal v.
  destruct (FileAccess_touch file s Hok Hfile Hlocal Hfd)
    as (c' & Hacc & Hok' & Hlen' & _ & Hsame).
  set (s1 := with_VfdCache c' s) in *.
  assert (Hv : fd (slot c' file) = fd v /\ seekPos (slot c' file) = seekPos v).
  { destruct (Hsame file) as (H1 & _ & _ & _ & H2 & _). auto. }
  destruct Hv as [Hfd' Hpos'].
  destruct (LocalFileWrite_loop_run file amount final rest Hfinal ints s1
              (script_fuel s1))
    as (s' & Hrun & Hc & Hn & _ & Hrest & Herr & Htr).
  { exact Hrep. }
  { exact Hints. }
  { unfold script_fuel, s1. st_simpl. rewrite Hrep, length_app. simpl. lia. }
  exists s'. split.
  - unfold FileWrite, bind, gets. rewrite Hlocal.
    unfold LocalFileWrite, bind. rewrite Hacc.
    change (0 <? 0) with false. cbv iota. unfold gets. exact Hrun.
  - change (VfdCache s1) with c' in Hc, Htr.
    rewrite Hfd' in Htr. rewrite Hpos' in Hc.
    split.
    { unfold calls. rewrite Htr. change (trace s1) with (trace s).
      rewrite map_app, List.filter_app. f_equal.
      rewrite map_replicate'. now apply filter_replicate. }
    split; [rewrite Hc; now rewrite slot_upd_same by lia|].
    split; [exact Herr|]. split; [exact Hrest|exact Hn].
Qed.

Lemma X27_FileWrite_interrupted_witness :
  exists s',
    FileWrite 1 10 (one_temp_file [fails (-1) EINTR; ok 4])
    = Normal 4 s' /\
    calls is_write s' = [c_write 5 10; c_write 5 10] /\
    seekPos (slot (VfdCache s') 1) = 9 /\ errno s' = ENOSPC.
Proof.
  destruct (X27_FileWrite_interrupted 1 10
              (one_temp_file [fails (-1) EINTR; ok 4])
              [fails (-1) EINTR] (ok 4) [])
    as (s' & Hrun & Hcalls & Hpos & Herr & _).
  - apply one_temp_file_ring_ok.
  - simpl. lia.
  - reflexivity.
  - discriminate.
  - reflexivity.
  - repeat constructor.
  - left. simpl. lia.
  - exists s'. split; [exact Hrun|]. split; [exact Hcalls|].
    split; [exact Hpos|exact Herr].
Defined.

(** ** The sweep at start-up *)

Lemma RemovePgTempFilesInDir_missing (tmpdirname : string) (s : State)
    (dirp : Reply) (rest : list Reply) :
  IsLocalPath tmpdirname = true -> out_of_descs s = false ->
  replies s = dirp :: rest -> missing dirp ->
  RemovePgTempFilesInDir tmpdirname s
  = Normal tt (answer (c_opendir tmpdirname) dirp s).
Proof.
  intros Hlocal Hroom Hrep [Hnull Herr]. apply Z.eqb_eq in Hnull.
  apply twp_returns.
  unfold RemovePgTempFilesInDir, AllocateDir. repeat wp_known.
  unfold script_fuel. rewrite Hrep. cbn [length AllocateDir_loop].
  repeat wp_known. wp_step. rewrite Hrep in Hrep0.
  injection Hrep0 as <- <-. repeat wp_known. rewrite Herr.
  change (ENOENT =? 0) with false. cbv iota.
  change ((ENOENT =? EMFILE) || (ENOENT =? ENFILE)) with false. cbv iota.
  repeat wp_known.
  change (NULL =? NULL) with true. cbv iota. repeat wp_known.
  change (negb (ENOENT =? ENOENT)) with false. cbv iota. wp_step.
  split; reflexivity.
Qed.

Lemma out_of_descs_globals (s s' : State) :
  globals s' = globals s -> out_of_descs s' = out_of_descs s.
Proof.
  intros H. apply globals_fields in H as (_ & Hm & _ & _ & Hn & _).
  unfold out_of_descs. now rewrite Hm, Hn.
Qed.

Lemma RemovePgTempFiles_loop_run (dir : Z) :
  dir <> NULL ->
  forall (entries : list (Reply * Reply)) (fuel : nat) (s : State)
         (last : Reply) (rest : list Reply),
    (length entries < fuel)%nat ->
    replies s = db_answers entries ++ last :: rest ->
    out_of_descs s = false ->
    Forall (fun e => r_ret (fst e) <> NULL /\ missing (snd e) /\
                     IsLocalPath (db_temp_path (d_name (fst e))) = true)
      entries ->
    r_ret last = NULL -> r_errno last = 0 ->
    exists s',
      RemovePgTempFiles_loop fuel dir s = Normal tt s' /\
      globals s' = globals s /\ replies s' = rest /\
      map ev_call (trace s')
      = map ev_call (trace s)
        ++ flat_map (fun e => db_calls dir (d_name (fst e))) entries
        ++ [c_readdir dir].
Proof.
  intros Hdir entries.
  assert (Hlocal : IsLocalPath "base" = true) by reflexivity.
  induction entries as [|[de o] entries IH];
    intros fuel s last rest Hfuel Hrep Hroom Hall Hnull Herr;
    (destruct fuel as [|fuel]; [simpl in Hfuel; lia|]).
  - simpl in Hrep.
    destruct (ReadDir_local_run dir "base" s last rest Hdir Hlocal Hrep)
      as (_ & Hend & _).
    specialize (Hend Hnull Herr).
    eexists. split; [|split; [|split]].
    + cbn [RemovePgTempFiles_loop]. rewrite (bind_Normal _ _ _ _ _ Hend).
      reflexivity.
    + reflexivity.
    + st_simpl. now rewrite Hrep.
    + st_simpl. now rewrite map_app.
  - apply Forall_cons in Hall as [(Hde & Hmiss & Hpath) Hall].
    cbn [fst snd] in Hde, Hmiss, Hpath.
    cbn [db_answers flat_map fst snd] in Hrep.
    rewrite <- !app_comm_cons in Hrep.
    match type of Hrep with _ = _ :: ?tl => set (after := tl) in * end.
    destruct (ReadDir_local_run dir "base" s de after Hdir Hlocal Hrep)
      as (Hsome & _ & _).
    specialize (Hsome Hde).
    match type of Hsome with _ = Normal _ ?st => remember st as s1 eqn:Es1 end.
    assert (Hrep1 : replies s1 = after) by (rewrite Es1; st_simpl; now rewrite Hrep).
    assert (Hg1 : globals s1 = globals s) by (rewrite Es1; reflexivity).
    assert (Htr1 : map ev_call (trace s1) = map ev_call (trace s) ++ [c_readdir dir])
      by (rewrite Es1; st_simpl; now rewrite map_app).
    clear Es1.
    set (name := d_name de) in *.
    assert (Hstep : exists s2,
      (if is_dot_entry name then ret tt
       else RemovePgTempFilesInDir (db_temp_path name)) s1 = Normal tt s2 /\
      globals s2 = globals s /\
      replies s2 = db_answers entries ++ last :: rest /\
      map ev_call (trace s2)
      = map ev_call (trace s) ++ db_calls dir name).
    { unfold db_calls. unfold after in Hrep1.
      destruct (is_dot_entry name).
      - exists s1. split; [reflexivity|]. split; [exact Hg1|].
        split; [exact Hrep1|exact Htr1].
      - simpl in Hrep1. eexists. split; [|split; [|split]].
        + eapply RemovePgTempFilesInDir_missing;
            [exact Hpath| |exact Hrep1|exact Hmiss].
          rewrite (out_of_descs_globals _ _ Hg1). exact Hroom.
        + rewrite <- Hg1. reflexivity.
        + st_simpl. now rewrite Hrep1.
        + st_simpl. rewrite map_app, Htr1. simpl. now rewrite <- app_assoc. }
    destruct Hstep as (s2 & Hrun2 & Hg2 & Hrep2 & Htr2).
    destruct (IH fuel s2 last rest ltac:(simpl in Hfuel; lia) Hrep2
                ltac:(rewrite (out_of_descs_globals _ _ Hg2); exact Hroom)
                Hall Hnull Herr) as (s' & Hrun & Hg & Hrep' & Htr).
    exists s'. split; [|split; [congruence|split; [exact Hrep'|]]].
    + cbn [RemovePgTempFiles_loop].
      rewrite (bind_Normal _ _ _ _ _ Hsome). cbv beta iota.
      fold name. fold (db_temp_path name).
      rewrite (bind_Normal _ _ _ _ _ Hrun2). exact Hrun.
    + rewrite Htr, Htr2. cbn [flat_map fst]. fold name.
      now rewrite <- !app_assoc.
Qed.

Lemma db_answers_length (entries : list (Reply * Reply)) :
  (length entries <= length (db_answers entries))%nat.
Proof.
  induction entries as [|e es IH]; simpl; [lia|].
  rewrite length_app. simpl in *. lia.
Qed.

(** X28 — [RemovePgTempFiles], the sweep at start-up.  If base cannot be
    opened it raises the ERROR of [ReadDir] (could not open directory),
    having called nothing but [opendir]: unlike a missing pgsql_tmp, which
    is passed over in silence, a missing base stops the sweep.  If base can
    be read to its end and no database has a directory of temporary files,
    it returns; it has tried to open base/<name>/pgsql_tmp for every entry
    of base but "." and "..", in the order of base, has unlinked and
    logged nothing and closed base once; the registry and the table are as
    before. *)
Theorem X28_RemovePgTempFiles (s : State) (dirp : Reply) :
  (forall rest,
     out_of_descs s = false -> replies s = dirp :: rest ->
     r_ret dirp = NULL -> r_errno dirp <> 0 ->
     r_errno dirp <> EMFILE -> r_errno dirp <> ENFILE ->
     exists code msg s',
       RemovePgTempFiles s = Raised SevError code msg s' /\
       globals s' = globals s /\
       map ev_call (trace s')
       = map ev_call (trace s)
         ++ [c_opendir "base";
             c_elog ERROR "could not open directory %s: %m" ["base"]]) /\
  (forall sub entries last cl rest,
     registry_ok s ->
     numAllocatedDescs s + 1 < MAX_ALLOCATED_DESCS ->
     numAllocatedDescs s + 1 < max_safe_fds s - 1 ->
     replies s = dirp :: sub :: db_answers entries ++ last :: cl :: rest ->
     r_ret dirp <> NULL ->
     Forall (fun e => r_ret (fst e) <> NULL /\ missing (snd e) /\
                      IsLocalPath (db_temp_path (d_name (fst e))) = true)
       entries ->
     r_ret last = NULL -> r_errno last = 0 ->
     exists s',
       RemovePgTempFiles s = Normal tt s' /\
       map ev_call (trace s')
       = map ev_call (trace s)
         ++ [c_opendir "base"; c_GetCurrentSubTransactionId]
         ++ flat_map (fun e => db_calls (r_ret dirp) (d_name (fst e))) entries
         ++ [c_readdir (r_ret dirp); c_closedir (r_ret dirp)] /\
       live_descs s' = live_descs s /\
       numAllocatedDescs s' = numAllocatedDescs s /\
       VfdCache s' = VfdCache s /\ nfile s' = nfile s /\ replies s' = rest).
Proof.
  split.
  - intros rest Hroom Hrep Hnull Herr Hem Hen.
    apply Z.eqb_eq in Hnull. apply Z.eqb_neq in Herr, Hem, Hen.
    assert (Htwp : twp RemovePgTempFiles (fun _ _ => False)
              (fun sev s' =>
                 sev = SevError /\
                 s' = record (c_elog ERROR "could not open directory %s: %m"
                                ["base"])
                        (answer (c_opendir "base") dirp s))
              s).
    { unfold RemovePgTempFiles, AllocateDir. repeat wp_known.
      change (IsLocalPath "base") with true. cbn [negb]. cbv iota.
      unfold script_fuel. rewrite Hrep. cbn [length AllocateDir_loop].
      repeat wp_known. wp_step. rewrite Hrep in Hrep0.
      injection Hrep0 as <- <-. repeat wp_known. rewrite Herr, Hem, Hen.
      cbn [orb]. repeat wp_known.
      unfold readdir_fuel, script_fuel. cbn [Nat.add RemovePgTempFiles_loop].
      unfold ReadDir. change (NULL =? NULL) with true. cbv iota.
      repeat wp_known. split; reflexivity. }
    apply twp_raises in Htwp as (code & msg & Hrun).
    exists code, msg. eexists. split; [exact Hrun|].
    split; [reflexivity|]. unfold record. st_simpl.
    rewrite !map_app. simpl. now rewrite <- app_assoc.
  - intros sub entries last cl rest [Hn Hlen] Hmax Hsafe Hrep Hdirp Hall
      Hnull Herr.
    assert (Hlocal : IsLocalPath "base" = true) by reflexivity.
    assert (Hroom : out_of_descs s = false).
    { unfold out_of_descs. apply orb_false_iff. lia. }
    set (dir := r_ret dirp).
    pose proof (AllocateDir_run "base" s dirp sub _ Hlocal Hroom Hrep Hdirp)
      as Hrun1.
    set (n := Z.to_nat (numAllocatedDescs s)) in *.
    set (d := fill_desc AllocateDescDir (r_ret dirp) (r_ret sub)
                (allocatedDescs s !!! n)) in *.
    assert (Hnl : (n < length (allocatedDescs s))%nat)
      by (unfold n, MAX_ALLOCATED_DESCS in *; lia).
    match type of Hrun1 with _ = Normal _ ?st => remember st as s1 eqn:Es1 end.
    assert (H1 : replies s1 = db_answers entries ++ last :: cl :: rest /\
                 numAllocatedDescs s1 = Z.of_nat (S n) /\
                 allocatedDescs s1 = <[n := d]> (allocatedDescs s) /\
                 VfdCache s1 = VfdCache s /\ nfile s1 = nfile s /\
                 max_safe_fds s1 = max_safe_fds s /\
                 map ev_call (trace s1)
                 = map ev_call (trace s)
                   ++ [c_opendir "base"; c_GetCurrentSubTransactionId]).
    { rewrite Es1. st_norm. rewrite Hrep. cbn [tail].
      split; [reflexivity|]. split; [unfold n; lia|].
      split; [reflexivity|]. split; [reflexivity|]. split; [reflexivity|].
      split; [reflexivity|].
      rewrite !map_app. simpl. now rewrite <- app_assoc. }
    clear Es1. destruct H1 as (Hrep1 & Hn1 & Hl1 & Hc1 & Hnf1 & Hms1 & Htr1).
    destruct (RemovePgTempFiles_loop_run dir Hdirp entries
                (readdir_fuel s1) s1 last (cl :: rest))
      as (s2 & Hrun2 & Hg2 & Hrep2 & Htr2);
      [|exact Hrep1| |exact Hall|exact Hnull|exact Herr|].
    { unfold readdir_fuel, script_fuel. rewrite Hrep1, length_app.
      pose proof (db_answers_length entries). lia. }
    { unfold out_of_descs. rewrite Hn1, Hms1. apply orb_false_iff.
      assert (Hsn : Z.of_nat (S n) = numAllocatedDescs s + 1)
        by (unfold n; lia).
      rewrite Hsn.
      split; rewrite Z.geb_leb; apply Z.leb_gt; lia. }
    apply globals_fields in Hg2
      as (_ & Hms2 & Hc2 & Hnf2 & Hn2 & Hl2 & _).
    assert (Hd : allocatedDescs s2 !!! n = d).
    { rewrite Hl2, Hl1.
      apply list_lookup_total_correct, list_lookup_insert_eq. exact Hnl. }
    destruct (FreeDir_last dir s2 n cl rest)
      as (s3 & Hrun3 & Hn3 & Hl3 & Hc3 & Hnf3 & _ & Hrep3 & Htr3).
    { congruence. }
    { rewrite Hd. reflexivity. }
    { rewrite Hd. reflexivity. }
    { rewrite Hl2, Hl1, length_insert. exact Hnl. }
    { exact Hrep2. }
    exists s3. split; [|split; [|split]].
    + unfold RemovePgTempFiles.
      rewrite (bind_Normal _ _ _ _ _ Hrun1). cbv beta.
      unfold bind at 1. unfold gets.
      rewrite (bind_Normal _ _ _ _ _ Hrun2).
      rewrite (bind_Normal _ _ _ _ _ Hrun3). reflexivity.
    + rewrite Htr3, map_app, Htr2, Htr1. rewrite <- !app_assoc. reflexivity.
    + unfold live_descs. rewrite Hn3, Hl3, Hl2, Hl1, Nat2Z.id. fold n.
      now rewrite take_insert_ge by lia.
    + rewrite Hn3. unfold n. split; [lia|]. split; [congruence|].
      split; [congruence|exact Hrep3].
Qed.

Lemma X28_RemovePgTempFiles_witness :
  exists s',
    RemovePgTempFiles
      (initial_state [ok 50; ok 7; named 1 ["."]; named 1 ["1"];
                      fails 0 ENOENT; ok 0; ok 0])
    = Normal tt s' /\
    map ev_call (trace s')
    = [c_opendir "base"; c_GetCurrentSubTransactionId;
       c_readdir 50; c_readdir 50; c_opendir "base/1/pgsql_tmp";
       c_readdir 50; c_closedir 50].
Proof.
  destruct (X28_RemovePgTempFiles
              (initial_state [ok 50; ok 7; named 1 ["."]; named 1 ["1"];
                              fails 0 ENOENT; ok 0; ok 0]) (ok 50))
    as [_ H].
  destruct (H (ok 7) [(named 1 ["."], fails 0 ENOENT);
                      (named 1 ["1"], fails 0 ENOENT)]
              (ok 0) (ok 0) [])
    as (s' & Hrun & Htr & _).
  - split; [vm_compute; split; discriminate|reflexivity].
  - reflexivity.
  - reflexivity.
  - reflexivity.
  - discriminate.
  - repeat constructor; discriminate.
  - reflexivity.
  - reflexivity.
  - exists s'. split; [exact Hrun|exact Htr].
Defined.

(** ** Every database's directory of temporary files *)

Lemma registry_kept_refl (s : State) : registry_kept s s.
Proof. repeat split. Qed.

Lemma registry_kept_trans (s1 s2 s3 : State) :
  registry_kept s1 s2 -> registry_kept s2 s3 -> registry_kept s1 s3.
Proof.
  intros (A1 & A2 & A3 & A4 & A5 & A6) (B1 & B2 & B3 & B4 & B5 & B6).
  repeat split; congruence.
Qed.

Lemma registry_kept_globals (s s' : State) :
  globals s' = globals s -> registry_kept s s'.
Proof.
  intros H. apply globals_fields in H as (_ & Hm & Hc & Hnf & Hn & Hl & _).
  unfold registry_kept, live_descs. rewrite Hm, Hc, Hnf, Hn, Hl.
  repeat split.
Qed.

Lemma registry_kept_ok (s s' : State) :
  registry_kept s s' -> registry_ok s -> registry_ok s'.
Proof.
  intros (_ & Hn & Hl & _) [H1 H2]. unfold registry_ok.
  rewrite Hn, Hl. split; assumption.
Qed.

Lemma registry_kept_room (s s' : State) :
  registry_kept s s' -> out_of_descs s' = out_of_descs s.
Proof.
  intros (Hm & Hn & _). unfold out_of_descs. now rewrite Hm, Hn.
Qed.

(** The sweep of a directory that cannot be opened. *)
Lemma RemovePgTempFilesInDir_unopened (tmpdirname : string) (s : State)
    (o : Reply) (rest : list Reply) :
  IsLocalPath tmpdirname = true -> out_of_descs s = false ->
  replies s = o :: rest -> temp_dir_ok (nfile s) (Unopened o) ->
  exists s',
    RemovePgTempFilesInDir tmpdirname s = Normal tt s' /\
    globals s' = globals s /\ replies s' = rest /\
    map ev_call (trace s')
    = map ev_call (trace s) ++ temp_calls tmpdirname (Unopened o).
Proof.
  intros Hlocal Hroom Hrep (Hnull & Herr & Hfds).
  apply Z.eqb_eq in Hnull. apply Z.eqb_neq in Herr.
  assert (Htwp : twp (RemovePgTempFilesInDir tmpdirname)
            (fun _ s' =>
               globals s' = globals s /\ replies s' = rest /\
               map ev_call (trace s')
               = map ev_call (trace s) ++ temp_calls tmpdirname (Unopened o))
            (fun _ _ => False) s).
  { unfold RemovePgTempFilesInDir, AllocateDir. repeat wp_known.
    unfold script_fuel. rewrite Hrep. cbn [length AllocateDir_loop].
    repeat wp_known. wp_step. rewrite Hrep in Hrep0.
    injection Hrep0 as <- <-. repeat wp_known. rewrite Herr.
    unfold temp_calls, temp_logs.
    assert (Hnf : out_of_fds o = true -> (nfile s >? 0) = false).
    { intros H. specialize (Hfds H). lia. }
    unfold out_of_fds in *.
    destruct ((r_errno o =? EMFILE) || (r_errno o =? ENFILE)).
    - specialize (Hnf eq_refl). repeat wp_known. unfold ReleaseLruFile.
      wp_step. wp_step. st_simpl. rewrite Hnf. repeat wp_known.
      change (NULL =? NULL) with true. cbv iota.
      destruct (r_errno o =? ENOENT) eqn:E; repeat wp_known.
      + st_simpl. split; [reflexivity|]. split; [now rewrite Hrep|].
        rewrite !map_app. simpl. now rewrite <- app_assoc.
      + st_simpl. split; [reflexivity|]. split; [now rewrite Hrep|].
        rewrite !map_app. simpl. now rewrite <- !app_assoc.
    - repeat wp_known.
      change (NULL =? NULL) with true. cbv iota.
      destruct (r_errno o =? ENOENT) eqn:E; repeat wp_known.
      + st_simpl. split; [reflexivity|]. split; [now rewrite Hrep|].
        rewrite map_app. reflexivity.
      + st_simpl. split; [reflexivity|]. split; [now rewrite Hrep|].
        rewrite !map_app. simpl. now rewrite <- app_assoc. }
  apply twp_elim in Htwp
    as [([] & s' & Hrun & HP)|(sev & code & msg & s' & _ & [])].
  eauto.
Qed.

Lemma temp_dir_run (tmpdirname : string) (s : State) (t : TempDir)
    (rest : list Reply) :
  IsLocalPath tmpdirname = true -> out_of_descs s = false -> registry_ok s ->
  temp_dir_ok (nfile s) t -> replies s = temp_answers t ++ rest ->
  exists s',
    RemovePgTempFilesInDir tmpdirname s = Normal tt s' /\
    registry_kept s s' /\ replies s' = rest /\
    map ev_call (trace s') = map ev_call (trace s) ++ temp_calls tmpdirname t.
Proof.
  intros Hlocal Hroom Hreg Hok Hrep. destruct t as [o|dirp sub entries last cl].
  - destruct (RemovePgTempFilesInDir_unopened tmpdirname s o rest Hlocal Hroom
                Hrep Hok) as (s' & Hrun & Hg & Hrep' & Htr).
    exists s'. split; [exact Hrun|].
    split; [now apply registry_kept_globals|]. split; assumption.
  - destruct Hok as (Hdirp & Hall & Hnull & Herr).
    apply (RemovePgTempFilesInDir_opened tmpdirname s dirp sub last cl entries
             rest Hlocal Hroom Hreg); try assumption.
    rewrite Hrep. cbn [temp_answers]. rewrite <- !app_comm_cons.
    now rewrite <- app_assoc.
Qed.

Lemma base_answers_length (dbs : list (Reply * TempDir)) :
  (length dbs <= length (base_answers dbs))%nat.
Proof.
  induction dbs as [|e es IH]; simpl; [lia|].
  rewrite length_app. simpl in *. lia.
Qed.

(** The loop over base gets past the entries [dbs]. *)
Lemma RemovePgTempFiles_loop_past (dir : Z) :
  dir <> NULL ->
  forall (dbs : list (Reply * TempDir)) (fuel : nat) (s : State)
         (rest : list Reply),
    replies s = base_answers dbs ++ rest ->
    registry_ok s ->
    Forall (fun e => db_ok (nfile s) e /\
                     (names_db e = true -> out_of_descs s = false)) dbs ->
    exists s',
      RemovePgTempFiles_loop (length dbs + fuel) dir s
      = RemovePgTempFiles_loop fuel dir s' /\
      registry_kept s s' /\ replies s' = rest /\
      map ev_call (trace s')
      = map ev_call (trace s) ++ flat_map (base_calls dir) dbs.
Proof.
  intros Hdir dbs.
  assert (Hlocal : IsLocalPath "base" = true) by reflexivity.
  induction dbs as [|[de t] dbs IH]; intros fuel s rest Hrep Hreg Hall.
  - exists s. split; [reflexivity|]. split; [apply registry_kept_refl|].
    split; [exact Hrep|]. simpl. now rewrite app_nil_r.
  - apply Forall_cons in Hall as [([Hde Hdb] & Hroom) Hall].
    cbn [fst snd] in Hde, Hdb.
    cbn [base_answers flat_map fst snd] in Hrep.
    rewrite <- !app_comm_cons in Hrep.
    match type of Hrep with _ = _ :: ?tl => set (after := tl) in * end.
    destruct (ReadDir_local_run dir "base" s de after Hdir Hlocal Hrep)
      as (Hsome & _ & _).
    specialize (Hsome Hde).
    match type of Hsome with _ = Normal _ ?st => remember st as s1 eqn:Es1 end.
    assert (Hrep1 : replies s1 = after) by (rewrite Es1; st_simpl; now rewrite Hrep).
    assert (Hg1 : globals s1 = globals s) by (rewrite Es1; reflexivity).
    assert (Htr1 : map ev_call (trace s1) = map ev_call (trace s) ++ [c_readdir dir])
      by (rewrite Es1; st_simpl; now rewrite map_app).
    clear Es1.
    pose proof (registry_kept_globals _ _ Hg1) as Hk1.
    set (name := d_name de) in *.
    assert (Hstep : exists s2,
      (if is_dot_entry name then ret tt
       else RemovePgTempFilesInDir (db_temp_path name)) s1 = Normal tt s2 /\
      registry_kept s s2 /\
      replies s2 = base_answers dbs ++ rest /\
      map ev_call (trace s2)
      = map ev_call (trace s) ++ base_calls dir (de, t)).
    { unfold base_calls. unfold after in Hrep1.
      unfold names_db in *. cbn [fst snd] in *. fold name in Hrep1, Hdb, Hroom |- *.
      destruct (is_dot_entry name); cbn [negb] in *.
      - exists s1. split; [reflexivity|]. split; [exact Hk1|].
        split; [exact Hrep1|exact Htr1].
      - destruct (Hdb eq_refl) as [Hpath Hok].
        rewrite <- app_assoc in Hrep1.
        destruct (temp_dir_run (db_temp_path name) s1 t
                    (base_answers dbs ++ rest))
          as (s2 & Hrun2 & Hk2 & Hrep2 & Htr2).
        + exact Hpath.
        + rewrite (registry_kept_room _ _ Hk1). now apply Hroom.
        + exact (registry_kept_ok _ _ Hk1 Hreg).
        + destruct Hk1 as (_ & _ & _ & _ & _ & ->). exact Hok.
        + exact Hrep1.
        + exists s2. split; [exact Hrun2|].
          split; [exact (registry_kept_trans _ _ _ Hk1 Hk2)|].
          split; [exact Hrep2|]. rewrite Htr2, Htr1.
          now rewrite <- app_assoc. }
    destruct Hstep as (s2 & Hrun2 & Hk2 & Hrep2 & Htr2).
    assert (Hnf2 : nfile s2 = nfile s) by apply Hk2.
    destruct (IH fuel s2 rest Hrep2 (registry_kept_ok _ _ Hk2 Hreg))
      as (s' & Hrun & Hk & Hrep' & Htr).
    { rewrite Hnf2, (registry_kept_room _ _ Hk2). exact Hall. }
    exists s'. split; [|split; [|split; [exact Hrep'|]]].
    + cbn [length Nat.add RemovePgTempFiles_loop].
      rewrite (bind_Normal _ _ _ _ _ Hsome). cbv beta iota.
      fold name. fold (db_temp_path name).
      rewrite (bind_Normal _ _ _ _ _ Hrun2). exact Hrun.
    + exact (registry_kept_trans _ _ _ Hk2 Hk).
    + rewrite Htr, Htr2. cbn [flat_map]. now rewrite <- !app_assoc.
Qed.
